(* ===== verification/_CoqProject ===== *)
-Q . S2P
Prelude.v
CString.v
BuildConfig.v
Platform.v
ByteIO.v
Protocol.v
ProtocolSpec.v
ProtocolCommands.v
ProtocolTheorems.v
QueueRecord.v
QueueRecordSpec.v
QueueRecordCodec.v
Dedup.v
QueueStorage.v
DurableQueueCore.v
DurableQueueSpec.v
DurableQueueRecovery.v
DurableQueueTheorems.v
FlashStorage.v
FlashStorageLaws.v
MemoryFlash.v
FlashPower.v
Pairing.v
CommandStore.v
CommandStoreSpec.v
CommandStoreTheorems.v
Metrics.v
PacketProcessor.v
PacketProcessorTheorems.v
DurableQueue.v
RecentCodec.v
DurableQueueWorld.v
QueueRestart.v
QueuePower.v
QueueStart.v
QueueAccount.v
GatewayConfig.v
GatewayConfigUrl.v
ConfigStore.v
NvsCommandBackend.v
Base64.v
UtcTime.v
StrTo.v
Json.v
BackendContract.v
WifiManager.v
WifiManagerTheorems.v
Logger.v
OtaManager.v
TimeManager.v
Heartbeat.v
RadioService.v
RadioServiceTheorems.v
RadioSynthetic.v
RadioTypes.v
GatewayWorld.v
BackendWorker.v
BackendWorkerTheorems.v
UploadGateway.v
WorkerRounds.v
QueueLedger.v
GatewaySystem.v
GatewayLives.v
UploadLiveness.v
FlashHealth.v
GatewayDrain.v
Dashboard.v
DashboardStatus.v
DashboardTheorems.v
HilSerial.v
GatewaySteps.v
DashboardCommands.v
GatewayApp.v
GatewayBoot.v
GatewayBench.v
