(* ===== verification/Prelude.v ===== *)
(** * GATHRA Gateway firmware: verification library

    The firmware (C++ for an ESP32 under src/) receives LoRa telemetry from one
    paired node, stores every packet durably, only then acknowledges it, uploads the
    stored packets to a backend over HTTP, and carries one command at a time to the
    node inside the acknowledgements.  A dashboard serves the operator.

    ** The parts and their files

    Foundations:
    - Prelude: machine integers ([wrap], [to_signed]), pointers, enumerations, lists.
    - CString: [char] arrays and <string.h>; StrTo: [strtoul], [strtol] and the form
      values; UtcTime: [gmtime_r] and the printing of times; Base64; Json: the values
      of ArduinoJson; Platform: library calls several parts share; BuildConfig:
      include/build_config.hpp.
    Protocol (lib/protocol):
    - ByteIO: the cursors [Writer] and [Reader]; Protocol: packets and codecs;
      ProtocolSpec, ProtocolCommands: the wire formats; ProtocolTheorems.
    Durable queue (lib/queue, lib/pairing/deduplicator):
    - QueueRecord, QueueRecordSpec, QueueRecordCodec: the form of a record on flash;
    - Dedup: telemetry keys and the ring of recent ones;
    - QueueStorage: the interface of the storage and its laws; DurableQueueCore: index
      and operations; DurableQueueSpec, DurableQueueRecovery, DurableQueueTheorems;
    - FlashStorage: [LittleFsQueueStorage]; FlashStorageLaws: it is a [QueueStorage]
      on any file system with the documented laws; MemoryFlash: one in memory;
      FlashPower: the write of a record call by call;
    - DurableQueue: the class around the core (counters, recent keys, capacity);
      RecentCodec: the recent keys as bytes; DurableQueueWorld: it is a sink for the
      packet processor; QueueRestart: what [begin] finds on a flash; QueuePower,
      QueueStart: what a loss of power leaves there during the operations and during
      [begin]; QueueAccount, QueueLedger: what the operations do to the contents, as a
      trace of changes that also accounts for every state of the flash on the way.
    Receiving (lib/radio, lib/pairing, lib/commands, lib/metrics):
    - Pairing, CommandStore, CommandStoreSpec, CommandStoreTheorems, Metrics;
      NvsCommandBackend: the command backend on the device;
    - PacketProcessor, PacketProcessorTheorems: from a frame to its acknowledgement;
    - RadioService, RadioServiceTheorems: the task that drives the SX1278;
      RadioSynthetic: its bench build; RadioTypes: what it reports;
    - GatewayWorld: processor, queue, flash and radio put together.
    Uploading (lib/backend, lib/heartbeat, lib/time):
    - BackendContract, Heartbeat: the documents exchanged and their schedule;
    - BackendWorker, BackendWorkerTheorems: the task; UploadGateway: on the queue;
      WorkerRounds: its whole rounds;
    - TimeManager: the trusted clock;
    - GatewaySystem: radio task and worker interleaved on the queue; GatewayLives: the
      same through losses of power and restarts;
    - UploadLiveness: the queue drains while all goes well; FlashHealth, GatewayDrain:
      a flash and a network for which all does.
    Operating (lib/config, lib/wifi, lib/ota, lib/logging, lib/dashboard, lib/app):
    - GatewayConfig, GatewayConfigUrl, ConfigStore: the configuration and its store;
    - WifiManager, WifiManagerTheorems; Logger; OtaManager;
    - Dashboard: the handlers; DashboardStatus: the documents and the routes;
      DashboardTheorems, DashboardCommands: what requests may change;
    - HilSerial: the serial commands of the bench build; GatewaySteps: all that may
      happen after the boot; GatewayApp: the boot; GatewayBoot: its decision about a new
      image; GatewayBench: the whole application in memory.

    ** How code and model correspond

    An object is a record with a field for each member ([wm_ssid] for [ssid_] of
    [WifiManager]); a method is a function from the object (and the world) to its
    answer and the object after; an output parameter is a further result.  Names are
    those of the source, with a prefix where two classes share one ([radioBegin],
    [wifiBegin], [storeBegin]).  Integers are [Z] within their width, and wrap where
    the code wraps; a byte string is a list of [Z]; [None] is [nullptr]; a [float] of a
    record is its bit pattern, elsewhere a float is its value ([spec_float]).  A loop
    over a container is a structural [Fixpoint]; the body of a task's endless loop is
    one function, its round.

    What is not in the sources is an interface: a class of operations on a world [W]
    (file system, NVS, radio driver, Wi-Fi driver, HTTP client, esp_ota, clocks), or a
    parameter (the bytes of an object in memory, [strtof], the build's strings).
    What the theorems need of it is a class of laws of its own: [FileSystemLaws],
    [EnvironmentLaws], [HistoryLaws], [RawPreferencesLaws], [CommandBackendLaws],
    [OtaLaws], [OtaFrame], [WifiWorld], [DeviceLaws].  Each has an instance in memory,
    which the witnesses compute with.  Under those of file system, NVS and command backend
    every call may fail, at any time; [ReliableReads] and [ReliableFiles], which say that
    a file that is there can be looked up and read, are the premise of the statements that
    name them only.  Parts that call each other meet in such classes, too: [QueueStorage]
    between queue and flash, [PacketQueueSink] and [AckSink] below the packet processor,
    [RadioWorld], [UploadWorld]; an instance then discharges the laws for the real component:
    LittleFsQueueStorage (FlashStorageLaws), NvsCommandBackend ([nvs_backend_laws]).

    ** What the theorems show

    - The whole: in any run of radio task, worker, dashboard and network, every packet
      that is acknowledged is accounted for ([acknowledged_accounted]), and so it is
      through any life of runs, losses of power in any state of the flash, and restarts
      that may be cut short as well ([acknowledged_survives]), where a start may also
      give up a record whose file it cannot read; while every
      call succeeds, the worker's rounds empty the queue batch by batch, after
      ceil(length / batch size) of them ([queue_drains]).
    - Its parts: nothing is acknowledged that is not durable
      ([radio_acks_only_durable]), whatever fails: [enqueue] is all or nothing
      ([enqueue_durable], [enqueue_accepts]), a record file is complete or absent at
      every power failure ([write_power_safe]), damage is detected
      ([queue_record_damage_detected]), recovery finds exactly the valid records that it
      can read ([recover_exact], [restart_keeps]), a loss of power during [enqueue],
      [finish] or [begin] costs no record that was to stay ([enqueue_power_safe],
      [finish_power_safe], and for those that can be read [begin_power_safe]), a restart
      brings back the records and recent keys that it can read ([queue_restart]), and only
      an upload's answer takes records out ([upload_removes_answered], [remove_exact]).
    - The formats: decoders accept exactly the images of well-formed packets and
      records, encoders write them, that of results also some the decoder refuses ([telemetry_decode_exact], [telemetry_encode_spec],
      [ack_codec_exact], [command_result_codec_exact], [queue_record_decode_exact],
      [queue_record_encode_spec]); [base64_exact], times, which are right up to 2038
      ([format_utc_exact]), the backend's answers ([parse_unambiguous]), URLs ([url_grammar]).
    - The command: its life cycle over operations and restarts ([command_lifecycle]),
      identifiers that are not given twice while every start can load the record, and
      begin again at 1 when one cannot ([command_ids_unique]), one confirmation
      ([confirmed_once]), guarded results ([command_result_guarded]); what each request
      may do to it ([node_commands_bounded]).
    - The paired node: the manager's states ([pairing_refines]), and that the node the
      radio accepts is the one stored, from boot on ([pairing_persisted]); a valid
      configuration stays valid ([requests_keep_valid_config], [config_begin]); the
      status does not reveal secrets ([status_hides_secrets]).
    - Schedules: Wi-Fi attempts, starts and stops of the fallback access point, round by
      round ([wifi_round_decisions], [fallback_ap_tracked]), heartbeats ([heartbeat_spacing]), back-off
      ([backoff_schedule]), the trusted clock ([trusted_time]).
    - Bookkeeping: counters ([statistics_keep_books]), what the radio reports is
      within its types ([radio_figures_typed]), the ring of recent keys
      ([dedup_ring_refines]), the log ([log_keeps_newest]), peeking ([peek_fifo]); the
      decision about a new image ([boot_decides_image]).

    ** Bounds and fuel

    Recursion is structural: on the input, on the container, or on a count that the
    code bounds as well.  The one fuel is that of [decimalLoop] (UtcTime), which prints
    a number digit by digit; it is given more digits than a 64-bit number has, and
    [decimalLoop_digits] shows that this suffices.  Every operation is a total function,
    so what is proved of its result is proved of every call.

    ** Conditions

    - A start of the queue ([queue_restart], [begin_power_safe], [begins]) finds the mark
      "fs-ready" in NVS ([set_up]): without it, on a first start or when NVS does not
      answer, [begin] may format the file system.  The record identifier 2^64 - 1 is not
      in use: behind it the allocator wraps.  Records that a start cannot read, and a
      ring's file that it cannot load, are named ([start_unread], [start_ring]).
    - [command_lifecycle] and [command_ids_unique] start from a store that holds a valid
      record, in RAM and in the backend ([store_ok], which [command_begin] shows after a
      start that answers true), and the mutex of the store can be created.
    - [time_t] has 32 bits ([kTimeBits]), as in the pinned toolchain of the device.
    - [heartbeat_spacing] is about uptimes below 2^63 microseconds; the lower bound of a
      maintenance time in [node_commands_bounded] holds until 27 days before the clock
      reaches 2^32 seconds.

    ** What is left out

    - [GATHRA_ROLLBACK_TEST_FAIL] is off.  Of the bench build ([GATHRA_HIL_SYNTHETIC])
      the injected packets, the suppressed acknowledgement and the serial commands are
      modelled (RadioSynthetic, HilSerial); the boot is that of the production build,
      which differs in the queue of injected packets only ([benchBegin]).
    - Messages to the log are not part of the operations; the logger is modelled by
      itself.  Serial output, delays, and the starting of tasks, of SNTP and of the web
      server are calls without effect on the state.
    - A mutex that exists is always obtained ([portMAX_DELAY]); each critical section
      is one step.  The logger's mutex, which has a timeout, may be refused.
    - A loss of power is one of flash and memory: what NVS holds is what it answers at
      the next start.  A turn of the receiver writes to flash before it acknowledges, so
      a loss of power in a turn is one before the acknowledgement or after the turn.
    - The HTML page, the certificate of tls_trust.hpp, board_pins.hpp and main.cpp,
      which holds constants or only calls [begin] and [loop]. *)

From Stdlib Require Import ZArith Lia.
From stdpp Require Export base list numbers option strings.
From coqutil Require Export Datatypes.RecordSetters.
Export TriangleBracketNotations.

#[global] Open Scope Z_scope.

#[global] Arguments constant {_} _ _ /.

#[global] Arguments Nat.ltb : simpl never.
#[global] Arguments Nat.leb : simpl never.
#[global] Arguments Nat.modulo : simpl never.
#[global] Arguments Nat.div : simpl never.
#[global] Arguments Z.eqb : simpl never.
#[global] Arguments Z.ltb : simpl never.
#[global] Arguments Z.leb : simpl never.
#[global] Arguments Z.pow : simpl never.
#[global] Arguments Z.modulo : simpl never.
#[global] Arguments Z.shiftl : simpl never.
#[global] Arguments Z.shiftr : simpl never.
#[global] Arguments Z.land : simpl never.
#[global] Arguments Z.lor : simpl never.
#[global] Arguments Z.lxor : simpl never.

(** ** Machine integers

    A [uintN_t] is a [Z] in [0, 2^N); a [static_cast<uintN_t>] is [wrap N]; an
    [intN_t] is a [Z] in [-2^(N-1), 2^(N-1)) and a cast to it is [to_signed N]. *)

Definition wrap (w v : Z) : Z := v mod 2 ^ w.

Definition to_signed (w v : Z) : Z :=
  let u := wrap w v in
  if u <? 2 ^ (w - 1) then u else u - 2 ^ w.

Definition is_u (w v : Z) : Prop := 0 <= v < 2 ^ w.

Definition is_s (w v : Z) : Prop := - 2 ^ (w - 1) <= v < 2 ^ (w - 1).

Definition UINT8_MAX : Z := 255.
Definition UINT32_MAX : Z := 4294967295.

#[global] Instance is_u_dec w v : Decision (is_u w v).
Proof. unfold is_u. apply _. Defined.

#[global] Instance is_s_dec w v : Decision (is_s w v).
Proof. unfold is_s. apply _. Defined.

(** A byte is an unsigned 8-bit integer; a byte string is a list of them. *)
Abbreviation is_byte := (is_u 8).
Abbreviation bytes_ok := (Forall (is_u 8)).

(** ** Objects reached through a pointer

    [None] is [nullptr]; [Some x] points to [x]. *)
Abbreviation ptr := option.
Abbreviation nullptr := None.

(** ** Steps with a boolean outcome

    The codecs are written as chains [a() && b() && ...] of calls that update
    an object and answer whether they succeeded; the first [false] stops the
    chain and leaves the object as it was at that point. *)

Definition Step (S : Type) : Type := S -> bool * S.

Definition and_then {S} (m1 m2 : Step S) : Step S := fun s =>
  let '(ok, s') := m1 s in
  if ok then m2 s' else (false, s').

Definition step_ret {S} (b : bool) : Step S := fun s => (b, s).

Declare Scope step_scope.
Delimit Scope step_scope with step.
Notation "m1 &>> m2" := (and_then m1 m2)
  (at level 60, right associativity) : step_scope.
#[global] Open Scope step_scope.

Lemma and_then_true {S} (m1 m2 : Step S) s s' :
  (m1 &>> m2) s = (true, s') <->
  exists s1, m1 s = (true, s1) /\ m2 s1 = (true, s').
Proof.
  unfold and_then. destruct (m1 s) as [[|] s1]; split.
  - intros H. exists s1. auto.
  - intros (s2 & [= <-] & H). exact H.
  - discriminate.
  - intros (s2 & [=] & _).
Qed.

Lemma and_then_ret {S} (m : Step S) s : (m &>> step_ret true) s = m s.
Proof. unfold and_then, step_ret. by destruct (m s) as [[|] s']. Qed.

(** ** Enumerations with a [uint8_t] underlying type

    An [enum class E : uint8_t] holds every byte: the enumerators by name, the
    other values as [unnamed v].  [of_u8] is [static_cast<E>] and [to_u8] is
    [static_cast<uint8_t>]. *)

Class Enum (E : Type) := {
  to_u8 : E -> Z;
  of_u8 : Z -> E;
}.

Class EnumLaws (E : Type) `{Enum E} := {
  to_of_u8 v : is_u 8 v -> to_u8 (of_u8 v) = v;
}.

#[global] Arguments to_u8 : simpl never.
#[global] Arguments of_u8 : simpl never.

(** A value that is the image of its code: no [unnamed] value with the code of
    an enumerator, no code outside a byte. *)
Definition enum_ok {E} `{Enum E} (e : E) : Prop :=
  is_u 8 (to_u8 e) /\ of_u8 (to_u8 e) = e.

Lemma of_u8_ok {E} `{EnumLaws E} v : is_u 8 v -> enum_ok (of_u8 v).
Proof. intros Hv. unfold enum_ok. by rewrite to_of_u8. Qed.

Lemma to_u8_inj {E} `{Enum E} (a b : E) :
  enum_ok a -> enum_ok b -> to_u8 a = to_u8 b -> a = b.
Proof. intros [_ Ea] [_ Eb] E0. rewrite <- Ea, <- Eb, E0. done. Qed.

Lemma enum_is {E} `{Enum E} (a b : E) :
  enum_ok a -> enum_ok b -> (a = b <-> to_u8 a = to_u8 b).
Proof. intros. split; [by intros ->|by apply to_u8_inj]. Qed.

(** [==] on enumerations compares the underlying values. *)
Definition enum_eqb {E} `{Enum E} (a b : E) : bool := to_u8 a =? to_u8 b.

Lemma enum_eqb_spec {E} `{Enum E} (a b : E) :
  enum_ok a -> enum_ok b -> reflect (a = b) (enum_eqb a b).
Proof.
  intros Ha Hb. unfold enum_eqb.
  destruct (Z.eqb_spec (to_u8 a) (to_u8 b)) as [E0|E0]; constructor.
  - by apply to_u8_inj.
  - by intros ->.
Qed.

(** ** Automation shared by the components *)

Create HintDb gateway.

(** Case analysis on the tests and matches of a definition, one at a time. *)
Ltac split_match :=
  match goal with
  | |- context [if ?b then _ else _] => destruct b eqn:?
  | |- context [match ?x with _ => _ end] => destruct x eqn:?
  end.

Ltac split_match_in H :=
  match type of H with
  | context [if ?b then _ else _] => destruct b eqn:?
  | context [match ?x with _ => _ end] => destruct x eqn:?
  end.

(** Boolean tests as propositions. *)
Ltac bool_prop :=
  repeat match goal with
  | H : negb _ = true |- _ => apply negb_true_iff in H
  | H : negb _ = false |- _ => apply negb_false_iff in H
  | H : _ && _ = true |- _ => apply andb_true_iff in H; destruct H
  | H : _ || _ = false |- _ => apply orb_false_iff in H; destruct H
  | H : _ || _ = true |- _ => apply orb_true_iff in H
  | H : _ && _ = false |- _ => apply andb_false_iff in H
  | H : (_ =? _) = true |- _ => apply Z.eqb_eq in H
  | H : (_ =? _) = false |- _ => apply Z.eqb_neq in H
  | H : (_ <? _) = true |- _ => apply Z.ltb_lt in H
  | H : (_ <? _) = false |- _ => apply Z.ltb_ge in H
  | H : (_ <=? _) = true |- _ => apply Z.leb_le in H
  | H : (_ <=? _) = false |- _ => apply Z.leb_gt in H
  | H : (_ =? _)%nat = true |- _ => apply Nat.eqb_eq in H
  | H : (_ =? _)%nat = false |- _ => apply Nat.eqb_neq in H
  | H : (_ <? _)%nat = true |- _ => apply Nat.ltb_lt in H
  | H : (_ <? _)%nat = false |- _ => apply Nat.ltb_ge in H
  | H : (_ <=? _)%nat = true |- _ => apply Nat.leb_le in H
  | H : (_ <=? _)%nat = false |- _ => apply Nat.leb_gt in H
  | H : bool_decide _ = true |- _ => apply bool_decide_eq_true in H
  | H : bool_decide _ = false |- _ => apply bool_decide_eq_false in H
  end.

(** The codes of enumerators as numbers. *)
Ltac enum_codes :=
  repeat match goal with
  | |- context [to_u8 ?c] =>
      is_constructor c; let v := eval vm_compute in (to_u8 c) in
      change (to_u8 c) with v in *
  | H : context [to_u8 ?c] |- _ =>
      is_constructor c; let v := eval vm_compute in (to_u8 c) in
      change (to_u8 c) with v in *
  end.

(** Decides the comparisons of known codes. *)
Ltac eval_codes :=
  unfold enum_eqb in *; enum_codes;
  repeat match goal with
  | |- context [Zpos ?a =? ?b] =>
      let v := eval vm_compute in (Zpos a =? b) in
      first [constr_eq v true | constr_eq v false]; change (Zpos a =? b) with v
  | |- context [0 =? ?b] =>
      let v := eval vm_compute in (0 =? b) in
      first [constr_eq v true | constr_eq v false]; change (0 =? b) with v
  end; cbn [negb andb orb].

(** A named enumerator is the image of its code. *)
Ltac solve_enum_ok := split; [split; vm_compute; congruence|reflexivity].

Lemma enum_eqb_ne {E} `{Enum E} (a b : E) :
  enum_ok a -> enum_ok b -> a <> b -> enum_eqb a b = false.
Proof. intros Ha Hb Hn. by destruct (enum_eqb_spec a b Ha Hb). Qed.

(** Discharges [EnumLaws]: the code of each named value, then the rest. *)
Ltac solve_enum_laws :=
  constructor; intros ? _; unfold of_u8, to_u8; cbn;
  repeat match goal with
  | |- context [if ?v =? ?c then _ else _] =>
      destruct (Z.eqb_spec v c); [subst; reflexivity|]
  end; reflexivity.

(** ** Machine-integer lemmas *)

Lemma wrap_range w v : 0 <= w -> is_u w (wrap w v).
Proof. intros Hw. unfold is_u, wrap. apply Z.mod_pos_bound. lia. Qed.

Lemma wrap_id w v : is_u w v -> wrap w v = v.
Proof. apply Z.mod_small. Qed.

Lemma to_signed_range w v : 1 <= w -> is_s w (to_signed w v).
Proof.
  intros Hw. unfold to_signed, is_s.
  pose proof (wrap_range w v ltac:(lia)) as Hr. unfold is_u in Hr.
  assert (2 ^ w = 2 * 2 ^ (w - 1)) as E
    by (rewrite <- Z.pow_succ_r by lia; f_equal; lia).
  destruct (Z.ltb_spec (wrap w v) (2 ^ (w - 1))); lia.
Qed.

(** Casting a signed value to unsigned and back is the identity. *)
Lemma to_signed_wrap w v : 1 <= w -> is_s w v -> to_signed w (wrap w v) = v.
Proof.
  intros Hw [H1 H2]. unfold to_signed.
  rewrite (wrap_id w (wrap w v)) by (apply wrap_range; lia).
  assert (2 ^ w = 2 * 2 ^ (w - 1)) as E
    by (rewrite <- Z.pow_succ_r by lia; f_equal; lia).
  unfold wrap. destruct (Z.le_gt_cases 0 v).
  - rewrite Z.mod_small by lia. destruct (Z.ltb_spec v (2 ^ (w - 1))); lia.
  - replace (v mod 2 ^ w) with (v + 2 ^ w).
    + destruct (Z.ltb_spec (v + 2 ^ w) (2 ^ (w - 1))); lia.
    + rewrite <- (Z_mod_plus_full v 1). rewrite Z.mod_small; lia.
Qed.

Lemma wrap_to_signed w v : 1 <= w -> is_u w v -> wrap w (to_signed w v) = v.
Proof.
  intros Hw Hv. unfold to_signed. rewrite (wrap_id w v) by assumption.
  destruct (v <? 2 ^ (w - 1)); [by apply wrap_id|].
  unfold wrap, is_u in *. replace (v - 2 ^ w) with (v + (-1) * 2 ^ w) by lia.
  rewrite Z_mod_plus_full. apply Z.mod_small. lia.
Qed.

Lemma shiftl_lor_add a b n :
  0 <= n -> 0 <= b < 2 ^ n -> Z.lor (Z.shiftl a n) b = a * 2 ^ n + b.
Proof.
  intros Hn Hb. rewrite Z.shiftl_mul_pow2 by lia.
  assert (Z.land (a * 2 ^ n) b = 0) as E.
  { apply Z.bits_inj'. intros i Hi. rewrite Z.land_spec, Z.bits_0.
    rewrite <- (Z.shiftl_mul_pow2 a n), Z.shiftl_spec by lia.
    destruct (Z.lt_ge_cases i n).
    - rewrite (Z.testbit_neg_r a) by lia. done.
    - rewrite <- (Z.mod_small b (2 ^ n)) by lia.
      rewrite Z.mod_pow2_bits_high by lia. apply andb_false_r. }
  rewrite <- Z.lxor_lor by done. symmetry. by apply Z.add_nocarry_lxor.
Qed.

Lemma forallb_Forall {A} (f : A -> bool) l :
  forallb f l = true <-> Forall (fun x => f x = true) l.
Proof.
  induction l as [|x l IH]; simpl; [by split|].
  rewrite andb_true_iff, IH. by rewrite Forall_cons.
Qed.

Lemma filter_all {A} (P : A -> Prop) `{!forall x, Decision (P x)} l :
  Forall P l -> filter P l = l.
Proof.
  induction 1 as [|x l Hx Hl IH]; [done|]. by rewrite filter_cons, decide_True, IH.
Qed.

Lemma filter_none {A} (P : A -> Prop) `{!forall x, Decision (P x)} l :
  Forall (fun x => ~ P x) l -> filter P l = [].
Proof.
  induction 1 as [|x l Hx Hl IH]; [done|]. by rewrite filter_cons, decide_False, IH.
Qed.

#[export] Hint Resolve wrap_range to_signed_range : gateway.
