(* ===== verification/CString.v ===== *)
(** * C strings and character arrays

    A [char[N]] array is the list of its N characters (as unsigned bytes); a
    [const char*] to a string is the list of the characters from the pointer
    on.  Reading past the end of the list reads the terminating NUL.  The
    functions are those of <string.h> the firmware calls. *)

From Stdlib Require Import ZArith Lia Ascii String.
From S2P Require Import Prelude.

(** The characters of a string literal. *)
Definition chars (s : string) : list Z :=
  List.map (fun a => Z.of_nat (nat_of_ascii a)) (list_ascii_of_string s).

(** A zero-initialised [char[n]]. *)
Definition zeros (n : nat) : list Z := replicate n 0.
#[global] Arguments zeros : simpl never.

Fixpoint strnlen (s : list Z) (n : nat) : nat :=
  match n, s with
  | S n', c :: s' => if c =? 0 then 0%nat else S (strnlen s' n')
  | _, _ => 0%nat
  end.

Definition strlen (s : list Z) : nat := strnlen s (length s).

(** [strncpy(dst, src, n)]: the string, padded with NULs up to [n]. *)
Definition strncpy (dst src : list Z) (n : nat) : list Z :=
  take (strnlen src n) src ++ replicate (n - strnlen src n) 0 ++ drop n dst.

Fixpoint strncmp (a b : list Z) (n : nat) : Z :=
  match n with
  | O => 0
  | S n' =>
      let x := default 0 (head a) in
      let y := default 0 (head b) in
      if x =? y then (if x =? 0 then 0 else strncmp (tail a) (tail b) n')
      else x - y
  end.

(** The string a buffer of [n] characters holds. *)
Definition c_text (n : nat) (s : list Z) : list Z := take (strnlen s n) s.

(** A buffer of [n] characters that holds a string and, after it, only NULs:
    what zero-initialisation followed by [strncpy] leaves. *)
Definition zero_padded (n : nat) (s : list Z) : Prop :=
  length s = n /\ s = c_text n s ++ replicate (n - strnlen s n) 0.

#[global] Instance zero_padded_dec n s : Decision (zero_padded n s).
Proof. unfold zero_padded. apply _. Defined.

Lemma strnlen_le_n s n : (strnlen s n <= n)%nat.
Proof.
  revert s. induction n as [|n IH]; intros [|c s]; simpl; try lia.
  destruct (c =? 0); [lia|]. specialize (IH s). lia.
Qed.

Lemma strnlen_le_length s n : (strnlen s n <= length s)%nat.
Proof.
  revert s. induction n as [|n IH]; intros [|c s]; simpl; try lia.
  destruct (c =? 0); [lia|]. specialize (IH s). lia.
Qed.

#[export] Hint Resolve strnlen_le_n strnlen_le_length : gateway.

Lemma length_c_text n s : length (c_text n s) = strnlen s n.
Proof.
  unfold c_text. rewrite length_take. pose proof (strnlen_le_length s n). lia.
Qed.

(** No character of the held string is NUL. *)
Lemma c_text_no_nul n s : Forall (fun c => c <> 0) (c_text n s).
Proof.
  unfold c_text. revert s.
  induction n as [|n IH]; intros [|c s]; simpl; try constructor.
  destruct (Z.eqb_spec c 0); simpl; constructor; auto.
Qed.

Lemma strnlen_app_no_nul t s n :
  Forall (fun c => c <> 0) t -> (length t <= n)%nat ->
  strnlen (t ++ s) n = (length t + strnlen s (n - length t))%nat.
Proof.
  intros Ht. revert n. induction Ht as [|c t Hc Ht IH]; intros n Hn; simpl in *.
  - by rewrite Nat.sub_0_r.
  - destruct n as [|n]; [lia|]. simpl.
    destruct (Z.eqb_spec c 0); [done|]. rewrite IH by lia. done.
Qed.

Lemma strnlen_zeros m s n : (0 < m)%nat -> strnlen (replicate m 0 ++ s) n = 0%nat.
Proof. intros Hm. destruct m; [lia|]. destruct n; done. Qed.

Lemma strnlen_replicate_0 m n : strnlen (replicate m 0) n = 0%nat.
Proof. destruct m, n; done. Qed.

(** A string that ends before the bound is the same under any larger bound. *)
Lemma strnlen_mono s n m : (strnlen s n < n <= m)%nat -> strnlen s m = strnlen s n.
Proof.
  revert s m. induction n as [|n IH]; intros s m H; [lia|].
  destruct m as [|m]; [lia|]. destruct s as [|c s]; simpl in *; [done|].
  destruct (c =? 0); [done|]. f_equal. apply IH. lia.
Qed.

Lemma strncmp_eq a b n : strncmp a b n = 0 <-> c_text n a = c_text n b.
Proof.
  unfold c_text. revert a b.
  induction n as [|n IH]; intros a b; [by destruct a, b|].
  destruct a as [|x a], b as [|y b]; simpl; try done.
  - destruct (Z.eqb_spec y 0) as [->|Hy]; simpl; [done|].
    destruct (Z.eqb_spec 0 y); [congruence|]. split; [intros; exfalso; lia|done].
  - destruct (Z.eqb_spec x 0) as [->|Hx]; simpl; [done|].
    split; [intros; exfalso; lia|done].
  - destruct (Z.eqb_spec x y) as [->|Hxy].
    + destruct (y =? 0); simpl; [done|]. rewrite IH.
      split; [congruence|by intros [= ?]].
    + destruct (Z.eqb_spec x 0), (Z.eqb_spec y 0); simpl; subst; split;
        intros; try congruence; try lia.
Qed.

(** The string held after [strncpy] into a buffer whose last character stays NUL. *)
Lemma c_text_strncpy dst src n m :
  (strnlen src n < m)%nat -> (n < m)%nat -> default 0 (dst !! n) = 0 ->
  c_text m (strncpy dst src n) = c_text n src.
Proof.
  intros Hm Hnm Hd. unfold c_text at 1. unfold strncpy.
  assert (strnlen (take (strnlen src n) src ++
            replicate (n - strnlen src n) 0 ++ drop n dst) m = strnlen src n) as ->.
  { pose proof (length_c_text n src) as Hl. unfold c_text in Hl.
    rewrite strnlen_app_no_nul by (first [apply c_text_no_nul | lia]).
    rewrite Hl. destruct (decide (strnlen src n = n)) as [E|E].
    - rewrite E. rewrite Nat.sub_diag. simpl.
      assert (strnlen (drop n dst) (m - n) = 0)%nat as ->; [|lia].
      destruct (m - n)%nat as [|k] eqn:Ek; [lia|].
      destruct (drop n dst) as [|d ds] eqn:Ed; [done|].
      assert (dst !! n = Some d) as Hs.
      { rewrite <- (Nat.add_0_r n). rewrite <- lookup_drop, Ed. done. }
      rewrite Hs in Hd. simpl in Hd. subst. done.
    - rewrite strnlen_zeros; [lia|]. pose proof (strnlen_le_n src n). lia. }
  rewrite take_app_length'; [done|].
  pose proof (length_c_text n src) as Hl. unfold c_text in Hl. done.
Qed.

Lemma length_strncpy dst src n :
  (n <= length dst)%nat -> length (strncpy dst src n) = length dst.
Proof.
  intros Hn. unfold strncpy. rewrite !length_app, length_replicate, length_drop.
  pose proof (length_c_text n src) as Hl. unfold c_text in Hl. rewrite Hl.
  pose proof (strnlen_le_n src n). lia.
Qed.

(** [strncpy(dst, src, N-1)] into a fresh [char[N]] leaves a padded copy. *)
Lemma strncpy_fresh n src :
  strncpy (zeros (S n)) src n = c_text n src ++ replicate (S n - strnlen src n) 0.
Proof.
  unfold strncpy, zeros, c_text. f_equal. rewrite drop_replicate.
  rewrite <- replicate_add. f_equal. pose proof (strnlen_le_n src n). lia.
Qed.

Lemma strnlen_padded t m n :
  Forall (fun c => c <> 0) t -> (length t <= n)%nat ->
  strnlen (t ++ replicate m 0) n = length t.
Proof.
  intros Ht Hn. rewrite strnlen_app_no_nul by done.
  rewrite strnlen_replicate_0. lia.
Qed.

Lemma zero_padded_intro n t :
  Forall (fun c => c <> 0) t -> (length t <= n)%nat ->
  zero_padded n (t ++ replicate (n - length t) 0).
Proof.
  intros Ht Hn. split; [rewrite length_app, length_replicate; lia|].
  unfold c_text. rewrite strnlen_padded by done. by rewrite take_app_length.
Qed.

Lemma c_text_padded n t m :
  Forall (fun c => c <> 0) t -> (length t <= n)%nat ->
  c_text n (t ++ replicate m 0) = t.
Proof.
  intros Ht Hn. unfold c_text. rewrite strnlen_padded by done.
  by rewrite take_app_length.
Qed.

Lemma strnlen_le_mono s n m : (n <= m)%nat -> (strnlen s n <= strnlen s m)%nat.
Proof.
  revert s m. induction n as [|n IH]; intros s m H; [destruct s; simpl; lia|].
  destruct m as [|m]; [lia|]. destruct s as [|c s]; simpl; [lia|].
  destruct (c =? 0); [lia|]. specialize (IH s m). lia.
Qed.

(** Copying a padded string into a fresh buffer of the same size is the identity. *)
Lemma strncpy_padded n s :
  zero_padded (S n) s -> (strnlen s (S n) <= n)%nat ->
  strncpy (zeros (S n)) s n = s.
Proof.
  intros [Hl Hp] Hn. rewrite strncpy_fresh.
  assert (strnlen s n = strnlen s (S n)) as E.
  { pose proof (strnlen_le_mono s n (S n) ltac:(lia)).
    destruct (decide (strnlen s n = n)); [lia|].
    pose proof (strnlen_le_n s n). symmetry. apply strnlen_mono. lia. }
  etransitivity; [|symmetry; exact Hp]. unfold c_text. by rewrite E.
Qed.

(** A NUL at the bound ends the string there. *)
Lemma strnlen_stop s n : s !! n = Some 0 -> strnlen s (S n) = strnlen s n.
Proof.
  revert s. induction n as [|n IH]; intros [|c s] Hc; try done; cbn in Hc |- *.
  - by injection Hc as ->.
  - destruct (c =? 0); [done|]. f_equal. exact (IH s Hc).
Qed.

Lemma c_text_stop s n : s !! n = Some 0 -> c_text (S n) s = c_text n s.
Proof. intros Hs. unfold c_text. by rewrite strnlen_stop. Qed.

Lemma strncpy_insert dst src n :
  (n < length dst)%nat -> <[n := 0]> (strncpy dst src n) = strncpy (<[n := 0]> dst) src n.
Proof.
  intros Hn. unfold strncpy. pose proof (length_c_text n src) as Hl. unfold c_text in Hl.
  pose proof (strnlen_le_n src n).
  rewrite !app_assoc, insert_app_r_alt, drop_insert_ge by
    (rewrite ?length_app, ?length_replicate, ?Hl; lia).
  rewrite length_app, length_replicate, Hl. do 3 f_equal. lia.
Qed.
