(* ===== verification/BuildConfig.v ===== *)
(** * Build constants (include/build_config.hpp) *)

From Stdlib Require Import ZArith String.
From S2P Require Import Prelude CString.

Definition kSerialBaud : Z := 115200.
Definition kFallbackApPassword : list Z := chars "sman35jakarta".
Definition kMdnsHost : list Z := chars "gathra-gateway".
Definition kDefaultBackendUrl : list Z := chars "https://api.gathra.my.id".
Definition kNodeIdCapacity : nat := 25.
Definition kGatewayIdCapacity : nat := 49.
Definition kRadioPacketCapacity : nat := 96.
Definition kBackendUrlCapacity : nat := 161.
Definition kWifiSsidCapacity : nat := 33.
Definition kWifiPasswordCapacity : nat := 65.
Definition kBearerTokenCapacity : nat := 129.
Definition kRecentDedupCapacity : nat := 64.
Definition kLogCapacity : nat := 96.
Definition kLogMessageCapacity : nat := 176.
Definition kConfigSchemaVersion : Z := 2.
Definition kDefaultHeartbeatIntervalSeconds : Z := 60.
Definition kMinimumHeartbeatIntervalSeconds : Z := 15.
Definition kMaximumHeartbeatIntervalSeconds : Z := 3600.
Definition kQueueRecordVersion : Z := 1.
Definition kQueueMagic : Z := 0x47545131.
Definition kQueueReservedBytes : Z := 64 * 1024.
Definition kEstimatedLittleFsFileOverhead : Z := 128.
Definition kQueueCapacityHardMax : Z := 4096.
Definition kBackendMaximumBatchSize : Z := 50.
Definition kOtaValidationMagic : Z := 0x47544F54.
