(* ===== verification/Platform.v ===== *)
(** * The platform

    Calls of the Arduino and ESP-IDF libraries that several parts share.  Each acts
    on the world [W]; what the parts rely on is stated where it is used. *)

From Stdlib Require Import ZArith Lia String.
From S2P Require Import Prelude CString.
Open Scope Z_scope.

(** [millis()]: milliseconds since boot, 32 bits. *)
Class Millis (E : Type) := {
  millis : E -> Z * E;
}.

(** [esp_random()] and [xTaskNotifyGive] on the task of the caller. *)
Class Tasks (W : Type) := {
  esp_random : W -> Z * W;
  taskNotify : W -> W;
}.

(** [ESP.getFreeHeap()] and the like: the figures of the system. *)
Class SystemFigures (W : Type) := {
  esp_freeHeap : W -> Z * W;
  esp_minFreeHeap : W -> Z * W;
  esp_largestFreeBlock : W -> Z * W;
  esp_sketchSize : W -> Z * W;
  esp_freeSketchSpace : W -> Z * W;
  esp_flashChipSize : W -> Z * W;
}.

(** ** WiFi *)

Inductive wifi_mode := WIFI_OFF | WIFI_STA | WIFI_AP | WIFI_AP_STA.

#[export] Instance wifi_mode_eq_dec : EqDecision wifi_mode.
Proof. solve_decision. Defined.

(** What can be read: [WiFi.status() == WL_CONNECTED], [WiFi.getMode()],
    [WiFi.softAPgetStationNum()], [WiFi.localIP().toString()] and [WiFi.RSSI()]. *)
Class WifiReadings (W : Type) := {
  wifi_connected : W -> bool * W;
  wifi_getMode : W -> wifi_mode * W;
  wifi_stationNum : W -> Z * W;
  wifi_localIP : W -> list Z * W;
  wifi_RSSI : W -> Z * W;
}.

(** What can be commanded, with the arguments of the call. *)
Inductive WifiCall :=
  | WifiPersistent (value : bool)
  | WifiAutoReconnect (value : bool)
  | WifiSleep (value : bool)
  | WifiHostname (name : list Z)
  | WifiMode (mode : wifi_mode)
  | WifiSoftAP (ssid password : list Z)
  | WifiSoftAPdisconnect (wifiOff : bool)
  | WifiDisconnect (wifiOff eraseAp : bool)
  | WifiBegin (ssid password : list Z)
  | MdnsBegin (name : list Z)
  | MdnsAddService (service protocol : list Z) (port : Z)
  | MdnsEnd.

(** The answer of calls that answer nothing is ignored. *)
Class WifiControl (W : Type) := {
  wifi_do : WifiCall -> W -> bool * W;
}.

(** ** Text buffers *)

(** [copyText(destination, source)]: a bounded copy that always terminates. *)
Definition copyText (destination : list Z) (source : ptr (list Z)) : list Z :=
  let last := (length destination - 1)%nat in
  <[last := 0]> (strncpy destination (default [] source) last).

(** [strncpy] into a zeroed array up to its last character. *)
Definition strncpyz (destination source : list Z) : list Z :=
  strncpy destination source (length destination - 1).

(** [snprintf(buffer, sizeof(buffer), ...)] of the formatted [text]. *)
Definition putText (buffer text : list Z) : list Z :=
  let text := take (length buffer - 1) text in
  match buffer with
  | [] => []
  | _ => text ++ [0] ++ drop (length text + 1) buffer
  end.

Lemma length_copyText destination source : length (copyText destination source) = length destination.
Proof.
  unfold copyText, strncpy. rewrite length_insert, !length_app, length_take, length_replicate,
    length_drop.
  pose proof (strnlen_le_length (default [] source) (length destination - 1)).
  pose proof (strnlen_le_n (default [] source) (length destination - 1)). lia.
Qed.

Lemma c_text_copyText n destination source :
  length destination = S n -> c_text (S n) (copyText destination (Some source)) = c_text n source.
Proof.
  intros Hl. unfold copyText. rewrite Hl. replace (S n - 1)%nat with n by lia.
  cbn [default from_option id]. rewrite strncpy_insert by lia.
  pose proof (strnlen_le_n source n). apply c_text_strncpy; [lia..|].
  by rewrite list_lookup_insert_eq by lia.
Qed.

(** The copy ends in NUL. *)
Lemma copyText_end destination source :
  (0 < length destination)%nat ->
  copyText destination source !! (length destination - 1)%nat = Some 0.
Proof.
  intros Hl. unfold copyText. apply list_lookup_insert_eq. rewrite length_strncpy; lia.
Qed.
