(* ===== verification/ByteIO.v ===== *)
(** * Big-endian byte writers and readers

    The [Writer] and [Reader] classes of protocol.cpp (queue_record.cpp has the
    same [Reader]): cursors over a caller's buffer, whose operations answer
    [false] and leave the cursor where it was when the buffer is too short.
    Below them, the abstract view the codecs are verified against: a writer
    appends bytes ([emits]), a reader consumes the remaining ones ([rest]). *)

From Stdlib Require Import ZArith Lia.
From S2P Require Import Prelude.

(** ** Writer *)

Record Writer := mkWriter {
  w_data : list Z;
  w_capacity : nat;
  w_position : nat;
}.

Definition writer (data : list Z) (capacity : nat) : Writer :=
  mkWriter data capacity 0.

Definition writer_u8 (v : Z) : Step Writer := fun w =>
  if (w_capacity w <=? w_position w)%nat then (false, w)
  else (true, w <| w_data := <[w_position w := v]> (w_data w) |>
                <| w_position := S (w_position w) |>).

Definition writer_u16 (v : Z) : Step Writer :=
  writer_u8 (wrap 8 (Z.shiftr v 8)) &>> writer_u8 (wrap 8 v).

Definition writer_u32 (v : Z) : Step Writer :=
  writer_u8 (wrap 8 (Z.shiftr v 24)) &>>
  writer_u8 (wrap 8 (Z.shiftr v 16)) &>>
  writer_u8 (wrap 8 (Z.shiftr v 8)) &>> writer_u8 (wrap 8 v).

Definition writer_bytes (data : ptr (list Z)) (length : nat) : Step Writer :=
  fun w =>
  match data with
  | nullptr => (false, w)
  | Some bytes =>
      if (w_capacity w <? w_position w + length)%nat then (false, w)
      else
        (true,
         w <| w_data := take (w_position w) (w_data w) ++ take length bytes ++
                        drop (w_position w + length) (w_data w) |>
           <| w_position := (w_position w + length)%nat |>)
  end.

Definition writer_size (w : Writer) : nat := w_position w.

(** ** Reader *)

Record Reader := mkReader {
  r_data : list Z;
  r_length : nat;
  r_position : nat;
}.

Definition reader (data : list Z) (length : nat) : Reader :=
  mkReader data length 0.

(** A read that stores its value through the reference argument only when it
    succeeds. *)
Definition Read (A : Type) : Type := Reader -> option A * Reader.

Definition read_bind {A B} (m : Read A) (f : A -> Read B) : Read B := fun r =>
  let '(o, r') := m r in
  match o with Some a => f a r' | None => (None, r') end.

Definition read_ret {A} (a : A) : Read A := fun r => (Some a, r).

Notation "'let*' x := m 'in' k" := (read_bind m (fun x => k))
  (at level 10, x name, m at level 100, k at level 200) : step_scope.

Definition reader_u8 : Read Z := fun r =>
  if (r_length r <=? r_position r)%nat then (None, r)
  else (Some (nth (r_position r) (r_data r) 0),
        r <| r_position := S (r_position r) |>).

Definition reader_u16 : Read Z :=
  let* hi := reader_u8 in
  let* lo := reader_u8 in
  read_ret (wrap 16 (Z.lor (Z.shiftl hi 8) lo)).

Definition reader_u32 : Read Z :=
  let* b0 := reader_u8 in
  let* b1 := reader_u8 in
  let* b2 := reader_u8 in
  let* b3 := reader_u8 in
  read_ret (Z.lor (Z.lor (Z.lor (Z.shiftl b0 24) (Z.shiftl b1 16))
                         (Z.shiftl b2 8)) b3).

Definition reader_u64 : Read Z :=
  let* hi := reader_u32 in
  let* lo := reader_u32 in
  read_ret (Z.lor (Z.shiftl hi 32) lo).

Definition reader_bytes (length : nat) : Read (list Z) := fun r =>
  if (r_length r <? r_position r + length)%nat then (None, r)
  else (Some (take length (drop (r_position r) (r_data r))),
        r <| r_position := (r_position r + length)%nat |>).

Definition reader_remaining (r : Reader) : nat :=
  (r_length r - r_position r)%nat.

(** A decoder keeps the reader next to its other local variables; a chained
    [reader.u32(x)] stores into [x] through [set]. *)
Definition read_into {A L} (m : Read A) (set : A -> L -> L) : Step (Reader * L) :=
  fun '(r, l) =>
  let '(o, r') := m r in
  match o with Some a => (true, (r', set a l)) | None => (false, (r', l)) end.

(** ** Big-endian encodings *)

Definition be16 (v : Z) : list Z := [wrap 8 (Z.shiftr v 8); wrap 8 v].

Definition be32 (v : Z) : list Z :=
  [wrap 8 (Z.shiftr v 24); wrap 8 (Z.shiftr v 16); wrap 8 (Z.shiftr v 8);
   wrap 8 v].

Definition be_value (l : list Z) : Z := foldl (fun acc b => acc * 256 + b) 0 l.

Ltac word_consts :=
  unfold is_u, be_value in *; cbn [foldl] in *;
  change (2 ^ 8) with 256 in *; change (2 ^ 16) with 65536 in *;
  change (2 ^ 24) with 16777216 in *; change (2 ^ 32) with 4294967296 in *.

Lemma lor16 a b : is_byte a -> is_byte b ->
  wrap 16 (Z.lor (Z.shiftl a 8) b) = be_value [a; b].
Proof.
  intros. rewrite shiftl_lor_add by (word_consts; lia).
  rewrite wrap_id; word_consts; lia.
Qed.

Lemma lor32 a b c d : is_byte a -> is_byte b -> is_byte c -> is_byte d ->
  Z.lor (Z.lor (Z.lor (Z.shiftl a 24) (Z.shiftl b 16)) (Z.shiftl c 8)) d =
  be_value [a; b; c; d].
Proof.
  intros Ha Hb Hc Hd.
  assert (Z.shiftl a 24 = Z.shiftl (Z.shiftl a 8) 16) as ->
    by (by rewrite Z.shiftl_shiftl by lia).
  rewrite <- Z.shiftl_lor, (shiftl_lor_add a b) by (word_consts; lia).
  assert (forall x, Z.shiftl x 16 = Z.shiftl (Z.shiftl x 8) 8) as ->
    by (intros; by rewrite Z.shiftl_shiftl by lia).
  rewrite <- Z.shiftl_lor, (shiftl_lor_add _ c) by (word_consts; lia).
  rewrite (shiftl_lor_add _ d) by (word_consts; lia).
  word_consts. lia.
Qed.

Lemma wrap8_shiftr v n : 0 <= n -> wrap 8 (Z.shiftr v n) = (v / 2 ^ n) mod 256.
Proof. intros. unfold wrap. by rewrite Z.shiftr_div_pow2. Qed.

Lemma be16_value v : is_u 16 v -> be_value (be16 v) = v.
Proof.
  intros. unfold be16. rewrite wrap8_shiftr by lia. unfold wrap.
  word_consts. Z.div_mod_to_equations. lia.
Qed.

Lemma be32_value v : is_u 32 v -> be_value (be32 v) = v.
Proof.
  intros. unfold be32. rewrite !wrap8_shiftr by lia. unfold wrap.
  word_consts. Z.div_mod_to_equations. lia.
Qed.

Lemma value_be16 a b : is_byte a -> is_byte b -> be16 (be_value [a; b]) = [a; b].
Proof.
  intros. unfold be16. rewrite wrap8_shiftr by lia. unfold wrap.
  word_consts. repeat f_equal; Z.div_mod_to_equations; lia.
Qed.

Lemma value_be32 a b c d :
  is_byte a -> is_byte b -> is_byte c -> is_byte d ->
  be32 (be_value [a; b; c; d]) = [a; b; c; d].
Proof.
  intros. unfold be32. rewrite !wrap8_shiftr by lia. unfold wrap.
  word_consts. repeat f_equal; Z.div_mod_to_equations; lia.
Qed.

(** The 64-bit words of the queue records. *)
Definition be64 (v : Z) : list Z :=
  be32 (wrap 32 (Z.shiftr v 32)) ++ be32 (wrap 32 v).

Lemma be16_bytes v : bytes_ok (be16 v).
Proof. repeat constructor; apply wrap_range; lia. Qed.

Lemma be32_bytes v : bytes_ok (be32 v).
Proof. repeat constructor; apply wrap_range; lia. Qed.

#[export] Hint Resolve be16_bytes be32_bytes : gateway.

(** ** Writers append

    [push bs w]: [bs] stored at the cursor, the cursor moved past it. *)

Definition writer_ok (w : Writer) : Prop :=
  (w_position w <= w_capacity w <= length (w_data w))%nat.

Definition written (w : Writer) : list Z := take (w_position w) (w_data w).

Definition push (bs : list Z) (w : Writer) : Writer :=
  mkWriter
    (take (w_position w) (w_data w) ++ bs ++
     drop (w_position w + length bs) (w_data w))
    (w_capacity w) (w_position w + length bs).

(** What a failed write leaves: the same buffer length and capacity, and no
    byte at or beyond the capacity touched. *)
Definition contained (w w' : Writer) : Prop :=
  writer_ok w' /\ w_capacity w' = w_capacity w /\
  length (w_data w') = length (w_data w) /\
  drop (w_capacity w) (w_data w') = drop (w_capacity w) (w_data w).

(** [emits m bs]: [m] appends exactly [bs] when it fits below the capacity and
    otherwise answers [false] without writing past the capacity. *)
Record emits (m : Step Writer) (bs : list Z) : Prop := {
  emits_fits w : writer_ok w -> (w_position w + length bs <= w_capacity w)%nat ->
    m w = (true, push bs w);
  emits_full w : writer_ok w -> (w_capacity w < w_position w + length bs)%nat ->
    exists w', m w = (false, w') /\ contained w w';
}.

Lemma length_push bs w :
  writer_ok w -> (w_position w + length bs <= w_capacity w)%nat ->
  length (w_data (push bs w)) = length (w_data w).
Proof.
  unfold writer_ok. intros. simpl.
  rewrite !length_app, length_take, length_drop. lia.
Qed.

Lemma push_ok bs w :
  writer_ok w -> (w_position w + length bs <= w_capacity w)%nat ->
  writer_ok (push bs w).
Proof.
  intros Hw Hf. pose proof (length_push bs w Hw Hf) as Hl.
  unfold writer_ok in *. simpl in *. lia.
Qed.

Lemma written_push bs w :
  writer_ok w -> (w_position w + length bs <= w_capacity w)%nat ->
  written (push bs w) = written w ++ bs.
Proof.
  unfold writer_ok, written. intros. simpl. rewrite app_assoc.
  apply take_app_length'. rewrite length_app, length_take. lia.
Qed.

Lemma push_beyond bs w n :
  writer_ok w -> (w_position w + length bs <= n)%nat ->
  (n <= length (w_data w))%nat ->
  drop n (w_data (push bs w)) = drop n (w_data w).
Proof.
  unfold writer_ok. intros. simpl.
  rewrite app_assoc, drop_app_ge;
    rewrite length_app, length_take, Nat.min_l by lia; [|lia].
  rewrite drop_drop. f_equal. lia.
Qed.

Lemma push_push b1 b2 w :
  writer_ok w -> (w_position w + length b1 + length b2 <= w_capacity w)%nat ->
  push b2 (push b1 w) = push (b1 ++ b2) w.
Proof.
  intros Hw Hf. pose proof (written_push b1 w Hw ltac:(lia)) as E.
  unfold written in E. unfold push at 1. rewrite E.
  simpl w_capacity. simpl w_position.
  rewrite (push_beyond b1 w) by (unfold writer_ok in *; lia).
  unfold push. rewrite length_app. f_equal; [|lia].
  unfold written. rewrite <- !app_assoc. do 4 f_equal. lia.
Qed.

Lemma push_nil w : writer_ok w -> push [] w = w.
Proof.
  destruct w. unfold push, writer_ok. simpl. intros.
  rewrite Nat.add_0_r, take_drop. done.
Qed.

Lemma contained_trans w1 w2 w3 :
  contained w1 w2 -> contained w2 w3 -> contained w1 w3.
Proof. unfold contained. intros (?&E&?&?) (?&?&?&?). rewrite E in *. naive_solver congruence. Qed.

Lemma contained_push bs w :
  writer_ok w -> (w_position w + length bs <= w_capacity w)%nat ->
  contained w (push bs w).
Proof.
  intros Hw Hf. split_and!; [by apply push_ok|done|by apply length_push|].
  apply push_beyond; unfold writer_ok in *; lia.
Qed.

Lemma emits_nil : emits (step_ret true) [].
Proof.
  split; unfold step_ret; intros w Hw Hl; simpl in *.
  - by rewrite push_nil.
  - unfold writer_ok in Hw. lia.
Qed.

Lemma emits_and m1 m2 b1 b2 :
  emits m1 b1 -> emits m2 b2 -> emits (m1 &>> m2) (b1 ++ b2).
Proof.
  intros E1 E2. split; intros w Hw; rewrite length_app; intros Hf;
    unfold and_then.
  - rewrite (emits_fits _ _ E1) by (try assumption; lia). cbn beta iota.
    rewrite (emits_fits _ _ E2).
    + rewrite push_push by (try assumption; lia). done.
    + apply push_ok; [done|lia].
    + simpl. lia.
  - destruct (decide (w_position w + length b1 <= w_capacity w)%nat).
    + rewrite (emits_fits _ _ E1) by (try assumption; lia). cbn beta iota.
      destruct (emits_full _ _ E2 (push b1 w)) as (w' & -> & Hc);
        [apply push_ok; [done|lia] | simpl; lia |].
      exists w'. split; [done|].
      eapply contained_trans; [|done]. apply contained_push; [done|lia].
    + destruct (emits_full _ _ E1 w) as (w' & -> & Hc); [done|lia|eauto].
Qed.

Lemma emits_u8 v : emits (writer_u8 v) [v].
Proof.
  split; intros w Hw Hf; unfold writer_u8; unfold writer_ok in Hw;
    simpl in Hf.
  - destruct (Nat.leb_spec (w_capacity w) (w_position w)); [lia|].
    f_equal. destruct w as [d c p]. unfold push; simpl in *.
    rewrite insert_take_drop by lia. rewrite Nat.add_1_r. done.
  - destruct (Nat.leb_spec (w_capacity w) (w_position w)); [|lia].
    exists w. unfold contained, writer_ok. split_and!; (done || lia).
Qed.

Lemma emits_u16 v : emits (writer_u16 v) (be16 v).
Proof. apply (emits_and _ _ [_] [_]); apply emits_u8. Qed.

Lemma emits_u32 v : emits (writer_u32 v) (be32 v).
Proof.
  apply (emits_and _ _ [_] [_; _; _]); [apply emits_u8|].
  apply (emits_and _ _ [_] [_; _]); [apply emits_u8|].
  apply (emits_and _ _ [_] [_]); apply emits_u8.
Qed.

Lemma emits_bytes bs n : (n <= length bs)%nat ->
  emits (writer_bytes (Some bs) n) (take n bs).
Proof.
  intros Hn. assert (length (take n bs) = n) as Hl by (rewrite length_take; lia).
  split; rewrite Hl; intros w Hw Hf; unfold writer_bytes.
  - destruct (Nat.ltb_spec (w_capacity w) (w_position w + n)); [lia|].
    destruct w. unfold push. cbn. rewrite Hl. done.
  - destruct (Nat.ltb_spec (w_capacity w) (w_position w + n)); [|lia].
    exists w. split; [done|]. unfold contained. naive_solver.
Qed.

#[export] Hint Resolve emits_nil emits_and emits_u8 emits_u16 emits_u32
  emits_bytes : gateway.

(** ** Readers consume

    [rest r]: the bytes between the cursor and the end of the input. *)

Definition rest (r : Reader) : list Z :=
  drop (r_position r) (take (r_length r) (r_data r)).

Definition advance (n : nat) (r : Reader) : Reader :=
  mkReader (r_data r) (r_length r) (r_position r + n).

(** The cursor is inside the input, in front of the bytes [bs]. *)
Definition at_bytes (r : Reader) (bs : list Z) : Prop :=
  (r_position r <= r_length r <= length (r_data r))%nat /\ rest r = bs.

(** [format m n enc ok]: [m] reads exactly the [n]-byte encodings [enc a] of
    the values that satisfy [ok], and fails on shorter input. *)
Record format {A} (m : Read A) (n : nat) (enc : A -> list Z) (ok : A -> Prop)
  : Prop := {
  format_length a : ok a -> length (enc a) = n;
  format_bytes a : ok a -> bytes_ok (enc a);
  format_enc a r tl : ok a -> at_bytes r (enc a ++ tl) ->
    m r = (Some a, advance n r);
  format_dec r bs : at_bytes r bs -> bytes_ok bs -> (n <= length bs)%nat ->
    exists a, ok a /\ m r = (Some a, advance n r) /\ bs = enc a ++ drop n bs;
  format_short r bs : at_bytes r bs -> (length bs < n)%nat ->
    exists r', m r = (None, r');
}.

Lemma at_bytes_advance r b1 b2 n :
  at_bytes r (b1 ++ b2) -> length b1 = n -> at_bytes (advance n r) b2.
Proof.
  intros [Hr E] <-. assert (length (rest r) = length (b1 ++ b2)) as Hl by congruence.
  unfold rest in *. rewrite length_drop, length_take, length_app in Hl.
  split; [simpl; lia|]. unfold rest. simpl. rewrite <- drop_drop, E.
  by rewrite drop_app_length.
Qed.

Lemma at_bytes_remaining r bs : at_bytes r bs -> reader_remaining r = length bs.
Proof.
  intros [Hr <-]. unfold rest, reader_remaining.
  rewrite length_drop, length_take. lia.
Qed.

Lemma at_bytes_reader data n :
  (n <= length data)%nat -> at_bytes (reader data n) (take n data).
Proof. intros. split; simpl; [lia|]. done. Qed.

Lemma at_bytes_nil r : at_bytes r [] -> (r_length r <= r_position r)%nat.
Proof. intros H. apply at_bytes_remaining in H. unfold reader_remaining in H. simpl in H. lia. Qed.

Lemma reader_u8_cons r b bs :
  at_bytes r (b :: bs) -> reader_u8 r = (Some b, advance 1 r).
Proof.
  intros H. pose proof (at_bytes_remaining _ _ H) as Hl.
  unfold reader_remaining in Hl. simpl in Hl. destruct H as [Hr E].
  unfold reader_u8. destruct (Nat.leb_spec (r_length r) (r_position r)); [lia|].
  assert (nth (r_position r) (r_data r) 0 = b) as ->.
  { assert (take (r_length r) (r_data r) !! (r_position r + 0)%nat = Some b) as Hb
      by (rewrite <- lookup_drop; unfold rest in E; by rewrite E).
    rewrite Nat.add_0_r in Hb. apply lookup_take_Some in Hb as [Hb _].
    by apply nth_lookup_Some. }
  destruct r. unfold advance. cbn. rewrite Nat.add_1_r. done.
Qed.

Lemma reader_u8_nil r : at_bytes r [] -> reader_u8 r = (None, r).
Proof.
  intros H. apply at_bytes_nil in H. unfold reader_u8.
  destruct (Nat.leb_spec (r_length r) (r_position r)); [done|lia].
Qed.

Lemma advance_advance m n r : advance m (advance n r) = advance (n + m) r.
Proof. unfold advance. simpl. f_equal. lia. Qed.

Lemma advance_0 r : advance 0 r = r.
Proof. destruct r. unfold advance. cbn. by rewrite Nat.add_0_r. Qed.

Lemma at_bytes_tail r b bs : at_bytes r (b :: bs) -> at_bytes (advance 1 r) bs.
Proof. intros H. by apply (at_bytes_advance r [b]). Qed.

(** One byte of a multi-byte read, or the end of the input. *)
Ltac read_byte H :=
  let bs := lazymatch type of H with at_bytes _ ?bs => bs end in
  lazymatch bs with
  | [] => rewrite (reader_u8_nil _ H); cbn beta iota
  | _ :: _ => rewrite (reader_u8_cons _ _ _ H); cbn beta iota;
              apply at_bytes_tail in H; rewrite ?advance_advance in *
  end.

Lemma format_u8 : format reader_u8 1 (fun v => [v]) is_byte.
Proof.
  split; intros.
  - done.
  - by constructor.
  - by apply (reader_u8_cons _ _ tl).
  - destruct bs as [|b bs]; simpl in *; [lia|].
    exists b. apply Forall_cons in H0 as [Hb _]. split_and!; try done.
    by apply (reader_u8_cons _ _ bs).
  - destruct bs; simpl in *; [|lia]. rewrite (reader_u8_nil r) by done. eauto.
Qed.

Lemma reader_u16_cons r a b tl :
  is_byte a -> is_byte b -> at_bytes r (a :: b :: tl) ->
  reader_u16 r = (Some (be_value [a; b]), advance 2 r).
Proof.
  intros Ha Hb H. unfold reader_u16, read_bind, read_ret.
  do 2 read_byte H. rewrite lor16 by done. done.
Qed.

Lemma reader_u32_cons r a b c d tl :
  is_byte a -> is_byte b -> is_byte c -> is_byte d ->
  at_bytes r (a :: b :: c :: d :: tl) ->
  reader_u32 r = (Some (be_value [a; b; c; d]), advance 4 r).
Proof.
  intros Ha Hb Hc Hd H. unfold reader_u32, read_bind, read_ret.
  do 4 read_byte H. rewrite lor32 by done. done.
Qed.

Lemma be_value_u16 a b : is_byte a -> is_byte b -> is_u 16 (be_value [a; b]).
Proof. intros. word_consts. lia. Qed.

Lemma be_value_u32 a b c d :
  is_byte a -> is_byte b -> is_byte c -> is_byte d ->
  is_u 32 (be_value [a; b; c; d]).
Proof. intros. word_consts. lia. Qed.

Ltac known_bytes :=
  repeat match goal with
  | H : bytes_ok (_ :: _) |- _ => apply Forall_cons in H as [? H]
  end.

Ltac split_bytes bs n :=
  lazymatch n with
  | O => idtac
  | S ?n' => destruct bs as [|? bs]; cbn [length] in *; try lia; split_bytes bs n'
  end.

Lemma format_u16 : format reader_u16 2 be16 (is_u 16).
Proof.
  split; intros.
  - done.
  - auto with gateway.
  - rewrite (reader_u16_cons r (wrap 8 (Z.shiftr a 8)) (wrap 8 a) tl)
      by (done || (apply wrap_range; lia)).
    do 2 f_equal. by apply (be16_value a).
  - split_bytes bs 2%nat. known_bytes. eexists.
    split_and!; [|eapply reader_u16_cons; [| |eassumption]; assumption|].
    + by apply be_value_u16.
    + by rewrite value_be16.
  - unfold reader_u16, read_bind, read_ret.
    destruct bs as [|? [|? bs]]; simpl in *; try lia; repeat read_byte H; eauto.
Qed.

Lemma format_u32 : format reader_u32 4 be32 (is_u 32).
Proof.
  split; intros.
  - done.
  - auto with gateway.
  - rewrite (reader_u32_cons r (wrap 8 (Z.shiftr a 24)) (wrap 8 (Z.shiftr a 16))
               (wrap 8 (Z.shiftr a 8)) (wrap 8 a) tl)
      by (done || (apply wrap_range; lia)).
    do 2 f_equal. by apply (be32_value a).
  - split_bytes bs 4%nat. known_bytes. eexists.
    split_and!; [|eapply reader_u32_cons; [| | | |eassumption]; assumption|].
    + by apply be_value_u32.
    + by rewrite value_be32.
  - unfold reader_u32, read_bind, read_ret.
    destruct bs as [|? [|? [|? [|? bs]]]]; simpl in *; try lia;
      repeat read_byte H; eauto.
Qed.

(** 64-bit words, as two 32-bit ones. *)

Lemma be64_bytes v : bytes_ok (be64 v).
Proof. unfold be64. apply Forall_app. auto with gateway. Qed.

Lemma wrap_shiftr v n w : 0 <= n -> wrap w (Z.shiftr v n) = (v / 2 ^ n) mod 2 ^ w.
Proof. intros. unfold wrap. by rewrite Z.shiftr_div_pow2. Qed.

Lemma word64_join v :
  is_u 64 v ->
  Z.lor (Z.shiftl (wrap 32 (Z.shiftr v 32)) 32) (wrap 32 v) = v.
Proof.
  intros Hv. unfold is_u in Hv.
  rewrite shiftl_lor_add by (try apply wrap_range; lia).
  rewrite wrap_shiftr by lia. unfold wrap. change (2 ^ 64) with (2 ^ 32 * 2 ^ 32) in Hv.
  rewrite (Z.mod_small (v / _)) by (split; [apply Z.div_pos; lia|apply Z.div_lt_upper_bound; lia]).
  pose proof (Z.div_mod v (2 ^ 32) ltac:(lia)). lia.
Qed.

Lemma word64_split hi lo :
  is_u 32 hi -> is_u 32 lo ->
  let v := Z.lor (Z.shiftl hi 32) lo in
  is_u 64 v /\ wrap 32 (Z.shiftr v 32) = hi /\ wrap 32 v = lo.
Proof.
  intros Hh Hl v. assert (v = hi * 2 ^ 32 + lo) as E by (apply shiftl_lor_add; [lia|done]).
  unfold is_u in *. change (2 ^ 64) with (2 ^ 32 * 2 ^ 32).
  rewrite wrap_shiftr by lia. unfold wrap. rewrite E. split_and!; [nia|nia| |].
  - rewrite Z.div_add_l, (Z.div_small lo) by lia. rewrite Z.add_0_r. by apply Z.mod_small.
  - rewrite Z.add_comm, Z_mod_plus_full. by apply Z.mod_small.
Qed.

Lemma format_u64 : format reader_u64 8 be64 (is_u 64).
Proof.
  split.
  - done.
  - intros. apply be64_bytes.
  - intros a r tl Ha H. unfold reader_u64, read_bind, read_ret, be64 in *.
    rewrite <- app_assoc in H.
    rewrite (format_enc _ _ _ _ format_u32 (wrap 32 (Z.shiftr a 32)) r _)
      by (done || (apply wrap_range; lia)). cbn beta iota.
    apply (at_bytes_advance _ _ _ 4) in H; [|done].
    rewrite (format_enc _ _ _ _ format_u32 (wrap 32 a) _ tl)
      by (done || (apply wrap_range; lia)). cbn beta iota.
    rewrite word64_join, advance_advance by done. done.
  - intros r bs H Hb Hl. unfold reader_u64, read_bind, read_ret, be64.
    destruct (format_dec _ _ _ _ format_u32 r bs H Hb ltac:(lia)) as (hi & Hhi & -> & E1).
    rewrite E1 in H. apply (at_bytes_advance _ _ _ 4) in H; [|done].
    destruct (format_dec _ _ _ _ format_u32 _ _ H) as (lo & Hlo & -> & E2);
      [by apply Forall_drop|rewrite length_drop; lia|].
    destruct (word64_split hi lo Hhi Hlo) as (Hv & Eh & El).
    eexists. split_and!; [exact Hv|by rewrite advance_advance|].
    rewrite Eh, El, <- app_assoc. rewrite E1 at 1. f_equal.
    by rewrite E2, drop_drop at 1.
  - intros r bs H Hl. unfold reader_u64, read_bind, read_ret.
    destruct (decide (length bs < 4)%nat) as [Hs|Hs].
    { destruct (format_short _ _ _ _ format_u32 r bs H Hs) as (r' & ->). eauto. }
    split_bytes bs 4%nat. unfold reader_u32, read_bind, read_ret.
    do 4 read_byte H.
    destruct bs as [|? [|? [|? [|? bs]]]]; simpl in *; try lia; repeat read_byte H; eauto.
Qed.

Lemma format_read_bytes n :
  format (reader_bytes n) n (fun l => l) (fun l => length l = n /\ bytes_ok l).
Proof.
  split.
  - by intros a [? _].
  - by intros a [_ ?].
  - intros a r tl [Hl Hb] Hat. pose proof (at_bytes_remaining _ _ Hat) as Hr.
    unfold reader_remaining in Hr. rewrite length_app in Hr.
    destruct Hat as [Hin E]. unfold reader_bytes.
    destruct (Nat.ltb_spec (r_length r) (r_position r + n)); [lia|].
    destruct r as [d len p]. unfold advance, rest in *. cbn in *. do 2 f_equal.
    assert (take n (drop p d) = take n (drop p (take len d))) as ->.
    { rewrite !take_drop_commute, take_take. do 2 f_equal. lia. }
    rewrite E. by apply take_app_length'.
  - intros r bs Hat Hb Hl. exists (take n bs).
    split_and!; [rewrite length_take; lia|by apply Forall_take| |by rewrite take_drop].
    pose proof (at_bytes_remaining _ _ Hat) as Hr. unfold reader_remaining in Hr.
    destruct Hat as [Hin E]. unfold reader_bytes.
    destruct (Nat.ltb_spec (r_length r) (r_position r + n)); [lia|].
    destruct r as [d len p]. unfold advance, rest in *. cbn in *. do 2 f_equal.
    rewrite <- E, !take_drop_commute, take_take. do 2 f_equal. lia.
  - intros r bs Hat Hl. pose proof (at_bytes_remaining _ _ Hat) as Hr.
    unfold reader_remaining in Hr. unfold reader_bytes.
    destruct (Nat.ltb_spec (r_length r) (r_position r + n)); [eauto|lia].
Qed.

(** A chained read followed by the rest of the chain, forwards ... *)
Lemma read_into_enc {A L} (m : Read A) n enc ok set (k : Step (Reader * L))
    a r l tl :
  format m n enc ok -> at_bytes r (enc a ++ tl) -> ok a ->
  (read_into m set &>> k) (r, l) = k (advance n r, set a l) /\
  at_bytes (advance n r) tl.
Proof.
  intros F Hat Ha. split.
  - unfold and_then, read_into. by rewrite (format_enc _ _ _ _ F a r tl).
  - eapply at_bytes_advance; [done|]. by apply (format_length _ _ _ _ F).
Qed.

(** ... and backwards, from the success of the chain. *)
Lemma read_into_dec {A L} (m : Read A) n enc ok set (k : Step (Reader * L))
    r l bs s' :
  format m n enc ok -> at_bytes r bs -> bytes_ok bs ->
  (read_into m set &>> k) (r, l) = (true, s') ->
  exists a tl, ok a /\ bs = enc a ++ tl /\ bytes_ok tl /\
    at_bytes (advance n r) tl /\ k (advance n r, set a l) = (true, s').
Proof.
  intros F Hat Hb H. unfold and_then, read_into in H.
  destruct (decide (n <= length bs)%nat) as [Hl|Hl].
  - destruct (format_dec _ _ _ _ F r bs Hat Hb Hl) as (a & Ha & E & Eb).
    rewrite E in H. exists a, (drop n bs). split_and!; try done.
    + by apply Forall_drop.
    + rewrite Eb in Hat. eapply at_bytes_advance; [done|].
      by apply (format_length _ _ _ _ F).
  - destruct (format_short _ _ _ _ F r bs Hat ltac:(lia)) as (r' & E).
    rewrite E in H. done.
Qed.

(** The last read of a chain. *)
Lemma read_into_enc_last {A L} (m : Read A) n enc ok (set : A -> L -> L) a r l tl :
  format m n enc ok -> at_bytes r (enc a ++ tl) -> ok a ->
  read_into m set (r, l) = (true, (advance n r, set a l)) /\
  at_bytes (advance n r) tl.
Proof.
  intros F H Ha. rewrite <- and_then_ret. by eapply (read_into_enc m n enc ok set).
Qed.

Lemma read_into_dec_last {A L} (m : Read A) n enc ok (set : A -> L -> L) r l bs s' :
  format m n enc ok -> at_bytes r bs -> bytes_ok bs ->
  read_into m set (r, l) = (true, s') ->
  exists a tl, ok a /\ bs = enc a ++ tl /\ bytes_ok tl /\
    at_bytes (advance n r) tl /\ s' = (advance n r, set a l).
Proof.
  intros F Hat Hb H. rewrite <- and_then_ret in H.
  destruct (read_into_dec m n enc ok set _ r l bs s' F Hat Hb H)
    as (a & tl & ? & ? & ? & ? & [= <-]). eauto 10.
Qed.

#[export] Hint Resolve format_u8 format_u16 format_u32 format_u64 format_read_bytes : gateway.

(** How much input a chain of reads needs: it succeeds exactly on [n] bytes or
    more, whatever the bytes are. *)
Record consumes {L} (m : Step (Reader * L)) (n : nat) : Prop := {
  consumes_ok r l bs : at_bytes r bs -> bytes_ok bs -> (n <= length bs)%nat ->
    exists l', m (r, l) = (true, (advance n r, l'));
  consumes_short r l bs : at_bytes r bs -> bytes_ok bs -> (length bs < n)%nat ->
    exists s', m (r, l) = (false, s');
}.

Lemma consumes_read {A L} (m : Read A) n enc ok (set : A -> L -> L) :
  format m n enc ok -> consumes (read_into m set) n.
Proof.
  intros F. split; intros r l bs Hat Hb Hl; unfold read_into.
  - destruct (format_dec _ _ _ _ F r bs Hat Hb Hl) as (a & _ & -> & _). eauto.
  - destruct (format_short _ _ _ _ F r bs Hat Hl) as (r' & ->). eauto.
Qed.

Lemma consumes_and {L} (m1 m2 : Step (Reader * L)) n1 n2 :
  consumes m1 n1 -> consumes m2 n2 -> consumes (m1 &>> m2) (n1 + n2).
Proof.
  intros C1 C2.
  assert (forall r bs, at_bytes r bs -> (n1 <= length bs)%nat ->
            at_bytes (advance n1 r) (drop n1 bs)) as Hadv.
  { intros r bs Hat Hl. eapply at_bytes_advance.
    - by rewrite take_drop.
    - rewrite length_take. lia. }
  split; intros r l bs Hat Hb Hl; unfold and_then.
  - destruct (consumes_ok _ _ C1 r l bs) as (l1 & ->); [done..|lia|].
    destruct (consumes_ok _ _ C2 (advance n1 r) l1 (drop n1 bs)) as (l2 & ->).
    + apply Hadv; [done|lia].
    + by apply Forall_drop.
    + rewrite length_drop. lia.
    + rewrite advance_advance. eauto.
  - destruct (decide (n1 <= length bs)%nat) as [H1|H1].
    + destruct (consumes_ok _ _ C1 r l bs) as (l1 & ->); [done..|].
      destruct (consumes_short _ _ C2 (advance n1 r) l1 (drop n1 bs)) as (s & ->).
      * by apply Hadv.
      * by apply Forall_drop.
      * rewrite length_drop. lia.
      * eauto.
    + destruct (consumes_short _ _ C1 r l bs) as (s & ->); [done..|lia|eauto].
Qed.

Lemma consumes_ret {L} : consumes (step_ret true : Step (Reader * L)) 0.
Proof.
  split; intros r l bs Hat Hb Hl; [|lia]. exists l. unfold step_ret, advance.
  destruct r. cbn. rewrite Nat.add_0_r. done.
Qed.

Lemma consumes_read_and {A L} (m : Read A) n1 enc ok (set : A -> L -> L) k n :
  format m n1 enc ok -> (n1 <= n)%nat -> consumes k (n - n1) ->
  consumes (read_into m set &>> k) n.
Proof.
  intros F Hn C. replace n with (n1 + (n - n1))%nat by lia.
  apply consumes_and; [by eapply consumes_read|done].
Qed.

Ltac solve_consumes :=
  repeat (eapply consumes_read_and; [eauto with gateway|vm_compute; lia|]);
  eapply consumes_read; 
    (apply format_u8 || apply format_u16 || apply format_u32 || apply format_u64).

(** ** Running a chain of reads

    [read_chain_enc H] runs the chain of the goal on the bytes [H] says are at
    the cursor, to the last read; [read_chain_dec H Hat Hb] recovers from its
    success [H] the bytes each read found. *)

Ltac read_enc_with F H :=
  let E := fresh "E" in let H' := fresh "H" in
  lazymatch goal with
  | |- context [(read_into ?m ?set &>> ?k) (?r, ?l)] =>
      destruct (read_into_enc m _ _ _ set k _ r l _ F H) as [E H']
  | |- context [read_into ?m ?set (?r, ?l)] =>
      destruct (read_into_enc_last m _ _ _ set _ r l _ F H) as [E H']
  end;
  [ try eassumption
  | rewrite E; clear E H; rename H' into H;
    rewrite ?advance_advance in H |- *; cbn [Nat.add] in H |- * ].

Ltac read_chain_enc H :=
  repeat lazymatch goal with
  | |- context [(read_into reader_u8 _ &>> _) _] => read_enc_with format_u8 H
  | |- context [(read_into reader_u16 _ &>> _) _] => read_enc_with format_u16 H
  | |- context [(read_into reader_u32 _ &>> _) _] => read_enc_with format_u32 H
  | |- context [(read_into reader_u64 _ &>> _) _] => read_enc_with format_u64 H
  | |- context [read_into reader_u8 _ (_, _)] => read_enc_with format_u8 H
  | |- context [read_into reader_u16 _ (_, _)] => read_enc_with format_u16 H
  | |- context [read_into reader_u32 _ (_, _)] => read_enc_with format_u32 H
  | |- context [read_into reader_u64 _ (_, _)] => read_enc_with format_u64 H
  end.

Ltac read_dec_with F H Hat Hb :=
  let a := fresh "v" in let tl := fresh "tl" in
  let Ha := fresh "Hv" in let E := fresh "Hbytes" in
  let Hb' := fresh "Hb" in let Hat' := fresh "Hat" in let H' := fresh "H" in
  lazymatch type of H with
  | (read_into ?m ?set &>> ?k) (?r, ?l) = _ =>
      destruct (read_into_dec m _ _ _ set k r l _ _ F Hat Hb H)
        as (a & tl & Ha & E & Hb' & Hat' & H')
  | read_into ?m ?set (?r, ?l) = _ =>
      destruct (read_into_dec_last m _ _ _ set r l _ _ F Hat Hb H)
        as (a & tl & Ha & E & Hb' & Hat' & H')
  end;
  clear Hat Hb H; rename Hat' into Hat; rename Hb' into Hb; rename H' into H;
  rewrite ?advance_advance in Hat, H; cbn [Nat.add] in Hat, H; subst.

Ltac read_chain_dec H Hat Hb :=
  repeat lazymatch type of H with
  | (read_into reader_u8 _ &>> _) _ = _ => read_dec_with format_u8 H Hat Hb
  | (read_into reader_u16 _ &>> _) _ = _ => read_dec_with format_u16 H Hat Hb
  | (read_into reader_u32 _ &>> _) _ = _ => read_dec_with format_u32 H Hat Hb
  | (read_into reader_u64 _ &>> _) _ = _ => read_dec_with format_u64 H Hat Hb
  | read_into reader_u8 _ (_, _) = _ => read_dec_with format_u8 H Hat Hb
  | read_into reader_u16 _ (_, _) = _ => read_dec_with format_u16 H Hat Hb
  | read_into reader_u32 _ (_, _) = _ => read_dec_with format_u32 H Hat Hb
  | read_into reader_u64 _ (_, _) = _ => read_dec_with format_u64 H Hat Hb
  end.
