(* ===== verification/Protocol.v ===== *)
(** * LoRa Protocol 3 (lib/protocol)

    The three packet types, their encoders and decoders, as protocol.cpp writes
    them over the cursors of ByteIO, and the enumerations with their names.
    Record fields carry a prefix per struct: [tp_] for TelemetryPacket, [ack_]
    for AckCommandPacket, [cr_] for CommandResultPacket. *)

From Stdlib Require Import ZArith Lia String.
From S2P Require Import Prelude BuildConfig CString ByteIO.

(** ** Constants (protocol.hpp) *)

Definition kMagic0 : Z := 0x47.
Definition kMagic1 : Z := 0x54.
Definition kVersion : Z := 3.
Definition kAckTimeValid : Z := Z.shiftl 1 0.
Definition kDistanceUnavailable : Z := UINT32_MAX.
Definition kTemperatureUnavailable : Z := -32768.
Definition kHumidityUnavailable : Z := 65535.
Definition kCommonHeaderFixedBytes : nat := 5.
Definition kReferenceDistancePayloadOffset : nat := 53.
Definition kReferenceDistanceBytes : nat := 4.
Definition kTelemetryPayloadBytes : nat :=
  kReferenceDistancePayloadOffset + kReferenceDistanceBytes.
Definition kAckCommandFixedPayloadBytes : nat := 19.
Definition kCommandResultPayloadBytes : nat := 15.
Definition kMaximumTelemetryPacketBytes : nat :=
  kCommonHeaderFixedBytes + (kNodeIdCapacity - 1) + kTelemetryPayloadBytes.

(** ** Enumerations *)

Module MessageType.
Inductive t := kTelemetry | kAckCommand | kCommandResult | unnamed (v : Z).
#[export] Instance enum : Enum t := {
  to_u8 e := match e with
    | kTelemetry => 1 | kAckCommand => 2 | kCommandResult => 3
    | unnamed v => v end;
  of_u8 v := if v =? 1 then kTelemetry else if v =? 2 then kAckCommand
    else if v =? 3 then kCommandResult else unnamed v;
}.
#[export] Instance laws : EnumLaws t.
Proof. solve_enum_laws. Qed.
End MessageType.

Module FilterState.
Inductive t :=
  | kStable | kAccepted | kVerifyRise | kVerifyFall | kTransientRejected
  | kChangeConfirmed | kUncertain | kInvalid | unnamed (v : Z).
#[export] Instance enum : Enum t := {
  to_u8 e := match e with
    | kStable => 0 | kAccepted => 1 | kVerifyRise => 2 | kVerifyFall => 3
    | kTransientRejected => 4 | kChangeConfirmed => 5 | kUncertain => 6
    | kInvalid => 7 | unnamed v => v end;
  of_u8 v := if v =? 0 then kStable else if v =? 1 then kAccepted
    else if v =? 2 then kVerifyRise else if v =? 3 then kVerifyFall
    else if v =? 4 then kTransientRejected else if v =? 5 then kChangeConfirmed
    else if v =? 6 then kUncertain else if v =? 7 then kInvalid else unnamed v;
}.
#[export] Instance laws : EnumLaws t.
Proof. solve_enum_laws. Qed.
End FilterState.

Module BootReason.
Inductive t :=
  | kRtcTimer | kRtcScheduledMaintenance | kManualButton | kMaintenanceReboot
  | kOtaReboot | kUnknown | unnamed (v : Z).
#[export] Instance enum : Enum t := {
  to_u8 e := match e with
    | kRtcTimer => 0 | kRtcScheduledMaintenance => 1 | kManualButton => 2
    | kMaintenanceReboot => 3 | kOtaReboot => 4 | kUnknown => 5
    | unnamed v => v end;
  of_u8 v := if v =? 0 then kRtcTimer
    else if v =? 1 then kRtcScheduledMaintenance
    else if v =? 2 then kManualButton else if v =? 3 then kMaintenanceReboot
    else if v =? 4 then kOtaReboot else if v =? 5 then kUnknown else unnamed v;
}.
#[export] Instance laws : EnumLaws t.
Proof. solve_enum_laws. Qed.
End BootReason.

Module RtcState.
Inductive t := kValid | kInvalidVl | kUninitialized | kI2cError | unnamed (v : Z).
#[export] Instance enum : Enum t := {
  to_u8 e := match e with
    | kValid => 0 | kInvalidVl => 1 | kUninitialized => 2 | kI2cError => 3
    | unnamed v => v end;
  of_u8 v := if v =? 0 then kValid else if v =? 1 then kInvalidVl
    else if v =? 2 then kUninitialized else if v =? 3 then kI2cError
    else unnamed v;
}.
#[export] Instance laws : EnumLaws t.
Proof. solve_enum_laws. Qed.
End RtcState.

Module ScheduleState.
Inductive t := kNone | kPending | kCompleted | kFailed | unnamed (v : Z).
#[export] Instance enum : Enum t := {
  to_u8 e := match e with
    | kNone => 0 | kPending => 1 | kCompleted => 2 | kFailed => 3
    | unnamed v => v end;
  of_u8 v := if v =? 0 then kNone else if v =? 1 then kPending
    else if v =? 2 then kCompleted else if v =? 3 then kFailed else unnamed v;
}.
#[export] Instance laws : EnumLaws t.
Proof. solve_enum_laws. Qed.
End ScheduleState.

Module CommandType.
Inductive t :=
  | kNone | kEnterMaintenanceNow | kScheduleMaintenanceAt
  | kSetPollIntervalMinutes | unnamed (v : Z).
#[export] Instance enum : Enum t := {
  to_u8 e := match e with
    | kNone => 0 | kEnterMaintenanceNow => 1 | kScheduleMaintenanceAt => 2
    | kSetPollIntervalMinutes => 3 | unnamed v => v end;
  of_u8 v := if v =? 0 then kNone else if v =? 1 then kEnterMaintenanceNow
    else if v =? 2 then kScheduleMaintenanceAt
    else if v =? 3 then kSetPollIntervalMinutes else unnamed v;
}.
#[export] Instance laws : EnumLaws t.
Proof. solve_enum_laws. Qed.
#[export] Instance t_eq_dec : EqDecision t.
Proof. solve_decision. Defined.
End CommandType.

Module CommandResultCode.
Inductive t :=
  | kApplied | kAlreadyApplied | kInvalidArgument | kRtcUnavailable
  | kRtcTimeUntrusted | kScheduleUnrepresentable | kStorageError
  | kInternalError | kNone | unnamed (v : Z).
#[export] Instance enum : Enum t := {
  to_u8 e := match e with
    | kApplied => 0 | kAlreadyApplied => 1 | kInvalidArgument => 2
    | kRtcUnavailable => 3 | kRtcTimeUntrusted => 4
    | kScheduleUnrepresentable => 5 | kStorageError => 6
    | kInternalError => 7 | kNone => 0xFF | unnamed v => v end;
  of_u8 v := if v =? 0 then kApplied else if v =? 1 then kAlreadyApplied
    else if v =? 2 then kInvalidArgument else if v =? 3 then kRtcUnavailable
    else if v =? 4 then kRtcTimeUntrusted
    else if v =? 5 then kScheduleUnrepresentable
    else if v =? 6 then kStorageError else if v =? 7 then kInternalError
    else if v =? 0xFF then kNone else unnamed v;
}.
#[export] Instance laws : EnumLaws t.
Proof. solve_enum_laws. Qed.
#[export] Instance t_eq_dec : EqDecision t.
Proof. solve_decision. Defined.
End CommandResultCode.

Module DecodeStatus.
Inductive t :=
  | kOk | kBufferTooSmall | kBadMagic | kUnsupportedVersion | kWrongType
  | kInvalidNodeId | kInvalidEnum | kInvalidFlags | kInvalidCommand
  | kTrailingData.
#[export] Instance t_eq_dec : EqDecision t.
Proof. solve_decision. Defined.
End DecodeStatus.

Export (hints) MessageType FilterState BootReason RtcState ScheduleState
  CommandType CommandResultCode DecodeStatus.

(** ** Packets *)

Record TelemetryPacket := mkTelemetryPacket {
  tp_nodeId : list Z;
  tp_persistentSessionId : Z;
  tp_sequence : Z;
  tp_medianEchoUs : Z;
  tp_rawDistanceMm : Z;
  tp_acceptedDistanceMm : Z;
  tp_madMm : Z;
  tp_temperatureCentiC : Z;
  tp_humidityCentiPercent : Z;
  tp_batteryMv : Z;
  tp_validSamples : Z;
  tp_totalSamples : Z;
  tp_filterState : FilterState.t;
  tp_qualityFlags : Z;
  tp_healthFlags : Z;
  tp_bootReason : BootReason.t;
  tp_rtcState : RtcState.t;
  tp_rtcUnixTime : Z;
  tp_pollIntervalMinutes : Z;
  tp_scheduleState : ScheduleState.t;
  tp_scheduledMaintenanceUnix : Z;
  tp_lastCommandId : Z;
  tp_lastCommandType : CommandType.t;
  tp_lastCommandResult : CommandResultCode.t;
  tp_referenceDistanceMm : Z;
}.

Definition TelemetryPacket_init : TelemetryPacket := {|
  tp_nodeId := zeros kNodeIdCapacity;
  tp_persistentSessionId := 0; tp_sequence := 0; tp_medianEchoUs := 0;
  tp_rawDistanceMm := kDistanceUnavailable;
  tp_acceptedDistanceMm := kDistanceUnavailable;
  tp_madMm := 0; tp_temperatureCentiC := kTemperatureUnavailable;
  tp_humidityCentiPercent := kHumidityUnavailable;
  tp_batteryMv := 0; tp_validSamples := 0; tp_totalSamples := 0;
  tp_filterState := FilterState.kInvalid;
  tp_qualityFlags := 0; tp_healthFlags := 0;
  tp_bootReason := BootReason.kUnknown;
  tp_rtcState := RtcState.kUninitialized;
  tp_rtcUnixTime := 0; tp_pollIntervalMinutes := 10;
  tp_scheduleState := ScheduleState.kNone;
  tp_scheduledMaintenanceUnix := 0; tp_lastCommandId := 0;
  tp_lastCommandType := CommandType.kNone;
  tp_lastCommandResult := CommandResultCode.kNone;
  tp_referenceDistanceMm := 0 |}.

Record AckCommandPacket := mkAckCommandPacket {
  ack_nodeId : list Z;
  ack_persistentSessionId : Z;
  ack_sequence : Z;
  ack_gatewayUnixTime : Z;
  ack_timeValid : bool;
  ack_commandId : Z;
  ack_commandType : CommandType.t;
  ack_pollIntervalMinutes : Z;
  ack_scheduledMaintenanceUnix : Z;
}.

Definition AckCommandPacket_init : AckCommandPacket := {|
  ack_nodeId := zeros kNodeIdCapacity;
  ack_persistentSessionId := 0; ack_sequence := 0; ack_gatewayUnixTime := 0;
  ack_timeValid := false; ack_commandId := 0;
  ack_commandType := CommandType.kNone;
  ack_pollIntervalMinutes := 0; ack_scheduledMaintenanceUnix := 0 |}.

Record CommandResultPacket := mkCommandResultPacket {
  cr_nodeId : list Z;
  cr_persistentSessionId : Z;
  cr_commandId : Z;
  cr_commandType : CommandType.t;
  cr_resultCode : CommandResultCode.t;
  cr_effectivePollIntervalMinutes : Z;
  cr_scheduledMaintenanceUnix : Z;
}.

Definition CommandResultPacket_init : CommandResultPacket := {|
  cr_nodeId := zeros kNodeIdCapacity;
  cr_persistentSessionId := 0; cr_commandId := 0;
  cr_commandType := CommandType.kNone;
  cr_resultCode := CommandResultCode.kInternalError;
  cr_effectivePollIntervalMinutes := 0; cr_scheduledMaintenanceUnix := 0 |}.

(** ** Node identifiers and headers *)

Definition validNodeByte (v : Z) : bool :=
  ((65 <=? v) && (v <=? 90)) || ((97 <=? v) && (v <=? 122)) ||
  ((48 <=? v) && (v <=? 57)) || (v =? 45) || (v =? 95).

Definition nodeIdValid (nodeId : ptr (list Z)) : bool :=
  match nodeId with
  | nullptr => false
  | Some s =>
      let length := strnlen s kNodeIdCapacity in
      if (length =? 0)%nat || (kNodeIdCapacity <=? length)%nat then false
      else forallb validNodeByte (take length s)
  end.

Definition writeHeader (type : MessageType.t) (nodeId : ptr (list Z)) : Step Writer :=
  fun w =>
  if negb (nodeIdValid nodeId) then (false, w) else
  let length := strnlen (default [] nodeId) kNodeIdCapacity in
  (writer_u8 kMagic0 &>> writer_u8 kMagic1 &>> writer_u8 kVersion &>>
   writer_u8 (to_u8 type) &>> writer_u8 (wrap 8 (Z.of_nat length)) &>>
   writer_bytes nodeId length) w.

(** The five header bytes are read into locals; [nodeId] is the caller's
    buffer, written in place. *)
Definition readHeader (expected : MessageType.t)
    (s : Reader * list Z) : DecodeStatus.t * (Reader * list Z) :=
  let '(r, nodeId) := s in
  let '(o, r) :=
    (let* m0 := reader_u8 in
     let* m1 := reader_u8 in
     let* version := reader_u8 in
     let* type := reader_u8 in
     let* length := reader_u8 in
     read_ret (m0, m1, version, type, length)) r in
  match o with
  | None => (DecodeStatus.kBufferTooSmall, (r, nodeId))
  | Some (m0, m1, version, type, length) =>
      if negb (m0 =? kMagic0) || negb (m1 =? kMagic1)
      then (DecodeStatus.kBadMagic, (r, nodeId))
      else if negb (version =? kVersion)
      then (DecodeStatus.kUnsupportedVersion, (r, nodeId))
      else if negb (type =? to_u8 expected)
      then (DecodeStatus.kWrongType, (r, nodeId))
      else
        let n := Z.to_nat length in
        if (length =? 0) || (Z.of_nat kNodeIdCapacity <=? length) ||
           (reader_remaining r <? n)%nat
        then (DecodeStatus.kInvalidNodeId, (r, nodeId))
        else
          match reader_bytes n r with
          | (None, r) => (DecodeStatus.kInvalidNodeId, (r, nodeId))
          | (Some bytes, r) =>
              let nodeId := <[n := 0]> (bytes ++ drop n nodeId) in
              if forallb validNodeByte (take n nodeId)
              then (DecodeStatus.kOk, (r, nodeId))
              else (DecodeStatus.kInvalidNodeId, (r, nodeId))
          end
  end.

(** ** Value checks *)

Definition validBoot (v : Z) : bool := v <=? to_u8 BootReason.kUnknown.
Definition validRtc (v : Z) : bool := v <=? to_u8 RtcState.kI2cError.
Definition validSchedule (v : Z) : bool := v <=? to_u8 ScheduleState.kFailed.
Definition validCommand (v : Z) : bool :=
  v <=? to_u8 CommandType.kSetPollIntervalMinutes.
Definition validResult (v : Z) (allowNone : bool) : bool :=
  (v <=? to_u8 CommandResultCode.kInternalError) ||
  (allowNone && (v =? to_u8 CommandResultCode.kNone)).

(** The [switch] is on the enumerators; control reaches its end otherwise. *)
Definition commandPayloadLength (type : CommandType.t) : Z :=
  match type with
  | CommandType.kNone | CommandType.kEnterMaintenanceNow => 0
  | CommandType.kSetPollIntervalMinutes => 1
  | CommandType.kScheduleMaintenanceAt => 4
  | CommandType.unnamed _ => UINT8_MAX
  end.

Definition ackValid (p : AckCommandPacket) : bool :=
  if negb (ack_timeValid p) && negb (ack_gatewayUnixTime p =? 0) then false
  else if enum_eqb (ack_commandType p) CommandType.kNone
  then ack_commandId p =? 0
  else if ack_commandId p =? 0 then false
  else if enum_eqb (ack_commandType p) CommandType.kSetPollIntervalMinutes
  then 1 <=? ack_pollIntervalMinutes p
  else if enum_eqb (ack_commandType p) CommandType.kScheduleMaintenanceAt
  then negb (ack_scheduledMaintenanceUnix p =? 0)
  else enum_eqb (ack_commandType p) CommandType.kEnterMaintenanceNow.

(** ** TELEMETRY *)

(** The encoders answer the buffer as they leave it and the number of bytes
    written ([written], an output parameter). *)
Definition encodeTelemetry (p : TelemetryPacket) (output : ptr (list Z))
    (capacity : nat) : bool * ptr (list Z) * nat :=
  match output with
  | nullptr => (false, output, 0%nat)
  | Some data =>
      if tp_pollIntervalMinutes p =? 0 then (false, output, 0%nat) else
      let '(ok, w) :=
        (writeHeader MessageType.kTelemetry (Some (tp_nodeId p)) &>>
         writer_u32 (tp_persistentSessionId p) &>> writer_u32 (tp_sequence p) &>>
         writer_u32 (tp_medianEchoUs p) &>> writer_u32 (tp_rawDistanceMm p) &>>
         writer_u32 (tp_acceptedDistanceMm p) &>> writer_u16 (tp_madMm p) &>>
         writer_u16 (wrap 16 (tp_temperatureCentiC p)) &>>
         writer_u16 (tp_humidityCentiPercent p) &>> writer_u16 (tp_batteryMv p) &>>
         writer_u8 (tp_validSamples p) &>> writer_u8 (tp_totalSamples p) &>>
         writer_u8 (to_u8 (tp_filterState p)) &>>
         writer_u16 (tp_qualityFlags p) &>> writer_u16 (tp_healthFlags p) &>>
         writer_u8 (to_u8 (tp_bootReason p)) &>>
         writer_u8 (to_u8 (tp_rtcState p)) &>> writer_u32 (tp_rtcUnixTime p) &>>
         writer_u8 (tp_pollIntervalMinutes p) &>>
         writer_u8 (to_u8 (tp_scheduleState p)) &>>
         writer_u32 (tp_scheduledMaintenanceUnix p) &>>
         writer_u32 (tp_lastCommandId p) &>>
         writer_u8 (to_u8 (tp_lastCommandType p)) &>>
         writer_u8 (to_u8 (tp_lastCommandResult p)) &>>
         writer_u32 (tp_referenceDistanceMm p)) (writer data capacity) in
      if ok then (true, Some (w_data w), writer_size w)
      else (false, Some (w_data w), 0%nat)
  end.

(** The packet under construction and the local variables next to it. *)
Record TelemetryLocals := mkTelemetryLocals {
  tl_p : TelemetryPacket;
  tl_temperature : Z;
  tl_filter : Z;
  tl_boot : Z;
  tl_rtc : Z;
  tl_schedule : Z;
  tl_command : Z;
  tl_result : Z;
}.

(** The chain of reads of decodeTelemetry. *)
Definition readTelemetryPayload : Step (Reader * TelemetryLocals) :=
  read_into reader_u32 (fun v l => l <| tl_p->tp_persistentSessionId := v |>) &>>
  read_into reader_u32 (fun v l => l <| tl_p->tp_sequence := v |>) &>>
  read_into reader_u32 (fun v l => l <| tl_p->tp_medianEchoUs := v |>) &>>
  read_into reader_u32 (fun v l => l <| tl_p->tp_rawDistanceMm := v |>) &>>
  read_into reader_u32 (fun v l => l <| tl_p->tp_acceptedDistanceMm := v |>) &>>
  read_into reader_u16 (fun v l => l <| tl_p->tp_madMm := v |>) &>>
  read_into reader_u16 (fun v l => l <| tl_temperature := v |>) &>>
  read_into reader_u16 (fun v l => l <| tl_p->tp_humidityCentiPercent := v |>) &>>
  read_into reader_u16 (fun v l => l <| tl_p->tp_batteryMv := v |>) &>>
  read_into reader_u8 (fun v l => l <| tl_p->tp_validSamples := v |>) &>>
  read_into reader_u8 (fun v l => l <| tl_p->tp_totalSamples := v |>) &>>
  read_into reader_u8 (fun v l => l <| tl_filter := v |>) &>>
  read_into reader_u16 (fun v l => l <| tl_p->tp_qualityFlags := v |>) &>>
  read_into reader_u16 (fun v l => l <| tl_p->tp_healthFlags := v |>) &>>
  read_into reader_u8 (fun v l => l <| tl_boot := v |>) &>>
  read_into reader_u8 (fun v l => l <| tl_rtc := v |>) &>>
  read_into reader_u32 (fun v l => l <| tl_p->tp_rtcUnixTime := v |>) &>>
  read_into reader_u8 (fun v l => l <| tl_p->tp_pollIntervalMinutes := v |>) &>>
  read_into reader_u8 (fun v l => l <| tl_schedule := v |>) &>>
  read_into reader_u32 (fun v l => l <| tl_p->tp_scheduledMaintenanceUnix := v |>) &>>
  read_into reader_u32 (fun v l => l <| tl_p->tp_lastCommandId := v |>) &>>
  read_into reader_u8 (fun v l => l <| tl_command := v |>) &>>
  read_into reader_u8 (fun v l => l <| tl_result := v |>) &>>
  read_into reader_u32 (fun v l => l <| tl_p->tp_referenceDistanceMm := v |>).

(** The checks after the reads: enumerations, then flags; then the casts. *)
Definition checkTelemetry (l : TelemetryLocals) : option DecodeStatus.t :=
  let p := tl_p l in
  if (to_u8 FilterState.kInvalid <? tl_filter l) || negb (validBoot (tl_boot l)) ||
     negb (validRtc (tl_rtc l)) || negb (validSchedule (tl_schedule l)) ||
     negb (validCommand (tl_command l)) ||
     negb (validResult (tl_result l) true) || (tp_pollIntervalMinutes p =? 0)
  then Some DecodeStatus.kInvalidEnum
  else if (negb (tl_rtc l =? to_u8 RtcState.kValid) &&
           negb (tp_rtcUnixTime p =? 0)) ||
          ((tl_schedule l =? to_u8 ScheduleState.kNone) &&
           negb (tp_scheduledMaintenanceUnix p =? 0)) ||
          ((tl_command l =? to_u8 CommandType.kNone) &&
           negb (tp_lastCommandId p =? 0))
  then Some DecodeStatus.kInvalidFlags
  else None.

Definition castTelemetry (l : TelemetryLocals) : TelemetryPacket :=
  let p := tl_p l in
  p <| tp_temperatureCentiC := to_signed 16 (tl_temperature l) |>
    <| tp_filterState := of_u8 (tl_filter l) |>
    <| tp_bootReason := of_u8 (tl_boot l) |>
    <| tp_rtcState := of_u8 (tl_rtc l) |>
    <| tp_scheduleState := of_u8 (tl_schedule l) |>
    <| tp_lastCommandType := of_u8 (tl_command l) |>
    <| tp_lastCommandResult := of_u8 (tl_result l) |>.

Definition decodeTelemetry (input : ptr (list Z)) (length : nat)
    (p : TelemetryPacket) : DecodeStatus.t * TelemetryPacket :=
  match input with
  | nullptr => (DecodeStatus.kBufferTooSmall, p)
  | Some data =>
      let p := TelemetryPacket_init in
      let '(status, (r, nodeId)) :=
        readHeader MessageType.kTelemetry (reader data length, tp_nodeId p) in
      let p := p <| tp_nodeId := nodeId |> in
      if negb (bool_decide (status = DecodeStatus.kOk)) then (status, p) else
      let '(ok, (r, l)) :=
        readTelemetryPayload (r, mkTelemetryLocals p 0 0 0 0 0 0 0) in
      if negb ok then (DecodeStatus.kBufferTooSmall, tl_p l) else
      match checkTelemetry l with
      | Some status => (status, tl_p l)
      | None =>
          (if (reader_remaining r =? 0)%nat then DecodeStatus.kOk
           else DecodeStatus.kTrailingData, castTelemetry l)
      end
  end.

(** ** ACK_COMMAND *)

Definition encodeAckCommand (p : AckCommandPacket) (output : ptr (list Z))
    (capacity : nat) : bool * ptr (list Z) * nat :=
  match output with
  | nullptr => (false, output, 0%nat)
  | Some data =>
      if negb (ackValid p) then (false, output, 0%nat) else
      let payloadLength := commandPayloadLength (ack_commandType p) in
      let '(ok, w) :=
        (writeHeader MessageType.kAckCommand (Some (ack_nodeId p)) &>>
         writer_u32 (ack_persistentSessionId p) &>> writer_u32 (ack_sequence p) &>>
         writer_u32 (ack_gatewayUnixTime p) &>>
         writer_u8 (if ack_timeValid p then kAckTimeValid else 0) &>>
         writer_u32 (ack_commandId p) &>>
         writer_u8 (to_u8 (ack_commandType p)) &>>
         writer_u8 payloadLength &>>
         (if enum_eqb (ack_commandType p) CommandType.kSetPollIntervalMinutes
          then writer_u8 (ack_pollIntervalMinutes p) else step_ret true) &>>
         (if enum_eqb (ack_commandType p) CommandType.kScheduleMaintenanceAt
          then writer_u32 (ack_scheduledMaintenanceUnix p) else step_ret true))
          (writer data capacity) in
      if ok then (true, Some (w_data w), writer_size w)
      else (false, Some (w_data w), 0%nat)
  end.

Record AckLocals := mkAckLocals {
  al_p : AckCommandPacket;
  al_flags : Z;
  al_command : Z;
  al_payloadLength : Z;
}.

Definition readAckFixed : Step (Reader * AckLocals) :=
  read_into reader_u32 (fun v l => l <| al_p->ack_persistentSessionId := v |>) &>>
  read_into reader_u32 (fun v l => l <| al_p->ack_sequence := v |>) &>>
  read_into reader_u32 (fun v l => l <| al_p->ack_gatewayUnixTime := v |>) &>>
  read_into reader_u8 (fun v l => l <| al_flags := v |>) &>>
  read_into reader_u32 (fun v l => l <| al_p->ack_commandId := v |>) &>>
  read_into reader_u8 (fun v l => l <| al_command := v |>) &>>
  read_into reader_u8 (fun v l => l <| al_payloadLength := v |>).

(** The command's argument, when its type carries one. *)
Definition readAckArgument (type : CommandType.t) : Step (Reader * AckCommandPacket) :=
  (if enum_eqb type CommandType.kSetPollIntervalMinutes
   then read_into reader_u8 (fun v p => p <| ack_pollIntervalMinutes := v |>)
   else step_ret true) &>>
  (if enum_eqb type CommandType.kScheduleMaintenanceAt
   then read_into reader_u32 (fun v p => p <| ack_scheduledMaintenanceUnix := v |>)
   else step_ret true).

(** [flags & ~kAckTimeValid]: the bits of the byte other than bit 0. *)
Definition decodeAckCommand (input : ptr (list Z)) (length : nat)
    (p : AckCommandPacket) : DecodeStatus.t * AckCommandPacket :=
  match input with
  | nullptr => (DecodeStatus.kBufferTooSmall, p)
  | Some data =>
      let p := AckCommandPacket_init in
      let '(status, (r, nodeId)) :=
        readHeader MessageType.kAckCommand (reader data length, ack_nodeId p) in
      let p := p <| ack_nodeId := nodeId |> in
      if negb (bool_decide (status = DecodeStatus.kOk)) then (status, p) else
      let '(ok, (r, l)) := readAckFixed (r, mkAckLocals p 0 0 0) in
      let p := al_p l in
      if negb ok then (DecodeStatus.kBufferTooSmall, p)
      else if negb (Z.land (al_flags l) (Z.lnot kAckTimeValid) =? 0)
      then (DecodeStatus.kInvalidFlags, p)
      else if negb (validCommand (al_command l))
      then (DecodeStatus.kInvalidCommand, p)
      else
        let p := p <| ack_timeValid := negb (Z.land (al_flags l) kAckTimeValid =? 0) |>
                   <| ack_commandType := of_u8 (al_command l) |> in
        if negb (al_payloadLength l =? commandPayloadLength (ack_commandType p))
        then (DecodeStatus.kInvalidCommand, p)
        else
          let '(ok, (r, p)) := readAckArgument (ack_commandType p) (r, p) in
          if negb ok then (DecodeStatus.kBufferTooSmall, p)
          else if negb (ackValid p) then (DecodeStatus.kInvalidCommand, p)
          else (if (reader_remaining r =? 0)%nat then DecodeStatus.kOk
                else DecodeStatus.kTrailingData, p)
  end.

(** ** COMMAND_RESULT *)

Definition encodeCommandResult (p : CommandResultPacket) (output : ptr (list Z))
    (capacity : nat) : bool * ptr (list Z) * nat :=
  match output with
  | nullptr => (false, output, 0%nat)
  | Some data =>
      if (cr_commandId p =? 0) || enum_eqb (cr_commandType p) CommandType.kNone ||
         negb (validResult (to_u8 (cr_resultCode p)) false)
      then (false, output, 0%nat) else
      let '(ok, w) :=
        (writeHeader MessageType.kCommandResult (Some (cr_nodeId p)) &>>
         writer_u32 (cr_persistentSessionId p) &>> writer_u32 (cr_commandId p) &>>
         writer_u8 (to_u8 (cr_commandType p)) &>>
         writer_u8 (to_u8 (cr_resultCode p)) &>>
         writer_u8 (cr_effectivePollIntervalMinutes p) &>>
         writer_u32 (cr_scheduledMaintenanceUnix p)) (writer data capacity) in
      if ok then (true, Some (w_data w), writer_size w)
      else (false, Some (w_data w), 0%nat)
  end.

Record CommandResultLocals := mkCommandResultLocals {
  cl_p : CommandResultPacket;
  cl_command : Z;
  cl_result : Z;
}.

Definition readCommandResultPayload : Step (Reader * CommandResultLocals) :=
  read_into reader_u32 (fun v l => l <| cl_p->cr_persistentSessionId := v |>) &>>
  read_into reader_u32 (fun v l => l <| cl_p->cr_commandId := v |>) &>>
  read_into reader_u8 (fun v l => l <| cl_command := v |>) &>>
  read_into reader_u8 (fun v l => l <| cl_result := v |>) &>>
  read_into reader_u8 (fun v l => l <| cl_p->cr_effectivePollIntervalMinutes := v |>) &>>
  read_into reader_u32 (fun v l => l <| cl_p->cr_scheduledMaintenanceUnix := v |>).

Definition decodeCommandResult (input : ptr (list Z)) (length : nat)
    (p : CommandResultPacket) : DecodeStatus.t * CommandResultPacket :=
  match input with
  | nullptr => (DecodeStatus.kBufferTooSmall, p)
  | Some data =>
      let p := CommandResultPacket_init in
      let '(status, (r, nodeId)) :=
        readHeader MessageType.kCommandResult (reader data length, cr_nodeId p) in
      let p := p <| cr_nodeId := nodeId |> in
      if negb (bool_decide (status = DecodeStatus.kOk)) then (status, p) else
      let '(ok, (r, l)) :=
        readCommandResultPayload (r, mkCommandResultLocals p 0 0) in
      let p := cl_p l in
      if negb ok then (DecodeStatus.kBufferTooSmall, p)
      else if negb (validCommand (cl_command l)) || (cl_command l =? 0) ||
              negb (validResult (cl_result l) false) || (cr_commandId p =? 0)
      then (DecodeStatus.kInvalidCommand, p)
      else
        let p := p <| cr_commandType := of_u8 (cl_command l) |>
                   <| cr_resultCode := of_u8 (cl_result l) |> in
        (if (reader_remaining r =? 0)%nat then DecodeStatus.kOk
         else DecodeStatus.kTrailingData, p)
  end.

(** ** Acknowledgements *)

Definition makeAck (telemetry : TelemetryPacket) (gatewayUnix : Z)
    (timeValid : bool) : AckCommandPacket :=
  AckCommandPacket_init
    <| ack_nodeId := strncpy (zeros kNodeIdCapacity) (tp_nodeId telemetry)
                       (kNodeIdCapacity - 1) |>
    <| ack_persistentSessionId := tp_persistentSessionId telemetry |>
    <| ack_sequence := tp_sequence telemetry |>
    <| ack_gatewayUnixTime := if timeValid then gatewayUnix else 0 |>
    <| ack_timeValid := timeValid |>.

Definition ackMatches (ack : AckCommandPacket) (telemetry : TelemetryPacket) : bool :=
  (strncmp (ack_nodeId ack) (tp_nodeId telemetry) kNodeIdCapacity =? 0) &&
  (ack_persistentSessionId ack =? tp_persistentSessionId telemetry) &&
  (ack_sequence ack =? tp_sequence telemetry).

(** ** Names *)

Definition decodeStatusName (status : DecodeStatus.t) : string :=
  match status with
  | DecodeStatus.kOk => "OK"
  | DecodeStatus.kBufferTooSmall => "BUFFER_TOO_SMALL"
  | DecodeStatus.kBadMagic => "BAD_MAGIC"
  | DecodeStatus.kUnsupportedVersion => "UNSUPPORTED_VERSION"
  | DecodeStatus.kWrongType => "WRONG_TYPE"
  | DecodeStatus.kInvalidNodeId => "INVALID_NODE_ID"
  | DecodeStatus.kInvalidEnum => "INVALID_ENUM"
  | DecodeStatus.kInvalidFlags => "INVALID_FLAGS"
  | DecodeStatus.kInvalidCommand => "INVALID_COMMAND"
  | DecodeStatus.kTrailingData => "TRAILING_DATA"
  end.

Definition filterStateName (state : FilterState.t) : string :=
  match state with
  | FilterState.kStable => "STABLE"
  | FilterState.kAccepted => "ACCEPTED"
  | FilterState.kVerifyRise => "VERIFY_RISE"
  | FilterState.kVerifyFall => "VERIFY_FALL"
  | FilterState.kTransientRejected => "TRANSIENT_REJECTED"
  | FilterState.kChangeConfirmed => "CHANGE_CONFIRMED"
  | FilterState.kUncertain => "UNCERTAIN"
  | FilterState.kInvalid => "INVALID"
  | FilterState.unnamed _ => "UNKNOWN"
  end.

Definition bootReasonName (reason : BootReason.t) : string :=
  match reason with
  | BootReason.kRtcTimer => "RTC_TIMER"
  | BootReason.kRtcScheduledMaintenance => "RTC_SCHEDULED_MAINTENANCE"
  | BootReason.kManualButton => "MANUAL_BUTTON"
  | BootReason.kMaintenanceReboot => "MAINTENANCE_REBOOT"
  | BootReason.kOtaReboot => "OTA_REBOOT"
  | BootReason.kUnknown => "UNKNOWN"
  | BootReason.unnamed _ => "UNKNOWN"
  end.

Definition rtcStateName (state : RtcState.t) : string :=
  match state with
  | RtcState.kValid => "VALID"
  | RtcState.kInvalidVl => "INVALID_VL"
  | RtcState.kUninitialized => "UNINITIALIZED"
  | RtcState.kI2cError => "I2C_ERROR"
  | RtcState.unnamed _ => "I2C_ERROR"
  end.

Definition scheduleStateName (state : ScheduleState.t) : string :=
  match state with
  | ScheduleState.kNone => "NONE"
  | ScheduleState.kPending => "PENDING"
  | ScheduleState.kCompleted => "COMPLETED"
  | ScheduleState.kFailed => "FAILED"
  | ScheduleState.unnamed _ => "FAILED"
  end.

Definition commandTypeName (type : CommandType.t) : string :=
  match type with
  | CommandType.kNone => "NONE"
  | CommandType.kEnterMaintenanceNow => "ENTER_MAINTENANCE_NOW"
  | CommandType.kScheduleMaintenanceAt => "SCHEDULE_MAINTENANCE_AT"
  | CommandType.kSetPollIntervalMinutes => "SET_POLL_INTERVAL_MINUTES"
  | CommandType.unnamed _ => "UNKNOWN"
  end.

Definition commandResultName (result : CommandResultCode.t) : string :=
  match result with
  | CommandResultCode.kApplied => "APPLIED"
  | CommandResultCode.kAlreadyApplied => "ALREADY_APPLIED"
  | CommandResultCode.kInvalidArgument => "INVALID_ARGUMENT"
  | CommandResultCode.kRtcUnavailable => "RTC_UNAVAILABLE"
  | CommandResultCode.kRtcTimeUntrusted => "RTC_TIME_UNTRUSTED"
  | CommandResultCode.kScheduleUnrepresentable => "SCHEDULE_UNREPRESENTABLE"
  | CommandResultCode.kStorageError => "STORAGE_ERROR"
  | CommandResultCode.kInternalError => "INTERNAL_ERROR"
  | CommandResultCode.kNone => "NONE"
  | CommandResultCode.unnamed _ => "UNKNOWN"
  end.

#[global] Arguments encodeTelemetry : simpl never.
#[global] Arguments decodeTelemetry : simpl never.
#[global] Arguments encodeAckCommand : simpl never.
#[global] Arguments decodeAckCommand : simpl never.
#[global] Arguments encodeCommandResult : simpl never.
#[global] Arguments decodeCommandResult : simpl never.
