(* ===== verification/ProtocolSpec.v ===== *)
(** * The wire format of Protocol 3

    What the codecs of Protocol promise: the byte layout of each packet type
    ([telemetryWire], [ackWire], [commandResultWire]), the packets that have one
    ([telemetry_wf], [ack_wf], [command_result_wf]), and the theorems that the
    encoders write exactly that layout and the decoders accept exactly it. *)

From Stdlib Require Import ZArith Lia.
From S2P Require Import Prelude BuildConfig CString ByteIO Protocol.

(** ** Headers *)

(** A node identifier as the decoders leave it: 1 to 24 characters of
    [A-Za-z0-9_-], NULs behind. *)
Definition node_ok (s : list Z) : Prop :=
  zero_padded kNodeIdCapacity s /\ nodeIdValid (Some s) = true.

Definition nodeText (s : list Z) : list Z := c_text kNodeIdCapacity s.

Definition headerWire (type : MessageType.t) (s : list Z) : list Z :=
  [kMagic0; kMagic1; kVersion; to_u8 type; Z.of_nat (length (nodeText s))] ++
  nodeText s.

Lemma validNodeByte_range v : validNodeByte v = true -> is_byte v /\ v <> 0.
Proof.
  unfold validNodeByte, is_u. change (2 ^ 8) with 256.
  intros H. repeat (apply orb_true_iff in H as [H|H]); bool_prop; lia.
Qed.

Lemma nodeIdValid_spec s :
  nodeIdValid (Some s) = true <->
  (0 < length (nodeText s) < kNodeIdCapacity)%nat /\
  Forall (fun v => validNodeByte v = true) (nodeText s).
Proof.
  unfold nodeIdValid, nodeText. rewrite length_c_text.
  destruct (Nat.eqb_spec (strnlen s kNodeIdCapacity) 0); cbn [orb]; [split; [done|intros [? _]; lia]|].
  destruct (Nat.leb_spec kNodeIdCapacity (strnlen s kNodeIdCapacity)); [split; [done|intros [? _]; lia]|].
  rewrite forallb_Forall. fold (c_text kNodeIdCapacity s).
  split; [intros ?; split; [lia|done]|by intros [_ ?]].
Qed.

Lemma nodeText_bytes s : nodeIdValid (Some s) = true -> bytes_ok (nodeText s).
Proof.
  intros [_ H]%nodeIdValid_spec. eapply Forall_impl; [exact H|].
  intros v Hv. by apply validNodeByte_range.
Qed.

Lemma length_headerWire type s :
  length (headerWire type s) = (kCommonHeaderFixedBytes + length (nodeText s))%nat.
Proof. done. Qed.

Lemma emits_header type s :
  nodeIdValid (Some s) = true ->
  emits (writeHeader type (Some s)) (headerWire type s).
Proof.
  intros Hv. pose proof (proj1 (nodeIdValid_spec s) Hv) as [Hl _].
  unfold nodeText in Hl. rewrite length_c_text in Hl.
  assert (emits (writer_u8 kMagic0 &>> writer_u8 kMagic1 &>> writer_u8 kVersion &>>
    writer_u8 (to_u8 type) &>>
    writer_u8 (wrap 8 (Z.of_nat (strnlen s kNodeIdCapacity))) &>>
    writer_bytes (Some s) (strnlen s kNodeIdCapacity)) (headerWire type s)) as E.
  { unfold headerWire, nodeText. rewrite length_c_text.
    rewrite wrap_id by (unfold is_u, kNodeIdCapacity in *; change (2 ^ 8) with 256; lia).
    cbn [app]. repeat (apply (emits_and _ _ [_]); [apply emits_u8|]).
    apply emits_bytes. apply strnlen_le_length. }
  split; intros w Hw Hf; unfold writeHeader; rewrite Hv; cbn [negb default].
  - by apply (emits_fits _ _ E).
  - by apply (emits_full _ _ E).
Qed.

Lemma writeHeader_invalid type s w :
  nodeIdValid (Some s) = false -> writeHeader type (Some s) w = (false, w).
Proof. intros H. unfold writeHeader. by rewrite H. Qed.

(** Decoding the image of a header leaves the identifier and the rest. *)
Lemma readHeader_enc type s r tl :
  node_ok s -> at_bytes r (headerWire type s ++ tl) -> is_u 8 (to_u8 type) ->
  exists n, readHeader type (r, zeros kNodeIdCapacity) =
    (DecodeStatus.kOk, (advance n r, s)) /\ at_bytes (advance n r) tl.
Proof.
  intros [[Hl Hp] Hv] H Ht. pose proof (nodeText_bytes s Hv) as Hb.
  pose proof (proj1 (nodeIdValid_spec s) Hv) as [Hn Hc].
  unfold headerWire in H. cbn [app] in H.
  unfold readHeader, read_bind, read_ret. do 5 read_byte H.
  set (t := nodeText s) in *. rewrite !Z.eqb_refl. cbn [negb orb].
  rewrite (at_bytes_remaining _ _ H), Nat2Z.id, length_app.
  destruct (Z.eqb_spec (Z.of_nat (length t)) 0); [lia|].
  destruct (Z.leb_spec (Z.of_nat kNodeIdCapacity) (Z.of_nat (length t))); [lia|].
  destruct (Nat.ltb_spec (length t + length tl) (length t)); [lia|]. cbn [orb].
  rewrite (format_enc _ _ _ _ (format_read_bytes (length t)) t _ tl) by done.
  assert (<[length t := 0]> (t ++ drop (length t) (zeros kNodeIdCapacity)) = s) as ->.
  { unfold zeros. rewrite drop_replicate, insert_app_r_alt, Nat.sub_diag by lia.
    rewrite insert_replicate. symmetry. etransitivity; [exact Hp|].
    unfold t, nodeText. by rewrite length_c_text. }
  assert (take (length t) s = t) as ->.
  { unfold t, nodeText. rewrite length_c_text. done. }
  assert (forallb validNodeByte t = true) as ->.
  { by apply forallb_Forall. }
  eexists. rewrite advance_advance. split; [done|].
  rewrite <- advance_advance. by eapply at_bytes_advance.
Qed.

(** What a successful header read says about the input. *)
Lemma readHeader_dec type r bs r' s :
  at_bytes r bs -> bytes_ok bs ->
  readHeader type (r, zeros kNodeIdCapacity) = (DecodeStatus.kOk, (r', s)) ->
  node_ok s /\ exists tl,
    bs = headerWire type s ++ tl /\ at_bytes r' tl /\ bytes_ok tl.
Proof.
  intros H Hb Hd. unfold readHeader, read_bind, read_ret in Hd.
  destruct bs as [|m0 [|m1 [|ver [|ty [|len bs]]]]];
    [repeat (rewrite (reader_u8_cons _ _ _ H) in Hd; apply at_bytes_tail in H);
     rewrite (reader_u8_nil _ H) in Hd; discriminate..|].
  do 5 (rewrite (reader_u8_cons _ _ _ H) in Hd; cbn beta iota in Hd;
        apply at_bytes_tail in H).
  repeat (split_match_in Hd; [discriminate|]). bool_prop. subst.
  rewrite (at_bytes_remaining _ _ H) in *. known_bytes.
  destruct (format_dec _ _ _ _ (format_read_bytes (Z.to_nat len)) _ _ H)
    as (t & [Ht Hbt] & Er & Eb); [done|lia|].
  rewrite Er in Hd. cbn beta iota in Hd.
  assert (take (Z.to_nat len)
    (<[Z.to_nat len:=0]> (t ++ drop (Z.to_nat len) (zeros kNodeIdCapacity))) = t) as Et.
  { rewrite take_insert_ge by lia. by apply take_app_length'. }
  rewrite Et in Hd. destruct (forallb validNodeByte t) eqn:Hf; [|discriminate].
  injection Hd as <- <-. unfold is_u in *.
  assert (0 < len) by lia. unfold kNodeIdCapacity in *.
  assert (<[Z.to_nat len:=0]> (t ++ drop (Z.to_nat len) (zeros 25)) =
          t ++ replicate (25 - length t) 0) as ->.
  { unfold zeros. rewrite drop_replicate, insert_app_r_alt, Ht, Nat.sub_diag by lia.
    by rewrite insert_replicate. }
  apply forallb_Forall in Hf.
  assert (Forall (fun c => c <> 0) t) as Hnn.
  { eapply Forall_impl; [exact Hf|]. intros v ?. by apply validNodeByte_range. }
  assert (nodeText (t ++ replicate (25 - length t) 0) = t) as Hnt
    by (apply c_text_padded; [done|unfold kNodeIdCapacity; lia]).
  split; [split|].
  - apply zero_padded_intro; [done|]. lia.
  - apply nodeIdValid_spec. rewrite Hnt. split; [unfold kNodeIdCapacity; lia|done].
  - exists (drop (Z.to_nat len) bs). split_and!.
    + unfold headerWire. rewrite Hnt, Ht, Z2Nat.id by lia. cbn [app].
      by rewrite Eb at 1.
    + rewrite Eb in H. by eapply at_bytes_advance.
    + by apply Forall_drop.
Qed.

(** ** TELEMETRY *)

Definition telemetryPayload (p : TelemetryPacket) : list Z :=
  be32 (tp_persistentSessionId p) ++ be32 (tp_sequence p) ++
  be32 (tp_medianEchoUs p) ++ be32 (tp_rawDistanceMm p) ++
  be32 (tp_acceptedDistanceMm p) ++ be16 (tp_madMm p) ++
  be16 (wrap 16 (tp_temperatureCentiC p)) ++
  be16 (tp_humidityCentiPercent p) ++ be16 (tp_batteryMv p) ++
  [tp_validSamples p] ++ [tp_totalSamples p] ++ [to_u8 (tp_filterState p)] ++
  be16 (tp_qualityFlags p) ++ be16 (tp_healthFlags p) ++
  [to_u8 (tp_bootReason p)] ++ [to_u8 (tp_rtcState p)] ++
  be32 (tp_rtcUnixTime p) ++ [tp_pollIntervalMinutes p] ++
  [to_u8 (tp_scheduleState p)] ++ be32 (tp_scheduledMaintenanceUnix p) ++
  be32 (tp_lastCommandId p) ++ [to_u8 (tp_lastCommandType p)] ++
  [to_u8 (tp_lastCommandResult p)] ++ be32 (tp_referenceDistanceMm p).

Definition telemetryWire (p : TelemetryPacket) : list Z :=
  headerWire MessageType.kTelemetry (tp_nodeId p) ++ telemetryPayload p.

(** Every field holds a value of its type. *)
Record telemetry_typed (p : TelemetryPacket) : Prop := {
  ty_session : is_u 32 (tp_persistentSessionId p);
  ty_sequence : is_u 32 (tp_sequence p);
  ty_echo : is_u 32 (tp_medianEchoUs p);
  ty_raw : is_u 32 (tp_rawDistanceMm p);
  ty_accepted : is_u 32 (tp_acceptedDistanceMm p);
  ty_mad : is_u 16 (tp_madMm p);
  ty_temperature : is_s 16 (tp_temperatureCentiC p);
  ty_humidity : is_u 16 (tp_humidityCentiPercent p);
  ty_battery : is_u 16 (tp_batteryMv p);
  ty_valid : is_u 8 (tp_validSamples p);
  ty_total : is_u 8 (tp_totalSamples p);
  ty_filter : enum_ok (tp_filterState p);
  ty_quality : is_u 16 (tp_qualityFlags p);
  ty_health : is_u 16 (tp_healthFlags p);
  ty_boot : enum_ok (tp_bootReason p);
  ty_rtc : enum_ok (tp_rtcState p);
  ty_rtcTime : is_u 32 (tp_rtcUnixTime p);
  ty_poll : is_u 8 (tp_pollIntervalMinutes p);
  ty_schedule : enum_ok (tp_scheduleState p);
  ty_scheduled : is_u 32 (tp_scheduledMaintenanceUnix p);
  ty_commandId : is_u 32 (tp_lastCommandId p);
  ty_command : enum_ok (tp_lastCommandType p);
  ty_result : enum_ok (tp_lastCommandResult p);
  ty_reference : is_u 32 (tp_referenceDistanceMm p);
}.

(** The packets the protocol admits: a proper identifier, named enumerators, a
    poll interval, and no timestamp or command id without its state. *)
Record telemetry_wf (p : TelemetryPacket) : Prop := {
  wf_node : node_ok (tp_nodeId p);
  wf_typed : telemetry_typed p;
  wf_filter : to_u8 (tp_filterState p) <= 7;
  wf_boot : to_u8 (tp_bootReason p) <= 5;
  wf_rtc : to_u8 (tp_rtcState p) <= 3;
  wf_schedule : to_u8 (tp_scheduleState p) <= 3;
  wf_command : to_u8 (tp_lastCommandType p) <= 3;
  wf_result : to_u8 (tp_lastCommandResult p) <= 7 \/
    tp_lastCommandResult p = CommandResultCode.kNone;
  wf_poll : tp_pollIntervalMinutes p <> 0;
  wf_rtc_time : tp_rtcState p <> RtcState.kValid -> tp_rtcUnixTime p = 0;
  wf_schedule_time : tp_scheduleState p = ScheduleState.kNone ->
    tp_scheduledMaintenanceUnix p = 0;
  wf_command_id : tp_lastCommandType p = CommandType.kNone ->
    tp_lastCommandId p = 0;
}.

Lemma length_telemetryPayload p :
  length (telemetryPayload p) = kTelemetryPayloadBytes.
Proof. done. Qed.

(** The locals a successful chain of reads leaves for the packet [p]. *)
Definition telemetryLocals (p : TelemetryPacket) : TelemetryLocals :=
  mkTelemetryLocals
    (p <| tp_temperatureCentiC := kTemperatureUnavailable |>
       <| tp_filterState := FilterState.kInvalid |>
       <| tp_bootReason := BootReason.kUnknown |>
       <| tp_rtcState := RtcState.kUninitialized |>
       <| tp_scheduleState := ScheduleState.kNone |>
       <| tp_lastCommandType := CommandType.kNone |>
       <| tp_lastCommandResult := CommandResultCode.kNone |>)
    (wrap 16 (tp_temperatureCentiC p)) (to_u8 (tp_filterState p))
    (to_u8 (tp_bootReason p)) (to_u8 (tp_rtcState p))
    (to_u8 (tp_scheduleState p)) (to_u8 (tp_lastCommandType p))
    (to_u8 (tp_lastCommandResult p)).

(** The header fields of a fresh packet. *)
Definition freshTelemetry (s : list Z) : TelemetryLocals :=
  mkTelemetryLocals (TelemetryPacket_init <| tp_nodeId := s |>) 0 0 0 0 0 0 0.

Lemma enum_u8 {E} `{Enum E} (e : E) : enum_ok e -> is_byte (to_u8 e).
Proof. by intros [? _]. Qed.

Lemma readTelemetryPayload_enc p r tl :
  telemetry_typed p -> at_bytes r (telemetryPayload p ++ tl) ->
  readTelemetryPayload (r, freshTelemetry (tp_nodeId p)) =
    (true, (advance kTelemetryPayloadBytes r, telemetryLocals p)) /\
  at_bytes (advance kTelemetryPayloadBytes r) tl.
Proof.
  intros T H. destruct T. unfold telemetryPayload in H. rewrite <- !app_assoc in H.
  assert (is_u 16 (wrap 16 (tp_temperatureCentiC p))) by (apply wrap_range; lia).
  repeat match goal with
  | H : enum_ok _ |- _ => apply enum_u8 in H
  end.
  unfold readTelemetryPayload. read_chain_enc H.
  split; [|exact H]. by destruct p.
Qed.

(** The decoded packet behind the locals of a successful chain of reads. *)
Lemma readTelemetryPayload_dec s r bs r' l :
  at_bytes r bs -> bytes_ok bs ->
  readTelemetryPayload (r, freshTelemetry s) = (true, (r', l)) ->
  exists tl, telemetry_typed (castTelemetry l) /\
    tp_nodeId (castTelemetry l) = s /\
    l = telemetryLocals (castTelemetry l) /\
    bs = telemetryPayload (castTelemetry l) ++ tl /\
    at_bytes r' tl /\ bytes_ok tl /\
    r' = advance kTelemetryPayloadBytes r.
Proof.
  intros Hat Hb H. unfold readTelemetryPayload in H.
  read_chain_dec H Hat Hb. injection H as -> ->.
  eexists.
  split_and!; try done.
  - split; cbn; (assumption || (apply of_u8_ok; assumption) ||
      (apply to_signed_range; lia)).
  - unfold telemetryLocals. cbn. rewrite !to_of_u8 by done. rewrite wrap_to_signed by (done || lia). done.
  - unfold telemetryPayload. cbn. rewrite !to_of_u8 by done. rewrite wrap_to_signed by (done || lia). done.
Qed.

Lemma castTelemetry_locals p :
  telemetry_typed p -> castTelemetry (telemetryLocals p) = p.
Proof.
  intros []. unfold castTelemetry, telemetryLocals. cbn.
  rewrite to_signed_wrap by (done || lia).
  repeat match goal with
  | H : enum_ok ?e |- context [of_u8 (to_u8 ?e)] => rewrite (proj2 H)
  end.
  by destruct p.
Qed.

(** The conditions of [telemetry_wf], on the codes. *)
Lemma telemetry_wf_codes p :
  telemetry_typed p -> node_ok (tp_nodeId p) ->
  telemetry_wf p <->
  (to_u8 (tp_filterState p) <= 7 /\ to_u8 (tp_bootReason p) <= 5 /\
   to_u8 (tp_rtcState p) <= 3 /\ to_u8 (tp_scheduleState p) <= 3 /\
   to_u8 (tp_lastCommandType p) <= 3 /\
   (to_u8 (tp_lastCommandResult p) <= 7 \/ to_u8 (tp_lastCommandResult p) = 255) /\
   tp_pollIntervalMinutes p <> 0) /\
  (to_u8 (tp_rtcState p) <> 0 -> tp_rtcUnixTime p = 0) /\
  (to_u8 (tp_scheduleState p) = 0 -> tp_scheduledMaintenanceUnix p = 0) /\
  (to_u8 (tp_lastCommandType p) = 0 -> tp_lastCommandId p = 0).
Proof.
  intros T Hn.
  pose proof (enum_is _ CommandResultCode.kNone (ty_result _ T) ltac:(solve_enum_ok)) as Hr.
  pose proof (enum_is _ RtcState.kValid (ty_rtc _ T) ltac:(solve_enum_ok)) as Ht.
  pose proof (enum_is _ ScheduleState.kNone (ty_schedule _ T) ltac:(solve_enum_ok)) as Hs.
  pose proof (enum_is _ CommandType.kNone (ty_command _ T) ltac:(solve_enum_ok)) as Hc.
  enum_codes. split.
  - intros []. rewrite Hr in *. rewrite Ht in *. rewrite Hs in *. rewrite Hc in *. tauto.
  - intros ((?&?&?&?&?&?&?)&?&?&?).
    split; rewrite ?Hr, ?Ht, ?Hs, ?Hc; assumption.
Qed.

(** The checks after the reads are the conditions of [telemetry_wf]. *)
Lemma checkTelemetry_spec p :
  telemetry_typed p -> node_ok (tp_nodeId p) ->
  checkTelemetry (telemetryLocals p) = None <-> telemetry_wf p.
Proof.
  intros T Hn. rewrite telemetry_wf_codes by done.
  clear T Hn. destruct p.
  unfold checkTelemetry, telemetryLocals, validBoot, validRtc, validSchedule,
    validCommand, validResult. cbn. enum_codes. split.
  - intros H. repeat (split_match_in H; [discriminate|]). clear H. lia.
  - intros H. repeat split_match; [lia..|done].
Qed.

(** A decoder that reached the end of the packet looks for trailing bytes. *)
Definition finished (tl : list Z) : DecodeStatus.t :=
  match tl with [] => DecodeStatus.kOk | _ => DecodeStatus.kTrailingData end.

Lemma finished_remaining r tl :
  at_bytes r tl ->
  (if (reader_remaining r =? 0)%nat then DecodeStatus.kOk
   else DecodeStatus.kTrailingData) = finished tl.
Proof. intros H. rewrite (at_bytes_remaining _ _ H). by destruct tl. Qed.

Lemma decodeTelemetry_image input len q p tl :
  (len <= length input)%nat -> telemetry_wf p ->
  take len input = telemetryWire p ++ tl ->
  decodeTelemetry (Some input) len q = (finished tl, p).
Proof.
  intros Hl W E. pose proof (wf_node _ W) as Hn. pose proof (wf_typed _ W) as T.
  pose proof (at_bytes_reader input len Hl) as Hat. rewrite E in Hat.
  unfold telemetryWire in Hat. rewrite <- app_assoc in Hat.
  unfold decodeTelemetry. cbn [tp_nodeId TelemetryPacket_init].
  destruct (readHeader_enc MessageType.kTelemetry _ _ _ Hn Hat) as (n & -> & Hat1);
    [done|]. cbn [negb bool_decide decide].
  destruct (readTelemetryPayload_enc p _ _ T Hat1) as [Ep Hat2].
  fold (freshTelemetry (tp_nodeId p)). rewrite bool_decide_true by done.
  cbn [negb]. rewrite Ep. cbn [negb].
  rewrite (proj2 (checkTelemetry_spec p T Hn) W), castTelemetry_locals by done.
  by rewrite (finished_remaining _ _ Hat2).
Qed.

Lemma decodeTelemetry_inv input len q st p :
  (len <= length input)%nat -> bytes_ok input ->
  decodeTelemetry (Some input) len q = (st, p) ->
  st = DecodeStatus.kOk \/ st = DecodeStatus.kTrailingData ->
  telemetry_wf p /\ exists tl, take len input = telemetryWire p ++ tl /\ st = finished tl.
Proof.
  intros Hl Hb H Hst. pose proof (at_bytes_reader input len Hl) as Hat.
  unfold decodeTelemetry in H. cbn [tp_nodeId TelemetryPacket_init] in H.
  destruct (readHeader _ _) as [sh [r1 s]] eqn:Eh.
  case_bool_decide as Esh; cbn [negb] in H; [subst sh|].
  2:{ injection H as -> <-. exfalso. destruct Hst as [->| ->]; [done|].
      unfold readHeader in Eh. repeat split_match_in Eh; discriminate. }
  destruct (readHeader_dec _ _ _ _ _ Hat (Forall_take _ _ _ Hb) Eh)
    as [Hn (tl1 & E1 & Hat1 & Hb1)].
  fold (freshTelemetry s) in H.
  destruct (readTelemetryPayload _) as [ok [r2 l]] eqn:Ep.
  destruct ok; cbn [negb] in H; [|injection H as <- _; destruct Hst; discriminate].
  destruct (readTelemetryPayload_dec _ _ _ _ _ Hat1 Hb1 Ep)
    as (tl & T & Es & El & E2 & Hat2 & _ & _).
  destruct (checkTelemetry l) as [st'|] eqn:Ec.
  - exfalso. injection H as -> _. unfold checkTelemetry in Ec.
    repeat (split_match_in Ec); destruct Hst as [->| ->]; discriminate.
  - rewrite (finished_remaining _ _ Hat2) in H. injection H as <- <-.
    split.
    + apply checkTelemetry_spec; [done|congruence|]. by rewrite <- El.
    + exists tl. split; [|done]. unfold telemetryWire.
      by rewrite Es, <- app_assoc, E1, E2.
Qed.

(** A header cut short, by its length. *)
Lemma readHeader_short type s r bs tl :
  nodeIdValid (Some s) = true -> headerWire type s = bs ++ tl -> tl <> [] ->
  at_bytes r bs ->
  exists sr, readHeader type (r, zeros kNodeIdCapacity) =
    (if (length bs <? kCommonHeaderFixedBytes)%nat
     then DecodeStatus.kBufferTooSmall else DecodeStatus.kInvalidNodeId, sr).
Proof.
  intros Hv E Htl H. pose proof (proj1 (nodeIdValid_spec s) Hv) as [Hn _].
  unfold headerWire in E. cbn [app] in E.
  unfold readHeader, read_bind, read_ret.
  destruct bs as [|? [|? [|? [|? [|? bs]]]]];
    repeat read_byte H; try (eexists; reflexivity).
  cbn [app] in E. injection E as <- <- <- <- <- E.
  rewrite !Z.eqb_refl. cbn [negb orb]. rewrite (at_bytes_remaining _ _ H), Nat2Z.id.
  assert (length bs < length (nodeText s))%nat as Hlt.
  { rewrite E, length_app. destruct tl; [done|]. simpl. lia. }
  destruct (Nat.ltb_spec (length bs) (length (nodeText s))); [|lia].
  rewrite orb_true_r. eexists. reflexivity.
Qed.

Lemma telemetryPayload_bytes p :
  telemetry_typed p -> bytes_ok (telemetryPayload p).
Proof.
  intros []. unfold telemetryPayload.
  repeat (apply Forall_app; split);
    auto with gateway; apply Forall_singleton; (assumption || by apply enum_u8).
Qed.

Lemma readTelemetryPayload_consumes :
  consumes readTelemetryPayload kTelemetryPayloadBytes.
Proof. unfold readTelemetryPayload. solve_consumes. Qed.

Lemma prefix_cases {A} (h t b e : list A) :
  h ++ t = b ++ e ->
  (exists e', h = b ++ e' /\ e' <> []) \/ (exists b', b = h ++ b' /\ t = b' ++ e).
Proof.
  revert h. induction b as [|x b IH]; intros h E; simpl in *.
  - destruct h as [|y h]; [right; by exists []|left; by exists (y :: h)].
  - destruct h as [|y h]; simpl in *; [right; by exists (x :: b)|].
    injection E as <- E. destruct (IH _ E) as [(e' & -> & ?)|(b' & -> & ?)].
    + left. by exists e'.
    + right. by exists b'.
Qed.

(** The status for the first [k] bytes of a packet whose node identifier has
    [n] characters. *)
Definition truncated (n k : nat) : DecodeStatus.t :=
  if (kCommonHeaderFixedBytes <=? k)%nat && (k <? kCommonHeaderFixedBytes + n)%nat
  then DecodeStatus.kInvalidNodeId else DecodeStatus.kBufferTooSmall.

Lemma decodeTelemetry_prefix input len q p e :
  (len <= length input)%nat -> telemetry_wf p -> e <> [] ->
  telemetryWire p = take len input ++ e ->
  fst (decodeTelemetry (Some input) len q) =
    truncated (length (nodeText (tp_nodeId p))) len.
Proof.
  intros Hl W He E. pose proof (wf_node _ W) as Hn. pose proof (wf_typed _ W) as T.
  pose proof (at_bytes_reader input len Hl) as Hat.
  assert (length (take len input) = len) as El by (rewrite length_take; lia).
  unfold decodeTelemetry. cbn [tp_nodeId TelemetryPacket_init].
  unfold telemetryWire in E. unfold truncated.
  destruct (prefix_cases _ _ _ _ E) as [(e' & Eh & He')|(b' & Eb & Ep)].
  - destruct (readHeader_short MessageType.kTelemetry (tp_nodeId p) _ _ _
      (proj2 Hn) Eh He' Hat) as ([r1 s1] & ->).
    assert (len < kCommonHeaderFixedBytes + length (nodeText (tp_nodeId p)))%nat.
    { rewrite <- (length_headerWire MessageType.kTelemetry), Eh, length_app.
      destruct e'; [done|]. simpl. lia. }
    rewrite bool_decide_false by (by destruct (_ <? _)%nat). cbn [negb fst].
    rewrite El. destruct (Nat.leb_spec kCommonHeaderFixedBytes len),
      (Nat.ltb_spec len kCommonHeaderFixedBytes),
      (Nat.ltb_spec len (kCommonHeaderFixedBytes + length (nodeText (tp_nodeId p))));
      (done || lia).
  - rewrite Eb in Hat.
    destruct (readHeader_enc MessageType.kTelemetry _ _ _ Hn Hat) as (n & -> & Hat1);
      [done|]. rewrite bool_decide_true by done. cbn [negb].
    pose proof (telemetryPayload_bytes p T) as Hb'.
    rewrite Ep in Hb'. apply Forall_app in Hb' as [Hb' _].
    destruct (consumes_short _ _ readTelemetryPayload_consumes _
      (freshTelemetry (tp_nodeId p)) _ Hat1 Hb') as ([r2 l2] & Er).
    { rewrite <- (length_telemetryPayload p), Ep, length_app. destruct e; [done|].
      simpl. lia. }
    unfold freshTelemetry in Er. rewrite Er. cbn [negb fst].
    rewrite <- El, Eb, length_app, length_headerWire.
    destruct (Nat.ltb_spec (kCommonHeaderFixedBytes +
      length (nodeText (tp_nodeId p)) + length b') (kCommonHeaderFixedBytes +
      length (nodeText (tp_nodeId p)))); [lia|]. by rewrite andb_false_r.
Qed.

(** What an encoder promises of its result: under the condition [ok], and when
    the wire image fits, the buffer starts with it and is otherwise untouched;
    in every other case nothing is reported as written and no byte at or beyond
    the capacity has changed. *)
Definition encodes (res : bool * ptr (list Z) * nat) (data : list Z)
    (capacity : nat) (ok : bool) (wire : list Z) : Prop :=
  if ok && (length wire <=? capacity)%nat
  then res = (true, Some (wire ++ drop (length wire) data), length wire)
  else exists data', res = (false, Some data', 0%nat) /\
    length data' = length data /\ drop capacity data' = drop capacity data.

Lemma encodes_refused data capacity wire :
  encodes (false, Some data, 0%nat) data capacity false wire.
Proof. unfold encodes. cbn [andb]. by exists data. Qed.

Lemma encodes_emits m data capacity wire :
  (capacity <= length data)%nat -> emits m wire ->
  encodes (let '(ok, w) := m (writer data capacity) in
           if ok then (true, Some (w_data w), writer_size w)
           else (false, Some (w_data w), 0%nat)) data capacity true wire.
Proof.
  intros Hc E. unfold encodes. cbn [andb].
  assert (writer_ok (writer data capacity)) as Hw by (split; simpl; lia).
  destruct (Nat.leb_spec (length wire) capacity).
  - rewrite (emits_fits _ _ E) by (simpl; done || lia). done.
  - destruct (emits_full _ _ E (writer data capacity)) as (w' & -> & Hk);
      [done|simpl; lia|]. destruct Hk as (_ & _ & Hl & Hd). by exists (w_data w').
Qed.

Lemma encodes_header_refused type s k data capacity wire :
  nodeIdValid (Some s) = false ->
  encodes (let '(ok, w) := (writeHeader type (Some s) &>> k) (writer data capacity) in
           if ok then (true, Some (w_data w), writer_size w)
           else (false, Some (w_data w), 0%nat)) data capacity false wire.
Proof.
  intros Hv. unfold and_then. rewrite writeHeader_invalid by done.
  apply encodes_refused.
Qed.

(** A chain of writes emits the concatenation of what its links emit. *)
Ltac solve_emits :=
  repeat (apply emits_and; [eauto with gateway|]); eauto with gateway.

Lemma encodeTelemetry_encodes p data capacity :
  (capacity <= length data)%nat ->
  encodes (encodeTelemetry p (Some data) capacity) data capacity
    (nodeIdValid (Some (tp_nodeId p)) && negb (tp_pollIntervalMinutes p =? 0))
    (telemetryWire p).
Proof.
  intros Hc. unfold encodeTelemetry.
  destruct (Z.eqb_spec (tp_pollIntervalMinutes p) 0);
    [rewrite andb_false_r; apply encodes_refused|].
  destruct (nodeIdValid (Some (tp_nodeId p))) eqn:Hv; cbn [andb negb].
  - apply encodes_emits; [done|]. unfold telemetryWire, telemetryPayload.
    apply emits_and; [by apply emits_header|]. solve_emits.
  - by apply encodes_header_refused.
Qed.
