(* ===== verification/ProtocolCommands.v ===== *)
(** * The wire format of ACK_COMMAND and COMMAND_RESULT

    The layouts, the well-formed packets and the codec theorems of the two
    command packets; the counterpart for TELEMETRY is in ProtocolSpec. *)

From Stdlib Require Import ZArith Lia.
From S2P Require Import Prelude BuildConfig CString ByteIO Protocol ProtocolSpec.

(** ** ACK_COMMAND *)

Definition ackArgument (p : AckCommandPacket) : list Z :=
  match ack_commandType p with
  | CommandType.kSetPollIntervalMinutes => [ack_pollIntervalMinutes p]
  | CommandType.kScheduleMaintenanceAt => be32 (ack_scheduledMaintenanceUnix p)
  | _ => []
  end.

Definition ackFixed (p : AckCommandPacket) : list Z :=
  be32 (ack_persistentSessionId p) ++ be32 (ack_sequence p) ++
  be32 (ack_gatewayUnixTime p) ++ [Z.b2z (ack_timeValid p)] ++
  be32 (ack_commandId p) ++ [to_u8 (ack_commandType p)] ++
  [Z.of_nat (length (ackArgument p))].

Definition ackWire (p : AckCommandPacket) : list Z :=
  headerWire MessageType.kAckCommand (ack_nodeId p) ++ ackFixed p ++ ackArgument p.

(** The acknowledgements the protocol admits: a command has an id and its
    argument, the fields its type does not use are absent (zero), and a clock
    that is not valid is not sent. *)
Record ack_wf (p : AckCommandPacket) : Prop := {
  aw_node : node_ok (ack_nodeId p);
  aw_session : is_u 32 (ack_persistentSessionId p);
  aw_sequence : is_u 32 (ack_sequence p);
  aw_time : is_u 32 (ack_gatewayUnixTime p);
  aw_commandId : is_u 32 (ack_commandId p);
  aw_poll : is_u 8 (ack_pollIntervalMinutes p);
  aw_scheduled : is_u 32 (ack_scheduledMaintenanceUnix p);
  aw_clock : ack_timeValid p = false -> ack_gatewayUnixTime p = 0;
  aw_command : ack_commandType p = CommandType.kNone \/
    ack_commandType p = CommandType.kEnterMaintenanceNow \/
    ack_commandType p = CommandType.kScheduleMaintenanceAt \/
    ack_commandType p = CommandType.kSetPollIntervalMinutes;
  aw_id : ack_commandId p = 0 <-> ack_commandType p = CommandType.kNone;
  aw_poll_iff : ack_pollIntervalMinutes p <> 0 <->
    ack_commandType p = CommandType.kSetPollIntervalMinutes;
  aw_scheduled_iff : ack_scheduledMaintenanceUnix p <> 0 <->
    ack_commandType p = CommandType.kScheduleMaintenanceAt;
}.

Lemma commandPayloadLength_argument p :
  ack_wf p -> commandPayloadLength (ack_commandType p) = Z.of_nat (length (ackArgument p)).
Proof.
  intros W. unfold ackArgument. by destruct (aw_command _ W) as [->|[->|[->| ->]]].
Qed.

(** [ackValid] and the absent fields, together, are the conditions of
    [ack_wf] on commands and clock. *)
Lemma ackValid_spec p :
  enum_ok (ack_commandType p) ->
  ackValid p = true <->
  (ack_timeValid p = false -> ack_gatewayUnixTime p = 0) /\
  match ack_commandType p with
  | CommandType.kNone => ack_commandId p = 0
  | CommandType.kEnterMaintenanceNow => ack_commandId p <> 0
  | CommandType.kScheduleMaintenanceAt =>
      ack_commandId p <> 0 /\ ack_scheduledMaintenanceUnix p <> 0
  | CommandType.kSetPollIntervalMinutes =>
      ack_commandId p <> 0 /\ 1 <= ack_pollIntervalMinutes p
  | CommandType.unnamed _ => False
  end.
Proof.
  intros He. unfold ackValid.
  destruct (ack_timeValid p), (Z.eqb_spec (ack_gatewayUnixTime p) 0); cbn [negb andb];
    (destruct (ack_commandType p) as [| | | |v];
      [eval_codes; destruct (Z.eqb_spec (ack_commandId p) 0); lia..|
       rewrite ?(enum_eqb_ne (CommandType.unnamed v)) by (done || solve_enum_ok);
       destruct (Z.eqb_spec (ack_commandId p) 0); naive_solver]).
Qed.

Lemma ack_wf_valid p : ack_wf p -> ackValid p = true.
Proof.
  intros []. apply ackValid_spec.
  { destruct aw_command0 as [->|[->|[->| ->]]]; solve_enum_ok. }
  split; [done|]. unfold is_u in *.
  destruct aw_command0 as [E|[E|[E|E]]]; rewrite E in *; clear E; naive_solver lia.
Qed.

(** ** Decoding the fixed part *)

Definition ackLocals (p : AckCommandPacket) (flags command payloadLength : Z) : AckLocals :=
  mkAckLocals
    (p <| ack_timeValid := false |> <| ack_commandType := CommandType.kNone |>
       <| ack_pollIntervalMinutes := 0 |> <| ack_scheduledMaintenanceUnix := 0 |>)
    flags command payloadLength.

Definition freshAck (s : list Z) : AckLocals :=
  mkAckLocals (AckCommandPacket_init <| ack_nodeId := s |>) 0 0 0.

Lemma readAckFixed_enc p flags command n r tl :
  is_u 32 (ack_persistentSessionId p) -> is_u 32 (ack_sequence p) ->
  is_u 32 (ack_gatewayUnixTime p) -> is_u 32 (ack_commandId p) ->
  is_byte flags -> is_byte command -> is_byte n ->
  at_bytes r ((be32 (ack_persistentSessionId p) ++ be32 (ack_sequence p) ++
    be32 (ack_gatewayUnixTime p) ++ [flags] ++ be32 (ack_commandId p) ++
    [command] ++ [n]) ++ tl) ->
  readAckFixed (r, freshAck (ack_nodeId p)) =
    (true, (advance kAckCommandFixedPayloadBytes r, ackLocals p flags command n)) /\
  at_bytes (advance kAckCommandFixedPayloadBytes r) tl.
Proof.
  intros ? ? ? ? ? ? ? H. rewrite <- !app_assoc in H.
  unfold readAckFixed. read_chain_enc H. split; [|exact H]. by destruct p.
Qed.

Lemma readAckFixed_dec s r bs r' l :
  at_bytes r bs -> bytes_ok bs ->
  readAckFixed (r, freshAck s) = (true, (r', l)) ->
  exists a b c flags d command n tl,
    is_u 32 a /\ is_u 32 b /\ is_u 32 c /\ is_byte flags /\ is_u 32 d /\
    is_byte command /\ is_byte n /\
    l = mkAckLocals (mkAckCommandPacket s a b c false d CommandType.kNone 0 0)
          flags command n /\
    bs = (be32 a ++ be32 b ++ be32 c ++ [flags] ++ be32 d ++ [command] ++ [n]) ++ tl /\
    at_bytes r' tl /\ bytes_ok tl.
Proof.
  intros Hat Hb H. unfold readAckFixed in H. read_chain_dec H Hat Hb.
  injection H as -> ->. eexists v, v0, v1, v2, v3, v4, v5, _. rewrite <- !app_assoc.
  split_and!; done.
Qed.

(** ** Decoding the argument *)

Lemma command_named type :
  enum_ok type -> to_u8 type <= 3 ->
  type = CommandType.kNone \/ type = CommandType.kEnterMaintenanceNow \/
  type = CommandType.kScheduleMaintenanceAt \/
  type = CommandType.kSetPollIntervalMinutes.
Proof.
  intros [[H0 _] He] H3. destruct type as [| | | |v]; auto. exfalso.
  change (to_u8 (CommandType.unnamed v)) with v in *.
  assert (v = 0 \/ v = 1 \/ v = 2 \/ v = 3) as [->|[->|[->| ->]]] by lia;
    discriminate.
Qed.

Lemma readAckArgument_none type s :
  type = CommandType.kNone \/ type = CommandType.kEnterMaintenanceNow ->
  readAckArgument type s = (true, s).
Proof. by intros [->| ->]. Qed.

Lemma readAckArgument_schedule s :
  readAckArgument CommandType.kScheduleMaintenanceAt s =
  read_into reader_u32 (fun v p => p <| ack_scheduledMaintenanceUnix := v |>) s.
Proof. done. Qed.

Lemma readAckArgument_poll s :
  readAckArgument CommandType.kSetPollIntervalMinutes s =
  read_into reader_u8 (fun v p => p <| ack_pollIntervalMinutes := v |>) s.
Proof. apply and_then_ret. Qed.

Lemma readAckArgument_enc p r tl :
  ack_wf p -> at_bytes r (ackArgument p ++ tl) ->
  exists n, readAckArgument (ack_commandType p)
    (r, p <| ack_pollIntervalMinutes := 0 |> <| ack_scheduledMaintenanceUnix := 0 |>) =
    (true, (advance n r, p)) /\ at_bytes (advance n r) tl.
Proof.
  intros W H. unfold ackArgument in *.
  assert (ack_commandType p <> CommandType.kSetPollIntervalMinutes ->
          ack_pollIntervalMinutes p = 0) as Hp.
  { intros. destruct (decide (ack_pollIntervalMinutes p = 0)); [done|].
    by pose proof (proj1 (aw_poll_iff _ W) ltac:(done)). }
  assert (ack_commandType p <> CommandType.kScheduleMaintenanceAt ->
          ack_scheduledMaintenanceUnix p = 0) as Hs.
  { intros. destruct (decide (ack_scheduledMaintenanceUnix p = 0)); [done|].
    by pose proof (proj1 (aw_scheduled_iff _ W) ltac:(done)). }
  pose proof (aw_poll _ W). pose proof (aw_scheduled _ W).
  pose proof (aw_command _ W) as Hc. destruct p; cbn in *.
  destruct Hc as [-> |[-> |[-> | ->]]]; rewrite ?Hp, ?Hs by done.
  - exists 0%nat. rewrite readAckArgument_none by auto. by rewrite advance_0.
  - exists 0%nat. rewrite readAckArgument_none by auto. by rewrite advance_0.
  - rewrite readAckArgument_schedule. read_chain_enc H. by exists 4%nat.
  - rewrite readAckArgument_poll. read_chain_enc H. by exists 1%nat.
Qed.

Lemma readAckArgument_dec type q r bs r' p :
  enum_ok type -> to_u8 type <= 3 -> ack_commandType q = type ->
  ack_pollIntervalMinutes q = 0 -> ack_scheduledMaintenanceUnix q = 0 ->
  at_bytes r bs -> bytes_ok bs ->
  readAckArgument type (r, q) = (true, (r', p)) ->
  exists tl,
    bs = ackArgument p ++ tl /\ at_bytes r' tl /\ bytes_ok tl /\
    q = (p <| ack_pollIntervalMinutes := 0 |> <| ack_scheduledMaintenanceUnix := 0 |>) /\
    is_u 8 (ack_pollIntervalMinutes p) /\ is_u 32 (ack_scheduledMaintenanceUnix p) /\
    (ack_pollIntervalMinutes p <> 0 -> type = CommandType.kSetPollIntervalMinutes) /\
    (ack_scheduledMaintenanceUnix p <> 0 -> type = CommandType.kScheduleMaintenanceAt).
Proof.
  intros He Ht Hq Hp Hs Hat Hb H. destruct q; cbn in *; subst.
  assert (is_u 8 0) by (vm_compute; split; congruence).
  assert (is_u 32 0) by (vm_compute; split; congruence).
  destruct (command_named _ He Ht) as [-> |[-> |[-> | ->]]];
    [rewrite readAckArgument_none in H by auto..|
     rewrite readAckArgument_schedule in H|rewrite readAckArgument_poll in H].
  - injection H as <- <-. exists bs. by split_and!.
  - injection H as <- <-. exists bs. by split_and!.
  - read_chain_dec H Hat Hb. injection H as -> ->. exists tl. by split_and!.
  - read_chain_dec H Hat Hb. injection H as -> ->. exists tl. by split_and!.
Qed.

(** ** decodeAckCommand *)

Lemma decodeAck_image input len q p tl :
  (len <= length input)%nat -> ack_wf p -> take len input = ackWire p ++ tl ->
  decodeAckCommand (Some input) len q = (finished tl, p).
Proof.
  intros Hl W E. pose proof (aw_node _ W) as Hn.
  pose proof (at_bytes_reader input len Hl) as Hat. rewrite E in Hat.
  unfold ackWire in Hat. rewrite <- !app_assoc in Hat.
  unfold decodeAckCommand. cbn [ack_nodeId AckCommandPacket_init].
  destruct (readHeader_enc MessageType.kAckCommand _ _ _ Hn Hat) as (n & -> & Hat1);
    [done|]. rewrite bool_decide_true by done. cbn [negb].
  assert (is_byte (Z.b2z (ack_timeValid p)))
    by (destruct (ack_timeValid p); vm_compute; split; congruence).
  assert (enum_ok (ack_commandType p)) as He
    by (destruct (aw_command _ W) as [->|[->|[->| ->]]]; solve_enum_ok).
  assert (is_byte (Z.of_nat (length (ackArgument p)))).
  { rewrite <- commandPayloadLength_argument by done.
    destruct (aw_command _ W) as [->|[->|[->| ->]]]; vm_compute; split; congruence. }
  destruct (readAckFixed_enc p (Z.b2z (ack_timeValid p)) (to_u8 (ack_commandType p))
    (Z.of_nat (length (ackArgument p))) _ _ (aw_session _ W) (aw_sequence _ W)
    (aw_time _ W) (aw_commandId _ W) ltac:(done) (enum_u8 _ He) ltac:(done) Hat1)
    as [E1 Hat2].
  fold (freshAck (ack_nodeId p)). rewrite E1.
  cbn [negb al_flags al_p al_command al_payloadLength ackLocals].
  replace (Z.land (Z.b2z (ack_timeValid p)) (Z.lnot kAckTimeValid) =? 0) with true
    by (by destruct (ack_timeValid p)).
  replace (validCommand (to_u8 (ack_commandType p))) with true
    by (by destruct (aw_command _ W) as [->|[->|[->| ->]]]).
  replace (negb (Z.land (Z.b2z (ack_timeValid p)) kAckTimeValid =? 0)) with (ack_timeValid p)
    by (by destruct (ack_timeValid p)).
  cbn [negb]. rewrite (proj2 He). set (p0 := _ <| ack_commandType := _ |>).
  assert (p0 = p <| ack_pollIntervalMinutes := 0 |> <| ack_scheduledMaintenanceUnix := 0 |>)
    as -> by (by destruct p).
  assert (ack_commandType (p <| ack_pollIntervalMinutes := 0 |>
    <| ack_scheduledMaintenanceUnix := 0 |>) = ack_commandType p) as -> by (by destruct p).
  rewrite commandPayloadLength_argument, Z.eqb_refl by done. cbn [negb].
  destruct (readAckArgument_enc _ _ _ W Hat2) as (m & -> & Hat3). cbn [negb].
  rewrite (ack_wf_valid _ W). cbn [negb]. by rewrite (finished_remaining _ _ Hat3).
Qed.

Lemma ack_flags flags :
  is_byte flags -> Z.land flags (Z.lnot kAckTimeValid) = 0 ->
  flags = Z.b2z (negb (Z.land flags kAckTimeValid =? 0)).
Proof.
  intros Hb H. change kAckTimeValid with (Z.ones 1) in *.
  rewrite <- Z.ldiff_land, Z.ldiff_ones_r, Z.shiftl_mul_pow2, Z.shiftr_div_pow2 in H by lia.
  rewrite Z.land_ones by lia. unfold is_u in Hb. change (2 ^ 1) with 2 in *.
  pose proof (Z.mod_pos_bound flags 2 ltac:(lia)).
  pose proof (Z.div_mod flags 2 ltac:(lia)).
  destruct (Z.eqb_spec (flags mod 2) 0); simpl; lia.
Qed.

Lemma ack_wf_intro p :
  node_ok (ack_nodeId p) -> is_u 32 (ack_persistentSessionId p) ->
  is_u 32 (ack_sequence p) -> is_u 32 (ack_gatewayUnixTime p) ->
  is_u 32 (ack_commandId p) -> is_u 8 (ack_pollIntervalMinutes p) ->
  is_u 32 (ack_scheduledMaintenanceUnix p) ->
  enum_ok (ack_commandType p) -> to_u8 (ack_commandType p) <= 3 ->
  (ack_pollIntervalMinutes p <> 0 ->
   ack_commandType p = CommandType.kSetPollIntervalMinutes) ->
  (ack_scheduledMaintenanceUnix p <> 0 ->
   ack_commandType p = CommandType.kScheduleMaintenanceAt) ->
  ackValid p = true -> ack_wf p.
Proof.
  intros ? ? ? ? ? Hp ? He Ht ? ? Hv. apply ackValid_spec in Hv as [Hclk Hv]; [|done].
  pose proof (command_named _ He Ht) as Hc. unfold is_u in Hp.
  split; try done;
    destruct Hc as [E|[E|[E|E]]]; rewrite E in *; naive_solver lia.
Qed.

Lemma decodeAck_inv input len q st p :
  (len <= length input)%nat -> bytes_ok input ->
  decodeAckCommand (Some input) len q = (st, p) ->
  st = DecodeStatus.kOk \/ st = DecodeStatus.kTrailingData ->
  ack_wf p /\ exists tl, take len input = ackWire p ++ tl /\ st = finished tl.
Proof.
  intros Hl Hb H Hst. pose proof (at_bytes_reader input len Hl) as Hat.
  unfold decodeAckCommand in H. cbn [ack_nodeId AckCommandPacket_init] in H.
  destruct (readHeader _ _) as [sh [r1 s]] eqn:Eh.
  case_bool_decide as Esh; cbn [negb] in H; [subst sh|].
  2:{ injection H as -> <-. exfalso. destruct Hst as [->| ->]; [done|].
      unfold readHeader in Eh. repeat split_match_in Eh; discriminate. }
  destruct (readHeader_dec _ _ _ _ _ Hat (Forall_take _ _ _ Hb) Eh)
    as [Hn (tl1 & E1 & Hat1 & Hb1)].
  fold (freshAck s) in H.
  destruct (readAckFixed _) as [ok [r2 l]] eqn:Ep.
  destruct ok; cbn [negb] in H; [|injection H as <- _; destruct Hst; discriminate].
  destruct (readAckFixed_dec _ _ _ _ _ Hat1 Hb1 Ep)
    as (a & b & c & flags & d & command & n & tl2 & Ha & Hbb & Hc & Hf & Hd & Hcmd & Hnn
        & -> & E2 & Hat2 & Hb2). cbn in H.
  repeat (split_match_in H; [injection H as <- _; destruct Hst; discriminate|]).
  unfold validCommand in *. eval_codes. bool_prop.
  pose proof (of_u8_ok (E := CommandType.t) command Hcmd) as He.
  pose proof (to_of_u8 (E := CommandType.t) command Hcmd) as Ht.
  rewrite (ack_flags flags) in E2 by done. rewrite <- Ht in E2.
  destruct (readAckArgument _ _) as [ok [r3 p']] eqn:Ea.
  destruct ok; cbn [negb] in H; [|injection H as <- _; destruct Hst; discriminate].
  destruct (ackValid p') eqn:Hval; cbn [negb] in H;
    [|injection H as <- _; destruct Hst; discriminate].
  apply (readAckArgument_dec _ _ _ tl2) in Ea
    as (tl & E3 & Hat3 & _ & Eq & Hpoll & Hsched & Hp0 & Hs0); [|done || lia..].
  rewrite (finished_remaining _ _ Hat3) in H. injection H as <- <-.
  clear Ep Eh. destruct p'. injection Eq as -> -> -> -> <- -> <-. cbn in *.
  match goal with |- ack_wf ?p /\ _ => assert (ack_wf p) as W end.
  { apply ack_wf_intro; cbn; (done || lia). }
  split; [done|]. exists tl. split; [|done].
  unfold ackWire, ackFixed. rewrite <- commandPayloadLength_argument by done.
  cbn. by rewrite E1, E2, E3, <- !app_assoc, Heqb2.
Qed.

(** ** encodeAckCommand *)

Lemma emits_true_left m bs : emits m bs -> emits (step_ret true &>> m) bs.
Proof. intros E. apply (emits_and _ _ [] bs); [apply emits_nil|done]. Qed.

Lemma emits_true_right m bs : emits m bs -> emits (m &>> step_ret true) bs.
Proof.
  intros E. rewrite <- (app_nil_r bs). apply emits_and; [done|apply emits_nil].
Qed.

Lemma encodeAck_encodes p data capacity :
  (capacity <= length data)%nat -> enum_ok (ack_commandType p) ->
  encodes (encodeAckCommand p (Some data) capacity) data capacity
    (nodeIdValid (Some (ack_nodeId p)) && ackValid p) (ackWire p).
Proof.
  intros Hc He. unfold encodeAckCommand.
  destruct (ackValid p) eqn:Ha; cbn [negb];
    [|rewrite andb_false_r; apply encodes_refused].
  destruct (nodeIdValid (Some (ack_nodeId p))) eqn:Hv; cbn [andb];
    [|by apply encodes_header_refused].
  apply encodes_emits; [done|]. apply ackValid_spec in Ha as [_ Ha]; [|done].
  unfold ackWire, ackFixed. rewrite <- !app_assoc.
  apply emits_and; [by apply emits_header|].
  replace (if ack_timeValid p then kAckTimeValid else 0) with (Z.b2z (ack_timeValid p))
    by (by destruct (ack_timeValid p)).
  do 5 (apply emits_and; [eauto with gateway|]).
  unfold ackArgument. destruct (ack_commandType p); try done; eval_codes;
    (apply emits_and; [eauto with gateway|]; apply (emits_and _ _ [_]);
     [apply emits_u8|]).
  - apply emits_true_left, emits_nil.
  - apply emits_true_left, emits_nil.
  - apply emits_true_left, emits_u32.
  - apply emits_true_right, emits_u8.
Qed.

(** ** COMMAND_RESULT *)

Definition commandResultPayload (p : CommandResultPacket) : list Z :=
  be32 (cr_persistentSessionId p) ++ be32 (cr_commandId p) ++
  [to_u8 (cr_commandType p)] ++ [to_u8 (cr_resultCode p)] ++
  [cr_effectivePollIntervalMinutes p] ++ be32 (cr_scheduledMaintenanceUnix p).

Definition commandResultWire (p : CommandResultPacket) : list Z :=
  headerWire MessageType.kCommandResult (cr_nodeId p) ++ commandResultPayload p.

(** The results the protocol admits: of a command with an id, and with an
    outcome other than NONE. *)
Record command_result_wf (p : CommandResultPacket) : Prop := {
  cw_node : node_ok (cr_nodeId p);
  cw_session : is_u 32 (cr_persistentSessionId p);
  cw_id : is_u 32 (cr_commandId p);
  cw_type : enum_ok (cr_commandType p);
  cw_code : enum_ok (cr_resultCode p);
  cw_poll : is_u 8 (cr_effectivePollIntervalMinutes p);
  cw_scheduled : is_u 32 (cr_scheduledMaintenanceUnix p);
  cw_id_set : cr_commandId p <> 0;
  cw_command : 1 <= to_u8 (cr_commandType p) <= 3;
  cw_outcome : to_u8 (cr_resultCode p) <= 7;
}.

Definition commandResultLocals (p : CommandResultPacket) : CommandResultLocals :=
  mkCommandResultLocals
    (p <| cr_commandType := CommandType.kNone |>
       <| cr_resultCode := CommandResultCode.kInternalError |>)
    (to_u8 (cr_commandType p)) (to_u8 (cr_resultCode p)).

Definition freshCommandResult (s : list Z) : CommandResultLocals :=
  mkCommandResultLocals (CommandResultPacket_init <| cr_nodeId := s |>) 0 0.

Lemma readCommandResultPayload_enc p r tl :
  command_result_wf p -> at_bytes r (commandResultPayload p ++ tl) ->
  readCommandResultPayload (r, freshCommandResult (cr_nodeId p)) =
    (true, (advance kCommandResultPayloadBytes r, commandResultLocals p)) /\
  at_bytes (advance kCommandResultPayloadBytes r) tl.
Proof.
  intros [] H. unfold commandResultPayload in H. rewrite <- !app_assoc in H.
  apply enum_u8 in cw_type0, cw_code0.
  unfold readCommandResultPayload. read_chain_enc H. split; [|exact H].
  by destruct p.
Qed.

Lemma readCommandResultPayload_dec s r bs r' l :
  at_bytes r bs -> bytes_ok bs ->
  readCommandResultPayload (r, freshCommandResult s) = (true, (r', l)) ->
  exists a d command result poll sched tl,
    is_u 32 a /\ is_u 32 d /\ is_byte command /\ is_byte result /\
    is_byte poll /\ is_u 32 sched /\
    l = mkCommandResultLocals
      (mkCommandResultPacket s a d CommandType.kNone
         CommandResultCode.kInternalError poll sched) command result /\
    bs = (be32 a ++ be32 d ++ [command] ++ [result] ++ [poll] ++ be32 sched) ++ tl /\
    at_bytes r' tl /\ bytes_ok tl.
Proof.
  intros Hat Hb H. unfold readCommandResultPayload in H. read_chain_dec H Hat Hb.
  injection H as -> ->. eexists v, v0, v1, v2, v3, v4, _. rewrite <- !app_assoc.
  split_and!; done.
Qed.

Lemma decodeCommandResult_image input len q p tl :
  (len <= length input)%nat -> command_result_wf p ->
  take len input = commandResultWire p ++ tl ->
  decodeCommandResult (Some input) len q = (finished tl, p).
Proof.
  intros Hl W E. pose proof (cw_node _ W) as Hn.
  pose proof (at_bytes_reader input len Hl) as Hat. rewrite E in Hat.
  unfold commandResultWire in Hat. rewrite <- !app_assoc in Hat.
  unfold decodeCommandResult. cbn [cr_nodeId CommandResultPacket_init].
  destruct (readHeader_enc MessageType.kCommandResult _ _ _ Hn Hat) as (n & -> & Hat1);
    [done|]. rewrite bool_decide_true by done. cbn [negb].
  destruct (readCommandResultPayload_enc p _ _ W Hat1) as [E1 Hat2].
  fold (freshCommandResult (cr_nodeId p)). rewrite E1.
  cbn [negb cl_p cl_command cl_result commandResultLocals].
  rewrite (proj2 (cw_type _ W)), (proj2 (cw_code _ W)), (finished_remaining _ _ Hat2).
  pose proof (cw_id_set _ W). pose proof (cw_command _ W). pose proof (cw_outcome _ W).
  destruct p. cbn in *. unfold validCommand, validResult. eval_codes.
  split_match; [exfalso; lia|done].
Qed.

Lemma decodeCommandResult_inv input len q st p :
  (len <= length input)%nat -> bytes_ok input ->
  decodeCommandResult (Some input) len q = (st, p) ->
  st = DecodeStatus.kOk \/ st = DecodeStatus.kTrailingData ->
  command_result_wf p /\
  exists tl, take len input = commandResultWire p ++ tl /\ st = finished tl.
Proof.
  intros Hl Hb H Hst. pose proof (at_bytes_reader input len Hl) as Hat.
  unfold decodeCommandResult in H. cbn [cr_nodeId CommandResultPacket_init] in H.
  destruct (readHeader _ _) as [sh [r1 s]] eqn:Eh.
  case_bool_decide as Esh; cbn [negb] in H; [subst sh|].
  2:{ injection H as -> <-. exfalso. destruct Hst as [->| ->]; [done|].
      unfold readHeader in Eh. repeat split_match_in Eh; discriminate. }
  destruct (readHeader_dec _ _ _ _ _ Hat (Forall_take _ _ _ Hb) Eh)
    as [Hn (tl1 & E1 & Hat1 & Hb1)].
  fold (freshCommandResult s) in H.
  destruct (readCommandResultPayload _) as [ok [r2 l]] eqn:Ep.
  destruct ok; cbn [negb] in H; [|injection H as <- _; destruct Hst; discriminate].
  destruct (readCommandResultPayload_dec _ _ _ _ _ Hat1 Hb1 Ep)
    as (a & d & command & result & poll & sched & tl & Ha & Hd & Hc & Hr & Hp & Hs
        & -> & E2 & Hat2 & Hb2). cbn in H. clear Ep Eh.
  split_match_in H; [injection H as <- _; destruct Hst; discriminate|].
  rewrite (finished_remaining _ _ Hat2) in H. injection H as <- <-.
  unfold validCommand, validResult in *. eval_codes. bool_prop.
  pose proof (to_of_u8 (E := CommandType.t) command Hc) as Etc.
  pose proof (to_of_u8 (E := CommandResultCode.t) result Hr) as Etr.
  split.
  - split; cbn; rewrite ?Etc, ?Etr; try (apply of_u8_ok); try done;
      unfold is_u in *; lia.
  - exists tl. split; [|done]. unfold commandResultWire, commandResultPayload. cbn.
    by rewrite Etc, Etr, E1, E2, <- !app_assoc.
Qed.

Lemma encodeCommandResult_encodes p data capacity :
  (capacity <= length data)%nat ->
  encodes (encodeCommandResult p (Some data) capacity) data capacity
    (nodeIdValid (Some (cr_nodeId p)) && negb (cr_commandId p =? 0) &&
     negb (enum_eqb (cr_commandType p) CommandType.kNone) &&
     validResult (to_u8 (cr_resultCode p)) false)
    (commandResultWire p).
Proof.
  intros Hc. unfold encodeCommandResult.
  destruct (cr_commandId p =? 0), (enum_eqb (cr_commandType p) CommandType.kNone),
    (validResult (to_u8 (cr_resultCode p)) false); cbn [negb orb];
    rewrite ?andb_false_r, ?andb_true_r; try apply encodes_refused.
  destruct (nodeIdValid (Some (cr_nodeId p))) eqn:Hv;
    [|by apply encodes_header_refused].
  apply encodes_emits; [done|]. unfold commandResultWire, commandResultPayload.
  apply emits_and; [by apply emits_header|]. solve_emits.
Qed.

(** ** makeAck *)

Lemma nodeText_length s : node_ok s -> (strnlen s kNodeIdCapacity < kNodeIdCapacity)%nat.
Proof.
  intros [_ Hv]. apply nodeIdValid_spec in Hv as [[_ Hn] _].
  unfold nodeText in Hn. by rewrite length_c_text in Hn.
Qed.

Lemma makeAck_node t unix valid :
  node_ok (tp_nodeId t) -> ack_nodeId (makeAck t unix valid) = tp_nodeId t.
Proof.
  intros Hn. pose proof (nodeText_length _ Hn).
  change (strncpy (zeros 25) (tp_nodeId t) 24 = tp_nodeId t).
  apply strncpy_padded; [apply Hn|]. unfold kNodeIdCapacity in *. lia.
Qed.

Lemma ackMatches_spec a t :
  ackMatches a t = true <->
  nodeText (ack_nodeId a) = nodeText (tp_nodeId t) /\
  ack_persistentSessionId a = tp_persistentSessionId t /\
  ack_sequence a = tp_sequence t.
Proof.
  unfold ackMatches. rewrite !andb_true_iff, !Z.eqb_eq, strncmp_eq. tauto.
Qed.
