(* ===== verification/ProtocolTheorems.v ===== *)
(** * Theorems on Protocol 3

    The codecs against the wire format, and the acknowledgement the gateway
    builds for a packet it received. *)

From Stdlib Require Import ZArith Lia.
From S2P Require Import Prelude BuildConfig CString ByteIO Protocol ProtocolSpec ProtocolCommands.

(** ** Concrete packets for the witnesses *)

Definition sampleNode : list Z := strncpy (zeros 25) (chars "gathra-node-01") 24.

Definition sampleTelemetry : TelemetryPacket :=
  TelemetryPacket_init
    <| tp_nodeId := sampleNode |> <| tp_persistentSessionId := 0x01020304 |>
    <| tp_sequence := 7 |> <| tp_temperatureCentiC := -125 |>
    <| tp_filterState := FilterState.kAccepted |>
    <| tp_rtcState := RtcState.kValid |> <| tp_rtcUnixTime := 1700000000 |>.

Definition sampleSchedule : AckCommandPacket :=
  AckCommandPacket_init
    <| ack_nodeId := sampleNode |> <| ack_persistentSessionId := 0x01020304 |>
    <| ack_sequence := 7 |> <| ack_gatewayUnixTime := 1700000000 |>
    <| ack_timeValid := true |> <| ack_commandId := 9 |>
    <| ack_commandType := CommandType.kScheduleMaintenanceAt |>
    <| ack_scheduledMaintenanceUnix := 1700003600 |>.

Definition sampleResult : CommandResultPacket :=
  CommandResultPacket_init
    <| cr_nodeId := sampleNode |> <| cr_persistentSessionId := 0x01020304 |>
    <| cr_commandId := 9 |>
    <| cr_commandType := CommandType.kSetPollIntervalMinutes |>
    <| cr_resultCode := CommandResultCode.kApplied |>
    <| cr_effectivePollIntervalMinutes := 15 |>.

(** A closed, decidable fact, computed. *)
Ltac computed := vm_compute; repeat split; congruence.

Lemma sampleNode_ok : node_ok sampleNode.
Proof. split; [split; reflexivity|reflexivity]. Qed.

Lemma sampleTelemetry_wf : telemetry_wf sampleTelemetry.
Proof.
  split; try (apply sampleNode_ok); try computed.
  - split; try solve_enum_ok; computed.
  - right. reflexivity.
Qed.

Lemma sampleSchedule_wf : ack_wf sampleSchedule.
Proof. split; try (apply sampleNode_ok); try computed. vm_compute. tauto. Qed.

(** A result whose type byte names no command. *)
Definition strayResult : CommandResultPacket :=
  sampleResult <| cr_commandType := of_u8 9 |>.

Lemma sampleResult_wf : command_result_wf sampleResult.
Proof. split; try (apply sampleNode_ok); try solve_enum_ok; computed. Qed.

Lemma finished_ok tl : finished tl = DecodeStatus.kOk -> tl = [].
Proof. by destruct tl. Qed.

Lemma node_ok_text_inj s1 s2 :
  node_ok s1 -> node_ok s2 -> nodeText s1 = nodeText s2 -> s1 = s2.
Proof.
  intros [[_ E1] _] [[_ E2] _] E. unfold nodeText in E.
  pose proof (f_equal length E) as El. rewrite !length_c_text in El.
  rewrite E1, E2. by rewrite E, El.
Qed.

(** What an encoder promises, with the decoder that reads the result back. *)
Lemma encodes_written res data capacity ok wire :
  encodes res data capacity ok wire -> ok = true ->
  (length wire <= capacity <= length data)%nat ->
  exists out, res = (true, Some out, length wire) /\
    (length wire <= length out)%nat /\ take (length wire) out = wire.
Proof.
  unfold encodes. intros H -> Hl. destruct (Nat.leb_spec (length wire) capacity); [|lia].
  cbn [andb] in H. rewrite H. eexists. split; [done|].
  rewrite length_app, length_drop, take_app_length. split; [lia|done].
Qed.

Lemma app_le_length {A} (u v : list A) : (length u <= length (u ++ v))%nat.
Proof. rewrite length_app. lia. Qed.

Lemma encodes_result res data capacity ok wire out n :
  encodes res data capacity ok wire -> res = (true, Some out, n) ->
  out = wire ++ drop (length wire) data /\ n = length wire.
Proof.
  unfold encodes. intros H ->. destruct (_ && _); [by injection H as -> ->|].
  by destruct H as (? & ? & _).
Qed.

(** ** Properties *)

(** C12: decodeTelemetry accepts exactly the wire images of well-formed packets,
    and the packet it hands out is the one whose image it read: the layout is
    unambiguous, no byte string decodes that is not the encoding of its result,
    and every field (the node identifier with its padding, the signed
    temperature, each enumeration) arrives as it was sent. *)
Theorem telemetry_decode_exact input len q p :
  (len <= length input)%nat -> bytes_ok input ->
  decodeTelemetry (Some input) len q = (DecodeStatus.kOk, p) <->
  telemetry_wf p /\ take len input = telemetryWire p.
Proof.
  intros Hl Hb. split.
  - intros H. destruct (decodeTelemetry_inv _ _ _ _ _ Hl Hb H (or_introl eq_refl))
      as (W & tl & E & Et). rewrite (finished_ok tl), app_nil_r in E by done. done.
  - intros [W E]. apply (decodeTelemetry_image _ _ _ _ []); [done..|].
    by rewrite app_nil_r.
Qed.

Lemma telemetry_decode_exact_witness :
  let input := telemetryWire sampleTelemetry in
  decodeTelemetry (Some input) 76 TelemetryPacket_init =
    (DecodeStatus.kOk, sampleTelemetry).
Proof.
  apply (telemetry_decode_exact (telemetryWire sampleTelemetry) 76
    TelemetryPacket_init sampleTelemetry).
  - vm_compute. lia.
  - apply (bool_decide_unpack _). vm_compute. reflexivity.
  - split; [apply sampleTelemetry_wf|reflexivity].
Defined.

(** [encodeTelemetry] writes the wire image at the start of the buffer and
    nothing else, exactly when the identifier is valid, the poll interval is not
    zero and the image fits the capacity; otherwise it reports failure with
    nothing written and touches no byte at or beyond the capacity. Decoding
    what it wrote for a well-formed packet gives the packet back. *)
Theorem telemetry_encode_spec p data capacity q :
  (capacity <= length data)%nat ->
  encodes (encodeTelemetry p (Some data) capacity) data capacity
    (nodeIdValid (Some (tp_nodeId p)) && negb (tp_pollIntervalMinutes p =? 0))
    (telemetryWire p) /\
  (telemetry_wf p -> (length (telemetryWire p) <= capacity)%nat ->
   exists out, encodeTelemetry p (Some data) capacity =
       (true, Some out, length (telemetryWire p)) /\
     decodeTelemetry (Some out) (length (telemetryWire p)) q = (DecodeStatus.kOk, p)).
Proof.
  intros Hc. pose proof (encodeTelemetry_encodes p data capacity Hc) as E.
  split; [done|]. intros W Hl. pose proof (wf_poll _ W).
  destruct (encodes_written _ _ _ _ _ E) as (out & -> & Ho & Et); [|done|].
  - rewrite (proj2 (wf_node _ W)). by destruct (Z.eqb_spec (tp_pollIntervalMinutes p) 0).
  - exists out. split; [done|]. apply (decodeTelemetry_image _ _ _ _ []); [done..|].
    by rewrite app_nil_r.
Qed.

Lemma telemetry_encode_spec_witness :
  encodes (encodeTelemetry sampleTelemetry (Some (zeros 96)) 96) (zeros 96) 96 true
    (telemetryWire sampleTelemetry).
Proof.
  apply (telemetry_encode_spec sampleTelemetry (zeros 96) 96 TelemetryPacket_init).
  vm_compute. lia.
Defined.

(** A damaged length is always noticed. Every proper prefix of a packet's
    image is refused, with INVALID_NODE_ID when the cut falls inside the node
    identifier and BUFFER_TOO_SMALL elsewhere; every extension of an image is
    refused with TRAILING_DATA. *)
Theorem telemetry_decode_length input len q p e :
  (len <= length input)%nat -> telemetry_wf p -> e <> [] ->
  (telemetryWire p = take len input ++ e ->
   fst (decodeTelemetry (Some input) len q) =
     truncated (length (nodeText (tp_nodeId p))) len) /\
  (take len input = telemetryWire p ++ e ->
   decodeTelemetry (Some input) len q = (DecodeStatus.kTrailingData, p)).
Proof.
  intros Hl W He. split; intros E.
  - by eapply decodeTelemetry_prefix.
  - rewrite (decodeTelemetry_image _ _ _ _ e) by done. by destruct e.
Qed.

Lemma telemetry_decode_length_witness :
  fst (decodeTelemetry (Some (telemetryWire sampleTelemetry)) 12 TelemetryPacket_init) =
    DecodeStatus.kInvalidNodeId.
Proof.
  apply (telemetry_decode_length (telemetryWire sampleTelemetry) 12 TelemetryPacket_init
    sampleTelemetry (drop 12 (telemetryWire sampleTelemetry))).
  - vm_compute. lia.
  - apply sampleTelemetry_wf.
  - discriminate.
  - by rewrite take_drop.
Defined.

(** C39: the ACK_COMMAND codec is exact in both directions. The decoder accepts
    exactly the images of well-formed acknowledgements (a command has an id and
    the argument its type needs, its length byte agrees, nothing else is set);
    the encoder writes that image exactly for valid acknowledgements that fit,
    and the decoder reads it back. *)
Theorem ack_codec_exact input len q p data capacity :
  (len <= length input)%nat -> bytes_ok input -> (capacity <= length data)%nat ->
  (decodeAckCommand (Some input) len q = (DecodeStatus.kOk, p) <->
   ack_wf p /\ take len input = ackWire p) /\
  (enum_ok (ack_commandType p) ->
   encodes (encodeAckCommand p (Some data) capacity) data capacity
     (nodeIdValid (Some (ack_nodeId p)) && ackValid p) (ackWire p)) /\
  (ack_wf p -> (length (ackWire p) <= capacity)%nat ->
   exists out, encodeAckCommand p (Some data) capacity =
       (true, Some out, length (ackWire p)) /\
     decodeAckCommand (Some out) (length (ackWire p)) q = (DecodeStatus.kOk, p)).
Proof.
  intros Hl Hb Hc. split_and!.
  - split.
    + intros H. destruct (decodeAck_inv _ _ _ _ _ Hl Hb H (or_introl eq_refl))
        as (W & tl & E & Et). rewrite (finished_ok tl), app_nil_r in E by done. done.
    + intros [W E]. apply (decodeAck_image _ _ _ _ []); [done..|].
      by rewrite app_nil_r.
  - intros He. by apply encodeAck_encodes.
  - intros W Hw. assert (enum_ok (ack_commandType p)) as He
      by (destruct (aw_command _ W) as [->|[->|[->| ->]]]; solve_enum_ok).
    destruct (encodes_written _ _ _ _ _ (encodeAck_encodes p data capacity Hc He))
      as (out & -> & Ho & Et); [|done|].
    + by rewrite (proj2 (aw_node _ W)), (ack_wf_valid _ W).
    + exists out. split; [done|]. apply (decodeAck_image _ _ _ _ []); [done..|].
      by rewrite app_nil_r.
Qed.

Lemma ack_codec_exact_witness :
  decodeAckCommand (Some (ackWire sampleSchedule)) 42 AckCommandPacket_init =
    (DecodeStatus.kOk, sampleSchedule).
Proof.
  refine (proj2 (proj1 (ack_codec_exact (ackWire sampleSchedule) 42
    AckCommandPacket_init sampleSchedule (zeros 96) 96 _ _ _)) _).
  - vm_compute. lia.
  - apply (bool_decide_unpack _). vm_compute. reflexivity.
  - vm_compute. lia.
  - split; [apply sampleSchedule_wf|reflexivity].
Defined.

(** The type byte can be read off the image of a result. *)
Lemma commandResultWire_type p p' :
  commandResultWire p = commandResultWire p' ->
  to_u8 (cr_commandType p) = to_u8 (cr_commandType p').
Proof.
  unfold commandResultWire. intros E. apply app_inj_2 in E as [_ E]; [|done].
  unfold commandResultPayload in E.
  apply app_inj_1 in E as [_ E]; [|done]. apply app_inj_1 in E as [_ E]; [|done].
  by injection E.
Qed.

(** C40: the COMMAND_RESULT codec. The decoder accepts exactly the images of
    well-formed results: of a command with an id, whose type and outcome are
    named and not NONE. The encoder asks for less: it writes the image of every
    result with a valid node identifier, an id, a type other than NONE and a
    named outcome, of the right length and nowhere else, and refuses every
    other result without reporting a byte. What it writes for a well-formed
    result is decoded back to that result; what it writes for a result whose
    type is none of the named ones is refused by the decoder. *)
Theorem command_result_codec_exact input len q p data capacity :
  (len <= length input)%nat -> bytes_ok input -> (capacity <= length data)%nat ->
  (decodeCommandResult (Some input) len q = (DecodeStatus.kOk, p) <->
   command_result_wf p /\ take len input = commandResultWire p) /\
  encodes (encodeCommandResult p (Some data) capacity) data capacity
    (nodeIdValid (Some (cr_nodeId p)) && negb (cr_commandId p =? 0) &&
     negb (enum_eqb (cr_commandType p) CommandType.kNone) &&
     validResult (to_u8 (cr_resultCode p)) false) (commandResultWire p) /\
  (command_result_wf p -> (length (commandResultWire p) <= capacity)%nat ->
   exists out, encodeCommandResult p (Some data) capacity =
       (true, Some out, length (commandResultWire p)) /\
     decodeCommandResult (Some out) (length (commandResultWire p)) q =
       (DecodeStatus.kOk, p)) /\
  (forall out n, encodeCommandResult p (Some data) capacity = (true, Some out, n) ->
   bytes_ok out -> ~ (1 <= to_u8 (cr_commandType p) <= 3) ->
   fst (decodeCommandResult (Some out) n q) <> DecodeStatus.kOk).
Proof.
  intros Hl Hb Hc. split_and!.
  - split.
    + intros H. destruct (decodeCommandResult_inv _ _ _ _ _ Hl Hb H (or_introl eq_refl))
        as (W & tl & E & Et). rewrite (finished_ok tl), app_nil_r in E by done. done.
    + intros [W E]. apply (decodeCommandResult_image _ _ _ _ []); [done..|].
      by rewrite app_nil_r.
  - by apply encodeCommandResult_encodes.
  - intros W Hw.
    destruct (encodes_written _ _ _ _ _ (encodeCommandResult_encodes p data capacity Hc))
      as (out & -> & Ho & Et); [|done|].
    + rewrite (proj2 (cw_node _ W)). pose proof (cw_id_set _ W).
      pose proof (cw_command _ W). pose proof (cw_outcome _ W).
      unfold validResult. eval_codes. lia.
    + exists out. split; [done|]. apply (decodeCommandResult_image _ _ _ _ []); [done..|].
      by rewrite app_nil_r.
  - intros out n E Ho Ht Hd.
    destruct (encodes_result _ _ _ _ _ _ _ (encodeCommandResult_encodes p data capacity Hc) E)
      as [-> ->].
    destruct (decodeCommandResult _ _ q) as [st p'] eqn:Ed. cbn [fst] in Hd. subst st.
    destruct (decodeCommandResult_inv _ _ _ _ _ (app_le_length _ _) Ho Ed
      (or_introl eq_refl)) as (W & tl & Ew & Et).
    rewrite (finished_ok tl), app_nil_r, take_app_length in Ew by done.
    apply commandResultWire_type in Ew. rewrite Ew in Ht. apply Ht, W.
Qed.

Lemma command_result_codec_exact_witness :
  decodeCommandResult (Some (commandResultWire sampleResult)) 34
    CommandResultPacket_init = (DecodeStatus.kOk, sampleResult) /\
  (encodeCommandResult strayResult (Some (zeros 96)) 96).1.1 = true /\
  fst (decodeCommandResult
    (Some (commandResultWire strayResult ++ zeros 62)) 34 CommandResultPacket_init)
    <> DecodeStatus.kOk.
Proof.
  split; [|split; [vm_compute; reflexivity|]].
  - refine (proj2 (proj1 (command_result_codec_exact (commandResultWire sampleResult) 34
      CommandResultPacket_init sampleResult (zeros 96) 96 _ _ _)) _).
    + vm_compute. lia.
    + apply (bool_decide_unpack _). vm_compute. reflexivity.
    + vm_compute. lia.
    + split; [apply sampleResult_wf|reflexivity].
  - refine (proj2 (proj2 (proj2 (command_result_codec_exact (commandResultWire strayResult)
      34 CommandResultPacket_init strayResult (zeros 96) 96 _ _ _))) _ _ _ _ _).
    + vm_compute. lia.
    + apply (bool_decide_unpack _). vm_compute. reflexivity.
    + vm_compute. lia.
    + vm_compute. reflexivity.
    + apply (bool_decide_unpack _). vm_compute. reflexivity.
    + vm_compute. intros [_ H]. by apply H.
Defined.

(** The acknowledgement of a received packet can always be sent (it is
    well-formed, carries no command, and its clock is zero unless the gateway's
    time is valid), and ackMatches recognises it for exactly the packets of the
    same node, session and sequence number. *)
Theorem makeAck_acknowledges t t' unix valid :
  telemetry_wf t -> telemetry_wf t' -> is_u 32 unix ->
  let ack := makeAck t unix valid in
  ack_wf ack /\ ack_commandType ack = CommandType.kNone /\
  ack_gatewayUnixTime ack = (if valid then unix else 0) /\
  (ackMatches ack t' = true <->
   tp_nodeId t' = tp_nodeId t /\
   tp_persistentSessionId t' = tp_persistentSessionId t /\
   tp_sequence t' = tp_sequence t).
Proof.
  intros W W' Hu ack. pose proof (wf_node _ W) as Hn. pose proof (wf_typed _ W) as T.
  pose proof (makeAck_node t unix valid Hn) as En. fold ack in En.
  split_and!; [|done..|].
  - assert (is_u 8 0 /\ is_u 32 0) as [H8 H32] by computed.
    apply ack_wf_intro; rewrite ?En; [done|apply T|apply T| |exact H32|exact H8|exact H32
      |solve_enum_ok|done|done|done|]; by destruct valid.
  - rewrite ackMatches_spec, En. cbn. split.
    + intros (E & -> & ->). split; [|done].
      apply node_ok_text_inj; [apply W'|done|done].
    + intros (-> & -> & ->). done.
Qed.

Lemma makeAck_acknowledges_witness :
  ackMatches (makeAck sampleTelemetry 1700000001 true) sampleTelemetry = true.
Proof.
  apply (makeAck_acknowledges sampleTelemetry sampleTelemetry 1700000001 true);
    [apply sampleTelemetry_wf..|computed|done].
Defined.
