(* ===== verification/QueueRecord.v ===== *)
(** * Queue records (lib/queue/queue_record)

    The on-flash form of a received packet and its CRC-32.  A [float] is its
    IEEE-754 bit pattern throughout, so [floatBits] and [bitsFloat], which copy
    the representation, are the identity on it. *)

From Stdlib Require Import ZArith Lia.
From S2P Require Import Prelude BuildConfig CString ByteIO.

(** ** Constants *)

Definition kFixedBytesWithoutPayload : nat := 56.
Definition kMaximumEncodedBytes : nat := kFixedBytesWithoutPayload + kRadioPacketCapacity.

(** ** Data *)

Record ReceptionMetadata := mkReceptionMetadata {
  rm_gatewayReceivedUnixMs : Z;
  rm_gatewayTimeTrusted : bool;
  rm_gatewayUptimeMs : Z;
  rm_gatewayBootSessionId : Z;
  rm_rssiDbm : Z;
  rm_snrDb : Z;
  rm_frequencyErrorHz : Z;
  rm_packetLength : Z;
}.

Definition ReceptionMetadata_init : ReceptionMetadata := {|
  rm_gatewayReceivedUnixMs := -1; rm_gatewayTimeTrusted := false;
  rm_gatewayUptimeMs := 0; rm_gatewayBootSessionId := 0; rm_rssiDbm := 0;
  rm_snrDb := 0; rm_frequencyErrorHz := 0; rm_packetLength := 0 |}.

Record QueueRecord := mkQueueRecord {
  qr_recordId : Z;
  qr_reception : ReceptionMetadata;
  qr_payloadLength : Z;
  qr_rawPayload : list Z;
}.

Definition QueueRecord_init : QueueRecord := {|
  qr_recordId := 0; qr_reception := ReceptionMetadata_init;
  qr_payloadLength := 0; qr_rawPayload := zeros kRadioPacketCapacity |}.

Definition floatBits (value : Z) : Z := value.
Definition bitsFloat (bits : Z) : Z := bits.

(** ** CRC-32

    One bit of the reflected polynomial 0xEDB88320: [mask] is all ones when the
    low bit is set, computed as the code does by negating a signed word. *)

Definition crc_bit (crc : Z) : Z :=
  let mask := wrap 32 (- to_signed 32 (Z.land crc 1)) in
  Z.lxor (Z.shiftr crc 1) (Z.land 0xEDB88320 mask).

Definition crc_byte (crc b : Z) : Z := Nat.iter 8 crc_bit (Z.lxor crc b).

Definition crc32 (input : list Z) (length : nat) : Z :=
  wrap 32 (Z.lnot (foldl crc_byte 0xFFFFFFFF (take length input))).

(** ** The vector writer

    [output_] is threaded; every operation appends to it. *)

Definition vec_u8 (value : Z) (output : list Z) : list Z := output ++ [value].

Definition vec_u16 (value : Z) (output : list Z) : list Z :=
  vec_u8 (wrap 8 value) (vec_u8 (wrap 8 (Z.shiftr value 8)) output).

Definition vec_u32 (value : Z) (output : list Z) : list Z :=
  vec_u8 (wrap 8 value)
    (vec_u8 (wrap 8 (Z.shiftr value 8))
       (vec_u8 (wrap 8 (Z.shiftr value 16))
          (vec_u8 (wrap 8 (Z.shiftr value 24)) output))).

Definition vec_u64 (value : Z) (output : list Z) : list Z :=
  vec_u32 (wrap 32 value) (vec_u32 (wrap 32 (Z.shiftr value 32)) output).

Definition vec_bytes (input : list Z) (length : nat) (output : list Z) : list Z :=
  output ++ take length input.

(** ** QueueRecordCodec::encode *)

Definition queueEncode (record : QueueRecord) : bool * list Z :=
  let output := [] in
  let m := qr_reception record in
  if (qr_recordId record =? 0) || (qr_payloadLength record =? 0) ||
     (Z.of_nat kRadioPacketCapacity <? qr_payloadLength record) ||
     negb (rm_packetLength m =? qr_payloadLength record) ||
     (rm_gatewayTimeTrusted m && (rm_gatewayReceivedUnixMs m <? 0)) ||
     (negb (rm_gatewayTimeTrusted m) && negb (rm_gatewayReceivedUnixMs m =? -1))
  then (false, output)
  else
    let total := Z.of_nat kFixedBytesWithoutPayload + qr_payloadLength record in
    let output := vec_u32 kQueueMagic output in
    let output := vec_u16 kQueueRecordVersion output in
    let output := vec_u16 (wrap 16 total) output in
    let output := vec_u64 (qr_recordId record) output in
    let output := vec_u8 (if rm_gatewayTimeTrusted m then 1 else 0) output in
    let output := vec_u8 (qr_payloadLength record) output in
    let output := vec_u16 (rm_packetLength m) output in
    let output := vec_u32 (rm_gatewayBootSessionId m) output in
    let output := vec_u64 (wrap 64 (rm_gatewayReceivedUnixMs m)) output in
    let output := vec_u64 (rm_gatewayUptimeMs m) output in
    let output := vec_u32 (floatBits (rm_rssiDbm m)) output in
    let output := vec_u32 (floatBits (rm_snrDb m)) output in
    let output := vec_u32 (wrap 32 (rm_frequencyErrorHz m)) output in
    let output := vec_bytes (qr_rawPayload record)
                    (Z.to_nat (qr_payloadLength record)) output in
    let output := vec_u32 (crc32 output (length output)) output in
    (Z.of_nat (length output) =? total, output).

(** ** QueueRecordCodec::decode *)

Record QueueDecodeLocals := mkQueueDecodeLocals {
  ql_record : QueueRecord;
  ql_magic : Z;
  ql_boot : Z;
  ql_rssi : Z;
  ql_snr : Z;
  ql_frequencyError : Z;
  ql_version : Z;
  ql_encodedLength : Z;
  ql_packetLength : Z;
  ql_flags : Z;
  ql_payloadLength : Z;
  ql_receivedAtBits : Z;
}.

Definition readQueueRecord : Step (Reader * QueueDecodeLocals) :=
  read_into reader_u32 (fun v l => l <| ql_magic := v |>) &>>
  read_into reader_u16 (fun v l => l <| ql_version := v |>) &>>
  read_into reader_u16 (fun v l => l <| ql_encodedLength := v |>) &>>
  read_into reader_u64 (fun v l => l <| ql_record->qr_recordId := v |>) &>>
  read_into reader_u8 (fun v l => l <| ql_flags := v |>) &>>
  read_into reader_u8 (fun v l => l <| ql_payloadLength := v |>) &>>
  read_into reader_u16 (fun v l => l <| ql_packetLength := v |>) &>>
  read_into reader_u32 (fun v l => l <| ql_boot := v |>) &>>
  read_into reader_u64 (fun v l => l <| ql_receivedAtBits := v |>) &>>
  read_into reader_u64
    (fun v l => l <| ql_record->qr_reception->rm_gatewayUptimeMs := v |>) &>>
  read_into reader_u32 (fun v l => l <| ql_rssi := v |>) &>>
  read_into reader_u32 (fun v l => l <| ql_snr := v |>) &>>
  read_into reader_u32 (fun v l => l <| ql_frequencyError := v |>).

Definition input_at (input : list Z) (i : nat) : Z := nth i input 0.

Definition storedCrc (input : list Z) (length : nat) : Z :=
  Z.lor (Z.lor (Z.lor (Z.shiftl (input_at input (length - 4)) 24)
                      (Z.shiftl (input_at input (length - 3)) 16))
               (Z.shiftl (input_at input (length - 2)) 8))
        (input_at input (length - 1)).

Definition queueDecode (input : ptr (list Z)) (length : nat) : bool * QueueRecord :=
  let record := QueueRecord_init in
  match input with
  | nullptr => (false, record)
  | Some data =>
      if (length <? kFixedBytesWithoutPayload)%nat ||
         (kMaximumEncodedBytes <? length)%nat
      then (false, record)
      else if negb (storedCrc data length =? crc32 data (length - 4))
      then (false, record)
      else
        let '(ok, (r, l)) :=
          readQueueRecord (reader data (length - 4),
            mkQueueDecodeLocals record 0 0 0 0 0 0 0 0 0 0 0) in
        let record := ql_record l in
        if negb ok then (false, record)
        else if negb (ql_magic l =? kQueueMagic) ||
                negb (ql_version l =? kQueueRecordVersion) ||
                negb (ql_encodedLength l =? Z.of_nat length) ||
                (qr_recordId record =? 0) || (1 <? ql_flags l) ||
                (ql_payloadLength l =? 0) ||
                (Z.of_nat kRadioPacketCapacity <? ql_payloadLength l) ||
                negb (ql_packetLength l =? ql_payloadLength l) ||
                negb (Z.of_nat (reader_remaining r) =? ql_payloadLength l)
        then (false, record)
        else
          let record := record
            <| qr_payloadLength := ql_payloadLength l |>
            <| qr_reception->rm_packetLength := ql_packetLength l |>
            <| qr_reception->rm_gatewayBootSessionId := ql_boot l |>
            <| qr_reception->rm_gatewayTimeTrusted := (ql_flags l =? 1) |>
            <| qr_reception->rm_gatewayReceivedUnixMs :=
                 to_signed 64 (ql_receivedAtBits l) |>
            <| qr_reception->rm_rssiDbm := bitsFloat (ql_rssi l) |>
            <| qr_reception->rm_snrDb := bitsFloat (ql_snr l) |>
            <| qr_reception->rm_frequencyErrorHz :=
                 to_signed 32 (ql_frequencyError l) |> in
          let m := qr_reception record in
          if (rm_gatewayTimeTrusted m && (rm_gatewayReceivedUnixMs m <? 0)) ||
             (negb (rm_gatewayTimeTrusted m) &&
              negb (rm_gatewayReceivedUnixMs m =? -1))
          then (false, record)
          else
            let n := Z.to_nat (ql_payloadLength l) in
            match reader_bytes n r with
            | (None, r) => (false, record)
            | (Some bytes, r) =>
                let record := record <| qr_rawPayload :=
                  bytes ++ drop n (qr_rawPayload record) |> in
                ((reader_remaining r =? 0)%nat, record)
            end
  end.

Example crc32_check : crc32 (chars "123456789") 9 = 0xCBF43926.
Proof. vm_compute. reflexivity. Qed.

#[global] Arguments crc32 : simpl never.
#[global] Arguments queueEncode : simpl never.
#[global] Arguments queueDecode : simpl never.
