(* ===== verification/QueueRecordSpec.v ===== *)
(** * What the queue-record codec promises

    The layout of a record ([recordWire]), the records that have one
    ([record_wf]), and the CRC as a function on 32-bit words that separates
    inputs differing in a short burst. *)

From Stdlib Require Import ZArith Lia.
From S2P Require Import Prelude BuildConfig CString ByteIO QueueRecord.

(** ** CRC-32 on words

    The loop step is linear in everything above its low bit, and it can be
    undone: the polynomial's top bit records the bit that was shifted out. *)

Definition CRC_POLY : Z := 0xEDB88320.

Lemma crc_bit_spec c :
  crc_bit c = Z.lxor (Z.shiftr c 1) (if Z.testbit c 0 then CRC_POLY else 0).
Proof.
  unfold crc_bit. change 1 with (Z.ones 1) at 2. rewrite Z.land_ones by lia.
  rewrite Z.bit0_odd. change (2 ^ 1) with 2. rewrite Zmod_odd.
  by destruct (Z.odd c).
Qed.

Lemma lxor_range w a b : 0 <= w -> is_u w a -> is_u w b -> is_u w (Z.lxor a b).
Proof.
  intros Hw Ha Hb. unfold is_u in *.
  assert (Z.lxor a b = Z.lxor a b mod 2 ^ w) as E; [|rewrite E; apply Z.mod_pos_bound; lia].
  rewrite <- Z.land_ones by lia. apply Z.bits_inj'. intros i Hi.
  rewrite Z.land_spec, Z.lxor_spec. destruct (Z.lt_ge_cases i w).
  - rewrite Z.ones_spec_low by lia. by rewrite andb_true_r.
  - rewrite Z.ones_spec_high by lia.
    rewrite <- (Z.mod_small a (2 ^ w)), <- (Z.mod_small b (2 ^ w)) by lia.
    rewrite !Z.mod_pow2_bits_high by lia. done.
Qed.

Lemma crc_bit_range c : is_u 32 c -> is_u 32 (crc_bit c).
Proof.
  intros Hc. rewrite crc_bit_spec. apply lxor_range; [lia| |].
  - unfold is_u in *. rewrite Z.shiftr_div_pow2 by lia. change (2 ^ 1) with 2.
    split; [apply Z.div_pos; lia|apply Z.div_lt_upper_bound; lia].
  - destruct (Z.testbit c 0); vm_compute; split; congruence.
Qed.

Lemma testbit_high w c i : is_u w c -> 0 <= w <= i -> Z.testbit c i = false.
Proof.
  intros Hc Hi. unfold is_u in Hc. rewrite <- (Z.mod_small c (2 ^ w)) by lia.
  by apply Z.mod_pow2_bits_high.
Qed.

Lemma crc_bit_inj a b : is_u 32 a -> is_u 32 b -> crc_bit a = crc_bit b -> a = b.
Proof.
  intros Ha Hb E. rewrite !crc_bit_spec in E.
  assert (Z.testbit a 0 = Z.testbit b 0) as E0.
  { pose proof (f_equal (fun z => Z.testbit z 31) E) as E31. cbn beta in E31.
    rewrite !Z.lxor_spec, !Z.shiftr_spec in E31 by lia.
    rewrite (testbit_high 32 a), (testbit_high 32 b) in E31 by (done || lia).
    by destruct (Z.testbit a 0), (Z.testbit b 0). }
  rewrite E0 in E. apply Z.bits_inj'. intros i Hi.
  destruct (decide (i = 0)) as [->|]; [done|].
  apply (f_equal (fun z => Z.lxor z (if Z.testbit b 0 then CRC_POLY else 0))) in E.
  rewrite !Z.lxor_assoc, !Z.lxor_nilpotent, !Z.lxor_0_r in E.
  apply (f_equal (fun z => Z.testbit z (i - 1))) in E.
  rewrite !Z.shiftr_spec in E by lia. by rewrite Z.sub_add in E.
Qed.

(** A word xored in above the low bit travels through the step unchanged. *)
Lemma crc_bit_shift c y k :
  0 <= k -> crc_bit (Z.lxor c (Z.shiftl y (k + 1))) = Z.lxor (crc_bit c) (Z.shiftl y k).
Proof.
  intros Hk. rewrite !crc_bit_spec, Z.lxor_spec, Z.shiftl_spec_low by lia.
  rewrite xorb_false_r. rewrite Z.shiftr_lxor.
  assert (Z.shiftr (Z.shiftl y (k + 1)) 1 = Z.shiftl y k) as ->.
  { apply Z.bits_inj'. intros i Hi. rewrite Z.shiftr_spec, !Z.shiftl_spec by lia.
    f_equal. lia. }
  rewrite !Z.lxor_assoc. f_equal. apply Z.lxor_comm.
Qed.

Lemma crc_iter_range n c : is_u 32 c -> is_u 32 (Nat.iter n crc_bit c).
Proof. intros Hc. induction n; simpl; auto using crc_bit_range. Qed.

Lemma crc_iter_inj n a b :
  is_u 32 a -> is_u 32 b -> Nat.iter n crc_bit a = Nat.iter n crc_bit b -> a = b.
Proof.
  intros Ha Hb. induction n; simpl; [done|]. intros E.
  apply crc_bit_inj in E; auto using crc_iter_range.
Qed.

Lemma crc_iter_shift n c y k :
  0 <= k ->
  Nat.iter n crc_bit (Z.lxor c (Z.shiftl y (k + Z.of_nat n))) =
  Z.lxor (Nat.iter n crc_bit c) (Z.shiftl y k).
Proof.
  revert k. induction n as [|n IH]; intros k Hk; simpl.
  - by rewrite Z.add_0_r.
  - replace (k + Z.of_nat (S n)) with ((k + 1) + Z.of_nat n) by lia.
    rewrite IH by lia. by apply crc_bit_shift.
Qed.

Lemma byte_u32 b : is_byte b -> is_u 32 b.
Proof. unfold is_u. change (2 ^ 8) with 256. change (2 ^ 32) with 4294967296. lia. Qed.

Lemma crc_byte_eq c b : crc_byte c b = Nat.iter 8 crc_bit (Z.lxor c b).
Proof. done. Qed.

Lemma crc_byte_range c b : is_u 32 c -> is_byte b -> is_u 32 (crc_byte c b).
Proof.
  intros Hc Hb. rewrite crc_byte_eq. apply crc_iter_range, lxor_range; [lia|done|by apply byte_u32].
Qed.

Lemma crc_fold_range l c : is_u 32 c -> bytes_ok l -> is_u 32 (foldl crc_byte c l).
Proof.
  intros Hc Hl. revert c Hc.
  induction Hl; intros c Hc; simpl; auto using crc_byte_range.
Qed.

Lemma lxor_inj_r a b c : Z.lxor a c = Z.lxor b c -> a = b.
Proof.
  intros E. apply (f_equal (fun z => Z.lxor z c)) in E.
  by rewrite !Z.lxor_assoc, Z.lxor_nilpotent, !Z.lxor_0_r in E.
Qed.

Lemma crc_byte_inj x a b :
  is_u 32 a -> is_u 32 b -> is_byte x -> crc_byte a x = crc_byte b x -> a = b.
Proof.
  intros Ha Hb Hx E. apply byte_u32 in Hx. rewrite !crc_byte_eq in E.
  apply (lxor_inj_r a b x). apply (crc_iter_inj 8); [by apply lxor_range..|exact E].
Qed.

Lemma crc_fold_inj l a b :
  is_u 32 a -> is_u 32 b -> bytes_ok l ->
  foldl crc_byte a l = foldl crc_byte b l -> a = b.
Proof.
  intros Ha Hb Hl. revert a b Ha Hb.
  induction Hl as [|x l Hx Hl IH]; intros a b Ha Hb E; simpl in *; [done|].
  apply IH in E; [|by apply crc_byte_range..]. by apply (crc_byte_inj x).
Qed.

(** Four bytes, little-endian, as the word the register absorbs. *)
Definition le_word (b0 b1 b2 b3 : Z) : Z :=
  Z.lxor (Z.lxor (Z.lxor b0 (Z.shiftl b1 8)) (Z.shiftl b2 16)) (Z.shiftl b3 24).

Lemma crc_byte_iter n d b :
  crc_byte (Nat.iter (8 * n) crc_bit d) b =
  Nat.iter (8 * S n) crc_bit (Z.lxor d (Z.shiftl b (8 * Z.of_nat n))).
Proof.
  rewrite crc_byte_eq. replace (8 * S n)%nat with (8 + 8 * n)%nat by lia.
  rewrite Nat.iter_add. f_equal.
  pose proof (crc_iter_shift (8 * n) d b 0 ltac:(lia)) as E.
  rewrite Z.shiftl_0_r in E. rewrite <- E. do 3 f_equal. lia.
Qed.

Lemma crc_four c b0 b1 b2 b3 :
  foldl crc_byte c [b0; b1; b2; b3] = Nat.iter 32 crc_bit (Z.lxor c (le_word b0 b1 b2 b3)).
Proof.
  cbn [foldl]. change c with (Nat.iter (8 * 0) crc_bit c) at 1.
  rewrite !crc_byte_iter. change (8 * 4)%nat with 32%nat. f_equal.
  unfold le_word. change (8 * Z.of_nat 0) with 0. rewrite Z.shiftl_0_r.
  by rewrite !Z.lxor_assoc.
Qed.

Lemma le_word_value b0 b1 b2 b3 :
  is_byte b0 -> is_byte b1 -> is_byte b2 -> is_byte b3 ->
  le_word b0 b1 b2 b3 = b0 + b1 * 2 ^ 8 + b2 * 2 ^ 16 + b3 * 2 ^ 24.
Proof.
  intros H0 H1 H2 H3. unfold le_word.
  assert (forall a b n, 0 <= n -> 0 <= a < 2 ^ n -> Z.lxor a (Z.shiftl b n) = a + b * 2 ^ n)
    as Hx.
  { intros a b n Hn Ha. rewrite <- Z.shiftl_mul_pow2 by done. symmetry.
    apply Z.add_nocarry_lxor, Z.bits_inj'. intros i Hi.
    rewrite Z.land_spec, Z.bits_0. destruct (Z.lt_ge_cases i n).
    - rewrite Z.shiftl_spec_low by lia. apply andb_false_r.
    - by rewrite (testbit_high n a) by (unfold is_u; lia). }
  assert (forall x, is_byte x -> 0 <= x < 256) as Hr by done.
  apply Hr in H0, H1, H2, H3.
  rewrite (Hx b0 b1 8) by (change (2 ^ 8) with 256; lia).
  rewrite (Hx _ b2 16) by (change (2 ^ 8) with 256; change (2 ^ 16) with 65536; lia).
  rewrite (Hx _ b3 24) by (change (2 ^ 8) with 256; change (2 ^ 16) with 65536;
    change (2 ^ 24) with 16777216; lia). done.
Qed.

Lemma le_word_inj b0 b1 b2 b3 c0 c1 c2 c3 :
  bytes_ok [b0; b1; b2; b3] -> bytes_ok [c0; c1; c2; c3] ->
  le_word b0 b1 b2 b3 = le_word c0 c1 c2 c3 ->
  [b0; b1; b2; b3] = [c0; c1; c2; c3].
Proof.
  intros Hb Hc E. rewrite !Forall_cons in Hb, Hc.
  destruct Hb as (?&?&?&?&_), Hc as (?&?&?&?&_).
  rewrite !le_word_value in E by done. word_consts.
  assert (b3 = c3) by lia. assert (b2 = c2) by lia. assert (b1 = c1) by lia.
  assert (b0 = c0) by lia. by subst.
Qed.

Lemma le_word_range b0 b1 b2 b3 :
  bytes_ok [b0; b1; b2; b3] -> is_u 32 (le_word b0 b1 b2 b3).
Proof.
  rewrite !Forall_cons. intros (?&?&?&?&_). rewrite le_word_value by done.
  word_consts. lia.
Qed.

(** Two inputs of one length that differ only inside a window of four bytes
    have different checksums. *)
Lemma crc32_burst pre w1 w2 post :
  bytes_ok pre -> bytes_ok w1 -> bytes_ok w2 -> bytes_ok post ->
  length w1 = 4%nat -> length w2 = 4%nat -> w1 <> w2 ->
  crc32 (pre ++ w1 ++ post) (length (pre ++ w1 ++ post)) <>
  crc32 (pre ++ w2 ++ post) (length (pre ++ w2 ++ post)).
Proof.
  intros Hp H1 H2 Hq L1 L2 Hne E. unfold crc32 in E. rewrite !firstn_all in E.
  split_bytes w1 4%nat. destruct w1; [|done].
  split_bytes w2 4%nat. destruct w2; [|done].
  assert (is_u 32 0xFFFFFFFF) as Hi by (vm_compute; split; congruence).
  rewrite !foldl_app, !crc_four in E. apply Hne.
  pose proof (crc_fold_range pre _ Hi Hp) as Hs.
  pose proof (le_word_range _ _ _ _ H1) as R1. pose proof (le_word_range _ _ _ _ H2) as R2.
  set (s := foldl crc_byte 0xFFFFFFFF pre) in *.
  apply le_word_inj; [done..|]. apply (lxor_inj_r _ _ s).
  rewrite !(Z.lxor_comm _ s).
  apply (crc_iter_inj 32); [by apply lxor_range..|].
  assert (forall c, is_u 32 c -> wrap 32 (Z.lnot c) = 2 ^ 32 - 1 - c) as Hn.
  { intros c Hc. unfold wrap, is_u in *.
    replace (Z.lnot c) with ((2 ^ 32 - 1 - c) + (-1) * 2 ^ 32) by (unfold Z.lnot; lia).
    rewrite Z_mod_plus_full. apply Z.mod_small. lia. }
  assert (forall w, is_u 32 w -> is_u 32 (Nat.iter 32 crc_bit (Z.lxor s w))) as Hr
    by (intros; by apply crc_iter_range, lxor_range).
  rewrite !Hn in E by (apply crc_fold_range; auto).
  apply (crc_fold_inj post); [auto..|]. lia.
Qed.
