(* ===== verification/QueueRecordCodec.v ===== *)
(** * The queue-record codec, exactly

    [recordWire] is the layout of queue_record.cpp: a magic number, a version,
    the length, the fields, the payload and a CRC over everything before it. *)

From Stdlib Require Import ZArith Lia.
From S2P Require Import Prelude BuildConfig CString ByteIO QueueRecord QueueRecordSpec.

Definition recordPayload (r : QueueRecord) : list Z :=
  take (Z.to_nat (qr_payloadLength r)) (qr_rawPayload r).

Definition recordFields (r : QueueRecord) : list Z :=
  let m := qr_reception r in
  be32 kQueueMagic ++ be16 kQueueRecordVersion ++
  be16 (Z.of_nat kFixedBytesWithoutPayload + qr_payloadLength r) ++
  be64 (qr_recordId r) ++ [Z.b2z (rm_gatewayTimeTrusted m)] ++
  [qr_payloadLength r] ++ be16 (rm_packetLength m) ++
  be32 (rm_gatewayBootSessionId m) ++ be64 (wrap 64 (rm_gatewayReceivedUnixMs m)) ++
  be64 (rm_gatewayUptimeMs m) ++ be32 (rm_rssiDbm m) ++ be32 (rm_snrDb m) ++
  be32 (wrap 32 (rm_frequencyErrorHz m)).

Definition recordBody (r : QueueRecord) : list Z := recordFields r ++ recordPayload r.

Definition with_crc (body : list Z) : list Z := body ++ be32 (crc32 body (length body)).

Definition recordWire (r : QueueRecord) : list Z := with_crc (recordBody r).

(** What the encoder checks. *)
Definition record_sound (r : QueueRecord) : Prop :=
  qr_recordId r <> 0 /\ 1 <= qr_payloadLength r <= 96 /\
  rm_packetLength (qr_reception r) = qr_payloadLength r /\
  (rm_gatewayTimeTrusted (qr_reception r) = true ->
   0 <= rm_gatewayReceivedUnixMs (qr_reception r)) /\
  (rm_gatewayTimeTrusted (qr_reception r) = false ->
   rm_gatewayReceivedUnixMs (qr_reception r) = -1).

(** Every field holds a value of its type. *)
Record record_typed (r : QueueRecord) : Prop := {
  rt_id : is_u 64 (qr_recordId r);
  rt_length : is_u 8 (qr_payloadLength r);
  rt_payload : length (qr_rawPayload r) = kRadioPacketCapacity /\
    bytes_ok (qr_rawPayload r);
  rt_ms : is_s 64 (rm_gatewayReceivedUnixMs (qr_reception r));
  rt_uptime : is_u 64 (rm_gatewayUptimeMs (qr_reception r));
  rt_boot : is_u 32 (rm_gatewayBootSessionId (qr_reception r));
  rt_rssi : is_u 32 (rm_rssiDbm (qr_reception r));
  rt_snr : is_u 32 (rm_snrDb (qr_reception r));
  rt_freq : is_s 32 (rm_frequencyErrorHz (qr_reception r));
  rt_packet : is_u 16 (rm_packetLength (qr_reception r));
}.

(** A record as the decoder leaves it: nothing behind its payload. *)
Definition record_padded (r : QueueRecord) : Prop :=
  drop (Z.to_nat (qr_payloadLength r)) (qr_rawPayload r) =
  zeros (96 - Z.to_nat (qr_payloadLength r)).

Record record_wf (r : QueueRecord) : Prop := {
  rw_sound : record_sound r;
  rw_typed : record_typed r;
  rw_padded : record_padded r;
}.

(** ** Encoding *)

Lemma vec_u32_app v out : vec_u32 v out = out ++ be32 v.
Proof. unfold vec_u32, vec_u8, be32. by rewrite <- !app_assoc. Qed.

Lemma vec_u16_app v out : vec_u16 v out = out ++ be16 v.
Proof. unfold vec_u16, vec_u8, be16. by rewrite <- !app_assoc. Qed.

Lemma vec_u64_app v out : vec_u64 v out = out ++ be64 v.
Proof. unfold vec_u64, be64. by rewrite !vec_u32_app, <- app_assoc. Qed.

Lemma length_recordFields r : length (recordFields r) = 52%nat.
Proof. done. Qed.

Lemma length_recordPayload r :
  record_typed r -> 0 <= qr_payloadLength r <= 96 ->
  length (recordPayload r) = Z.to_nat (qr_payloadLength r).
Proof.
  intros T H. unfold recordPayload. rewrite length_take, (proj1 (rt_payload _ T)).
  unfold kRadioPacketCapacity. lia.
Qed.

Lemma length_recordWire r :
  record_typed r -> 0 <= qr_payloadLength r <= 96 ->
  length (recordWire r) = (kFixedBytesWithoutPayload + Z.to_nat (qr_payloadLength r))%nat.
Proof.
  intros T H. unfold recordWire, with_crc, recordBody.
  rewrite !length_app, length_recordFields, length_recordPayload by done.
  unfold kFixedBytesWithoutPayload. simpl. lia.
Qed.

Lemma queueEncode_ok r :
  record_typed r -> record_sound r -> queueEncode r = (true, recordWire r).
Proof.
  intros T (Hid & Hn & Hp & Ht & Hf). unfold queueEncode.
  assert ((qr_recordId r =? 0) || (qr_payloadLength r =? 0) ||
    (Z.of_nat kRadioPacketCapacity <? qr_payloadLength r) ||
    negb (rm_packetLength (qr_reception r) =? qr_payloadLength r) ||
    (rm_gatewayTimeTrusted (qr_reception r) &&
     (rm_gatewayReceivedUnixMs (qr_reception r) <? 0)) ||
    (negb (rm_gatewayTimeTrusted (qr_reception r)) &&
     negb (rm_gatewayReceivedUnixMs (qr_reception r) =? -1)) = false) as ->.
  { unfold kRadioPacketCapacity.
    destruct (rm_gatewayTimeTrusted (qr_reception r));
      [specialize (Ht eq_refl)|specialize (Hf eq_refl)]; change (Z.of_nat 96) with 96; clear T; cbn [andb negb orb]; lia. }
  cbv zeta. rewrite !vec_u32_app, !vec_u16_app, !vec_u64_app.
  unfold vec_u8, vec_bytes, floatBits.
  rewrite (wrap_id 16) by (unfold is_u, kFixedBytesWithoutPayload;
    change (2 ^ 16) with 65536; lia).
  match goal with
  | |- (Z.of_nat (length ?b) =? _, _) = _ =>
      assert (b = recordWire r) as ->
  end.
  { unfold recordWire, with_crc, recordBody, recordFields, recordPayload.
    replace (Z.b2z (rm_gatewayTimeTrusted (qr_reception r))) with
      (if rm_gatewayTimeTrusted (qr_reception r) then 1 else 0)
      by (by destruct (rm_gatewayTimeTrusted (qr_reception r))).
    rewrite <- !app_assoc. done. }
  rewrite length_recordWire by (done || lia). f_equal.
  apply Z.eqb_eq. unfold kFixedBytesWithoutPayload. lia.
Qed.

Lemma queueEncode_refused r :
  is_u 8 (qr_payloadLength r) -> ~ record_sound r -> queueEncode r = (false, []).
Proof.
  intros Hb Hs. unfold queueEncode. split_match; [done|]. exfalso. apply Hs.
  unfold is_u, kRadioPacketCapacity, record_sound in *.
  change (Z.of_nat 96) with 96 in *.
  destruct (rm_gatewayTimeTrusted (qr_reception r)); cbn [andb negb] in *;
    split_and!; lia.
Qed.

(** ** Decoding *)

Lemma be64_wrap_signed v : is_s 64 v -> to_signed 64 (wrap 64 v) = v.
Proof. apply to_signed_wrap. lia. Qed.

Definition freshQueueLocals : QueueDecodeLocals :=
  mkQueueDecodeLocals QueueRecord_init 0 0 0 0 0 0 0 0 0 0 0.

Definition queueLocals (r : QueueRecord) : QueueDecodeLocals :=
  let m := qr_reception r in
  mkQueueDecodeLocals
    (mkQueueRecord (qr_recordId r)
       (ReceptionMetadata_init <| rm_gatewayUptimeMs := rm_gatewayUptimeMs m |>)
       0 (zeros kRadioPacketCapacity))
    kQueueMagic (rm_gatewayBootSessionId m) (rm_rssiDbm m) (rm_snrDb m)
    (wrap 32 (rm_frequencyErrorHz m)) kQueueRecordVersion
    (Z.of_nat kFixedBytesWithoutPayload + qr_payloadLength r)
    (rm_packetLength m) (Z.b2z (rm_gatewayTimeTrusted m)) (qr_payloadLength r)
    (wrap 64 (rm_gatewayReceivedUnixMs m)).

Lemma readQueueRecord_enc r rd tl :
  record_typed r -> at_bytes rd (recordFields r ++ tl) ->
  readQueueRecord (rd, freshQueueLocals) = (true, (advance 52 rd, queueLocals r)) /\
  at_bytes (advance 52 rd) tl.
Proof.
  intros [] H. unfold recordFields in H. rewrite <- !app_assoc in H.
  assert (is_u 32 kQueueMagic) by (vm_compute; split; congruence).
  assert (is_u 16 kQueueRecordVersion) by (vm_compute; split; congruence).
  assert (is_u 16 (Z.of_nat kFixedBytesWithoutPayload + qr_payloadLength r)).
  { unfold is_u, kFixedBytesWithoutPayload in *. change (2 ^ 8) with 256 in *.
    change (2 ^ 16) with 65536. lia. }
  assert (is_byte (Z.b2z (rm_gatewayTimeTrusted (qr_reception r))))
    by (destruct (rm_gatewayTimeTrusted _); vm_compute; split; congruence).
  assert (is_u 64 (wrap 64 (rm_gatewayReceivedUnixMs (qr_reception r))))
    by (apply wrap_range; lia).
  assert (is_u 32 (wrap 32 (rm_frequencyErrorHz (qr_reception r))))
    by (apply wrap_range; lia).
  unfold readQueueRecord. read_chain_enc H. split; [|exact H]. done.
Qed.

Lemma readQueueRecord_dec rd bs rd' l :
  at_bytes rd bs -> bytes_ok bs ->
  readQueueRecord (rd, freshQueueLocals) = (true, (rd', l)) ->
  exists tl,
    is_u 32 (ql_magic l) /\ is_u 16 (ql_version l) /\ is_u 16 (ql_encodedLength l) /\
    is_u 64 (qr_recordId (ql_record l)) /\ is_u 8 (ql_flags l) /\
    is_u 8 (ql_payloadLength l) /\ is_u 16 (ql_packetLength l) /\
    is_u 32 (ql_boot l) /\ is_u 64 (ql_receivedAtBits l) /\
    is_u 64 (rm_gatewayUptimeMs (qr_reception (ql_record l))) /\
    is_u 32 (ql_rssi l) /\ is_u 32 (ql_snr l) /\ is_u 32 (ql_frequencyError l) /\
    ql_record l = mkQueueRecord (qr_recordId (ql_record l))
      (ReceptionMetadata_init <| rm_gatewayUptimeMs :=
         rm_gatewayUptimeMs (qr_reception (ql_record l)) |>)
      0 (zeros kRadioPacketCapacity) /\
    bs = (be32 (ql_magic l) ++ be16 (ql_version l) ++ be16 (ql_encodedLength l) ++
      be64 (qr_recordId (ql_record l)) ++ [ql_flags l] ++ [ql_payloadLength l] ++
      be16 (ql_packetLength l) ++ be32 (ql_boot l) ++ be64 (ql_receivedAtBits l) ++
      be64 (rm_gatewayUptimeMs (qr_reception (ql_record l))) ++
      be32 (ql_rssi l) ++ be32 (ql_snr l) ++ be32 (ql_frequencyError l)) ++ tl /\
    at_bytes rd' tl /\ bytes_ok tl.
Proof.
  intros Hat Hb H. unfold readQueueRecord in H. read_chain_dec H Hat Hb.
  injection H as -> ->. eexists. rewrite <- !app_assoc. split_and!; done.
Qed.

(** The trailer: the last four bytes, as a word. *)
Lemma storedCrc_spec data len :
  (4 <= len <= length data)%nat -> bytes_ok data ->
  is_u 32 (storedCrc data len) /\
  take len data = take (len - 4) data ++ be32 (storedCrc data len).
Proof.
  intros Hl Hb. unfold storedCrc, input_at.
  set (n := (len - 4)%nat).
  assert (exists a b c d, drop n (take len data) = [a; b; c; d]) as (a & b & c & d & E).
  { assert (length (drop n (take len data)) = 4%nat) as L
      by (rewrite length_drop, length_take; lia).
    destruct (drop n (take len data)) as [|a [|b [|c [|d [|]]]]]; try discriminate. eauto. }
  assert (forall i x, [a; b; c; d] !! i = Some x -> nth (n + i) data 0 = x) as Hn.
  { intros i x Hx. rewrite <- E in Hx. rewrite lookup_drop in Hx.
    apply lookup_take_Some in Hx as [Hx _]. by apply nth_lookup_Some. }
  assert (bytes_ok [a; b; c; d]) as Hbb by (rewrite <- E; auto using Forall_drop, Forall_take).
  rewrite !Forall_cons in Hbb. destruct Hbb as (Ha & Hb' & Hc & Hd & _).
  replace (len - 3)%nat with (n + 1)%nat by lia.
  replace (len - 2)%nat with (n + 2)%nat by lia.
  replace (len - 1)%nat with (n + 3)%nat by lia.
  rewrite (Hn 1%nat b), (Hn 2%nat c), (Hn 3%nat d) by done.
  assert (nth n data 0 = a) as -> by (rewrite <- (Nat.add_0_r n); by apply Hn).
  rewrite lor32 by done. split; [by apply be_value_u32|].
  rewrite value_be32 by done. rewrite <- E.
  rewrite <- (take_drop n (take len data)) at 1. f_equal.
  rewrite take_take. f_equal. lia.
Qed.

Lemma crc32_take data n : crc32 data n = crc32 (take n data) n.
Proof. unfold crc32. by rewrite take_take, Nat.min_id. Qed.

(** The checksum test, as a property of the bytes. *)
Lemma storedCrc_check data len :
  (4 <= len <= length data)%nat -> bytes_ok data ->
  storedCrc data len = crc32 data (len - 4) <->
  take len data = with_crc (take (len - 4) data).
Proof.
  intros Hl Hb. destruct (storedCrc_spec data len Hl Hb) as [Hr E].
  assert (length (take (len - 4) data) = (len - 4)%nat) as Ln
    by (rewrite length_take; lia).
  unfold with_crc. rewrite Ln, <- crc32_take, E. split.
  - intros Ec. by rewrite Ec at 1.
  - intros Ec. apply app_inv_head in Ec.
    apply (f_equal be_value) in Ec.
    rewrite !be32_value in Ec; [done| |done]. apply wrap_range. lia.
Qed.

Lemma recordWire_parts data len r :
  (len <= length data)%nat -> record_typed r -> 0 <= qr_payloadLength r <= 96 ->
  take len data = recordWire r ->
  len = (56 + Z.to_nat (qr_payloadLength r))%nat /\
  take (len - 4) data = recordBody r.
Proof.
  intros Hl T Hn E.
  assert (len = kFixedBytesWithoutPayload + Z.to_nat (qr_payloadLength r))%nat as Elen.
  { rewrite <- (length_recordWire r), <- E, length_take by done. lia. }
  unfold kFixedBytesWithoutPayload in Elen. split; [done|].
  replace (take (len - 4) data) with (take (len - 4) (take len data))
    by (rewrite take_take; f_equal; lia).
  rewrite E. unfold recordWire, with_crc. apply take_app_length'. unfold recordBody.
  rewrite length_app, length_recordFields, length_recordPayload by done. lia.
Qed.

(** Turns a condition the hypotheses refute into [false]. *)
Ltac refute_condition :=
  match goal with |- context [if ?b then _ else _] => assert (b = false) as -> end.

Lemma queueDecode_wire data len r :
  (len <= length data)%nat -> bytes_ok data -> record_wf r ->
  take len data = recordWire r -> queueDecode (Some data) len = (true, r).
Proof.
  intros Hl Hb [S T P] E. pose proof S as (Hid & Hn & Hp & Ht & Hf).
  destruct (recordWire_parts _ _ _ Hl T ltac:(lia) E) as [Elen Eb].
  unfold queueDecode, kMaximumEncodedBytes, kFixedBytesWithoutPayload, kRadioPacketCapacity.
  destruct (Nat.ltb_spec len 56); [lia|]. destruct (Nat.ltb_spec (56 + 96) len); [lia|].
  cbn [orb]. rewrite (proj2 (storedCrc_check data len ltac:(lia) Hb)) by (by rewrite Eb).
  rewrite Z.eqb_refl. cbn [negb].
  pose proof (at_bytes_reader data (len - 4) ltac:(lia)) as Hat. rewrite Eb in Hat.
  destruct (readQueueRecord_enc r _ _ T Hat) as [Er Hat2].
  fold freshQueueLocals. rewrite Er. cbn [negb ql_record ql_magic ql_version
    ql_encodedLength ql_flags ql_payloadLength ql_packetLength ql_boot ql_rssi ql_snr
    ql_frequencyError ql_receivedAtBits queueLocals qr_recordId].
  pose proof (length_recordPayload _ T ltac:(lia)) as Lp.
  rewrite (at_bytes_remaining _ _ Hat2), Lp. refute_condition.
  { rewrite !Z.eqb_refl. change (kQueueRecordVersion =? kQueueRecordVersion) with true.
    unfold kFixedBytesWithoutPayload.
    rewrite Elen, Nat2Z.inj_add, Z2Nat.id by lia.
    change (Z.of_nat 96) with 96. change (Z.of_nat 56) with 56.
    destruct (rm_gatewayTimeTrusted _); cbn [Z.b2z negb orb]; lia. }
  cbn. rewrite to_signed_wrap, to_signed_wrap by (apply T || lia). unfold bitsFloat.
  replace (Z.b2z (rm_gatewayTimeTrusted (qr_reception r)) =? 1) with
    (rm_gatewayTimeTrusted (qr_reception r)) by (by destruct (rm_gatewayTimeTrusted _)).
  refute_condition.
  { destruct (rm_gatewayTimeTrusted _);
      [specialize (Ht eq_refl)|specialize (Hf eq_refl)]; lia. }
  rewrite <- (app_nil_r (recordPayload r)) in Hat2.
  rewrite (format_enc _ _ _ _ (format_read_bytes _) (recordPayload r) _ [])
    by (done || (split; [done|apply Forall_take, (rt_payload _ T)])). cbn beta iota.
  apply (at_bytes_advance _ _ _ (Z.to_nat (qr_payloadLength r))) in Hat2; [|done].
  rewrite (at_bytes_remaining _ _ Hat2). cbn [length Nat.eqb]. f_equal.
  unfold record_padded in P. destruct r as [id [] n raw]. unfold recordPayload. cbn in *.
  f_equal. rewrite <- (take_drop (Z.to_nat n) raw) at 2. f_equal. rewrite P.
  unfold zeros, kRadioPacketCapacity. by rewrite drop_replicate.
Qed.

(** The record a decoder builds from its fields and the payload [tl]. *)
Lemma decoded_record id ms trusted up boot rssi snr freq n tl :
  is_u 64 id -> is_s 64 ms -> is_u 64 up -> is_u 32 boot -> is_u 32 rssi ->
  is_u 32 snr -> is_s 32 freq -> bytes_ok tl -> length tl = Z.to_nat n ->
  id <> 0 -> 1 <= n <= 96 ->
  (trusted = true -> 0 <= ms) -> (trusted = false -> ms = -1) ->
  let r := mkQueueRecord id (mkReceptionMetadata ms trusted up boot rssi snr freq n) n
             (tl ++ drop (Z.to_nat n) (zeros kRadioPacketCapacity)) in
  record_wf r /\
  recordBody r = (be32 kQueueMagic ++ be16 kQueueRecordVersion ++
    be16 (Z.of_nat kFixedBytesWithoutPayload + n) ++ be64 id ++ [Z.b2z trusted] ++ [n] ++
    be16 n ++ be32 boot ++ be64 (wrap 64 ms) ++ be64 up ++ be32 rssi ++ be32 snr ++
    be32 (wrap 32 freq)) ++ tl.
Proof.
  intros ? ? ? ? ? ? ? Hb Hl ? Hn ? ? r.
  assert (drop (Z.to_nat n) (zeros kRadioPacketCapacity) = zeros (96 - Z.to_nat n)) as Ed
    by (unfold zeros, kRadioPacketCapacity; by rewrite drop_replicate).
  split.
  - split.
    + unfold record_sound. by cbn.
    + split; cbn; try done; unfold is_u in *.
      * change (2 ^ 8) with 256. lia.
      * rewrite Ed. split.
        -- rewrite length_app. unfold zeros, kRadioPacketCapacity.
           rewrite length_replicate. lia.
        -- apply Forall_app. split; [done|]. apply Forall_replicate.
           split; [lia|reflexivity].
      * change (2 ^ 16) with 65536. lia.
    + unfold record_padded, r. cbn. rewrite <- Hl, drop_app_length, Hl. exact Ed.
  - unfold recordBody, recordPayload, recordFields, r. cbn. rewrite <- Hl.
    by rewrite take_app_length.
Qed.

(** A successful decode read the encoding of the record it answers. *)
Lemma queueDecode_inv data len r :
  (len <= length data)%nat -> bytes_ok data ->
  queueDecode (Some data) len = (true, r) ->
  record_wf r /\ take len data = recordWire r.
Proof.
  intros Hl Hb H. unfold queueDecode in H.
  split_match_in H; [discriminate|].
  destruct (Z.eqb_spec (storedCrc data len) (crc32 data (len - 4))) as [Ec|]; [|discriminate].
  cbn [negb] in H. bool_prop.
  unfold kMaximumEncodedBytes, kFixedBytesWithoutPayload, kRadioPacketCapacity in *.
  apply storedCrc_check in Ec; [|lia|done].
  pose proof (at_bytes_reader data (len - 4) ltac:(lia)) as Hat.
  fold freshQueueLocals in H.
  destruct (readQueueRecord _) as [ok [rd l]] eqn:Er.
  destruct ok; cbn [negb] in H; [|discriminate].
  apply (readQueueRecord_dec _ _ _ _ Hat (Forall_take _ _ _ Hb)) in Er
    as (tl & ? & ? & ? & ? & ? & ? & ? & ? & ? & ? & ? & ? & ? & El & Ebs & Hat2 & Hb2).
  split_match_in H; [discriminate|].
  rewrite (at_bytes_remaining _ _ Hat2) in *.
  destruct l as [rec magic boot rssi snr freq version elen plen flags n ms].
  cbn [ql_record ql_magic ql_version ql_encodedLength ql_flags ql_payloadLength
    ql_packetLength ql_boot ql_rssi ql_snr ql_frequencyError ql_receivedAtBits] in *.
  destruct rec as [id [] n0 raw]. cbn in El. injection El; intros; subst; clear El.
  cbn in H. split_match_in H; [discriminate|].
  cbn [qr_recordId qr_reception QueueRecord.rm_gatewayUptimeMs] in *.
  change (Z.of_nat 96) with 96 in *. bool_prop. subst plen.
  destruct (format_dec _ _ _ _ (format_read_bytes (Z.to_nat n)) _ _ Hat2 Hb2)
    as (payload & [Lp Hbp] & Ep & Etl); [lia|].
  rewrite Ep in H. injection H as _ <-. unfold bitsFloat.
  rewrite (drop_ge tl), app_nil_r in Etl by lia. subst payload.
  assert (len = 56 + Z.to_nat n)%nat as Elen.
  { apply (f_equal length) in Ebs. rewrite !length_app, length_take in Ebs.
    simpl in Ebs. lia. }
  destruct (decoded_record id (to_signed 64 ms) (flags =? 1) rm_gatewayUptimeMs boot
    rssi snr (to_signed 32 freq) n tl) as [W Ew]; try done;
    try (apply to_signed_range; lia); [lia|destruct (flags =? 1); bool_prop; lia..|].
  split; [exact W|]. rewrite Ec. unfold recordWire. f_equal.
  etransitivity; [exact Ebs|]. rewrite Ew, H15, H23, H22. unfold is_u in *.
  rewrite !wrap_to_signed by (done || lia).
  assert (Z.b2z (flags =? 1) = flags) as -> by (destruct (Z.eqb_spec flags 1); simpl; lia).
  assert (Z.of_nat len = Z.of_nat kFixedBytesWithoutPayload + n) as ->
    by (rewrite Elen; unfold kFixedBytesWithoutPayload; lia).
  done.
Qed.

Lemma recordWire_bytes r : record_typed r -> bytes_ok (recordWire r).
Proof.
  intros []. unfold recordWire, with_crc, recordBody, recordFields, recordPayload.
  repeat (apply Forall_app; split); auto using be64_bytes with gateway.
  - apply Forall_singleton.
    destruct (rm_gatewayTimeTrusted _); vm_compute; split; congruence.
  - apply Forall_take, rt_payload0.
Qed.

(** Different records have different encodings. *)
Lemma recordWire_inj r1 r2 :
  record_wf r1 -> record_wf r2 -> recordWire r1 = recordWire r2 -> r1 = r2.
Proof.
  intros W1 W2 E.
  pose proof (queueDecode_wire (recordWire r1) (length (recordWire r1)) r1) as E1.
  pose proof (queueDecode_wire (recordWire r1) (length (recordWire r1)) r2) as E2.
  rewrite E1 in E2; try done; try (by rewrite firstn_all); try apply recordWire_bytes, W1.
  assert (true = true /\ r1 = r2) as [_ ?]; [|done]. apply pair_equal_spec, E2.
  - done.
  - apply recordWire_bytes, W1.
  - done.
  - by rewrite firstn_all.
Qed.

(** ** Concrete records for the witnesses *)

Definition sampleRecord : QueueRecord :=
  mkQueueRecord 42
    (mkReceptionMetadata 1700000000123 true 86400000 305419896 0xC2C80000 0x41200000
       (-250) 5) 5 ([1; 2; 3; 4; 5] ++ zeros 91).

Lemma sampleRecord_wf : record_wf sampleRecord.
Proof.
  split.
  - unfold record_sound, sampleRecord; cbn. split_and!; try done; lia.
  - split; try (vm_compute; split; congruence).
    split; [reflexivity|]. apply (bool_decide_unpack _). vm_compute. reflexivity.
  - reflexivity.
Qed.

Lemma trailer_inj body tail body' v :
  length tail = 4%nat -> body ++ tail = body' ++ be32 v -> body = body' /\ tail = be32 v.
Proof. intros Lt E. by apply app_inj_2 in E. Qed.

(** ** Properties *)

(** C11: decode accepts exactly the encodings of well-formed records: magic,
    version, length, identifier, flags, payload length and checksum all have to
    agree, and the record answered is the one that was encoded, with its
    signed timestamp, its float bits and a zeroed tail behind the payload. *)
Theorem queue_record_decode_exact data len r :
  (len <= length data)%nat -> bytes_ok data ->
  queueDecode (Some data) len = (true, r) <->
  record_wf r /\ take len data = recordWire r.
Proof.
  intros Hl Hb. split.
  - by apply queueDecode_inv.
  - intros [W E]. by apply queueDecode_wire.
Qed.

Lemma queue_record_decode_exact_witness :
  queueDecode (Some (recordWire sampleRecord)) 61 = (true, sampleRecord).
Proof.
  apply (queue_record_decode_exact (recordWire sampleRecord) 61 sampleRecord).
  - vm_compute. lia.
  - apply (bool_decide_unpack _). vm_compute. reflexivity.
  - split; [apply sampleRecord_wf|reflexivity].
Defined.

(** Encoding produces the wire form exactly for the records it may store (an
    identifier, a payload of 1 to 96 bytes whose length the metadata repeats, a
    timestamp exactly when the clock is trusted) and nothing otherwise; decoding
    the result restores a padded record. *)
Theorem queue_record_encode_spec r :
  record_typed r ->
  (record_sound r -> queueEncode r = (true, recordWire r)) /\
  (~ record_sound r -> queueEncode r = (false, [])) /\
  (record_sound r -> record_padded r ->
   queueDecode (Some (snd (queueEncode r))) (length (snd (queueEncode r))) = (true, r)).
Proof.
  intros T. split_and!.
  - by apply queueEncode_ok.
  - apply queueEncode_refused, T.
  - intros S P. rewrite queueEncode_ok by done. cbn [snd].
    apply queueDecode_wire; [done|by apply recordWire_bytes|done|by rewrite firstn_all].
Qed.

Lemma queue_record_encode_spec_witness :
  queueEncode sampleRecord = (true, recordWire sampleRecord).
Proof.
  apply (queue_record_encode_spec sampleRecord); apply sampleRecord_wf.
Defined.

(** C20: damage on flash is noticed: a stored record in which up to four
    consecutive bytes in front of the checksum have changed, or in which the
    checksum itself has changed, is never accepted. *)
Theorem queue_record_damage_detected r pre w1 w2 post trailer trailer' :
  record_wf r -> recordWire r = (pre ++ w1 ++ post) ++ trailer ->
  length trailer = 4%nat -> length trailer' = 4%nat -> bytes_ok trailer' ->
  length w1 = 4%nat -> length w2 = 4%nat -> bytes_ok w2 ->
  let damaged body tail :=
    fst (queueDecode (Some (body ++ tail)) (length (body ++ tail))) in
  (w2 <> w1 -> damaged (pre ++ w2 ++ post) trailer = false) /\
  (trailer' <> trailer -> damaged (pre ++ w1 ++ post) trailer' = false).
Proof.
  intros W E Lt Lt' Bt' L1 L2 B2 damaged.
  pose proof (recordWire_bytes r (rw_typed _ W)) as B. rewrite E in B.
  rewrite !Forall_app in B. destruct B as ((Bp & B1 & Bq) & Bt).
  assert (forall body, length body = length (pre ++ w1 ++ post) -> bytes_ok body ->
    forall tail, length tail = 4%nat -> bytes_ok tail ->
    damaged body tail = true -> tail = be32 (crc32 body (length body))) as Hacc.
  { intros body Lb Bb tail Lta Bta Hd. unfold damaged in Hd.
    destruct (queueDecode _ _) as [ok r'] eqn:Eq. cbn in Hd. subst ok.
    apply queueDecode_inv in Eq as [_ Ew]; [|done|by apply Forall_app].
    rewrite firstn_all in Ew. unfold recordWire, with_crc in Ew.
    destruct (trailer_inj _ _ _ _ Lta Ew) as [-> ->]. done. }
  assert (trailer = be32 (crc32 (pre ++ w1 ++ post) (length (pre ++ w1 ++ post)))) as Et.
  { unfold recordWire, with_crc in E. symmetry in E.
    destruct (trailer_inj _ _ _ _ Lt E) as [-> ->]. done. }
  split; intros Hne; apply not_true_is_false; intros Hd.
  - apply Hacc in Hd; [|rewrite !length_app; lia|by rewrite !Forall_app|done..].
    apply (crc32_burst pre w1 w2 post); try done.
    apply (f_equal be_value) in Hd. rewrite Et in Hd.
    by rewrite !be32_value in Hd by (apply wrap_range; lia).
  - apply Hacc in Hd; [|done|by rewrite !Forall_app|done..]. congruence.
Qed.

Lemma queue_record_damage_detected_witness :
  let w := recordWire sampleRecord in
  fst (queueDecode (Some ((take 8 w ++ [0; 0; 0; 1] ++ drop 12 (take 57 w)) ++ drop 57 w))
         61) = false.
Proof.
  apply (queue_record_damage_detected sampleRecord (take 8 (recordWire sampleRecord))
    [0; 0; 0; 0] [0; 0; 0; 1] (drop 12 (take 57 (recordWire sampleRecord)))
    (drop 57 (recordWire sampleRecord)) [0; 0; 0; 0]).
  - apply sampleRecord_wf.
  - vm_compute. reflexivity.
  - vm_compute. reflexivity.
  - vm_compute. reflexivity.
  - apply (bool_decide_unpack _). vm_compute. reflexivity.
  - vm_compute. reflexivity.
  - vm_compute. reflexivity.
  - apply (bool_decide_unpack _). vm_compute. reflexivity.
  - vm_compute. discriminate.
Defined.

#[global] Arguments recordWire : simpl never.
