(* ===== verification/Dedup.v ===== *)
(** * Telemetry keys and the recent-key ring (lib/pairing/deduplicator) *)

From Stdlib Require Import ZArith Lia.
From S2P Require Import Prelude BuildConfig CString.

Record TelemetryKey := mkTelemetryKey {
  tk_nodeId : list Z;
  tk_persistentSessionId : Z;
  tk_sequence : Z;
}.

Definition TelemetryKey_init : TelemetryKey :=
  mkTelemetryKey (zeros kNodeIdCapacity) 0 0.

Definition makeTelemetryKey (nodeId : ptr (list Z)) (persistentSessionId sequence : Z)
  : TelemetryKey :=
  let key := TelemetryKey_init in
  let key := match nodeId with
    | nullptr => key
    | Some s => key <| tk_nodeId := strncpy (tk_nodeId key) s (kNodeIdCapacity - 1) |>
    end in
  key <| tk_persistentSessionId := persistentSessionId |> <| tk_sequence := sequence |>.

Definition telemetryKeyEqual (lhs rhs : TelemetryKey) : bool :=
  (strncmp (tk_nodeId lhs) (tk_nodeId rhs) kNodeIdCapacity =? 0) &&
  (tk_persistentSessionId lhs =? tk_persistentSessionId rhs) &&
  (tk_sequence lhs =? tk_sequence rhs).

(** ** The ring *)

Record RecentDeduplicator := mkRecentDeduplicator {
  rd_keys : list TelemetryKey;
  rd_capacity : nat;
  rd_size : nat;
  rd_next : nat;
}.

Definition RecentDeduplicator_new (capacity : nat) : RecentDeduplicator :=
  let capacity_ := if (capacity =? 0)%nat then 1%nat else capacity in
  let capacity_ := if (kRecentDedupCapacity <? capacity_)%nat
                   then kRecentDedupCapacity else capacity_ in
  mkRecentDeduplicator (replicate kRecentDedupCapacity TelemetryKey_init)
    capacity_ 0 0.

Definition oldestAt (d : RecentDeduplicator) (index : nat) : TelemetryKey :=
  let oldest := if (rd_size d <? rd_capacity d)%nat then 0%nat else rd_next d in
  nth ((oldest + index) mod rd_capacity d) (rd_keys d) TelemetryKey_init.

(** The loop of [contains], over the indices from 0 to [size_] - 1. *)
Definition dedupContains (d : RecentDeduplicator) (key : TelemetryKey) : bool :=
  existsb (fun index => telemetryKeyEqual (oldestAt d index) key)
    (List.seq 0 (rd_size d)).

Definition remember (d : RecentDeduplicator) (key : TelemetryKey)
  : bool * RecentDeduplicator :=
  if dedupContains d key then (false, d)
  else
    (true, {|
       rd_keys := <[rd_next d := key]> (rd_keys d);
       rd_capacity := rd_capacity d;
       rd_size := if (rd_size d <? rd_capacity d)%nat then S (rd_size d) else rd_size d;
       rd_next := ((rd_next d + 1) mod rd_capacity d)%nat |}).

Definition dedupClear (d : RecentDeduplicator) : RecentDeduplicator :=
  {| rd_keys := rd_keys d; rd_capacity := rd_capacity d;
     rd_size := 0; rd_next := 0 |}.

(** ** Keys *)

Lemma telemetryKeyEqual_spec a b :
  telemetryKeyEqual a b = true <->
  c_text kNodeIdCapacity (tk_nodeId a) = c_text kNodeIdCapacity (tk_nodeId b) /\
  tk_persistentSessionId a = tk_persistentSessionId b /\
  tk_sequence a = tk_sequence b.
Proof.
  unfold telemetryKeyEqual. rewrite !andb_true_iff, !Z.eqb_eq, strncmp_eq. tauto.
Qed.

Lemma telemetryKeyEqual_refl a : telemetryKeyEqual a a = true.
Proof. by apply telemetryKeyEqual_spec. Qed.

Lemma telemetryKeyEqual_sym a b : telemetryKeyEqual a b = telemetryKeyEqual b a.
Proof.
  apply eq_true_iff_eq. rewrite !telemetryKeyEqual_spec. intuition congruence.
Qed.

(** ** The ring as a list

    [recent d]: the remembered keys, oldest first. *)

Definition recent (d : RecentDeduplicator) : list TelemetryKey :=
  oldestAt d <$> seq 0 (rd_size d).

Record ring_ok (d : RecentDeduplicator) : Prop := {
  ro_keys : length (rd_keys d) = kRecentDedupCapacity;
  ro_capacity : (1 <= rd_capacity d <= kRecentDedupCapacity)%nat;
  ro_size : (rd_size d <= rd_capacity d)%nat;
  ro_next : (rd_next d < rd_capacity d)%nat;
  ro_filling : (rd_size d < rd_capacity d)%nat -> rd_next d = rd_size d;
}.

(** What remembering a key does to that list: nothing when it is there, else
    it becomes the newest and only the newest [cap] stay. *)
Definition remember_list (cap : nat) (l : list TelemetryKey) (k : TelemetryKey)
  : bool * list TelemetryKey :=
  if existsb (fun x => telemetryKeyEqual x k) l then (false, l)
  else (true, drop (length l + 1 - cap) (l ++ [k])).

Lemma length_recent d : length (recent d) = rd_size d.
Proof. unfold recent. by rewrite length_fmap, length_seq. Qed.

Lemma new_ok n : ring_ok (RecentDeduplicator_new n).
Proof.
  unfold RecentDeduplicator_new.
  split; cbn [rd_keys rd_capacity rd_size rd_next]; [by rewrite length_replicate|..];
    unfold kRecentDedupCapacity;
    destruct (Nat.eqb_spec n 0);
    match goal with |- context [(?a <? ?b)%nat] => destruct (Nat.ltb_spec a b) end; lia.
Qed.

Lemma new_recent n : recent (RecentDeduplicator_new n) = [].
Proof. done. Qed.

Lemma contains_recent d k :
  dedupContains d k = existsb (fun x => telemetryKeyEqual x k) (recent d).
Proof.
  unfold dedupContains, recent. induction (seq 0 (rd_size d)) as [|i l IH]; [done|].
  simpl. by rewrite IH.
Qed.

Lemma mod_once a c : (0 < c)%nat -> (a < 2 * c)%nat ->
  (a mod c)%nat = (if (a <? c)%nat then a else a - c)%nat.
Proof.
  intros Hc Ha. destruct (Nat.ltb_spec a c); [by apply Nat.mod_small|].
  symmetry. apply (Nat.mod_unique a c 1); lia.
Qed.

(** The slot of the [i]-th oldest key. *)
Definition slot (d : RecentDeduplicator) (i : nat) : nat :=
  ((if (rd_size d <? rd_capacity d)%nat then 0%nat else rd_next d) + i)
    mod rd_capacity d.

Lemma oldestAt_slot d i :
  ring_ok d -> rd_keys d !! slot d i = Some (oldestAt d i).
Proof.
  intros []. unfold oldestAt. fold (slot d i).
  destruct (nth_lookup_or_length (rd_keys d) (slot d i) TelemetryKey_init); [done|].
  exfalso. pose proof (Nat.mod_upper_bound
    ((if (rd_size d <? rd_capacity d)%nat then 0%nat else rd_next d) + i) (rd_capacity d)).
  unfold slot in *. lia.
Qed.

Lemma recent_lookup d i :
  ring_ok d -> (i < rd_size d)%nat -> recent d !! i = rd_keys d !! slot d i.
Proof.
  intros Hd Hi. unfold recent. rewrite list_lookup_fmap, lookup_seq_lt by done.
  by rewrite oldestAt_slot.
Qed.

Lemma remember_ok d k : ring_ok d -> ring_ok (snd (remember d k)).
Proof.
  intros Hd. unfold remember. destruct (dedupContains d k); [done|]. cbn [snd].
  destruct Hd, d as [keys cap size next]; cbn in *.
  split; cbn; [by rewrite length_insert|done|..];
    rewrite ?(mod_once (next + 1)) by lia;
    destruct (Nat.ltb_spec size cap), (Nat.ltb_spec (next + 1) cap); lia.
Qed.

(** While the ring fills, slot [i] holds the [i]-th key. *)
Lemma slot_filling d i :
  ring_ok d -> (i < rd_size d)%nat -> rd_next d = 0%nat \/ (rd_size d < rd_capacity d)%nat ->
  slot d i = i.
Proof.
  intros [] Hi Hn. unfold slot.
  destruct (Nat.ltb_spec (rd_size d) (rd_capacity d)).
  - rewrite Nat.add_0_l. apply Nat.mod_small. lia.
  - destruct Hn as [-> | ?]; [|lia]. apply Nat.mod_small. lia.
Qed.

Lemma remember_filling d k d' :
  ring_ok d -> (rd_size d < rd_capacity d)%nat -> remember d k = (true, d') ->
  recent d' = recent d ++ [k].
Proof.
  intros Hd Hs H. pose proof (remember_ok d k Hd) as Hd'. rewrite H in Hd'. cbn in Hd'.
  unfold remember in H. destruct (dedupContains d k); [discriminate|].
  injection H as <-. pose proof (ro_filling _ Hd Hs) as Hn.
  pose proof (ro_capacity _ Hd). pose proof (ro_keys _ Hd).
  destruct (Nat.ltb_spec (rd_size d) (rd_capacity d)); [|lia].
  apply list_eq. intros i.
  destruct (decide (i < S (rd_size d))%nat) as [Hi|Hi].
  - rewrite recent_lookup by done. rewrite (slot_filling _ i Hd'); [cbn|done|].
    2:{ cbn. rewrite Hn, mod_once by lia.
        destruct (Nat.ltb_spec (rd_size d + 1) (rd_capacity d)); lia. }
    destruct (decide (i = rd_size d)) as [->|].
    + rewrite Hn, list_lookup_insert_eq by lia.
      rewrite lookup_app_r by (rewrite length_recent; lia).
      by rewrite length_recent, Nat.sub_diag.
    + rewrite list_lookup_insert_ne by lia.
      rewrite lookup_app_l by (rewrite length_recent; lia).
      rewrite recent_lookup by (done || lia). rewrite slot_filling by (done || lia || auto). done.
  - rewrite !lookup_ge_None_2; [done|rewrite length_app, length_recent; simpl; lia
      |rewrite length_recent; cbn; lia].
Qed.

Lemma remember_full d k d' :
  ring_ok d -> rd_size d = rd_capacity d -> remember d k = (true, d') ->
  recent d' = drop 1 (recent d) ++ [k].
Proof.
  intros Hd Hs H. pose proof (remember_ok d k Hd) as Hd'. rewrite H in Hd'. cbn in Hd'.
  unfold remember in H. destruct (dedupContains d k); [discriminate|].
  injection H as <-.
  pose proof (ro_capacity _ Hd). pose proof (ro_keys _ Hd). pose proof (ro_next _ Hd).
  destruct (Nat.ltb_spec (rd_size d) (rd_capacity d)); [lia|].
  assert (length (drop 1 (recent d)) = (rd_size d - 1)%nat) as Hl
    by (by rewrite length_drop, length_recent).
  apply list_eq. intros i.
  destruct (decide (i < rd_size d)%nat) as [Hi|Hi].
  - rewrite recent_lookup by done. unfold slot. cbn.
    destruct (Nat.ltb_spec (rd_size d) (rd_capacity d)); [lia|].
    rewrite Nat.Div0.add_mod_idemp_l, mod_once by lia.
    destruct (decide (i = rd_size d - 1)%nat) as [->|].
    + rewrite lookup_app_r by lia. rewrite Hl, Nat.sub_diag.
      destruct (Nat.ltb_spec (rd_next d + 1 + (rd_size d - 1)) (rd_capacity d)); [lia|].
      replace (rd_next d + 1 + (rd_size d - 1) - rd_capacity d)%nat with (rd_next d) by lia.
      by rewrite list_lookup_insert_eq by lia.
    + rewrite lookup_app_l, lookup_drop by lia.
      rewrite recent_lookup by (done || lia). unfold slot.
      destruct (Nat.ltb_spec (rd_size d) (rd_capacity d)); [lia|].
      rewrite (mod_once (rd_next d + (1 + i))) by lia.
      replace (rd_next d + (1 + i))%nat with (rd_next d + 1 + i)%nat by lia.
      destruct (Nat.ltb_spec (rd_next d + 1 + i) (rd_capacity d));
        by rewrite list_lookup_insert_ne by lia.
  - rewrite !lookup_ge_None_2; [done|rewrite length_app, Hl; simpl; lia
      |rewrite length_recent; cbn; lia].
Qed.

Lemma remember_refines d k :
  ring_ok d ->
  fst (remember d k) = fst (remember_list (rd_capacity d) (recent d) k) /\
  recent (snd (remember d k)) = snd (remember_list (rd_capacity d) (recent d) k) /\
  rd_capacity (snd (remember d k)) = rd_capacity d.
Proof.
  intros Hd. unfold remember_list. rewrite <- contains_recent.
  destruct (dedupContains d k) eqn:Ec.
  { unfold remember. by rewrite Ec. }
  assert (remember d k = (true, snd (remember d k))) as E
    by (unfold remember; by rewrite Ec).
  cbn [fst snd]. split_and!; [by rewrite E| |by unfold remember; rewrite Ec].
  rewrite length_recent. pose proof (ro_size _ Hd).
  destruct (decide (rd_size d < rd_capacity d)%nat).
  - rewrite (remember_filling d k _ Hd) by done.
    by replace (rd_size d + 1 - rd_capacity d)%nat with 0%nat by lia.
  - rewrite (remember_full d k _ Hd) by (done || lia).
    replace (rd_size d + 1 - rd_capacity d)%nat with 1%nat by lia.
    rewrite drop_app_le; [done|]. rewrite length_recent. pose proof (ro_capacity _ Hd). lia.
Qed.

Lemma clear_ok d : ring_ok d -> ring_ok (dedupClear d).
Proof. intros []. split; cbn; (done || lia). Qed.

Lemma clear_recent d : recent (dedupClear d) = [].
Proof. done. Qed.

(** ** Runs of operations *)

Inductive DedupOp :=
  | OpContains (k : TelemetryKey)
  | OpRemember (k : TelemetryKey)
  | OpClear.

(** The answers of the ring to a sequence of calls, and the state they leave. *)
Fixpoint ring_run (d : RecentDeduplicator) (ops : list DedupOp)
  : list bool * RecentDeduplicator :=
  match ops with
  | [] => ([], d)
  | OpContains k :: ops =>
      let '(out, d') := ring_run d ops in (dedupContains d k :: out, d')
  | OpRemember k :: ops =>
      let '(b, d1) := remember d k in
      let '(out, d') := ring_run d1 ops in (b :: out, d')
  | OpClear :: ops => ring_run (dedupClear d) ops
  end.

(** The same calls on the list of the newest [cap] distinct keys. *)
Fixpoint list_run (cap : nat) (l : list TelemetryKey) (ops : list DedupOp)
  : list bool * list TelemetryKey :=
  match ops with
  | [] => ([], l)
  | OpContains k :: ops =>
      let '(out, l') := list_run cap l ops in
      (existsb (fun x => telemetryKeyEqual x k) l :: out, l')
  | OpRemember k :: ops =>
      let '(b, l1) := remember_list cap l k in
      let '(out, l') := list_run cap l1 ops in (b :: out, l')
  | OpClear :: ops => list_run cap [] ops
  end.

Lemma ring_run_refines d ops :
  ring_ok d ->
  fst (ring_run d ops) = fst (list_run (rd_capacity d) (recent d) ops) /\
  recent (snd (ring_run d ops)) = snd (list_run (rd_capacity d) (recent d) ops) /\
  ring_ok (snd (ring_run d ops)).
Proof.
  revert d. induction ops as [|[k|k|] ops IH]; intros d Hd; [done|..].
  - destruct (IH d Hd) as (E1 & E2 & E3). cbn [ring_run list_run].
    destruct (ring_run d ops), (list_run _ _ ops). cbn in *.
    by rewrite contains_recent, E1.
  - destruct (remember_refines d k Hd) as (R1 & R2 & R3).
    pose proof (remember_ok d k Hd) as R4. cbn [ring_run list_run].
    destruct (remember d k) as [b d1], (remember_list _ _ k) as [b' l1]. cbn in *.
    subst b' l1. destruct (IH d1 R4) as (E1 & E2 & E3). rewrite R3 in *.
    destruct (ring_run d1 ops), (list_run _ (recent d1) ops). cbn in *. by subst.
  - cbn [ring_run list_run]. apply (IH (dedupClear d)). by apply clear_ok.
Qed.

(** ** Property *)

(** C18: the ring is a bounded memory of distinct keys. Whatever sequence of
    calls it receives, it answers as a list that holds the newest keys, oldest
    first, in which a key already present is not remembered again and each new
    key pushes out the oldest once the (clamped) capacity is reached; the
    indices never leave the array. *)
Theorem dedup_ring_refines capacity ops :
  let cap := Nat.min (Nat.max capacity 1) kRecentDedupCapacity in
  let d := snd (ring_run (RecentDeduplicator_new capacity) ops) in
  fst (ring_run (RecentDeduplicator_new capacity) ops) = fst (list_run cap [] ops) /\
  recent d = snd (list_run cap [] ops) /\ (length (recent d) <= cap)%nat /\ ring_ok d.
Proof.
  intros cap d. pose proof (new_ok capacity) as Hn.
  assert (rd_capacity (RecentDeduplicator_new capacity) = cap) as Ec.
  { unfold RecentDeduplicator_new, cap, kRecentDedupCapacity. cbn [rd_capacity].
    destruct (Nat.eqb_spec capacity 0);
      match goal with |- context [(?a <? ?b)%nat] => destruct (Nat.ltb_spec a b) end; lia. }
  destruct (ring_run_refines _ ops Hn) as (E1 & E2 & E3).
  rewrite Ec, new_recent in *. split_and!; try done.
  rewrite length_recent. etransitivity; [apply (ro_size _ E3)|].
  assert (forall l d0, rd_capacity (snd (ring_run d0 l)) = rd_capacity d0) as Hcap.
  { induction l as [|[k|k|] l IH]; intros d0; cbn [ring_run]; [done|..].
    - specialize (IH d0). by destruct (ring_run d0 l).
    - unfold remember. destruct (dedupContains d0 k).
      + specialize (IH d0). by destruct (ring_run d0 l).
      + match goal with |- context [ring_run ?x l] => specialize (IH x) end.
        by destruct (ring_run _ l).
    - by rewrite IH. }
  by rewrite Hcap, Ec.
Qed.
