(* ===== verification/QueueStorage.v ===== *)
(** * The storage under the durable queue

    [QueueStorage] is the abstract class of durable_queue_core.hpp: what the
    queue may ask of the flash file system, over a storage state [St].
    [QueueStorageLaws] is what the queue relies on; every operation may fail,
    and a failed one changes nothing.  [ReliableReads] is the further promise
    that a file that is there, and not too long for a record, can be read. *)

From Stdlib Require Import ZArith Lia.
From stdpp Require Import gmap.
From S2P Require Import Prelude CString QueueRecord.

(** ** Record names

    [snprintf(name, 32, "%016llx.rec", id)]: sixteen lower-case hexadecimal
    digits and the suffix.  [hexDigits k id] are the [k] low-order digits. *)

Definition hexDigit (v : Z) : Z := if v <? 10 then 48 + v else 87 + v.

Fixpoint hexDigits (k : nat) (id : Z) : list Z :=
  match k with
  | O => []
  | S k => hexDigit (Z.land (Z.shiftr id (4 * Z.of_nat k)) 15) :: hexDigits k id
  end.

Definition recordName (recordId : Z) : list Z := hexDigits 16 recordId ++ chars ".rec".

(** The scan of the directory reads the names back
    (LittleFsQueueStorage::listRecordIds). *)
Definition nibbleOf (value : Z) : option Z :=
  if (48 <=? value) && (value <=? 57) then Some (value - 48)
  else if (97 <=? value) && (value <=? 102) then Some (value - 97 + 10)
  else None.

Fixpoint parseNibbles (recordId : Z) (name : list Z) : option Z :=
  match name with
  | [] => Some recordId
  | value :: name =>
      match nibbleOf value with
      | None => None
      | Some nibble =>
          parseNibbles (wrap 64 (Z.lor (Z.shiftl recordId 4) nibble)) name
      end
  end.

Definition parseRecordName (name : list Z) : option Z :=
  if (length name =? 20)%nat && bool_decide (drop 16 name = chars ".rec") then
    match parseNibbles 0 (take 16 name) with
    | Some recordId => if recordId =? 0 then None else Some recordId
    | None => None
    end
  else None.

(** A record identifier as the queue uses it: a non-zero 64-bit integer. *)
Definition valid_id (id : Z) : Prop := is_u 64 id /\ id <> 0.

#[global] Instance valid_id_dec id : Decision (valid_id id).
Proof. unfold valid_id. apply _. Defined.

(** ** The interface *)

Class QueueStorage (St : Type) := {
  listRecordIds : St -> option (list Z * Z) * St;
  readRecord : list Z -> St -> option (list Z) * St;
  writeRecordAtomic : Z -> list Z -> St -> bool * St;
  removeRecord : list Z -> St -> bool * St;
  cleanupTemporaryFiles : St -> St;
}.

(** The record files: what a perfect reader would find under each name. *)
Class QueueStorageLaws (St : Type) `{QueueStorage St} := {
  files : St -> gmap (list Z) (list Z);
  file_bytes st name bytes : files st !! name = Some bytes -> bytes_ok bytes;
  list_files st ids corrupt st' :
    listRecordIds st = (Some (ids, corrupt), st') ->
    NoDup ids /\
    (forall id, id ∈ ids <-> valid_id id /\ is_Some (files st !! recordName id)) /\
    (forall id, valid_id id -> files st' !! recordName id = files st !! recordName id);
  list_failed st st' :
    listRecordIds st = (None, st') ->
    forall id, valid_id id -> files st' !! recordName id = files st !! recordName id;
  read_found st id bytes st' :
    valid_id id -> readRecord (recordName id) st = (Some bytes, st') ->
    files st !! recordName id = Some bytes;
  read_keeps st name o st' : readRecord name st = (o, st') -> files st' = files st;
  write_done st id bytes st' :
    valid_id id -> bytes_ok bytes ->
    writeRecordAtomic id bytes st = (true, st') ->
    files st' = <[recordName id := bytes]> (files st);
  write_failed st id bytes st' :
    valid_id id -> bytes_ok bytes ->
    writeRecordAtomic id bytes st = (false, st') -> files st' = files st;
  remove_done st id st' :
    valid_id id -> removeRecord (recordName id) st = (true, st') ->
    files st' = delete (recordName id) (files st);
  remove_failed st id st' :
    valid_id id -> removeRecord (recordName id) st = (false, st') -> files st' = files st;
  cleanup_keeps st id : valid_id id ->
    files (cleanupTemporaryFiles st) !! recordName id = files st !! recordName id;
}.

Class ReliableReads (St : Type) `{QueueStorageLaws St} := {
  read_reliable st id bytes :
    valid_id id -> files st !! recordName id = Some bytes ->
    (length bytes <= kMaximumEncodedBytes)%nat ->
    fst (readRecord (recordName id) st) = Some bytes;
}.

(** ** Names and identifiers correspond *)

Lemma nibble_hexDigit v : 0 <= v < 16 -> nibbleOf (hexDigit v) = Some v.
Proof.
  intros Hv. unfold hexDigit, nibbleOf.
  destruct (Z.ltb_spec v 10); repeat split_match; bool_prop; f_equal; lia.
Qed.

Lemma nibbleOf_Some c v : nibbleOf c = Some v -> 0 <= v < 16 /\ c = hexDigit v.
Proof.
  unfold nibbleOf, hexDigit. intros H.
  repeat split_match_in H; try discriminate; bool_prop; injection H as <-;
    split_match; bool_prop; lia.
Qed.

Lemma land15 v : Z.land v 15 = v mod 16.
Proof. change 15 with (Z.ones 4). by rewrite Z.land_ones by lia. Qed.

Lemma shift_nibble acc v :
  0 <= acc < 2 ^ 60 -> 0 <= v < 16 ->
  wrap 64 (Z.lor (Z.shiftl acc 4) v) = acc * 16 + v.
Proof.
  intros Ha Hv. rewrite shiftl_lor_add by (change (2 ^ 4) with 16; lia).
  apply wrap_id. unfold is_u. change (2 ^ 64) with (2 ^ 60 * 16). change (2 ^ 4) with 16.
  lia.
Qed.

(** The digits of [id] above the [k] low-order ones. *)
Lemma shiftr_digit id k :
  0 <= id ->
  Z.shiftr id (4 * Z.of_nat k) =
  Z.shiftr id (4 * Z.of_nat (S k)) * 16 + Z.land (Z.shiftr id (4 * Z.of_nat k)) 15.
Proof.
  intros Hid. rewrite land15.
  replace (4 * Z.of_nat (S k)) with (4 * Z.of_nat k + 4) by lia.
  rewrite <- Z.shiftr_shiftr by lia. rewrite (Z.shiftr_div_pow2 _ 4) by lia.
  change (2 ^ 4) with 16. pose proof (Z.div_mod (Z.shiftr id (4 * Z.of_nat k)) 16). lia.
Qed.

Lemma shiftr_small id k :
  is_u 64 id -> (k <= 15)%nat -> 0 <= Z.shiftr id (4 * Z.of_nat (S k)) < 2 ^ 60.
Proof.
  intros Hid Hk. rewrite Z.shiftr_div_pow2 by lia. unfold is_u in Hid.
  pose proof (Z.pow_pos_nonneg 2 (4 * Z.of_nat (S k)) ltac:(lia) ltac:(lia)).
  split; [apply Z.div_pos; lia|]. apply Z.div_lt_upper_bound; [lia|].
  apply Z.lt_le_trans with (2 ^ 4 * 2 ^ 60); [change (2 ^ 64) with (2 ^ 4 * 2 ^ 60) in Hid; lia|].
  apply Z.mul_le_mono_nonneg_r; [lia|]. apply Z.pow_le_mono_r; lia.
Qed.

Lemma parse_hexDigits k id :
  is_u 64 id -> (k <= 16)%nat ->
  parseNibbles (Z.shiftr id (4 * Z.of_nat k)) (hexDigits k id) = Some id.
Proof.
  intros Hid. induction k as [|k IH]; intros Hk; cbn [hexDigits parseNibbles].
  - by rewrite Z.shiftr_0_r.
  - assert (0 <= Z.land (Z.shiftr id (4 * Z.of_nat k)) 15 < 16) as Hn
      by (rewrite land15; apply Z.mod_pos_bound; lia).
    rewrite nibble_hexDigit by done.
    rewrite shift_nibble by (done || (apply shiftr_small; [done|lia])).
    rewrite <- shiftr_digit by (unfold is_u in Hid; lia). apply IH. lia.
Qed.

Lemma parseNibbles_inv s acc id :
  parseNibbles acc s = Some id -> (length s <= 16)%nat ->
  0 <= acc < 2 ^ (64 - 4 * Z.of_nat (length s)) ->
  is_u 64 id /\ s = hexDigits (length s) id /\
  Z.shiftr id (4 * Z.of_nat (length s)) = acc.
Proof.
  revert acc. induction s as [|c s IH]; intros acc H Hl Ha; cbn [parseNibbles length] in *.
  - injection H as <-. split_and!; [exact Ha|done|]. by rewrite Z.shiftr_0_r.
  - destruct (nibbleOf c) as [v|] eqn:Ev; [|discriminate].
    apply nibbleOf_Some in Ev as [Hv ->].
    assert (2 ^ (64 - 4 * Z.of_nat (length s)) = 16 * 2 ^ (64 - 4 * Z.of_nat (S (length s))))
      as Ep.
    { change 16 with (2 ^ 4). rewrite <- Z.pow_add_r by lia. f_equal. lia. }
    assert (2 ^ (64 - 4 * Z.of_nat (S (length s))) <= 2 ^ 60)
      by (apply Z.pow_le_mono_r; lia).
    rewrite shift_nibble in H by lia.
    destruct (IH _ H ltac:(lia) ltac:(lia)) as (Hid & Es & Eacc).
    cbn [hexDigits]. rewrite Eacc.
    assert (Z.land (acc * 16 + v) 15 = v) as ->
      by (rewrite land15, Z.add_comm, Z_mod_plus_full; apply Z.mod_small; lia).
    split_and!; [done|by f_equal|].
    pose proof (shiftr_digit id (length s) ltac:(unfold is_u in Hid; lia)) as Ed.
    rewrite Eacc in Ed.
    assert (Z.land (acc * 16 + v) 15 = v) as E15
      by (rewrite land15, Z.add_comm, Z_mod_plus_full; apply Z.mod_small; lia).
    lia.
Qed.

Lemma length_hexDigits k id : length (hexDigits k id) = k.
Proof. induction k; simpl; congruence. Qed.

(** Reading a record's own name back gives its identifier ... *)
Lemma parse_recordName id : valid_id id -> parseRecordName (recordName id) = Some id.
Proof.
  intros [Hu Hn]. unfold parseRecordName, recordName.
  rewrite length_app, length_hexDigits. change (length (chars ".rec")) with 4%nat.
  change ((16 + 4 =? 20)%nat) with true.
  rewrite drop_app_length' by (by rewrite length_hexDigits).
  rewrite bool_decide_true by done. cbn [andb].
  rewrite take_app_length' by (by rewrite length_hexDigits).
  pose proof (parse_hexDigits 16 id Hu ltac:(lia)) as E.
  assert (Z.shiftr id (4 * Z.of_nat 16) = 0) as E0.
  { change (4 * Z.of_nat 16) with 64. rewrite Z.shiftr_div_pow2 by lia.
    by apply Z.div_small. }
  rewrite E0 in E. rewrite E. by destruct (Z.eqb_spec id 0).
Qed.

(** ... and only its own name does. *)
Lemma parse_recordName_inv name id :
  parseRecordName name = Some id -> valid_id id /\ name = recordName id.
Proof.
  unfold parseRecordName. intros H.
  destruct (Nat.eqb_spec (length name) 20) as [Hl|]; [|discriminate].
  case_bool_decide as Hs; [cbn [andb] in H|discriminate].
  destruct (parseNibbles 0 (take 16 name)) as [v|] eqn:Ep; [|discriminate].
  destruct (Z.eqb_spec v 0); [discriminate|]. injection H as <-.
  assert (length (take 16 name) = 16%nat) as Lt by (rewrite length_take; lia).
  destruct (parseNibbles_inv _ _ _ Ep) as (Hu & Es & _);
    [lia|rewrite Lt; change (2 ^ _) with 1; lia|].
  split; [done|]. unfold recordName. rewrite Lt in Es.
  by rewrite <- Es, <- Hs, take_drop.
Qed.

Lemma recordName_inj a b :
  valid_id a -> valid_id b -> recordName a = recordName b -> a = b.
Proof.
  intros Ha Hb E. pose proof (parse_recordName a Ha) as Ea.
  rewrite E, parse_recordName in Ea by done. by injection Ea.
Qed.

#[export] Hint Resolve recordName_inj : gateway.

(** ** A storage in memory

    The instance the witnesses compute with: a map of files and the outcomes of
    the coming writes and removals, success once the list is empty. *)

Record MemoryStorage := mkMemoryStorage {
  ms_files : gmap (list Z) (list Z);
  ms_script : list bool;
}.

(** The bytes a file holds. *)
Definition file_content (bytes : list Z) : list Z := wrap 8 <$> bytes.

#[export] Instance MemoryStorage_ops : QueueStorage MemoryStorage := {
  listRecordIds st :=
    (Some (omap (fun f => parseRecordName f.1) (map_to_list (ms_files st)), 0), st);
  readRecord name st := (file_content <$> ms_files st !! name, st);
  writeRecordAtomic id bytes st :=
    if default true (head (ms_script st))
    then (true, mkMemoryStorage (<[recordName id := bytes]> (ms_files st)) (tail (ms_script st)))
    else (false, mkMemoryStorage (ms_files st) (tail (ms_script st)));
  removeRecord name st :=
    if default true (head (ms_script st))
    then (true, mkMemoryStorage (delete name (ms_files st)) (tail (ms_script st)))
    else (false, mkMemoryStorage (ms_files st) (tail (ms_script st)));
  cleanupTemporaryFiles st := st;
}.

Lemma file_content_ok bytes : bytes_ok bytes -> file_content bytes = bytes.
Proof.
  intros H. unfold file_content. induction H as [|b l Hb Hl IH]; [done|].
  rewrite fmap_cons, IH, wrap_id by done. done.
Qed.

Lemma memory_list_ids m :
  NoDup (omap (fun f : list Z * list Z => parseRecordName f.1) (map_to_list m)) /\
  (forall id, id ∈ omap (fun f : list Z * list Z => parseRecordName f.1) (map_to_list m) <->
     valid_id id /\ is_Some (m !! recordName id)).
Proof.
  split.
  - pose proof (NoDup_fst_map_to_list m) as Hn.
    induction (map_to_list m) as [|[name b] l IH]; cbn; [constructor|].
    rewrite fmap_cons, NoDup_cons in Hn. destruct Hn as [Hnin Hn].
    destruct (parseRecordName name) as [id|] eqn:Ep; [|by apply IH].
    apply NoDup_cons. split; [|by apply IH]. intros Hin.
    apply list_elem_of_omap in Hin as ([name' b'] & Hin & Ep'). cbn in *.
    apply parse_recordName_inv in Ep as [_ ->], Ep' as [_ ->].
    apply Hnin. apply list_elem_of_fmap. by exists (recordName id, b').
  - intros id. rewrite list_elem_of_omap. split.
    + intros ([name b] & Hin & Ep). cbn in Ep. apply parse_recordName_inv in Ep as [Hv ->].
      apply elem_of_map_to_list in Hin. eauto.
    + intros (Hv & b & Hb). exists (recordName id, b).
      rewrite elem_of_map_to_list. split; [done|]. by apply parse_recordName.
Qed.

#[export] Instance MemoryStorage_laws : QueueStorageLaws MemoryStorage.
Proof.
  refine {| files st := file_content <$> ms_files st |}.
  - intros st name bytes H. apply lookup_fmap_Some in H as (b & <- & _).
    apply Forall_fmap, Forall_true. intros x. apply wrap_range. lia.
  - cbn. intros st ids corrupt st' [= <- <- <-].
    destruct (memory_list_ids (ms_files st)) as [Hn Hi]. split_and!; [done| |done].
    intros id. rewrite Hi, lookup_fmap, fmap_is_Some. done.
  - cbn. discriminate.
  - cbn. intros st id bytes st' _ [= H <-]. by rewrite lookup_fmap.
  - cbn. intros st name o st' [= _ <-]. done.
  - cbn. intros st id bytes st' _ Hb H. split_match_in H; [|discriminate].
    injection H as <-. cbn. by rewrite fmap_insert, file_content_ok.
  - cbn. intros st id bytes st' _ _ H. split_match_in H; [discriminate|].
    by injection H as <-.
  - cbn. intros st id st' _ H. split_match_in H; [|discriminate].
    injection H as <-. cbn. by rewrite fmap_delete.
  - cbn. intros st id st' _ H. split_match_in H; [discriminate|]. by injection H as <-.
  - done.
Defined.

#[export] Instance MemoryStorage_reliable : ReliableReads MemoryStorage.
Proof. split. intros st id bytes _ E _. cbn in *. by rewrite lookup_fmap in E. Qed.
