(* ===== verification/DurableQueueCore.v ===== *)
(** * The durable queue (lib/queue/durable_queue_core)

    [DurableQueueCore] over an abstract storage: the in-memory index of the
    records on flash and the operations that keep the two in step. *)

From Stdlib Require Import ZArith Lia.
From stdpp Require Import sorting.
From S2P Require Import Prelude BuildConfig CString ByteIO Protocol QueueRecord Dedup QueueStorage.

(** ** State *)

Record QueueCoreStats := mkQueueCoreStats {
  qs_recoveredRecords : Z;
  qs_corruptRecords : Z;
  qs_droppedOldest : Z;
  qs_storageErrors : Z;
}.

Definition QueueCoreStats_init : QueueCoreStats := mkQueueCoreStats 0 0 0 0.

Record Entry := mkEntry {
  e_recordId : Z;
  e_keyHash : Z;
}.

Record DurableQueueCore := mkDurableQueueCore {
  c_capacity : nat;
  c_nextRecordId : Z;
  c_entries : list Entry;
  c_stats : QueueCoreStats;
}.

Definition DurableQueueCore_new (capacity : nat) : DurableQueueCore :=
  mkDurableQueueCore (if (capacity =? 0)%nat then 1%nat else capacity) 1 []
    QueueCoreStats_init.

(** [++stats_.x] on the 32-bit counters. *)
Definition bump32 (v : Z) : Z := wrap 32 (v + 1).

Definition bumpErrors (c : DurableQueueCore) : DurableQueueCore :=
  c <| c_stats->qs_storageErrors := bump32 (qs_storageErrors (c_stats c)) |>.

Definition bumpDropped (c : DurableQueueCore) : DurableQueueCore :=
  c <| c_stats->qs_droppedOldest := bump32 (qs_droppedOldest (c_stats c)) |>.

Definition bumpCorrupt (c : DurableQueueCore) : DurableQueueCore :=
  c <| c_stats->qs_corruptRecords := bump32 (qs_corruptRecords (c_stats c)) |>.

(** ** Keys and records *)

(** FNV-1a over the identifier's length and characters, the session and the
    sequence number. *)
Definition kOffset : Z := 14695981039346656037.
Definition kPrime : Z := 1099511628211.

Definition mix (hash value : Z) : Z := wrap 64 (Z.lxor hash value * kPrime).

Definition keyHash (key : TelemetryKey) : Z :=
  let length := strnlen (tk_nodeId key) kNodeIdCapacity in
  let bytes v := (fun shift => wrap 8 (Z.shiftr v shift)) <$> [24; 16; 8; 0] in
  let hash := mix kOffset (wrap 8 (Z.of_nat length)) in
  let hash := foldl mix hash (wrap 8 <$> take length (tk_nodeId key)) in
  let hash := foldl mix hash (bytes (tk_persistentSessionId key)) in
  foldl mix hash (bytes (tk_sequence key)).

(** The telemetry a record carries, when its payload decodes. *)
Definition telemetryOf (record : QueueRecord) : option TelemetryPacket :=
  let '(status, telemetry) :=
    decodeTelemetry (Some (qr_rawPayload record))
      (Z.to_nat (qr_payloadLength record)) TelemetryPacket_init in
  if bool_decide (status = DecodeStatus.kOk) then Some telemetry else None.

Definition keyOf (telemetry : TelemetryPacket) : TelemetryKey :=
  makeTelemetryKey (Some (tp_nodeId telemetry)) (tp_persistentSessionId telemetry)
    (tp_sequence telemetry).

Section Core.
Context {St : Type} `{QueueStorage St}.

(** [readRecord(name, bytes) && QueueRecordCodec::decode(bytes)]. *)
Definition loadRecord (name : list Z) (s : St) : option QueueRecord * St :=
  let '(o, s) := readRecord name s in
  match o with
  | None => (None, s)
  | Some bytes =>
      let '(ok, record) := queueDecode (Some bytes) (length bytes) in
      (if ok then Some record else None, s)
  end.

(** ** recover *)

Definition recoverOne (cs : DurableQueueCore * St) (listedRecordId : Z)
  : DurableQueueCore * St :=
  let '(c, s) := cs in
  let name := recordName listedRecordId in
  let '(loaded, s) := loadRecord name s in
  let accepted :=
    match loaded with
    | None => None
    | Some record =>
        if negb (qr_recordId record =? listedRecordId) then None
        else match telemetryOf record with
             | None => None
             | Some telemetry => Some (record, telemetry)
             end
    end in
  match accepted with
  | None =>
      let c := bumpCorrupt c in
      let '(removed, s) := removeRecord name s in
      (if removed then c else bumpErrors c, s)
  | Some (record, telemetry) =>
      let id := qr_recordId record in
      (c <| c_entries := c_entries c ++ [mkEntry id (keyHash (keyOf telemetry))] |>
         <| c_nextRecordId := if c_nextRecordId c <=? id then wrap 64 (id + 1)
                              else c_nextRecordId c |>, s)
  end.

Definition entryBefore (lhs rhs : Entry) : Prop := e_recordId lhs <= e_recordId rhs.

#[export] Instance entryBefore_dec : RelDecision entryBefore.
Proof. intros a b. unfold entryBefore. apply _. Defined.

(** [std::sort] by record identifier. *)
Definition sortEntries (entries : list Entry) : list Entry :=
  merge_sort entryBefore entries.

(** [while (entries_.size() > capacity_)], along the entries. *)
Fixpoint trimOldest (entries : list Entry) (c : DurableQueueCore) (s : St)
  : bool * DurableQueueCore * St :=
  let c := c <| c_entries := entries |> in
  if (length entries <=? c_capacity c)%nat then (true, c, s) else
  match entries with
  | [] => (true, c, s)
  | oldest :: rest =>
      let '(removed, s) := removeRecord (recordName (e_recordId oldest)) s in
      if removed then trimOldest rest (bumpDropped c) s
      else (false, bumpErrors c, s)
  end.

Definition recover (c : DurableQueueCore) (s : St) : bool * DurableQueueCore * St :=
  let c := c <| c_entries := [] |> <| c_nextRecordId := 1 |> in
  let s := cleanupTemporaryFiles s in
  let '(listed, s) := listRecordIds s in
  match listed with
  | None => (false, bumpErrors c, s)
  | Some (recordIds, corruptNames) =>
      let c := c <| c_stats->qs_corruptRecords :=
        wrap 32 (qs_corruptRecords (c_stats c) + corruptNames) |> in
      let '(c, s) := foldl recoverOne (c, s) recordIds in
      let '(ok, c, s) := trimOldest (sortEntries (c_entries c)) c s in
      if ok then
        (true, c <| c_stats->qs_recoveredRecords :=
                      wrap 32 (Z.of_nat (length (c_entries c))) |>, s)
      else (false, c, s)
  end.

(** ** enqueue *)

(** Removing the oldest record: the file first, then its entry. *)
Definition dropFront (c : DurableQueueCore) (s : St) : bool * DurableQueueCore * St :=
  match c_entries c with
  | [] => (false, c, s)
  | oldest :: rest =>
      let '(removed, s) := removeRecord (recordName (e_recordId oldest)) s in
      if removed then (true, bumpDropped (c <| c_entries := rest |>), s)
      else (false, c, s)
  end.

(** The first write, and the last-resort retry after dropping the oldest. *)
Definition writeOrDrop (id : Z) (bytes : list Z) (c : DurableQueueCore) (s : St)
  : bool * DurableQueueCore * St :=
  let '(wrote, s) := writeRecordAtomic id bytes s in
  if wrote then (true, c, s)
  else if (c_capacity c <=? length (c_entries c))%nat then
    let '(dropped, c, s) := dropFront c s in
    if negb dropped then (false, bumpErrors c, s)
    else
      let '(wrote, s) := writeRecordAtomic id bytes s in
      if wrote then (true, c, s) else (false, bumpErrors c, s)
  else (false, bumpErrors c, s).

(** Making room after a successful write: the oldest record goes, or else the
    new one is withdrawn. *)
Definition makeRoom (id : Z) (c : DurableQueueCore) (s : St)
  : bool * DurableQueueCore * St :=
  if (c_capacity c <=? length (c_entries c))%nat
  then
    let '(dropped, c, s) := dropFront c s in
    if dropped then (true, c, s)
    else let '(_, s) := removeRecord (recordName id) s in (false, bumpErrors c, s)
  else (true, c, s).

Definition enqueue (c : DurableQueueCore) (s : St) (record : QueueRecord)
  : bool * QueueRecord * DurableQueueCore * St :=
  if c_nextRecordId c =? 0 then (false, record, bumpErrors c, s) else
  match telemetryOf record with
  | None => (false, record, c, s)
  | Some telemetry =>
      let record := record <| qr_recordId := c_nextRecordId c |> in
      let '(encoded, bytes) := queueEncode record in
      if negb encoded then (false, record, c, s) else
      let '(wrote, c, s) := writeOrDrop (qr_recordId record) bytes c s in
      if negb wrote then (false, record, c, s) else
      let '(fits, c, s) := makeRoom (qr_recordId record) c s in
      if negb fits then (false, record, c, s)
      else
        (true, record,
         c <| c_entries := c_entries c ++
                [mkEntry (qr_recordId record) (keyHash (keyOf telemetry))] |>
           <| c_nextRecordId := wrap 64 (c_nextRecordId c + 1) |>, s)
  end.

(** ** peek *)

Fixpoint peekLoop (entries : list Entry) (s : St) : option (list QueueRecord) * St :=
  match entries with
  | [] => (Some [], s)
  | e :: entries =>
      let '(loaded, s) := loadRecord (recordName (e_recordId e)) s in
      match loaded with
      | None => (None, s)
      | Some record =>
          let '(o, s) := peekLoop entries s in
          (match o with Some records => Some (record :: records) | None => None end, s)
      end
  end.

Definition peek (limit : nat) (c : DurableQueueCore) (s : St)
  : bool * list QueueRecord * DurableQueueCore * St :=
  let count := Nat.min limit (length (c_entries c)) in
  let '(o, s) := peekLoop (take count (c_entries c)) s in
  match o with
  | Some records => (true, records, c, s)
  | None => (false, [], bumpErrors c, s)
  end.

(** ** remove *)

Definition has_id (recordId : Z) (e : Entry) : Prop := e_recordId e = recordId.

#[export] Instance has_id_dec recordId e : Decision (has_id recordId e).
Proof. unfold has_id. apply _. Defined.

Definition queueRemove (recordId : Z) (c : DurableQueueCore) (s : St)
  : bool * DurableQueueCore * St :=
  match list_find (has_id recordId) (c_entries c) with
  | None => (false, c, s)
  | Some (i, found) =>
      let '(removed, s) := removeRecord (recordName (e_recordId found)) s in
      if removed then (true, c <| c_entries := delete i (c_entries c) |>, s)
      else (false, bumpErrors c, s)
  end.

(** ** contains *)

Fixpoint containsLoop (entries : list Entry) (key : TelemetryKey) (expectedHash : Z)
    (c : DurableQueueCore) (s : St) : bool * DurableQueueCore * St :=
  match entries with
  | [] => (false, c, s)
  | e :: entries =>
      if negb (e_keyHash e =? expectedHash)
      then containsLoop entries key expectedHash c s
      else
        let '(loaded, s) := loadRecord (recordName (e_recordId e)) s in
        match loaded ≫= telemetryOf with
        | None => containsLoop entries key expectedHash (bumpErrors c) s
        | Some telemetry =>
            if telemetryKeyEqual (keyOf telemetry) key then (true, c, s)
            else containsLoop entries key expectedHash c s
        end
  end.

Definition queueContains (key : TelemetryKey) (c : DurableQueueCore) (s : St)
  : bool * DurableQueueCore * St :=
  containsLoop (c_entries c) key (keyHash key) c s.

Definition queueSize (c : DurableQueueCore) : nat := length (c_entries c).

End Core.

#[global] Arguments keyHash : simpl never.
#[global] Arguments recordName : simpl never.
#[global] Arguments telemetryOf : simpl never.
#[global] Arguments keyOf : simpl never.
