(* ===== verification/DurableQueueSpec.v ===== *)
(** * What the durable queue promises

    The contents of the queue are the records on flash its index points to, in
    index order.  [core_ok] is the invariant that makes the index trustworthy;
    every operation preserves it, whatever the storage refuses to do. *)

From Stdlib Require Import ZArith Lia.
From stdpp Require Import gmap sorting.
From S2P Require Import Prelude BuildConfig CString ByteIO Protocol QueueRecord QueueRecordSpec.
From S2P Require Import QueueRecordCodec Dedup QueueStorage DurableQueueCore.

Abbreviation FileMap := (gmap (list Z) (list Z)).

(** ** Contents *)

(** The index entry [e] points to the file that encodes [r]. *)
Record holds (m : FileMap) (e : Entry) (r : QueueRecord) : Prop := {
  ho_id : valid_id (e_recordId e);
  ho_file : m !! recordName (e_recordId e) = Some (recordWire r);
  ho_wf : record_wf r;
  ho_match : qr_recordId r = e_recordId e;
  ho_key : exists t, telemetryOf r = Some t /\ e_keyHash e = keyHash (keyOf t);
}.

Definition ids (c : DurableQueueCore) : list Z := e_recordId <$> c_entries c.

Record core_ok (c : DurableQueueCore) (m : FileMap) (rs : list QueueRecord) : Prop := {
  co_capacity : (1 <= c_capacity c)%nat;
  co_bounded : (length (c_entries c) <= c_capacity c)%nat;
  co_sorted : StronglySorted Z.lt (ids c);
  co_next : is_u 64 (c_nextRecordId c);
  co_fresh : c_nextRecordId c = 0 \/ Forall (fun id => id < c_nextRecordId c) (ids c);
  co_holds : Forall2 (holds m) (c_entries c) rs;
}.

Lemma holds_insert m e r id bytes :
  holds m e r -> valid_id id -> id <> e_recordId e ->
  holds (<[recordName id := bytes]> m) e r.
Proof.
  intros [] Hid Hne. split; try done. rewrite lookup_insert_ne; [done|].
  intros E. apply Hne. by apply recordName_inj in E.
Qed.

Lemma holds_delete m e r id :
  holds m e r -> valid_id id -> id <> e_recordId e ->
  holds (delete (recordName id) m) e r.
Proof.
  intros [] Hid Hne. split; try done. rewrite lookup_delete_ne; [done|].
  intros E. apply Hne. by apply recordName_inj in E.
Qed.

Lemma all_holds_insert m es rs id bytes :
  Forall2 (holds m) es rs -> valid_id id -> id ∉ e_recordId <$> es ->
  Forall2 (holds (<[recordName id := bytes]> m)) es rs.
Proof.
  intros Hh Hid. induction Hh as [|e r es rs He Hh IH]; intros Hn; constructor;
    rewrite fmap_cons, not_elem_of_cons in Hn; destruct Hn; auto using holds_insert.
Qed.

Lemma all_holds_delete m es rs id :
  Forall2 (holds m) es rs -> valid_id id -> id ∉ e_recordId <$> es ->
  Forall2 (holds (delete (recordName id) m)) es rs.
Proof.
  intros Hh Hid. induction Hh as [|e r es rs He Hh IH]; intros Hn; constructor;
    rewrite fmap_cons, not_elem_of_cons in Hn; destruct Hn; auto using holds_delete.
Qed.

(** ** Decoding what the storage returns *)

Lemma telemetryOf_id r id : telemetryOf (r <| qr_recordId := id |>) = telemetryOf r.
Proof. by destruct r. Qed.

Lemma queueDecode_some bytes r :
  bytes_ok bytes -> queueDecode (Some bytes) (length bytes) = (true, r) <->
  record_wf r /\ bytes = recordWire r.
Proof.
  intros Hb. split.
  - intros E. apply queueDecode_inv in E as [? E]; [|done..]. by rewrite firstn_all in E.
  - intros [W E]. apply queueDecode_wire; [done..|]. by rewrite firstn_all.
Qed.

Section Spec.
Context {St : Type} `{QueueStorageLaws St}.

Lemma loadRecord_keeps name s o s' :
  loadRecord name s = (o, s') -> files s' = files s.
Proof.
  unfold loadRecord. intros E. destruct (readRecord name s) as [o1 s1] eqn:Er.
  apply read_keeps in Er. destruct o1 as [bytes|]; [|by injection E as <- <-].
  destruct (queueDecode _ _) as [ok r]. by injection E as <- <-.
Qed.

Lemma loadRecord_sound id s r s' :
  valid_id id -> loadRecord (recordName id) s = (Some r, s') ->
  record_wf r /\ files s !! recordName id = Some (recordWire r).
Proof.
  unfold loadRecord. intros Hv E. destruct (readRecord _ s) as [o1 s1] eqn:Er.
  destruct o1 as [bytes|]; [|discriminate]. apply read_found in Er; [|done].
  destruct (queueDecode _ _) as [ok r'] eqn:Ed. destruct ok; [|discriminate].
  injection E as -> ->. apply queueDecode_some in Ed as [W ->]; [done|].
  by apply (file_bytes s (recordName id)).
Qed.

(** Nothing longer than a record decodes. *)
Lemma queueDecode_long bytes :
  (kMaximumEncodedBytes < length bytes)%nat ->
  fst (queueDecode (Some bytes) (length bytes)) = false.
Proof.
  intros Hl. unfold queueDecode. rewrite (proj2 (Nat.ltb_lt _ _) Hl).
  by rewrite !orb_true_r.
Qed.

Lemma loadRecord_reliable `{!ReliableReads St} id s :
  valid_id id ->
  exists s', files s' = files s /\
    loadRecord (recordName id) s = (files s !! recordName id ≫= fun bytes =>
      let '(ok, r) := queueDecode (Some bytes) (length bytes) in
      if ok then Some r else None, s').
Proof.
  intros Hv. unfold loadRecord.
  destruct (readRecord (recordName id) s) as [o1 s1] eqn:E.
  exists s1. split; [by apply read_keeps in E|].
  destruct (files s !! recordName id) as [bytes|] eqn:Ef; cbn [mbind option_bind].
  - destruct (le_lt_dec (length bytes) kMaximumEncodedBytes) as [Hl|Hl].
    + pose proof (read_reliable s id bytes Hv Ef Hl) as Er. rewrite E in Er. cbn in Er.
      subst o1. by destruct (queueDecode (Some bytes) (length bytes)) as [[] r].
    + pose proof (queueDecode_long bytes Hl) as Hd.
      destruct (queueDecode (Some bytes) (length bytes)) as [ok r] eqn:Ed.
      cbn in Hd. subst ok. destruct o1 as [bytes1|]; [|done].
      apply read_found in E; [|done]. rewrite Ef in E. injection E as <-. by rewrite Ed.
  - destruct o1 as [bytes1|]; [|done]. apply read_found in E; [|done]. congruence.
Qed.

Lemma load_held `{!ReliableReads St} s e r :
  holds (files s) e r ->
  exists s', files s' = files s /\
    loadRecord (recordName (e_recordId e)) s = (Some r, s').
Proof.
  intros []. destruct (loadRecord_reliable (e_recordId e) s)
    as (s' & Hs & E); [done|]. exists s'. split; [done|]. rewrite E, ho_file0. cbn.
  by rewrite (proj2 (queueDecode_some _ r (recordWire_bytes r (rw_typed _ ho_wf0)))
    (conj ho_wf0 eq_refl)).
Qed.

(** ** Dropping the oldest record *)

Lemma sorted_head_fresh a l : StronglySorted Z.lt (a :: l) -> a ∉ l.
Proof.
  intros Hs Hin. inversion_clear Hs as [|? ? _ Hf].
  rewrite Forall_forall in Hf. specialize (Hf a Hin). lia.
Qed.

Lemma dropFront_spec c s rs ok c' s' :
  core_ok c (files s) rs -> c_entries c <> [] -> dropFront c s = (ok, c', s') ->
  if ok
  then core_ok c' (files s') (tail rs) /\ c' = bumpDropped (c <| c_entries := tail (c_entries c) |>)
  else c' = c /\ files s' = files s.
Proof.
  intros C Hne E. unfold dropFront in E. pose proof C as C0. destruct C, c as [cap next es st].
  cbn in *. destruct es as [|e es]; [done|].
  destruct (removeRecord _ s) as [removed s1] eqn:Er.
  destruct rs as [|r rs]; [by inversion co_holds0|].
  apply Forall2_cons in co_holds0 as [He Hh]. pose proof (ho_id _ _ _ He) as Hv.
  destruct removed; injection E as <- <- <-; [|by apply remove_failed in Er].
  apply remove_done in Er; [|done]. split; [|done].
  unfold ids in co_sorted0, co_fresh0. rewrite fmap_cons in co_sorted0, co_fresh0.
  split; cbn; try done.
  - cbn in *. lia.
  - by inversion co_sorted0.
  - destruct co_fresh0 as [?|Hf]; [by left|right]. by apply Forall_cons in Hf as [_ ?].
  - rewrite Er. apply all_holds_delete; [done|apply He|]. by apply sorted_head_fresh.
Qed.

(** ** Writing the new record *)

Lemma fresh_not_in c m rs :
  core_ok c m rs -> c_nextRecordId c <> 0 -> c_nextRecordId c ∉ ids c.
Proof.
  intros [] Hn Hin. destruct co_fresh0 as [?|Hf]; [done|].
  rewrite Forall_forall in Hf. specialize (Hf _ Hin). lia.
Qed.

(** A write under the next identifier does not disturb the contents. *)
Lemma core_ok_insert c m rs bytes :
  core_ok c m rs -> c_nextRecordId c <> 0 ->
  core_ok c (<[recordName (c_nextRecordId c) := bytes]> m) rs.
Proof.
  intros C Hn. pose proof (fresh_not_in _ _ _ C Hn). destruct C. split; try done.
  by apply all_holds_insert.
Qed.

Lemma core_ok_stats c m rs st :
  core_ok c m rs -> core_ok (c <| c_stats := st |>) m rs.
Proof. destruct c. by intros []. Qed.

Lemma bumpErrors_ok c m rs : core_ok c m rs -> core_ok (bumpErrors c) m rs.
Proof. destruct c. by intros []. Qed.

(** The effect of a call on the statistics: how many records were dropped. *)
Definition dropped (c : DurableQueueCore) : Z := qs_droppedOldest (c_stats c).

Lemma writeOrDrop_spec c s rs bytes ok c' s' :
  core_ok c (files s) rs -> c_nextRecordId c <> 0 -> bytes_ok bytes ->
  writeOrDrop (c_nextRecordId c) bytes c s = (ok, c', s') ->
  c_nextRecordId c' = c_nextRecordId c /\ c_capacity c' = c_capacity c /\
  (ok = true -> files s' !! recordName (c_nextRecordId c) = Some bytes) /\
  (core_ok c' (files s') rs /\ dropped c' = dropped c /\ c_entries c' = c_entries c \/
   core_ok c' (files s') (tail rs) /\ dropped c' = bump32 (dropped c) /\
   length (c_entries c) = c_capacity c /\ c_entries c' = tail (c_entries c)).
Proof.
  intros C Hn Hb E. unfold writeOrDrop in E.
  assert (valid_id (c_nextRecordId c)) as Hv by (split; [apply C|done]).
  destruct (writeRecordAtomic _ bytes s) as [wrote s1] eqn:Ew. destruct wrote.
  { injection E as <- <- <-. apply write_done in Ew; [|done..]. rewrite Ew.
    split_and!; [done..| |].
    - intros _. by rewrite lookup_insert_eq.
    - left. split; [by apply core_ok_insert|done]. }
  apply write_failed in Ew; [|done..]. rewrite <- Ew in C.
  destruct (Nat.leb_spec (c_capacity c) (length (c_entries c))) as [Hf|Hf].
  2:{ injection E as <- <- <-. split_and!; [by destruct c..|done|left].
      split_and!; [by apply bumpErrors_ok|by destruct c..]. }
  destruct (dropFront c s1) as [[dr c1] s2] eqn:Ed.
  apply (dropFront_spec _ _ rs) in Ed; [|done|].
  2:{ pose proof (co_capacity _ _ _ C). destruct (c_entries c); simpl in *; [lia|done]. }
  destruct dr; cbn [negb] in E.
  2:{ destruct Ed as [-> Es]. injection E as <- <- <-.
      split_and!; [by destruct c..|done|left]. rewrite Es.
      split_and!; [by apply bumpErrors_ok|by destruct c..]. }
  destruct Ed as [C1 Ec1].
  assert (c_nextRecordId c1 = c_nextRecordId c) as En by (subst c1; by destruct c).
  assert (c_capacity c1 = c_capacity c) as Ecap by (subst c1; by destruct c).
  assert (dropped c1 = bump32 (dropped c)) as Edr by (subst c1; by destruct c).
  assert (c_entries c1 = tail (c_entries c)) as Ees by (subst c1; by destruct c).
  pose proof (co_bounded _ _ _ C). clear Ec1.
  destruct (writeRecordAtomic _ bytes s2) as [wrote s3] eqn:Ew2.
  destruct wrote; injection E as <- <- <-.
  - apply write_done in Ew2; [|done..]. rewrite Ew2. split_and!; [done..| |right].
    + intros _. by rewrite lookup_insert_eq.
    + split_and!; [rewrite <- En; apply core_ok_insert; [done|by rewrite En]|done|lia|done].
  - apply write_failed in Ew2; [|done..]. rewrite Ew2. split_and!; [by destruct c1..|done|right].
    split_and!; [by apply bumpErrors_ok|by destruct c1|lia|by destruct c1].
Qed.

(** ** enqueue *)

Lemma makeRoom_spec c s rs ok c' s' :
  core_ok c (files s) rs -> c_nextRecordId c <> 0 ->
  makeRoom (c_nextRecordId c) c s = (ok, c', s') ->
  c_nextRecordId c' = c_nextRecordId c /\ c_capacity c' = c_capacity c /\
  (ok = true -> (length (c_entries c') < c_capacity c)%nat /\
     files s' !! recordName (c_nextRecordId c) = files s !! recordName (c_nextRecordId c)) /\
  (core_ok c' (files s') rs /\ dropped c' = dropped c /\ c_entries c' = c_entries c \/
   ok = true /\ core_ok c' (files s') (tail rs) /\ dropped c' = bump32 (dropped c) /\
   length (c_entries c) = c_capacity c /\ c_entries c' = tail (c_entries c)).
Proof.
  intros C Hn E. unfold makeRoom in E.
  pose proof (fresh_not_in _ _ _ C Hn) as Hfresh.
  assert (valid_id (c_nextRecordId c)) as Hv by (split; [apply C|done]).
  pose proof (co_bounded _ _ _ C). pose proof (co_capacity _ _ _ C).
  destruct (Nat.leb_spec (c_capacity c) (length (c_entries c))) as [Hf|Hf].
  2:{ injection E as <- <- <-. split_and!; [done..|split; [lia|done]|left; done]. }
  destruct (dropFront c s) as [[dr c1] s2] eqn:Ed. pose proof Ed as Ed0.
  apply (dropFront_spec _ _ rs) in Ed; [|done|by destruct (c_entries c); simpl in *; [lia|]].
  destruct dr.
  - injection E as <- <- <-. destruct Ed as [C1 ->]. unfold dropFront in Ed0.
    destruct c as [cap next es st]. cbn in *. destruct es as [|e es]; [simpl in *; lia|].
    destruct (removeRecord _ s) as [removed s3] eqn:Er. destruct removed; [|discriminate].
    injection Ed0 as <-. pose proof (co_holds _ _ _ C) as Hh.
    apply Forall2_cons_inv_l in Hh as (? & ? & He & _ & _).
    apply remove_done in Er; [|apply He].
    split_and!; [done..| |right; split_and!; simpl in *; try done; lia].
    intros _. split; [simpl in *; lia|]. rewrite Er, lookup_delete_ne; [done|].
    intros En. apply recordName_inj in En as <-; [|apply He|done].
    apply Hfresh. unfold ids. cbn. left.
  - destruct Ed as [-> Es]. destruct (removeRecord _ s2) as [removed s3] eqn:Er.
    injection E as <- <- <-. split_and!; [by destruct c..|discriminate|left].
    split_and!; [|by destruct c..]. apply bumpErrors_ok. destruct removed.
    + apply remove_done in Er; [|done]. rewrite Er, Es. destruct C. split; try done.
      by apply all_holds_delete.
    + apply remove_failed in Er; [|done]. by rewrite Er, Es.
Qed.

(** The new entry at the end of a queue that has room for it. *)
Lemma core_ok_push c m rs r t :
  core_ok c m rs -> c_nextRecordId c <> 0 -> (length (c_entries c) < c_capacity c)%nat ->
  m !! recordName (c_nextRecordId c) = Some (recordWire r) -> record_wf r ->
  qr_recordId r = c_nextRecordId c -> telemetryOf r = Some t ->
  core_ok
    (c <| c_entries := c_entries c ++ [mkEntry (qr_recordId r) (keyHash (keyOf t))] |>
       <| c_nextRecordId := wrap 64 (c_nextRecordId c + 1) |>) m (rs ++ [r]).
Proof.
  intros C Hn Hl Hm W Ei Et. pose proof (co_fresh _ _ _ C) as [?|Hf]; [done|].
  destruct C, c as [cap next es st]. cbn in *. unfold ids in *. cbn in *.
  split; cbn; try done.
  - rewrite length_app. simpl. lia.
  - unfold ids. cbn. rewrite fmap_app. cbn. rewrite Ei.
    clear - co_sorted0 Hf. induction (e_recordId <$> es) as [|x l IH]; cbn.
    + repeat constructor.
    + apply Forall_cons in Hf as [Hx Hf]. inversion_clear co_sorted0.
      constructor; [by apply IH|]. apply Forall_app. split; [done|by constructor].
  - apply wrap_range. lia.
  - destruct (decide (next + 1 = 2 ^ 64)) as [E|E].
    + left. unfold wrap. rewrite E. by apply Z.mod_same.
    + right. rewrite wrap_id by (unfold is_u in *; lia).
      unfold ids. cbn. rewrite fmap_app. apply Forall_app. cbn. rewrite Ei. split.
      * eapply Forall_impl; [exact Hf|]. cbn. lia.
      * constructor; [lia|constructor].
  - apply Forall2_app; [done|]. constructor; [|constructor].
    split; cbn; [rewrite Ei; by split|by rewrite Ei|done|done|eauto].
Qed.

#[local] Instance record_sound_dec r : Decision (record_sound r).
Proof. unfold record_sound. apply _. Defined.

Lemma queueEncode_true r bytes :
  record_typed r -> queueEncode r = (true, bytes) ->
  record_sound r /\ bytes = recordWire r.
Proof.
  intros T E. destruct (decide (record_sound r)) as [S|S].
  - rewrite queueEncode_ok in E by done. by injection E as <-.
  - rewrite queueEncode_refused in E; [discriminate|apply T|done].
Qed.

Lemma record_typed_id r id :
  record_typed r -> is_u 64 id -> record_typed (r <| qr_recordId := id |>).
Proof. destruct r. intros [] Hid. by split. Qed.

Lemma enqueue_tail c s rs r t fits c' s' :
  core_ok c (files s) rs -> c_nextRecordId c <> 0 ->
  files s !! recordName (c_nextRecordId c) = Some (recordWire r) -> record_wf r ->
  qr_recordId r = c_nextRecordId c -> telemetryOf r = Some t ->
  makeRoom (c_nextRecordId c) c s = (fits, c', s') ->
  let c'' := c' <| c_entries := c_entries c' ++
                     [mkEntry (qr_recordId r) (keyHash (keyOf t))] |>
                <| c_nextRecordId := wrap 64 (c_nextRecordId c' + 1) |> in
  if fits then
    files s' !! recordName (c_nextRecordId c) = Some (recordWire r) /\
    (core_ok c'' (files s') (rs ++ [r]) /\ dropped c'' = dropped c \/
     core_ok c'' (files s') (tail rs ++ [r]) /\ dropped c'' = bump32 (dropped c) /\
     length rs = c_capacity c)
  else core_ok c' (files s') rs /\ dropped c' = dropped c.
Proof.
  intros C Hn Hf W Ei Et E c''.
  pose proof (Forall2_length _ _ _ (co_holds _ _ _ C)) as Lrs.
  apply (makeRoom_spec _ _ rs) in E as (En & Ec & Hok & Hcase); [|done..].
  assert (dropped c'' = dropped c') as Ed by (by destruct c').
  destruct fits.
  - destruct (Hok eq_refl) as [Hl Hf']. split; [congruence|].
    destruct Hcase as [(C1 & ? & ?)|(_ & C1 & ? & ? & ?)]; [left|right];
      (split_and!; [|congruence..]); apply core_ok_push; try done; congruence.
  - destruct Hcase as [(C1 & ? & ?)|(? & _)]; done.
Qed.

Lemma enqueue_cases c s rs record ok record' c' s' :
  core_ok c (files s) rs -> record_typed record -> record_padded record ->
  enqueue c s record = (ok, record', c', s') ->
  if ok then
    (exists t, telemetryOf record = Some t) /\ record_wf record' /\
    record' = record <| qr_recordId := c_nextRecordId c |> /\
    files s' !! recordName (c_nextRecordId c) = Some (recordWire record') /\
    (core_ok c' (files s') (rs ++ [record']) /\ dropped c' = dropped c \/
     core_ok c' (files s') (tail rs ++ [record']) /\ dropped c' = bump32 (dropped c) /\
     length rs = c_capacity c)
  else
    core_ok c' (files s') rs /\ dropped c' = dropped c \/
    core_ok c' (files s') (tail rs) /\ dropped c' = bump32 (dropped c) /\
    length rs = c_capacity c.
Proof.
  intros C T P E. unfold enqueue in E.
  pose proof (Forall2_length _ _ _ (co_holds _ _ _ C)) as Lrs.
  destruct (Z.eqb_spec (c_nextRecordId c) 0) as [|Hn].
  { injection E as <- <- <- <-. left. split; [by apply bumpErrors_ok|by destruct c]. }
  destruct (telemetryOf record) as [t|] eqn:Et; [|injection E as <- <- <- <-; by left].
  set (r := record <| qr_recordId := c_nextRecordId c |>) in *.
  assert (record_typed r) as Tr by (apply record_typed_id; [done|apply C]).
  assert (qr_recordId r = c_nextRecordId c) as Er by (by destruct record).
  destruct (queueEncode r) as [encoded bytes] eqn:Ee.
  destruct encoded; cbn [negb] in E; [|injection E as <- <- <- <-; by left].
  apply queueEncode_true in Ee as [Sr ->]; [|done].
  assert (record_wf r) as Wr by (split; [done..|by destruct record]).
  rewrite Er in E.
  destruct (writeOrDrop _ _ c s) as [[wrote c1] s1] eqn:Ew.
  apply (writeOrDrop_spec _ _ rs) in Ew as (En1 & Ec1 & Hfile & Hcase);
    [|done|done|by apply recordWire_bytes].
  destruct wrote; cbn [negb] in E.
  2:{ injection E as <- <- <- <-. destruct Hcase as [(?&?&?)|(?&?&?&?)]; [by left|right].
      split_and!; [done..|lia]. }
  specialize (Hfile eq_refl). rewrite <- En1 in E.
  destruct (makeRoom _ c1 s1) as [[fits c2] s2] eqn:Em.
  destruct Hcase as [(C1 & Ed1 & Ees)|(C1 & Ed1 & Hfull & Ees)].
  - apply (enqueue_tail _ _ rs r t) in Em; try done; try congruence.
    rewrite Er, <- En1 in Em. destruct fits; cbn [negb] in E; injection E as <- <- <- <-.
    + destruct Em as (Hf2 & Hc2).
      split_and!; [eauto|done|done|congruence|].
      by rewrite Ed1, Ec1 in Hc2.
    + left. split; [apply Em|]. destruct Em. congruence.
  - apply (enqueue_tail _ _ (tail rs) r t) in Em; try done; try congruence.
    rewrite Er, <- En1 in Em. assert (length (tail rs) < c_capacity c1)%nat
      by (pose proof (co_capacity _ _ _ C); destruct rs; simpl in *; lia).
    destruct fits; cbn [negb] in E; injection E as <- <- <- <-.
    + destruct Em as (Hf2 & Hc2).
      split_and!; [eauto|done|done|congruence|].
      rewrite Ed1 in Hc2. destruct Hc2 as [(?&?)|(?&?&?)]; [right|lia].
      split_and!; [done|done|lia].
    + right. destruct Em. split_and!; [done|congruence|lia].
Qed.
End Spec.
