(* ===== verification/DurableQueueRecovery.v ===== *)
(** * Reading the queue back: recover, contains, peek, remove

    [acceptId m id]: the index entry recovery makes of the file of record [id],
    if it accepts it.  [unread_at s]: the records whose file recovery cannot read
    when it comes to it; it takes them for corrupt and removes them. *)

From Stdlib Require Import ZArith Lia.
From stdpp Require Import gmap sorting.
From S2P Require Import Prelude BuildConfig CString ByteIO Protocol QueueRecord QueueRecordSpec.
From S2P Require Import QueueRecordCodec Dedup QueueStorage DurableQueueCore DurableQueueSpec.

(** ** Accepted records *)

Definition recordIn (m : FileMap) (id : Z) : option QueueRecord :=
  m !! recordName id ≫= fun bytes =>
    let '(ok, r) := queueDecode (Some bytes) (length bytes) in
    if ok then Some r else None.

Definition acceptId (m : FileMap) (id : Z) : option Entry :=
  recordIn m id ≫= fun r =>
    if qr_recordId r =? id then
      t ← telemetryOf r; Some (mkEntry (qr_recordId r) (keyHash (keyOf t)))
    else None.

Definition files_ok (m : FileMap) : Prop :=
  forall name bytes, m !! name = Some bytes -> bytes_ok bytes.

Lemma recordIn_spec m id r :
  files_ok m -> recordIn m id = Some r <->
  record_wf r /\ m !! recordName id = Some (recordWire r).
Proof.
  intros Hm. unfold recordIn. split.
  - intros E. apply bind_Some in E as (bytes & Eb & E).
    destruct (queueDecode (Some bytes) (length bytes)) as [[] r'] eqn:Ed; [|discriminate].
    injection E as ->. apply queueDecode_some in Ed as [W ->]; [done|by eapply Hm].
  - intros [W E]. rewrite E. cbn.
    by rewrite (proj2 (queueDecode_some _ r (recordWire_bytes r (rw_typed _ W))) (conj W eq_refl)).
Qed.

Lemma acceptId_spec m id e :
  files_ok m -> valid_id id ->
  acceptId m id = Some e <-> e_recordId e = id /\ exists r, holds m e r.
Proof.
  intros Hm Hv. unfold acceptId. split.
  - intros E. apply bind_Some in E as (r & Er & E).
    apply recordIn_spec in Er as [W Ef]; [|done].
    destruct (Z.eqb_spec (qr_recordId r) id) as [<-|]; [|discriminate].
    apply bind_Some in E as (t & Et & [= <-]). split; [done|]. exists r. split; cbn; eauto.
  - intros [<- (r & [_ Ef W Ei (t & Et & Ek)])].
    rewrite (proj2 (recordIn_spec m _ r Hm)) by done. cbn.
    rewrite Ei, Z.eqb_refl, Et. cbn. rewrite <- Ek. by destruct e.
Qed.

Lemma acceptId_id m id e :
  files_ok m -> valid_id id -> acceptId m id = Some e -> e_recordId e = id.
Proof. intros Hm Hv E. by apply acceptId_spec in E as [? _]. Qed.

Lemma acceptId_delete m id id' :
  valid_id id -> valid_id id' ->
  acceptId (delete (recordName id) m) id' = if decide (id = id') then None else acceptId m id'.
Proof.
  intros Hv Hv'. unfold acceptId, recordIn. destruct (decide (id = id')) as [->|Hne].
  - by rewrite lookup_delete_eq.
  - rewrite lookup_delete_ne; [done|]. intros E. by apply recordName_inj in E.
Qed.

Lemma omap_ext_elem {A B} (f g : A -> option B) (l : list A) :
  (forall x, x ∈ l -> f x = g x) -> omap f l = omap g l.
Proof.
  induction l as [|x l IH]; intros Hfg; [done|]. cbn [omap list_omap].
  rewrite Hfg by (by left). rewrite IH; [done|]. intros y Hy. apply Hfg. by right.
Qed.

Lemma Forall2_impl_elem {A B} (R R' : A -> B -> Prop) (l : list A) k :
  Forall2 R l k -> (forall x y, x ∈ l -> R x y -> R' x y) -> Forall2 R' l k.
Proof.
  induction 1 as [|x y l k Hxy Hlk IH]; intros Hr; constructor.
  - apply Hr; [by left|done].
  - apply IH. intros a b Ha. apply Hr. by right.
Qed.

Section Recovery.
Context {St : Type} `{QueueStorageLaws St}.

Lemma files_files_ok s : files_ok (files s).
Proof. intros name bytes. apply file_bytes. Qed.
#[local] Hint Resolve files_files_ok : core.

(** The file of record [id] cannot be read. *)
Definition unreadable (id : Z) (s : St) : bool :=
  bool_decide (fst (readRecord (recordName id) s) = None).

Lemma loadRecord_recordIn s id :
  valid_id id ->
  exists s', files s' = files s /\
    loadRecord (recordName id) s =
      (if unreadable id s then None else recordIn (files s) id, s').
Proof.
  intros Hv. unfold loadRecord, unreadable.
  destruct (readRecord (recordName id) s) as [o s1] eqn:E. exists s1.
  split; [by apply read_keeps in E|]. destruct o as [bytes|]; [|done].
  apply read_found in E; [|done]. rewrite bool_decide_false by done.
  unfold recordIn. rewrite E. cbn [mbind option_bind].
  by destruct (queueDecode (Some bytes) (length bytes)).
Qed.

(** One listed record: accepted into the index, or counted corrupt and its file
    removed if the storage lets it. *)
Lemma recoverOne_spec c s id :
  valid_id id ->
  let '(c', s') := recoverOne (c, s) id in
  c_capacity c' = c_capacity c /\
  match (if unreadable id s then None else acceptId (files s) id) with
  | Some e =>
      files s' = files s /\ c_entries c' = c_entries c ++ [e] /\
      c_nextRecordId c' = (if c_nextRecordId c <=? id then wrap 64 (id + 1)
                           else c_nextRecordId c)
  | None =>
      (files s' = files s \/ files s' = delete (recordName id) (files s)) /\
      c_entries c' = c_entries c /\ c_nextRecordId c' = c_nextRecordId c
  end.
Proof.
  intros Hv. unfold recoverOne. destruct (loadRecord_recordIn s id Hv) as (s1 & Es & ->).
  destruct (removeRecord (recordName id) s1) as [removed s2] eqn:Er.
  assert (files s2 = files s \/ files s2 = delete (recordName id) (files s)) as Hr.
  { destruct removed; [apply remove_done in Er|apply remove_failed in Er]; try done;
      rewrite Er, Es; auto. }
  assert (forall c', c_entries c' = c_entries c -> c_nextRecordId c' = c_nextRecordId c ->
    c_capacity c' = c_capacity c -> let c2 := if removed then c' else bumpErrors c' in
    c_entries c2 = c_entries c /\ c_nextRecordId c2 = c_nextRecordId c /\
    c_capacity c2 = c_capacity c) as Hc by (intros [] <- <- <-; by destruct removed).
  destruct (Hc (bumpCorrupt c)) as (H1 & H2 & H3); [by destruct c..|].
  unfold acceptId. destruct (unreadable id s); [done|].
  destruct (recordIn (files s) id) as [r|]; cbn; [|done].
  destruct (Z.eqb_spec (qr_recordId r) id) as [<-|]; cbn; [|done].
  destruct (telemetryOf r) as [t|]; cbn; [by destruct c|done].
Qed.

(** A record that cannot be read at this moment goes like a corrupt one. *)
Lemma recoverOne_unreadable c s id s1 s2 :
  valid_id id -> readRecord (recordName id) s = (None, s1) ->
  removeRecord (recordName id) s1 = (true, s2) ->
  recoverOne (c, s) id = (bumpCorrupt c, s2) /\ files s2 = delete (recordName id) (files s).
Proof.
  intros Hv Er Em. unfold recoverOne, loadRecord. rewrite Er, Em. split; [done|].
  apply remove_done in Em; [|done]. by rewrite Em, (read_keeps _ _ _ _ Er).
Qed.

(** What recovery does to the storage does not depend on the index. *)
Definition visit (s : St) (id : Z) : St := snd (recoverOne (DurableQueueCore_new 1, s) id).

Lemma recoverOne_visit c s id : snd (recoverOne (c, s) id) = visit s id.
Proof.
  unfold visit, recoverOne. destruct (loadRecord _ s) as [loaded s1].
  destruct (match loaded with Some _ => _ | None => _ end) as [[record t]|]; [done|].
  by destruct (removeRecord _ s1).
Qed.

(** The records, of those listed, that cannot be read when their turn comes. *)
Fixpoint unread (listed : list Z) (s : St) : list Z :=
  match listed with
  | [] => []
  | id :: rest => (if unreadable id s then [id] else []) ++ unread rest (visit s id)
  end.

Definition unread_at (s : St) : list Z :=
  let '(listed, s) := listRecordIds (cleanupTemporaryFiles s) in
  match listed with Some (recordIds, _) => unread recordIds s | None => [] end.

Lemma unread_listed listed s id : id ∈ unread listed s -> id ∈ listed.
Proof.
  revert s. induction listed as [|x listed IH]; intros s; cbn [unread]; [done|].
  rewrite elem_of_app, elem_of_cons. intros [Hx|Hr]; [left|right; by eapply IH].
  destruct (unreadable x s); [by apply list_elem_of_singleton in Hx|by apply elem_of_nil in Hx].
Qed.

(** The index entry of record [id] when the records in [us] cannot be read. *)
Definition acceptRead (us : list Z) (m : FileMap) (id : Z) : option Entry :=
  if bool_decide (id ∈ us) then None else acceptId m id.

Lemma acceptRead_app us us' m id :
  id ∉ us -> acceptRead (us ++ us') m id = acceptRead us' m id.
Proof.
  intros Hn. unfold acceptRead.
  assert (bool_decide (id ∈ us ++ us') = bool_decide (id ∈ us')) as ->; [|done].
  apply bool_decide_ext. rewrite elem_of_app. tauto.
Qed.

(** All listed records, in the order of the listing: the accepted ones are
    indexed, and no accepted file is touched, nor one that is not listed. *)
Lemma recoverAll_spec m ids c s :
  Forall valid_id ids -> NoDup ids ->
  (forall id, id ∈ ids -> acceptId (files s) id = acceptId m id) ->
  let '(c', s') := foldl recoverOne (c, s) ids in
  c_capacity c' = c_capacity c /\
  c_entries c' = c_entries c ++ omap (acceptRead (unread ids s) m) ids /\
  (forall id, valid_id id -> id ∉ ids \/ is_Some (acceptRead (unread ids s) m id) ->
     files s' !! recordName id = files s !! recordName id).
Proof.
  intros Hids. revert c s. induction Hids as [|id ids Hv Hids IH]; intros c s Hn Hs; cbn [foldl].
  { by rewrite app_nil_r. }
  apply NoDup_cons in Hn as [Hnin Hn]. pose proof (recoverOne_spec c s id Hv) as Ho.
  pose proof (recoverOne_visit c s id) as Evs.
  destruct (recoverOne (c, s) id) as [c1 s1]. cbn [snd] in Evs. destruct Ho as [Hc Ho].
  cbn [unread]. set (us := if unreadable id s then [id] else []) in *. rewrite <- Evs.
  assert ((if unreadable id s then None else acceptId (files s) id) =
    acceptRead (us ++ unread ids s1) m id) as Ea.
  { rewrite Hs by by left. unfold acceptRead, us. destruct (unreadable id s).
    - by rewrite bool_decide_true by (by left).
    - rewrite bool_decide_false; [done|]. by intros ?%unread_listed. }
  rewrite Ea in Ho.
  assert (forall i, valid_id i -> i <> id \/ is_Some (acceptRead (us ++ unread ids s1) m i) ->
    files s1 !! recordName i = files s !! recordName i) as Hf1.
  { intros i Hi Hne. destruct (acceptRead _ m id) eqn:Eid; [by destruct Ho as [-> _]|].
    destruct Ho as [[->| ->] _]; [done|]. rewrite lookup_delete_ne; [done|].
    intros En. apply recordName_inj in En as ->; [|done..].
    destruct Hne as [|Hx]; [done|]. rewrite Eid in Hx. by destruct Hx. }
  assert (forall i, i ∈ ids -> acceptRead (us ++ unread ids s1) m i =
    acceptRead (unread ids s1) m i) as Hus.
  { intros i Hi. apply acceptRead_app. unfold us. destruct (unreadable id s); [|apply not_elem_of_nil].
    intros ->%list_elem_of_singleton. done. }
  specialize (IH c1 s1 Hn). destruct (foldl recoverOne (c1, s1) ids) as [c2 s2].
  destruct IH as (IH1 & IH2 & IH3).
  { intros i Hi. rewrite <- Hs by by right. unfold acceptId, recordIn.
    rewrite Hf1; [done|by eapply Forall_forall|left; by intros ->]. }
  split_and!; [congruence| |].
  - cbn [omap list_omap]. rewrite IH2.
    assert (omap (acceptRead (us ++ unread ids s1) m) ids =
      omap (acceptRead (unread ids s1) m) ids) as -> by (by apply omap_ext_elem).
    destruct (acceptRead _ m id) as [e|]; destruct Ho as (_ & -> & _); [|done].
    by rewrite <- app_assoc.
  - intros i Hi Ha. rewrite IH3, Hf1; [done|done| |done|].
    + destruct Ha as [Ha|Ha]; [left|by right]. by apply not_elem_of_cons in Ha as [? _].
    + destruct Ha as [Ha|Ha]; [left; by apply not_elem_of_cons in Ha as [_ ?]|].
      destruct (decide (i ∈ ids)) as [Hin|]; [right; by rewrite <- Hus|by left].
Qed.

(** The allocator ends above every indexed identifier, unless the largest
    64-bit identifier is among them. *)
Lemma recoverAll_next ids c s :
  Forall valid_id ids -> 2 ^ 64 - 1 ∉ ids ->
  is_u 64 (c_nextRecordId c) -> c_nextRecordId c <> 0 ->
  Forall (fun e => e_recordId e < c_nextRecordId c) (c_entries c) ->
  let '(c', _) := foldl recoverOne (c, s) ids in
  is_u 64 (c_nextRecordId c') /\ c_nextRecordId c' <> 0 /\
  Forall (fun e => e_recordId e < c_nextRecordId c') (c_entries c').
Proof.
  intros Hids. revert c s.
  induction Hids as [|id ids Hv Hids IH]; intros c s Hmax Hn Hn0 Hf; cbn [foldl]; [done|].
  apply not_elem_of_cons in Hmax as [Hid Hmax].
  pose proof (recoverOne_spec c s id Hv) as Ho.
  destruct (recoverOne (c, s) id) as [c1 s1]. destruct Ho as [Hc Ho].
  destruct (if unreadable id s then None else acceptId (files s) id) as [e|] eqn:Ea.
  - destruct (unreadable id s); [discriminate|].
    destruct Ho as (_ & Ee & En). apply acceptId_spec in Ea as [Ea _]; [|auto..].
    assert (is_u 64 (id + 1)) by (destruct Hv; unfold is_u in *; lia).
    rewrite wrap_id in En by done. destruct Hv.
    apply IH; [done| | |]; rewrite ?Ee, En.
    + by destruct (c_nextRecordId c <=? id).
    + unfold is_u in *. destruct (Z.leb_spec (c_nextRecordId c) id); lia.
    + apply Forall_app. split.
      * eapply Forall_impl; [exact Hf|]. intros x Hx. cbn in Hx.
        destruct (Z.leb_spec (c_nextRecordId c) id); lia.
      * constructor; [|constructor]. destruct (Z.leb_spec (c_nextRecordId c) id); lia.
  - destruct Ho as (_ & Ee & En). apply IH; rewrite ?Ee, ?En; done.
Qed.

(** ** Sorting and trimming *)

Lemma sorted_NoDup (l : list Z) : StronglySorted Z.lt l -> NoDup l.
Proof.
  induction 1 as [|x l Hs IH Hx]; constructor; [|done].
  intros Hin. rewrite Forall_forall in Hx. specialize (Hx x Hin). lia.
Qed.

Lemma sorted_drop (l : list Z) n : StronglySorted Z.lt l -> StronglySorted Z.lt (drop n l).
Proof.
  revert n. induction l as [|x l IH]; intros [|n] Hl; try done.
  apply IH. by inversion Hl.
Qed.


Definition strictly_sorted (es : list Entry) : Prop :=
  StronglySorted Z.lt (e_recordId <$> es).

Lemma sortEntries_sorted es :
  NoDup (e_recordId <$> es) -> strictly_sorted (sortEntries es).
Proof.
  intros Hn. unfold sortEntries, strictly_sorted.
  assert (StronglySorted entryBefore (merge_sort entryBefore es)) as Hs.
  { apply StronglySorted_merge_sort; unfold entryBefore.
    - intros a b c ? ?. lia.
    - intros a b. lia. }
  assert (NoDup (e_recordId <$> merge_sort entryBefore es)) as Hn'
    by (by rewrite merge_sort_Permutation).
  revert Hs Hn'. generalize (merge_sort entryBefore es) as l. clear.
  induction 1 as [|e l Hs IH Hf]; cbn; intros Hn; [constructor|].
  apply NoDup_cons in Hn as [Hnin Hn]. constructor; [by apply IH|].
  apply Forall_fmap, Forall_forall. intros x Hx. cbn.
  rewrite Forall_forall in Hf. specialize (Hf x Hx). unfold entryBefore in Hf.
  assert (e_recordId x <> e_recordId e); [|lia].
  intros E. apply Hnin. rewrite <- E. by apply list_elem_of_fmap_2.
Qed.

(** Trimming drops exactly the records beyond the capacity, oldest first. *)
Lemma trimOldest_spec es c (s : St) rs ok c' s' :
  (1 <= c_capacity c)%nat -> strictly_sorted es -> Forall2 (holds (files s)) es rs ->
  trimOldest es c s = (ok, c', s') ->
  c_capacity c' = c_capacity c /\ c_nextRecordId c' = c_nextRecordId c /\
  exists k : nat, (k <= length es - c_capacity c)%nat /\
    c_entries c' = drop k es /\ Forall2 (holds (files s')) (drop k es) (drop k rs) /\
    (ok = true -> k = (length es - c_capacity c)%nat).
Proof.
  intros Hcap Hs Hh. revert c s rs Hcap Hs Hh.
  induction es as [|e es IH]; intros c s rs Hcap Hs Hh E; cbn [trimOldest] in E.
  - destruct (_ <=? _)%nat; injection E as <- <- <-;
      (split_and!; [by destruct c..|]; exists 0%nat; split_and!; destruct c; try done; simpl; lia).
  - destruct (Nat.leb_spec (length (e :: es)) (c_capacity (c <| c_entries := e :: es |>)))
      as [Hl|Hl].
    + injection E as <- <- <-. split_and!; [by destruct c..|]. exists 0%nat.
      destruct c. cbn in *. split_and!; try done; lia.
    + destruct (removeRecord _ s) as [removed s1] eqn:Er. destruct removed.
      * inversion Hh as [|? r ? rs' He Hh']; subst.
        apply remove_done in Er; [|apply He].
        assert (Forall2 (holds (files s1)) es rs') as Hh1.
        { rewrite Er. apply all_holds_delete; [done|apply He|].
          by apply sorted_head_fresh. }
        apply (IH _ _ rs') in E as (Ec & En & k & Hk & Ee & Hh2 & Hok);
          [|by destruct c|by inversion Hs|done].
        destruct c as [cap next ces st]. cbn in *.
        split_and!; [done..|]. exists (S k). cbn. split_and!; [lia|done..|].
        intros Hokt. specialize (Hok Hokt). lia.
      * inversion Hh as [|? r ? rs' He Hh']; subst.
        apply remove_failed in Er; [|apply He]. injection E as <- <- <-.
        split_and!; [by destruct c..|]. exists 0%nat. destruct c. cbn in *.
        rewrite Er. split_and!; try done; lia.
Qed.

Lemma holds_choice m es :
  Forall (fun e => exists r, holds m e r) es -> exists rs, Forall2 (holds m) es rs.
Proof.
  induction 1 as [|e es (r & Hr) Hes (rs & Hrs)]; [by exists []|]. exists (r :: rs).
  by constructor.
Qed.

Lemma acceptRead_spec us m id e :
  acceptRead us m id = Some e <-> id ∉ us /\ acceptId m id = Some e.
Proof. unfold acceptRead. case_bool_decide; naive_solver. Qed.

Lemma accepted_ids us m l :
  files_ok m -> Forall valid_id l -> NoDup l ->
  NoDup (e_recordId <$> omap (acceptRead us m) l) /\
  Forall (fun e => exists r, holds m e r) (omap (acceptRead us m) l) /\
  (forall id, id ∈ e_recordId <$> omap (acceptRead us m) l <->
     id ∈ l /\ is_Some (acceptRead us m id)).
Proof.
  intros Hm Hl. induction Hl as [|id l Hv Hl IH]; intros Hn; cbn [omap list_omap].
  { split_and!; [constructor|constructor|]. intros id. rewrite !elem_of_nil. naive_solver. }
  apply NoDup_cons in Hn as [Hnin Hn]. destruct (IH Hn) as (IH1 & IH2 & IH3).
  destruct (acceptRead us m id) as [e|] eqn:Ea.
  - pose proof Ea as Eh. apply acceptRead_spec in Eh as [_ Eh].
    apply acceptId_spec in Eh as [Ei Hr]; [|done..].
    rewrite fmap_cons, Ei. split_and!.
    + apply NoDup_cons. split; [|done]. rewrite IH3. tauto.
    + by constructor.
    + intros id'. rewrite !elem_of_cons, IH3. split.
      * intros [->|[? ?]]; [|tauto]. rewrite Ea. split; [auto|eauto].
      * tauto.
  - split_and!; [done..|]. intros id'. rewrite IH3, elem_of_cons. split; [tauto|].
    intros [[->|?] Hs]; [|tauto]. rewrite Ea in Hs. by destruct Hs.
Qed.

(** The index as it stands before the queue is trimmed to its capacity: exactly
    the acceptable records on flash, but for those in [us], which could not be read,
    in order, and a fresh next identifier. *)
Record indexed (c : DurableQueueCore) (s : St) (us : list Z) (all : list Entry)
    (rs : list QueueRecord) (c2 : DurableQueueCore) (s2 : St) : Prop := {
  ix_sorted : strictly_sorted all;
  ix_holds : Forall2 (holds (files s)) all rs;
  ix_holds2 : Forall2 (holds (files s2)) all rs;
  ix_complete id : valid_id id ->
    id ∈ e_recordId <$> all <-> id ∉ us /\ is_Some (acceptId (files s) id);
  ix_capacity : c_capacity c2 = c_capacity c;
  ix_next : is_u 64 (c_nextRecordId c2) /\ c_nextRecordId c2 <> 0;
  ix_fresh : Forall (fun e => e_recordId e < c_nextRecordId c2) all;
}.

(** Indexing the listed records. *)
Lemma indexed_fold c1 (s s1 : St) l :
  (forall id, id ∈ l <-> valid_id id /\ is_Some (files s !! recordName id)) ->
  NoDup l ->
  (forall id, valid_id id -> files s1 !! recordName id = files s !! recordName id) ->
  files s !! recordName (2 ^ 64 - 1) = None ->
  c_entries c1 = [] -> c_nextRecordId c1 = 1 ->
  let '(c2, s2) := foldl recoverOne (c1, s1) l in
  exists rs, indexed c1 s (unread l s1) (sortEntries (c_entries c2)) rs c2 s2.
Proof.
  intros Hl Hn Hfs Hmax Ee1 En1.
  assert (Forall valid_id l) as Hv by (apply Forall_forall; intros id Hi; by apply Hl).
  assert (forall id, id ∈ l -> acceptId (files s1) id = acceptId (files s) id) as Hacc
    by (intros id Hi; unfold acceptId, recordIn; rewrite Hfs; [done|by apply Hl]).
  assert (2 ^ 64 - 1 ∉ l) as Hm
    by (intros [_ (b & Hb)]%Hl; rewrite Hmax in Hb; discriminate).
  pose proof (recoverAll_spec (files s) l c1 s1 Hv Hn Hacc) as Ha.
  pose proof (recoverAll_next l c1 s1 Hv Hm) as Hx. set (us := unread l s1) in *.
  destruct (foldl recoverOne (c1, s1) l) as [c2 s2].
  rewrite Ee1, En1 in *. destruct Ha as (Ha1 & Ha2 & Ha4).
  destruct Hx as (Hx1 & Hx2 & Hx3); [by vm_compute; split|done|apply Forall_nil_2|].
  rewrite app_nil_l in Ha2.
  destruct (accepted_ids us (files s) l) as (Hnd & Hex & Hids); [auto|done..|].
  set (all := sortEntries (c_entries c2)).
  assert (all ≡ₚ omap (acceptRead us (files s)) l) as Hp
    by (unfold all; rewrite Ha2; apply merge_sort_Permutation).
  assert (Forall (fun e => exists r, holds (files s) e r) all) as Hex' by (by rewrite Hp).
  destruct (holds_choice _ _ Hex') as (rs & Hrs). exists rs.
  assert (forall id, id ∈ e_recordId <$> all <-> id ∈ l /\ is_Some (acceptRead us (files s) id))
    as Hin by (intros id; by rewrite Hp, Hids).
  split; try done.
  - apply sortEntries_sorted. by rewrite Ha2.
  - eapply Forall2_impl_elem; [exact Hrs|]. intros e r Hie He.
    pose proof (ho_id _ _ _ He) as Hve. pose proof He as He0. destruct He. split; try done.
    rewrite Ha4; [by rewrite Hfs|done|]. right. apply Hin. by apply list_elem_of_fmap_2.
  - intros id Hvi. rewrite Hin. unfold acceptRead. case_bool_decide as Hu.
    + split; [intros [_ [? [=]]]|tauto].
    + split; [tauto|]. intros [_ Ha]. split; [|done]. apply Hl. split; [done|].
      destruct Ha as (e & Ha). unfold acceptId, recordIn in Ha.
      destruct (files s !! recordName id); [eauto|discriminate].
  - unfold all, sortEntries. rewrite merge_sort_Permutation. exact Hx3.
Qed.

(** Recovery is: list, index, trim. *)
Lemma recover_indexed c (s : St) :
  files s !! recordName (2 ^ 64 - 1) = None ->
  (fst (listRecordIds (cleanupTemporaryFiles s)) = None /\
   exists c' s', recover c s = (false, c', s')) \/
  exists all rs c2 s2, indexed c s (unread_at s) all rs c2 s2 /\
    recover c s =
      let '(ok, c3, s3) := trimOldest all c2 s2 in
      if ok then
        (true, c3 <| c_stats->qs_recoveredRecords :=
                      wrap 32 (Z.of_nat (length (c_entries c3))) |>, s3)
      else (false, c3, s3).
Proof.
  intros Hmax. unfold recover, unread_at. set (s0 := cleanupTemporaryFiles s).
  destruct (listRecordIds s0) as [[[l corrupt]|] s1] eqn:El; [right|left; by eauto].
  apply list_files in El as (Hn & Hl & Hs1).
  match goal with |- context [foldl recoverOne (?c1, _) _] =>
    pose proof (indexed_fold c1 s s1 l) as Hix;
    assert (c_capacity c1 = c_capacity c /\ c_entries c1 = [] /\ c_nextRecordId c1 = 1)
      as (Ec1 & Ee1 & En1) by (by destruct c)
  end.
  destruct (foldl _ _ _) as [c2 s2].
  destruct Hix as (rs & [? ? ? ? Ec ? ?]); [|done| |done..|].
  - intros id. rewrite Hl. split; intros [Hv Hf]; (split; [done|]);
      unfold s0 in *; rewrite cleanup_keeps in *; done.
  - intros id Hv. rewrite Hs1 by done. by apply cleanup_keeps.
  - exists (sortEntries (c_entries c2)), rs, c2, s2. split; [split; congruence || done|done].
Qed.

Lemma indexed_trimmed c s us all rs c2 s2 ok c3 s3 :
  (1 <= c_capacity c)%nat -> indexed c s us all rs c2 s2 ->
  trimOldest all c2 s2 = (ok, c3, s3) -> ok = true ->
  let k := (length all - c_capacity c)%nat in
  c_capacity c3 = c_capacity c /\ c_entries c3 = drop k all /\ c_nextRecordId c3 <> 0 /\
  core_ok c3 (files s3) (drop k rs).
Proof.
  intros Hcap [Hs _ Hh2 _ Ec2 [Hu Hn] Hf] Et Hok.
  apply (trimOldest_spec _ _ _ rs) in Et as (Ec & En & k & Hk & Ee & Hh & Hkok);
    [|by rewrite Ec2|done..].
  specialize (Hkok Hok). rewrite Ec2 in *. subst k.
  split_and!; [done..|congruence|].
  set (n := (length all - c_capacity c)%nat) in *.
  split; unfold ids; rewrite ?Ec, ?En, ?Ee; try done.
  - rewrite length_drop. unfold n. lia.
  - rewrite fmap_drop. by apply sorted_drop.
  - right. rewrite fmap_drop. by apply Forall_drop, Forall_fmap.
Qed.

(** A storage that reads reliably fails on nothing it could accept. *)
Lemma unread_reliable `{!ReliableReads St} listed s id :
  Forall valid_id listed -> NoDup listed -> id ∈ unread listed s ->
  acceptId (files s) id = None.
Proof.
  intros Hv. revert s. induction Hv as [|x listed Hx Hv IH]; intros s Hn; cbn [unread];
    [by intros ?%elem_of_nil|]. apply NoDup_cons in Hn as [Hxn Hn].
  intros [Hi|Hi]%elem_of_app.
  - destruct (unreadable x s) eqn:Eu; [|by apply elem_of_nil in Hi].
    apply list_elem_of_singleton in Hi as ->. apply bool_decide_eq_true in Eu.
    unfold acceptId, recordIn. destruct (files s !! recordName x) as [bytes|] eqn:Ef; [|done].
    cbn. destruct (le_lt_dec (length bytes) kMaximumEncodedBytes) as [Hl|Hl].
    + by rewrite (read_reliable s x bytes Hx Ef Hl) in Eu.
    + pose proof (queueDecode_long bytes Hl) as Hd.
      destruct (queueDecode (Some bytes) (length bytes)) as [ok r]. cbn in Hd. by subst ok.
  - pose proof (unread_listed _ _ _ Hi) as Hin. apply IH in Hi; [|done].
    pose proof (recoverOne_spec (DurableQueueCore_new 1) s x Hx) as Ho.
    unfold visit in Hi. destruct (recoverOne _ x) as [c1 s1]. cbn [snd] in Hi.
    destruct Ho as [_ Ho]. assert (files s1 !! recordName id = files s !! recordName id) as Ef.
    { destruct (if unreadable x s then None else acceptId (files s) x); [by destruct Ho as [-> _]|].
      destruct Ho as [[->| ->] _]; [done|]. rewrite lookup_delete_ne; [done|].
      intros En. rewrite Forall_forall in Hv. apply recordName_inj in En as <-; auto. }
    unfold acceptId, recordIn in Hi |- *. by rewrite Ef in Hi.
Qed.
End Recovery.
