(* ===== verification/DurableQueueTheorems.v ===== *)
(** * Theorems on the durable queue

    Each is stated for an arbitrary storage with the laws of QueueStorage; the
    witnesses run the queue on the storage in memory. *)

From Stdlib Require Import ZArith Lia.
From stdpp Require Import gmap sorting.
From S2P Require Import Prelude BuildConfig CString ByteIO Protocol ProtocolSpec ProtocolTheorems.
From S2P Require Import QueueRecord QueueRecordSpec QueueRecordCodec Dedup QueueStorage.
From S2P Require Import DurableQueueCore DurableQueueSpec DurableQueueRecovery.

(** ** Lookups *)

Lemma keyHash_equal a b : telemetryKeyEqual a b = true -> keyHash a = keyHash b.
Proof.
  intros (Et & Es & Eq)%telemetryKeyEqual_spec. unfold c_text in Et.
  unfold keyHash. rewrite Es, Eq, Et.
  pose proof (f_equal length Et) as El.
  change (take (strnlen (tk_nodeId a) kNodeIdCapacity) (tk_nodeId a)) with
    (c_text kNodeIdCapacity (tk_nodeId a)) in El.
  change (take (strnlen (tk_nodeId b) kNodeIdCapacity) (tk_nodeId b)) with
    (c_text kNodeIdCapacity (tk_nodeId b)) in El.
  rewrite !length_c_text in El. by rewrite El.
Qed.

(** The queue holds a record of the telemetry [key]. *)
Definition queued (rs : list QueueRecord) (key : TelemetryKey) : Prop :=
  exists r t, r ∈ rs /\ telemetryOf r = Some t /\ telemetryKeyEqual (keyOf t) key = true.

Section Theorems.
Context {St : Type} `{QueueStorageLaws St}.

Lemma containsLoop_spec `{!ReliableReads St} es rs key c s b c' s' :
  Forall2 (holds (files s)) es rs ->
  containsLoop es key (keyHash key) c s = (b, c', s') ->
  files s' = files s /\ c' = c /\ (b = true <-> queued rs key).
Proof.
  intros Hh. revert s rs Hh. induction es as [|e es IH]; intros s rs Hh E; cbn in E.
  - inversion Hh; subst. injection E as <- <- <-. split_and!; [done..|].
    split; [done|]. by intros (r & t & Hr%elem_of_nil & _).
  - inversion Hh as [|? r ? rs' He Hh']; subst. destruct (ho_key _ _ _ He) as (t & Et & Ek).
    assert (forall q, queued (r :: q) key <->
              telemetryKeyEqual (keyOf t) key = true \/ queued q key) as Hq.
    { intros q. unfold queued. split.
      - intros (r' & t' & [->|Hin]%elem_of_cons & Et' & Ee); [left|right; eauto].
        rewrite Et in Et'. by injection Et' as <-.
      - intros [Ee|(r' & t' & Hin & ?)]; [exists r, t|exists r', t']; rewrite elem_of_cons; auto. }
    destruct (Z.eqb_spec (e_keyHash e) (keyHash key)) as [Eh|Eh]; cbn [negb] in E.
    + destruct (load_held s e r He) as (s1 & Es & El). rewrite El in E. cbn in E.
      rewrite Et in E. destruct (telemetryKeyEqual (keyOf t) key) eqn:Ee.
      * injection E as <- <- <-. split_and!; [done..|]. rewrite Hq. tauto.
      * rewrite <- Es in Hh'. apply (IH _ rs') in E as (Ef & Ec & Hb); [|done].
        split_and!; [congruence|done|]. rewrite Hq, Hb. intuition congruence.
    + apply (IH _ rs') in E as (Ef & Ec & Hb); [|done]. split_and!; [done..|].
      rewrite Hq, Hb. split; [auto|]. intros [Ee|?]; [|done]. exfalso. apply Eh.
      rewrite Ek. by apply keyHash_equal.
Qed.

(** Without reliable reads a positive answer is still right, and the queue only
    counts errors. *)
Lemma containsLoop_sound es rs key c s b c' s' :
  Forall2 (holds (files s)) es rs ->
  containsLoop es key (keyHash key) c s = (b, c', s') ->
  files s' = files s /\ (b = true -> queued rs key) /\
  (forall rs0, core_ok c (files s) rs0 -> core_ok c' (files s) rs0).
Proof.
  intros Hh. revert c s rs Hh. induction es as [|e es IH]; intros c s rs Hh E; cbn in E.
  - injection E as <- <- <-. done.
  - inversion Hh as [|? r ? rs' He Hh']; subst.
    assert (forall q, queued q key -> queued (r :: q) key) as Hq.
    { intros q (r' & t' & Hin & ?). exists r', t'. rewrite elem_of_cons. auto. }
    destruct (negb _).
    + apply (IH _ _ rs') in E as (Ef & Hb & Hc); [|done]. split_and!; auto.
    + destruct (loadRecord _ s) as [loaded s1] eqn:El.
      pose proof (loadRecord_keeps _ _ _ _ El) as Es. rewrite <- Es in Hh'.
      destruct loaded as [r1|].
      * apply loadRecord_sound in El as [W1 Ef1]; [|apply He].
        destruct He as [_ Hf W _ (t & Et & _)]. rewrite Hf in Ef1. apply (inj Some) in Ef1.
        apply recordWire_inj in Ef1; [|done..]. subst r1. cbn in E. rewrite Et in E.
        destruct (telemetryKeyEqual (keyOf t) key) eqn:Ee.
        -- injection E as <- <- <-. split_and!; [done| |done]. intros _.
           exists r, t. rewrite elem_of_cons. auto.
        -- apply (IH _ _ rs') in E as (Ef & Hb & Hc); [|done]. rewrite Es in *. split_and!; auto.
      * cbn in E. apply (IH _ _ rs') in E as (Ef & Hb & Hc); [|done]. rewrite Es in *.
        split_and!; auto. intros rs0 C0. by apply Hc, bumpErrors_ok.
Qed.

Lemma peekLoop_spec es rs s o s' :
  Forall2 (holds (files s)) es rs -> peekLoop es s = (o, s') ->
  files s' = files s /\ (forall out, o = Some out -> out = rs).
Proof.
  intros Hh. revert s s' rs o Hh.
  induction es as [|e es IH]; intros s s' rs o Hh E; cbn in E.
  - inversion Hh; subst. injection E as <- <-. split; [done|]. by intros out [= <-].
  - inversion Hh as [|? r ? rs' He Hh']; subst.
    destruct (loadRecord _ s) as [loaded s1] eqn:El.
    pose proof (loadRecord_keeps _ _ _ _ El) as Es. rewrite <- Es in Hh'.
    destruct loaded as [r1|]; [|by injection E as <- <-].
    apply loadRecord_sound in El as [W1 Ef1]; [|apply He].
    destruct (peekLoop es s1) as [o1 s2] eqn:Ep.
    destruct (IH _ _ _ _ Hh' Ep) as [Es2 Ho]. injection E as <- <-.
    split; [congruence|]. intros out Hout. destruct o1 as [l|]; [|discriminate].
    injection Hout as <-. f_equal; [|by apply Ho].
    destruct He as [_ Hf W _ _]. rewrite Hf in Ef1. apply (inj Some) in Ef1.
    by apply recordWire_inj.
Qed.

Lemma peekLoop_reliable `{!ReliableReads St} es rs s :
  Forall2 (holds (files s)) es rs -> exists s', peekLoop es s = (Some rs, s').
Proof.
  intros Hh. revert s rs Hh. induction es as [|e es IH]; intros s rs Hh.
  - inversion Hh; subst. by exists s.
  - inversion Hh as [|? r ? rs' He Hh']; subst. cbn.
    destruct (load_held s e r He) as (s1 & Es & ->). rewrite <- Es in Hh'.
    destruct (IH _ _ Hh') as (s2 & ->). eauto.
Qed.

Lemma list_find_ids es rs m i e id :
  Forall2 (holds m) es rs -> list_find (has_id id) es = Some (i, e) ->
  exists r, rs !! i = Some r /\ es !! i = Some e /\ e_recordId e = id /\ holds m e r.
Proof.
  intros Hh E. apply list_find_Some in E as (Hi & Hid & _).
  destruct (Forall2_lookup_l _ _ _ _ _ Hh Hi) as (r & Hr & He). eauto.
Qed.

(** ** Contents named by record *)

(** The files hold [r], complete and under its own name. *)
Definition stored (m : FileMap) (r : QueueRecord) : Prop :=
  valid_id (qr_recordId r) /\ record_wf r /\
  m !! recordName (qr_recordId r) = Some (recordWire r) /\ is_Some (telemetryOf r).

Lemma holds_stored m e r : holds m e r -> stored m r.
Proof.
  intros [Hv Hf W Ei (t & Et & _)]. unfold stored. rewrite Ei. split_and!; eauto.
Qed.

Lemma stored_holds m r :
  stored m r -> exists t, telemetryOf r = Some t /\
    holds m (mkEntry (qr_recordId r) (keyHash (keyOf t))) r.
Proof. intros (Hv & W & Hf & (t & Et)). exists t. split; [done|]. split; cbn; eauto. Qed.

Lemma holds_ids m es rs :
  Forall2 (holds m) es rs -> qr_recordId <$> rs = e_recordId <$> es.
Proof.
  induction 1 as [|e r es rs He Hh IH]; [done|]. rewrite !fmap_cons, IH.
  f_equal. apply He.
Qed.

Lemma holds_unique m e e' r r' :
  holds m e r -> holds m e' r' -> e_recordId e = e_recordId e' -> r = r'.
Proof.
  intros [_ Hf W _ _] [_ Hf' W' _ _] E. rewrite E, Hf' in Hf. apply (inj Some) in Hf.
  by apply recordWire_inj.
Qed.

(** What the index lists, the files store. *)
Lemma core_ok_stored c m rs : core_ok c m rs -> Forall (stored m) rs.
Proof.
  intros C. eapply Forall2_Forall_r; [apply C|]. apply Forall_forall.
  intros e _ r. apply holds_stored.
Qed.

Lemma sorted_delete (l : list Z) i : StronglySorted Z.lt l -> StronglySorted Z.lt (delete i l).
Proof.
  intros Hs. revert i. induction Hs as [|x l Hs IH Hx]; intros [|i]; [constructor..|done|].
  constructor; [apply IH|]. by apply Forall_delete.
Qed.

Lemma sorted_delete_notin (l : list Z) i x :
  StronglySorted Z.lt l -> l !! i = Some x -> x ∉ delete i l.
Proof.
  intros Hs. revert i. induction Hs as [|y l Hs IH Hy]; intros [|i] Hx; try discriminate; cbn.
  - injection Hx as ->. intros Hi. rewrite Forall_forall in Hy. apply Hy in Hi. lia.
  - cbn in Hx. rewrite not_elem_of_cons. split; [|by apply IH].
    rewrite Forall_lookup in Hy. apply Hy in Hx. lia.
Qed.

Lemma core_ok_delete c m rs i e r :
  core_ok c m rs -> c_entries c !! i = Some e -> rs !! i = Some r ->
  core_ok (c <| c_entries := delete i (c_entries c) |>)
    (delete (recordName (e_recordId e)) m) (delete i rs).
Proof.
  intros [Hc Hb Hs Hn Hf Hh] He Hr.
  pose proof (Forall2_lookup_lr _ _ _ _ _ _ Hh He Hr) as Hi.
  destruct c as [cap next es st]. unfold ids in *. cbn in *.
  assert ((e_recordId <$> es) !! i = Some (e_recordId e)) as Hid
    by (by rewrite list_lookup_fmap, He).
  split; unfold ids; cbn; rewrite ?list_fmap_delete; try done.
  - rewrite length_delete by eauto. lia.
  - by apply sorted_delete.
  - destruct Hf as [?|Hf]; [by left|right]. by apply Forall_delete.
  - apply all_holds_delete; [by apply Forall2_delete|apply Hi|].
    rewrite list_fmap_delete. by apply sorted_delete_notin.
Qed.

(** Taking out the record at a place is taking out its identifier. *)
Lemma delete_filter rs i r :
  StronglySorted Z.lt (qr_recordId <$> rs) -> rs !! i = Some r ->
  delete i rs = filter (fun r' => qr_recordId r' <> qr_recordId r) rs.
Proof.
  revert i. induction rs as [|r0 rs IH]; intros i Hs Hi; [done|].
  rewrite fmap_cons in Hs. inversion Hs as [|? ? Hs' Hf]; subst. rewrite filter_cons.
  destruct i as [|i]; cbn in *.
  - injection Hi as ->. rewrite decide_False by auto. symmetry. apply filter_all.
    apply (Forall_fmap qr_recordId) in Hf. eapply Forall_impl; [exact Hf|]. cbn. lia.
  - rewrite decide_True; [f_equal; by apply IH|].
    apply (Forall_fmap qr_recordId) in Hf. rewrite Forall_forall in Hf.
    assert (r ∈ rs) as Hr by (by eapply (list_elem_of_lookup_2 _ i)).
    specialize (Hf r Hr). cbn in Hf. lia.
Qed.

(** ** What recovery lists *)

Lemma trimOldest_fits es c (s : St) :
  (length es <= c_capacity c)%nat ->
  trimOldest es c s = (true, c <| c_entries := es |>, s).
Proof.
  intros Hl. destruct c as [cap next ces st]. cbn in Hl.
  destruct es; cbn [trimOldest c_capacity]; [by destruct (_ <=? _)%nat|].
  cbn. cbn in Hl. by rewrite (proj2 (Nat.leb_le _ _) Hl).
Qed.

(** The record is stored, and recovery can read it. *)
Definition legible (s : St) (r : QueueRecord) : Prop :=
  stored (files s) r /\ qr_recordId r ∉ unread_at s.

Lemma stored_accepted s r :
  stored (files s) r -> is_Some (acceptId (files s) (qr_recordId r)).
Proof.
  intros Hr. destruct (stored_holds _ _ Hr) as (t & _ & He). eexists.
  apply acceptId_spec; [apply files_files_ok|apply Hr|split; [|by exists r]; done].
Qed.

Lemma indexed_stored c s us all rs c2 s2 :
  indexed c s us all rs c2 s2 ->
  (forall r, r ∈ rs <-> stored (files s) r /\ qr_recordId r ∉ us) /\
  StronglySorted Z.lt (qr_recordId <$> rs).
Proof.
  intros [Hs Hh _ Ha _ _ _]. rewrite (holds_ids _ _ _ Hh). split; [|exact Hs].
  intros r. split.
  - intros Hi. assert (stored (files s) r) as Hr.
    { eapply Forall2_Forall_r in Hh; [by apply (proj1 (Forall_forall _ _) Hh r)|].
      apply Forall_forall. intros e _ r'. apply holds_stored. }
    split; [done|]. apply Ha; [apply Hr|]. rewrite <- (holds_ids _ _ _ Hh).
    by apply list_elem_of_fmap_2.
  - intros [Hr Hu]. destruct (stored_holds _ _ Hr) as (t & _ & He).
    assert (qr_recordId r ∈ e_recordId <$> all) as (e & Eid & Hi)%list_elem_of_fmap.
    { apply Ha; [apply Hr|]. split; [done|by apply stored_accepted]. }
    apply list_elem_of_lookup in Hi as (i & Hi).
    destruct (Forall2_lookup_l _ _ _ _ _ Hh Hi) as (r' & Hr' & He').
    rewrite (holds_unique _ _ _ _ _ He He') by done. by eapply list_elem_of_lookup_2.
Qed.

(** On a storage that reads reliably every stored record is legible. *)
Lemma stored_legible `{!ReliableReads St} s r : stored (files s) r -> legible s r.
Proof.
  intros Hr. split; [done|]. unfold unread_at.
  destruct (listRecordIds (cleanupTemporaryFiles s)) as [[[l corrupt]|] s1] eqn:El;
    [|apply not_elem_of_nil].
  apply list_files in El as (Hn & Hl & Hs1). intros Hu.
  apply unread_reliable in Hu; [|by apply Forall_forall; intros id Hi; apply Hl|done].
  destruct (stored_accepted s r Hr) as (e & Ee). unfold acceptId, recordIn in Hu, Ee.
  rewrite Hs1, cleanup_keeps in Hu by apply Hr. congruence.
Qed.

Lemma sorted_lists_eq (l1 l2 : list Z) :
  StronglySorted Z.lt l1 -> StronglySorted Z.lt l2 ->
  (forall x, x ∈ l1 <-> x ∈ l2) -> l1 = l2.
Proof.
  intros H1 H2 He.
  apply (StronglySorted_unique_strong Z.lt); [intros; lia|done|done|].
  apply NoDup_Permutation; auto using sorted_NoDup.
Qed.

(** A sorted list of stored records is determined by what it lists. *)
Lemma stored_lists_eq m l1 l2 :
  Forall (stored m) l1 -> Forall (stored m) l2 ->
  StronglySorted Z.lt (qr_recordId <$> l1) -> StronglySorted Z.lt (qr_recordId <$> l2) ->
  (forall r, r ∈ l1 <-> r ∈ l2) -> l1 = l2.
Proof.
  intros F1 F2 S1 S2 He.
  assert (qr_recordId <$> l1 = qr_recordId <$> l2) as E.
  { apply sorted_lists_eq; [done..|]. intros x. rewrite !list_elem_of_fmap.
    by setoid_rewrite He. }
  clear S1 S2 He. revert l2 F2 E.
  induction F1 as [|r1 l1 (_ & W1 & Hf1 & _) F1 IH]; intros [|r2 l2] F2 E; try done.
  apply Forall_cons in F2 as [(_ & W2 & Hf2 & _) F2].
  rewrite !fmap_cons in E. apply (inj2 cons) in E as [Eid E]. f_equal; [|by apply IH].
  rewrite Eid, Hf2 in Hf1. apply (inj Some) in Hf1. by apply recordWire_inj.
Qed.

Lemma queueRemove_spec c s rs id ok c' s' :
  core_ok c (files s) rs -> queueRemove id c s = (ok, c', s') ->
  if ok then
    exists i r, rs !! i = Some r /\ qr_recordId r = id /\
      core_ok c' (files s') (delete i rs) /\ files s' = delete (recordName id) (files s)
  else core_ok c' (files s') rs /\ files s' = files s /\ c_entries c' = c_entries c /\
    (Forall (fun r => qr_recordId r <> id) rs \/ c' = bumpErrors c).
Proof.
  intros C E. unfold queueRemove in E.
  destruct (list_find (has_id id) (c_entries c)) as [[i e]|] eqn:Ef.
  - apply (list_find_ids _ _ _ _ _ _ (co_holds _ _ _ C)) in Ef as (r & Hr & He & Eid & Hh).
    destruct (removeRecord _ s) as [removed s1] eqn:Er.
    destruct removed; injection E as <- <- <-.
    + apply remove_done in Er; [|apply Hh]. exists i, r. rewrite <- (ho_match _ _ _ Hh) in Eid.
      split_and!; [done|done| |by rewrite Er, <- (ho_match _ _ _ Hh), Eid].
      rewrite Er. by apply (core_ok_delete _ _ _ _ _ r).
    + apply remove_failed in Er; [|apply Hh]. rewrite Er.
      split_and!; [by apply bumpErrors_ok|done|by destruct c|by right].
  - injection E as <- <- <-. split_and!; [done..|left].
    apply list_find_None in Ef. apply Forall_forall. intros r Hr Eid.
    assert (id ∈ e_recordId <$> c_entries c) as (e & Ee & He)%list_elem_of_fmap.
    { rewrite <- (holds_ids _ _ _ (co_holds _ _ _ C)), <- Eid.
      by apply list_elem_of_fmap_2. }
    rewrite Forall_forall in Ef. by apply (Ef e).
Qed.

(** ** Properties *)


(** A record is never refused without a reason: while record identifiers
    last and the queue has room, a record that can be encoded, carries telemetry
    and is written by the storage is taken. *)
Theorem enqueue_accepts c s rs record t s1 :
  let r := record <| qr_recordId := c_nextRecordId c |> in
  core_ok c (files s) rs -> record_typed record -> record_sound r ->
  telemetryOf record = Some t -> (length (c_entries c) < c_capacity c)%nat ->
  writeRecordAtomic (c_nextRecordId c) (recordWire r) s = (true, s1) ->
  exists c', enqueue c s record = (true, r, c', s1) /\
    (record_padded record -> core_ok c' (files s1) (rs ++ [r])).
Proof.
  intros r C T S Et Hl Ew.
  assert (qr_recordId r = c_nextRecordId c) as Er by (by destruct record).
  assert (c_nextRecordId c <> 0) as Hn by (rewrite <- Er; apply S).
  assert (record_typed r) as Tr by (apply record_typed_id; [done|apply C]).
  assert (exists c', enqueue c s record = (true, r, c', s1)) as (c' & E).
  { unfold enqueue. rewrite (proj2 (Z.eqb_neq _ _) Hn), Et. fold r.
    rewrite queueEncode_ok by done. cbn [negb]. unfold writeOrDrop. rewrite Er, Ew.
    cbn [negb]. unfold makeRoom.
    rewrite (proj2 (Nat.leb_gt _ _) Hl). cbn [negb]. eauto. }
  exists c'. split; [done|]. intros P.
  apply (enqueue_cases _ _ rs) in E as (_ & _ & _ & _ & [[C' _]|(_ & _ & El)]); [done| |done..].
  pose proof (Forall2_length _ _ _ (co_holds _ _ _ C)). lia.
Qed.

Lemma recover_contents c s c' s' :
  (1 <= c_capacity c)%nat -> files s !! recordName (2 ^ 64 - 1) = None ->
  recover c s = (true, c', s') ->
  exists all,
    (forall r, r ∈ all <-> legible s r) /\
    StronglySorted Z.lt (qr_recordId <$> all) /\
    core_ok c' (files s') (drop (length all - c_capacity c) all) /\
    c_nextRecordId c' <> 0 /\ c_capacity c' = c_capacity c.
Proof.
  intros Hcap Hmax E.
  pose proof (recover_indexed c s Hmax) as
    [(_ & ? & ? & Ef)|(all & rs & c2 & s2 & Hix & Er)]; [congruence|].
  rewrite Er in E. destruct (trimOldest all c2 s2) as [[ok c3] s3] eqn:Et.
  destruct ok; [|discriminate]. injection E as <- <-.
  destruct (indexed_stored _ _ _ _ _ _ _ Hix) as [Hst Hss].
  destruct (indexed_trimmed _ _ _ _ _ _ _ _ _ _ Hcap Hix Et eq_refl) as (Ecap & _ & Hn & C).
  exists rs. rewrite <- (Forall2_length _ _ _ (ix_holds _ _ _ _ _ _ _ Hix)).
  split_and!; [exact Hst|exact Hss| |by destruct c3|by destruct c3]. destruct c3, C. by split.
Qed.

(** C8: recovery, when it succeeds, rebuilds exactly the queue that is on flash and
    can be read: of all the files that store a record under its own name, but for
    those whose read fails when recovery comes to them ([unread_at]), it keeps the
    newest, as many as the capacity allows, in the order of their identifiers, and
    the next identifier is fresh. On a storage whose reads do not fail these are
    all the records stored. (The identifier 2^64 - 1 must not be in use: after it
    the allocator wraps.) *)
Theorem recover_exact c s c' s' :
  (1 <= c_capacity c)%nat -> files s !! recordName (2 ^ 64 - 1) = None ->
  recover c s = (true, c', s') ->
  exists all,
    (forall r, r ∈ all <-> stored (files s) r /\ qr_recordId r ∉ unread_at s) /\
    (ReliableReads St -> forall r, r ∈ all <-> stored (files s) r) /\
    StronglySorted Z.lt (qr_recordId <$> all) /\
    core_ok c' (files s') (drop (length all - c_capacity c) all) /\
    c_nextRecordId c' <> 0.
Proof.
  intros Hcap Hmax E. destruct (recover_contents _ _ _ _ Hcap Hmax E) as (all & Ha & ? & ? & ? & _).
  exists all. split_and!; [exact Ha| |done..]. intros Hrel r. rewrite Ha.
  split; [by intros [? _]|apply stored_legible].
Qed.

(** Nothing is lost in a restart: when the index lists all the records on
    flash, recovery with the same capacity by a fresh queue brings back the same
    queue; when the listing works, recovery cannot fail. *)
Theorem restart_keeps `{!ReliableReads St} c s rs :
  core_ok c (files s) rs -> (forall r, stored (files s) r -> r ∈ rs) ->
  files s !! recordName (2 ^ 64 - 1) = None ->
  fst (listRecordIds (cleanupTemporaryFiles s)) <> None ->
  exists c' s', recover (DurableQueueCore_new (c_capacity c)) s = (true, c', s') /\
    core_ok c' (files s') rs /\ ids c' = ids c.
Proof.
  intros C Hall Hmax Hlist. pose proof (co_capacity _ _ _ C) as Hcap.
  set (c0 := DurableQueueCore_new (c_capacity c)).
  assert (c_capacity c0 = c_capacity c) as Ec0.
  { unfold c0, DurableQueueCore_new. destruct (Nat.eqb_spec (c_capacity c) 0); cbn; lia. }
  assert (1 <= c_capacity c0)%nat as Hcap0 by lia.
  pose proof (recover_indexed c0 s Hmax) as [[? _]|(all & rs0 & c2 & s2 & Hix & Er)]; [done|].
  destruct (indexed_stored _ _ _ _ _ _ _ Hix) as [Hst Hss].
  assert (rs0 = rs) as ->.
  { pose proof (core_ok_stored _ _ _ C) as F. rewrite Forall_forall in F.
    apply (stored_lists_eq (files s)); try done.
    - apply Forall_forall. intros r Hr. by apply Hst.
    - by apply Forall_forall.
    - rewrite (holds_ids _ _ _ (co_holds _ _ _ C)). apply C.
    - intros r. rewrite Hst. split; [intros [Hr _]; by apply Hall|]. intros Hr.
      by apply stored_legible, F. }
  assert (length all = length (c_entries c)) as El.
  { rewrite (Forall2_length _ _ _ (ix_holds _ _ _ _ _ _ _ Hix)).
    by rewrite (Forall2_length _ _ _ (co_holds _ _ _ C)). }
  pose proof (co_bounded _ _ _ C) as Hb. rewrite <- El in Hb.
  destruct (trimOldest all c2 s2) as [[ok c3] s3] eqn:Et.
  assert (ok = true) as ->.
  { rewrite trimOldest_fits in Et; [by injection Et|].
    rewrite (ix_capacity _ _ _ _ _ _ _ Hix). lia. }
  rewrite Er.
  destruct (indexed_trimmed _ _ _ _ _ _ _ _ _ _ Hcap0 Hix Et eq_refl) as (_ & Ee & Hn & C').
  rewrite Ec0 in *. rewrite (proj2 (Nat.sub_0_le _ _) Hb) in *.
  do 2 eexists. split; [done|]. destruct c3 as [cap3 next3 es3 st3]. cbn in Ee. subst es3.
  split; [destruct C'; by split|]. unfold ids. cbn.
  rewrite <- (holds_ids _ _ _ (co_holds _ _ _ C)).
  by rewrite (holds_ids _ _ _ (ix_holds _ _ _ _ _ _ _ Hix)).
Qed.

Lemma peek_spec c s rs limit ok out c' s' :
  core_ok c (files s) rs -> peek limit c s = (ok, out, c', s') ->
  out = (if ok then take limit rs else []) /\
  core_ok c' (files s') rs /\ files s' = files s /\ c_entries c' = c_entries c /\
  (ReliableReads St -> ok = true).
Proof.
  intros C E. unfold peek in E.
  pose proof (Forall2_length _ _ _ (co_holds _ _ _ C)) as Ll.
  set (n := Nat.min limit (length (c_entries c))) in E.
  assert (take n rs = take limit rs) as Et.
  { unfold n. rewrite Ll. destruct (le_lt_dec limit (length rs)).
    - by rewrite Nat.min_l by lia.
    - by rewrite Nat.min_r, !take_ge by lia. }
  assert (Forall2 (holds (files s)) (take n (c_entries c)) (take n rs)) as Hh
    by (apply Forall2_take, C).
  assert (ReliableReads St -> exists s1, peekLoop (take n (c_entries c)) s = (Some (take n rs), s1))
    as Hr by (intros ?; by apply peekLoop_reliable).
  destruct (peekLoop _ s) as [o s1] eqn:Ep.
  apply (peekLoop_spec _ _ _ _ _ Hh) in Ep as [Es Ho].
  destruct o as [records|]; injection E as <- <- <- <-.
  - rewrite Es. rewrite (Ho _ eq_refl), Et. split_and!; done.
  - rewrite Es. split_and!; [done|by apply bumpErrors_ok|done|by destruct c|].
    intros R. by destruct (Hr R).
Qed.

(** Peek answers the first records of the queue, oldest first and as they
    were stored, or nothing at all; it changes neither the queue nor the files,
    and it succeeds when reads do. *)
Theorem peek_fifo c s rs limit ok out c' s' :
  core_ok c (files s) rs -> peek limit c s = (ok, out, c', s') ->
  out = (if ok then take limit rs else []) /\
  core_ok c' (files s') rs /\ files s' = files s /\ c_entries c' = c_entries c /\
  (ReliableReads St -> ok = true).
Proof. apply peek_spec. Qed.

(** Remove takes out exactly the record it is given, from the index and from
    flash, and answers true exactly then; the order of the others stays, and a
    refused removal changes nothing. *)
Theorem remove_exact c s rs id ok c' s' :
  core_ok c (files s) rs -> queueRemove id c s = (ok, c', s') ->
  if ok then
    exists i r, rs !! i = Some r /\ qr_recordId r = id /\
      core_ok c' (files s') (delete i rs) /\ files s' = delete (recordName id) (files s)
  else core_ok c' (files s') rs /\ files s' = files s /\ c_entries c' = c_entries c /\
    (Forall (fun r => qr_recordId r <> id) rs \/ c' = bumpErrors c).
Proof. apply queueRemove_spec. Qed.

(** Contains answers whether a queued record carries telemetry of the key:
    the hash only saves reading, and looking changes nothing. *)
Theorem contains_exact `{!ReliableReads St} c s rs key b c' s' :
  core_ok c (files s) rs -> queueContains key c s = (b, c', s') ->
  (b = true <-> queued rs key) /\ c' = c /\ files s' = files s.
Proof.
  intros C E. apply (containsLoop_spec _ rs) in E as (? & ? & ?); [done|apply C].
Qed.
End Theorems.

(** ** A queue that runs

    A storage in memory, a queue of capacity one and records of the sample
    telemetry, numbered by their sequence. *)

Definition sampleQueued (sequence : Z) : QueueRecord :=
  let wire := telemetryWire (sampleTelemetry <| tp_sequence := sequence |>) in
  let len := Z.of_nat (length wire) in
  mkQueueRecord 0
    (mkReceptionMetadata 1700000000123 true 1000 305419896 0xC2C80000 0x41200000
       (-250) len) len (wire ++ zeros (96 - length wire)).

Definition emptyStorage : MemoryStorage := mkMemoryStorage ∅ [].

Definition enqueued (capacity : nat) (records : list QueueRecord)
  : DurableQueueCore * MemoryStorage :=
  foldl (fun cs r => let '(_, _, c, s) := enqueue cs.1 cs.2 r in (c, s))
    (DurableQueueCore_new capacity, emptyStorage) records.

Definition sampleCore : DurableQueueCore := (enqueued 1 [sampleQueued 7]).1.
Definition sampleStorage : MemoryStorage := (enqueued 1 [sampleQueued 7]).2.
Definition sampleContents : list QueueRecord := [(sampleQueued 7) <| qr_recordId := 1 |>].

Definition sampleQueued_checked (sequence : Z) : Prop :=
  record_typed (sampleQueued sequence) /\ record_padded (sampleQueued sequence).

Ltac check_record :=
  split; [split; try (vm_compute; split; congruence); split;
    [vm_compute; reflexivity|apply (bool_decide_unpack _); vm_compute; reflexivity]
  |vm_compute; reflexivity].

Lemma sampleQueued_7 : sampleQueued_checked 7.
Proof. check_record. Qed.

Lemma sampleQueued_8 : sampleQueued_checked 8.
Proof. check_record. Qed.

Lemma emptyQueue_ok capacity : core_ok (DurableQueueCore_new capacity) (files emptyStorage) [].
Proof.
  split; try (by constructor || (cbn; lia)).
  unfold DurableQueueCore_new. destruct (Nat.eqb_spec capacity 0); cbn; lia.
Qed.

(** The queue that holds its one record. *)
Lemma sampleCore_ok : core_ok sampleCore (files sampleStorage) sampleContents.
Proof.
  pose proof (enqueue_cases (DurableQueueCore_new 1) emptyStorage [] (sampleQueued 7)
    true ((sampleQueued 7) <| qr_recordId := 1 |>) sampleCore sampleStorage
    (emptyQueue_ok 1) (proj1 sampleQueued_7) (proj2 sampleQueued_7)) as E.
  destruct E as (_ & _ & _ & _ & [[E _]|(_ & _ & E)]); [vm_compute; reflexivity|done|].
  vm_compute in E. discriminate.
Qed.

Definition sampleNext : QueueRecord := (sampleQueued 8) <| qr_recordId := 2 |>.

(** A second record displaces the first. *)
Definition fullCore : DurableQueueCore := (enqueued 1 [sampleQueued 7; sampleQueued 8]).1.
Definition fullStorage : MemoryStorage := (enqueued 1 [sampleQueued 7; sampleQueued 8]).2.


(** The first record is taken by an empty queue. *)
Lemma enqueue_accepts_witness :
  exists c', enqueue (DurableQueueCore_new 1) emptyStorage (sampleQueued 7) =
    (true, (sampleQueued 7) <| qr_recordId := 1 |>, c', sampleStorage).
Proof.
  destruct (enqueue_accepts (DurableQueueCore_new 1) emptyStorage [] (sampleQueued 7)
    (sampleTelemetry <| tp_sequence := 7 |>) sampleStorage (emptyQueue_ok 1)
    (proj1 sampleQueued_7)) as (c' & E & _).
  - unfold record_sound. cbn. split_and!; try done; vm_compute; congruence.
  - vm_compute. reflexivity.
  - vm_compute. lia.
  - vm_compute. reflexivity.
  - exists c'. exact E.
Defined.

(** Recovery into a queue of capacity one from a flash that holds two records:
    the newer one stays. *)
Definition twoStored : MemoryStorage := (enqueued 2 [sampleQueued 7; sampleQueued 8]).2.

Definition recoveredCore : DurableQueueCore :=
  (recover (DurableQueueCore_new 1) twoStored).1.2.
Definition recoveredStorage : MemoryStorage :=
  (recover (DurableQueueCore_new 1) twoStored).2.

Lemma recover_exact_witness :
  recover (DurableQueueCore_new 1) twoStored = (true, recoveredCore, recoveredStorage) /\
  ids recoveredCore = [2] /\ unread_at twoStored = [] /\
  exists all, core_ok recoveredCore (files recoveredStorage) (drop (length all - 1) all).
Proof.
  assert (recover (DurableQueueCore_new 1) twoStored =
    (true, recoveredCore, recoveredStorage)) as E by (vm_compute; reflexivity).
  split; [exact E|]. do 2 (split; [vm_compute; reflexivity|]).
  destruct (recover_exact (DurableQueueCore_new 1) twoStored recoveredCore recoveredStorage)
    as (all & _ & _ & _ & C & _); [cbn; lia|vm_compute; reflexivity|exact E|].
  exists all. exact C.
Defined.

(** Only the queued record is on flash. *)
Lemma sampleStorage_only r : stored (files sampleStorage) r -> r ∈ sampleContents.
Proof.
  intros (Hv & W & Hf & _).
  assert (files sampleStorage =
    {[ recordName 1 := recordWire ((sampleQueued 7) <| qr_recordId := 1 |>) ]}) as E
    by (vm_compute; reflexivity).
  rewrite E in Hf. apply lookup_singleton_Some in Hf as [En Ew].
  apply list_elem_of_singleton. symmetry. refine (recordWire_inj _ _ _ W Ew).
  pose proof (core_ok_stored _ _ _ sampleCore_ok) as F.
  apply Forall_singleton in F as (_ & W1 & _). exact W1.
Qed.

Lemma restart_keeps_witness :
  exists c' s', recover (DurableQueueCore_new 1) sampleStorage = (true, c', s') /\
    core_ok c' (files s') sampleContents.
Proof.
  destruct (restart_keeps sampleCore sampleStorage sampleContents sampleCore_ok
    sampleStorage_only) as (c' & s' & E & C & _).
  - vm_compute. reflexivity.
  - vm_compute. discriminate.
  - exists c', s'. split; [exact E|exact C].
Defined.

Lemma peek_fifo_witness :
  peek 5 sampleCore sampleStorage = (true, sampleContents, sampleCore, sampleStorage).
Proof.
  assert (peek 5 sampleCore sampleStorage =
    (true, (peek 5 sampleCore sampleStorage).1.1.2, sampleCore, sampleStorage)) as E
    by (vm_compute; reflexivity).
  pose proof (proj1 (peek_fifo sampleCore sampleStorage sampleContents 5 true _ sampleCore
    sampleStorage sampleCore_ok E)) as Eo.
  rewrite Eo in E. exact E.
Defined.

Definition removedCore : DurableQueueCore := (queueRemove 1 sampleCore sampleStorage).1.2.
Definition removedStorage : MemoryStorage := (queueRemove 1 sampleCore sampleStorage).2.

Lemma remove_exact_witness :
  queueRemove 1 sampleCore sampleStorage = (true, removedCore, removedStorage) /\
  core_ok removedCore (files removedStorage) [].
Proof.
  assert (queueRemove 1 sampleCore sampleStorage = (true, removedCore, removedStorage)) as E
    by (vm_compute; reflexivity).
  split; [exact E|].
  destruct (remove_exact sampleCore sampleStorage sampleContents 1 true removedCore
    removedStorage sampleCore_ok E) as (i & r & Hi & _ & C & _).
  destruct i; [exact C|discriminate].
Defined.

Lemma contains_exact_witness : queued sampleContents (keyOf sampleTelemetry).
Proof.
  assert (queueContains (keyOf sampleTelemetry) sampleCore sampleStorage =
    (true, sampleCore, sampleStorage)) as E by (vm_compute; reflexivity).
  exact (proj1 (proj1 (contains_exact sampleCore sampleStorage sampleContents _ true
    sampleCore sampleStorage sampleCore_ok E)) eq_refl).
Defined.
