(* ===== verification/FlashStorage.v ===== *)
(** * The queue's files on flash (lib/queue/durable_queue, LittleFsQueueStorage)

    [FileSystem]: what the firmware calls of LittleFS and of the mounted VFS,
    over a file-system state [F].  [FileSystemLaws] states what these calls do to
    the regular files.  The storage of the queue is defined over the first and
    proved to be a [QueueStorage] from the second. *)

From Stdlib Require Import ZArith Lia.
From stdpp Require Import gmap.
From S2P Require Import Prelude BuildConfig CString QueueRecord QueueStorage.

(** ** The library calls *)

(** The outcome of a POSIX call: success, [ENOENT], another error. *)
Inductive VfsResult := VfsOk | VfsNoEntry | VfsError.

Class FileSystem (F : Type) := {
  fs_mount : bool -> F -> bool * F;
  vfs_stat : list Z -> F -> VfsResult * F;
  vfs_unlink : list Z -> F -> VfsResult * F;
  fs_mkdir : list Z -> F -> bool * F;
  (** [open] of a directory and [openNextFile] to the end: names and whether
      they are directories; [None] when it is no directory. *)
  fs_list : list Z -> F -> option (list (list Z * bool)) * F;
  (** [open] for reading: whether it is a directory, and the size. *)
  fs_open : list Z -> F -> option (bool * nat) * F;
  (** [read] of so many bytes from the start of an opened file. *)
  fs_read : list Z -> nat -> F -> list Z * F;
  (** [open] for writing, [write], [flush], [close]: the count written. *)
  fs_write : list Z -> list Z -> F -> option nat * F;
  fs_rename : list Z -> list Z -> F -> bool * F;
  fs_remove : list Z -> F -> bool * F;
  fs_totalBytes : F -> Z;
  fs_usedBytes : F -> Z;
}.

(** ** Strings *)

Definition endsWith (s suffix : list Z) : bool :=
  (length suffix <=? length s)%nat &&
  bool_decide (drop (length s - length suffix) s = suffix).

(** [s.substring(s.lastIndexOf('/') + 1)]. *)
Fixpoint afterSlash (s : list Z) : list Z :=
  match s with
  | [] => []
  | c :: rest => if bool_decide (47 ∈ rest) then afterSlash rest
                 else if c =? 47 then rest else s
  end.

(** [std::string::c_str()] into a [String]: up to the first NUL. *)
Definition c_str (s : list Z) : list Z := c_text (length s) s.

Definition kQueueDirectory : list Z := chars "/queue".
Definition kFilesystemBasePath : list Z := chars "/littlefs".

Definition mountedPath (logicalPath : list Z) : list Z := kFilesystemBasePath ++ logicalPath.

Definition fullPath (name : list Z) : list Z := kQueueDirectory ++ chars "/" ++ c_str name.

Section Storage.
Context {F : Type} `{FileSystem F}.

Definition silentlyUnlink (logicalPath : list Z) (s : F) : bool * F :=
  let '(r, s) := vfs_unlink (mountedPath logicalPath) s in
  (match r with VfsOk | VfsNoEntry => true | VfsError => false end, s).

Definition filePresence (logicalPath : list Z) (s : F) : Z * F :=
  let '(r, s) := vfs_stat (mountedPath logicalPath) s in
  (match r with VfsOk => 1 | VfsNoEntry => 0 | VfsError => -1 end, s).

Definition storageBegin (formatOnFailure : bool) (s : F) : bool * F :=
  let '(mounted, s) := fs_mount formatOnFailure s in
  if negb mounted then (false, s) else
  let '(directoryPresence, s) := filePresence kQueueDirectory s in
  if directoryPresence <? 0 then (false, s)
  else if directoryPresence =? 0 then fs_mkdir kQueueDirectory s
  else (true, s).

(** The scan of the directory: the identifiers, and the paths of record files
    with another name. *)
Fixpoint scanRecords (entries : list (list Z * bool)) (recordIds : list Z)
    (invalidPaths : list (list Z)) : list Z * list (list Z) :=
  match entries with
  | [] => (recordIds, invalidPaths)
  | (path, isDirectory) :: rest =>
      if isDirectory || negb (endsWith path (chars ".rec"))
      then scanRecords rest recordIds invalidPaths
      else
        match parseRecordName (afterSlash path) with
        | Some recordId => scanRecords rest (recordIds ++ [recordId]) invalidPaths
        | None => scanRecords rest recordIds (invalidPaths ++ [path])
        end
  end.

Fixpoint removeInvalid (paths : list (list Z)) (corruptNames : Z) (s : F)
  : option Z * F :=
  match paths with
  | [] => (Some corruptNames, s)
  | path :: rest =>
      let corruptNames := wrap 32 (corruptNames + 1) in
      let '(removed, s) := fs_remove path s in
      if removed then removeInvalid rest corruptNames s else (None, s)
  end.

Definition flash_listRecordIds (s : F) : option (list Z * Z) * F :=
  let '(directory, s) := fs_list kQueueDirectory s in
  match directory with
  | None => (None, s)
  | Some entries =>
      let '(recordIds, invalidPaths) := scanRecords entries [] [] in
      let '(corruptNames, s) := removeInvalid invalidPaths 0 s in
      (match corruptNames with Some n => Some (recordIds, n) | None => None end, s)
  end.

Definition flash_readRecord (name : list Z) (s : F) : option (list Z) * F :=
  let '(file, s) := fs_open (fullPath name) s in
  match file with
  | None => (None, s)
  | Some (isDirectory, size) =>
      if isDirectory || (kMaximumEncodedBytes <? size)%nat then (None, s)
      else
        let '(bytes, s) := fs_read (fullPath name) size s in
        (if (length bytes =? size)%nat then Some bytes else None, s)
  end.

Definition temporaryPath (recordId : Z) : list Z :=
  kQueueDirectory ++ chars "/" ++ hexDigits 16 recordId ++ chars ".tmp".
Definition finalPath (recordId : Z) : list Z :=
  kQueueDirectory ++ chars "/" ++ hexDigits 16 recordId ++ chars ".rec".

Definition flash_writeRecordAtomic (recordId : Z) (bytes : list Z) (s : F) : bool * F :=
  let temporary := temporaryPath recordId in
  let '(cleared, s) := silentlyUnlink temporary s in
  if negb cleared then (false, s) else
  let '(written, s) := fs_write temporary bytes s in
  match written with
  | None => (false, s)
  | Some n =>
      if negb (n =? length bytes)%nat
      then let '(_, s) := silentlyUnlink temporary s in (false, s)
      else
        let '(renamed, s) := fs_rename temporary (finalPath recordId) s in
        if negb renamed
        then let '(_, s) := silentlyUnlink temporary s in (false, s)
        else (true, s)
  end.

Definition flash_removeRecord (name : list Z) (s : F) : bool * F :=
  fs_remove (fullPath name) s.

Fixpoint removeAll (paths : list (list Z)) (s : F) : F :=
  match paths with
  | [] => s
  | path :: rest => let '(_, s) := fs_remove path s in removeAll rest s
  end.

Definition flash_cleanupTemporaryFiles (s : F) : F :=
  let '(directory, s) := fs_list kQueueDirectory s in
  match directory with
  | None => s
  | Some entries =>
      removeAll (fst <$> filter (fun e => e.2 = false /\ endsWith e.1 (chars ".tmp") = true)
                   entries) s
  end.

#[export] Instance flash_storage : QueueStorage F := {
  listRecordIds := flash_listRecordIds;
  readRecord := flash_readRecord;
  writeRecordAtomic := flash_writeRecordAtomic;
  removeRecord := flash_removeRecord;
  cleanupTemporaryFiles := flash_cleanupTemporaryFiles;
}.

End Storage.
