(* ===== verification/FlashStorageLaws.v ===== *)
(** * The queue's files on flash are a queue storage

    [FileSystemLaws] is the documented behaviour of the file system; from it the
    storage on flash has the laws the queue relies on. *)

From Stdlib Require Import ZArith Lia.
From stdpp Require Import gmap.
From S2P Require Import Prelude BuildConfig CString QueueRecord QueueStorage FlashStorage.

(** ** What the file system promises

    [disk]: the regular files by path; the VFS calls see them under the mount
    point.  A failed call changes nothing, except that opening for writing may
    spoil the file it was to replace, and mounting may format when told to. *)

Class FileSystemLaws (F : Type) `{FileSystem F} := {
  disk : F -> gmap (list Z) (list Z);
  disk_bytes s p bytes : disk s !! p = Some bytes -> bytes_ok bytes;
  mount_keeps s b s' : fs_mount false s = (b, s') -> disk s' = disk s;
  stat_keeps s p r s' : vfs_stat (mountedPath p) s = (r, s') -> disk s' = disk s;
  stat_absent s p s' : vfs_stat (mountedPath p) s = (VfsNoEntry, s') -> disk s !! p = None;
  unlink_law s p r s' :
    vfs_unlink (mountedPath p) s = (r, s') ->
    disk s' = match r with VfsOk => delete p (disk s) | _ => disk s end;
  mkdir_keeps s p b s' : fs_mkdir p s = (b, s') -> disk s' = disk s;
  list_keeps s p o s' : fs_list p s = (o, s') -> disk s' = disk s;
  list_law s p entries s' :
    fs_list p s = (Some entries, s') ->
    NoDup entries.*1 /\
    (forall name, (name, false) ∈ entries <->
       (47 ∉ name) /\ is_Some (disk s !! (p ++ chars "/" ++ name)));
  open_keeps s p o s' : fs_open p s = (o, s') -> disk s' = disk s;
  open_law s p n s' :
    fs_open p s = (Some (false, n), s') -> exists bytes, disk s !! p = Some bytes /\ length bytes = n;
  open_file s p dir n s' :
    fs_open p s = (Some (dir, n), s') -> is_Some (disk s !! p) -> dir = false;
  read_keeps_disk s p n bs s' : fs_read p n s = (bs, s') -> disk s' = disk s;
  read_law s p n bs s' bytes :
    fs_read p n s = (bs, s') -> disk s !! p = Some bytes -> bs = take (length bs) bytes;
  read_absent s p n bs s' :
    fs_read p n s = (bs, s') -> disk s !! p = None -> bs = [];
  write_law s p bytes o s' :
    bytes_ok bytes -> fs_write p bytes s = (o, s') ->
    match o with
    | Some n => (n <= length bytes)%nat /\ disk s' = <[p := take n bytes]> (disk s)
    | None => forall q, q <> p -> disk s' !! q = disk s !! q
    end;
  rename_law s a b r s' :
    fs_rename a b s = (r, s') ->
    if r then exists bytes, disk s !! a = Some bytes /\ disk s' = <[b := bytes]> (delete a (disk s))
    else disk s' = disk s;
  remove_law s p r s' :
    fs_remove p s = (r, s') -> disk s' = if r then delete p (disk s) else disk s;
}.

(** ** Paths *)

Definition queuePath (name : list Z) : list Z := kQueueDirectory ++ chars "/" ++ name.

Lemma queuePath_inj a b : queuePath a = queuePath b -> a = b.
Proof. unfold queuePath. rewrite !app_assoc. apply app_inv_head. Qed.

Lemma hexDigit_range v : 0 <= v < 16 -> 48 <= hexDigit v <= 102.
Proof. unfold hexDigit. intros H. destruct (Z.ltb_spec v 10); lia. Qed.

Lemma hexDigits_range k id : Forall (fun c => 48 <= c <= 102) (hexDigits k id).
Proof.
  induction k as [|k IH]; cbn [hexDigits]; constructor; [|done].
  apply hexDigit_range. rewrite land15. by apply Z.mod_pos_bound.
Qed.

(** A record's name holds neither NUL nor a slash. *)
Lemma recordName_chars id : Forall (fun c => c <> 0 /\ c <> 47) (recordName id).
Proof.
  unfold recordName. apply Forall_app. split.
  - eapply Forall_impl; [apply hexDigits_range|]. cbn. lia.
  - change (chars ".rec") with [46; 114; 101; 99].
    repeat (apply Forall_cons; split; [lia|]). apply Forall_nil_2.
Qed.

Lemma c_str_plain s : Forall (fun c => c <> 0) s -> c_str s = s.
Proof.
  intros H. unfold c_str. rewrite <- (app_nil_r s) at 2.
  change (s ++ []) with (s ++ replicate 0 0). by rewrite c_text_padded.
Qed.

Lemma fullPath_recordName id : fullPath (recordName id) = queuePath (recordName id).
Proof.
  unfold fullPath, queuePath. rewrite c_str_plain; [done|].
  eapply Forall_impl; [apply recordName_chars|]. by intros c [].
Qed.

Lemma finalPath_recordName id : finalPath id = queuePath (recordName id).
Proof. done. Qed.

Lemma afterSlash_plain s : 47 ∉ s -> afterSlash s = s.
Proof.
  destruct s as [|c s]; [done|]. rewrite not_elem_of_cons. intros [Hc Hs]. cbn.
  rewrite bool_decide_false by done. by destruct (Z.eqb_spec c 47).
Qed.

Lemma recordName_endsWith id : endsWith (recordName id) (chars ".rec") = true.
Proof.
  unfold endsWith, recordName. rewrite length_app, length_hexDigits.
  change (length (chars ".rec")) with 4%nat. cbn [andb].
  rewrite drop_app_length' by (by rewrite length_hexDigits).
  by rewrite bool_decide_true.
Qed.

(** Temporary and record paths differ. *)
Lemma temporaryPath_not_record id id' : temporaryPath id <> queuePath (recordName id').
Proof.
  unfold temporaryPath, queuePath, recordName. intros E.
  apply app_inv_head, app_inv_head in E.
  apply app_inj_1 in E as [_ E]; [discriminate|]. by rewrite !length_hexDigits.
Qed.

(** ** The record files of a disk *)

Definition record_files (d : gmap (list Z) (list Z)) : gmap (list Z) (list Z) :=
  list_to_map (omap (fun f : list Z * list Z =>
    let name := drop 7 f.1 in
    if bool_decide (take 7 f.1 = chars "/queue/") && bool_decide (is_Some (parseRecordName name))
    then Some (name, f.2) else None) (map_to_list d)).

Lemma record_files_entry d name bytes :
  (name, bytes) ∈ omap (fun f : list Z * list Z =>
    let name := drop 7 f.1 in
    if bool_decide (take 7 f.1 = chars "/queue/") && bool_decide (is_Some (parseRecordName name))
    then Some (name, f.2) else None) (map_to_list d) <->
  is_Some (parseRecordName name) /\ d !! queuePath name = Some bytes.
Proof.
  rewrite list_elem_of_omap. split.
  - intros ([p b] & Hin & E). cbn in E. apply elem_of_map_to_list in Hin.
    case_bool_decide as Hp; [|discriminate]. case_bool_decide as Hn; [|discriminate].
    injection E as <- <-. split; [done|].
    assert (p = queuePath (drop 7 p)) as <-; [|done].
    rewrite <- (take_drop 7 p) at 1. by rewrite Hp.
  - intros [Hn Hd]. exists (queuePath name, bytes). rewrite elem_of_map_to_list. split; [done|].
    cbn [fst snd]. change (drop 7 (queuePath name)) with name.
    by rewrite (bool_decide_true (is_Some _)), bool_decide_true.
Qed.

Lemma lookup_record_files d id :
  valid_id id -> record_files d !! recordName id = d !! queuePath (recordName id).
Proof.
  intros Hv. assert (is_Some (parseRecordName (recordName id))) as Hp
    by (rewrite parse_recordName by done; eauto).
  unfold record_files. destruct (d !! queuePath (recordName id)) as [bytes|] eqn:E.
  - apply elem_of_list_to_map_1'.
    + intros b Hb. apply record_files_entry in Hb as [_ Hb]. congruence.
    + by apply record_files_entry.
  - apply not_elem_of_list_to_map_1. intros ([n b] & En & Hb)%list_elem_of_fmap.
    cbn [fst] in En. subst n. apply record_files_entry in Hb as [_ Hb]. congruence.
Qed.

Lemma lookup_record_files_other d name :
  parseRecordName name = None -> record_files d !! name = None.
Proof.
  intros Hn. apply not_elem_of_list_to_map_1. intros ([n b] & En & Hb)%list_elem_of_fmap.
  cbn [fst] in En. subst n. apply record_files_entry in Hb as [[? Hs] _]. congruence.
Qed.

(** Equality of the record files, record by record. *)
Lemma record_files_ext (d m : gmap (list Z) (list Z)) :
  (forall id, valid_id id -> d !! queuePath (recordName id) = m !! recordName id) ->
  (forall name, parseRecordName name = None -> m !! name = None) ->
  record_files d = m.
Proof.
  intros He Hn. apply map_eq. intros name.
  destruct (parseRecordName name) as [id|] eqn:E.
  - apply parse_recordName_inv in E as [Hv ->]. by rewrite lookup_record_files, He.
  - by rewrite lookup_record_files_other, Hn.
Qed.

Lemma record_files_keep (d d' : gmap (list Z) (list Z)) :
  (forall id, valid_id id -> d' !! queuePath (recordName id) = d !! queuePath (recordName id)) ->
  record_files d' = record_files d.
Proof.
  intros He. apply record_files_ext.
  - intros id Hv. by rewrite He, lookup_record_files.
  - intros name Hn. by apply lookup_record_files_other.
Qed.

Lemma record_files_insert d id bytes :
  valid_id id ->
  record_files (<[queuePath (recordName id) := bytes]> d) =
    <[recordName id := bytes]> (record_files d).
Proof.
  intros Hv. apply record_files_ext.
  - intros id' Hv'. destruct (decide (id = id')) as [->|Hne].
    + by rewrite !lookup_insert_eq.
    + rewrite !lookup_insert_ne; [by rewrite lookup_record_files| |].
      * intros E. by apply recordName_inj in E.
      * intros E%queuePath_inj. by apply recordName_inj in E.
  - intros name Hn. rewrite lookup_insert_ne; [by apply lookup_record_files_other|].
    intros <-. by rewrite parse_recordName in Hn.
Qed.

Lemma record_files_delete d id :
  valid_id id ->
  record_files (delete (queuePath (recordName id)) d) =
    delete (recordName id) (record_files d).
Proof.
  intros Hv. apply record_files_ext.
  - intros id' Hv'. destruct (decide (id = id')) as [->|Hne].
    + by rewrite !lookup_delete_eq.
    + rewrite !lookup_delete_ne; [by rewrite lookup_record_files| |].
      * intros E. by apply recordName_inj in E.
      * intros E%queuePath_inj. by apply recordName_inj in E.
  - intros name Hn. apply lookup_delete_None. right. by apply lookup_record_files_other.
Qed.

(** Deleting or writing anything else leaves the records alone. *)
Lemma record_files_delete_other d p :
  (forall id, valid_id id -> p <> queuePath (recordName id)) ->
  record_files (delete p d) = record_files d.
Proof.
  intros Hp. apply record_files_keep. intros id Hv. apply lookup_delete_ne. by apply Hp.
Qed.

(** ** The operations *)

Section Laws.
Context {F : Type} `{FileSystemLaws F}.

Definition flash_files (s : F) : gmap (list Z) (list Z) := record_files (disk s).

Lemma silentlyUnlink_spec id s b s' :
  silentlyUnlink (temporaryPath id) s = (b, s') -> flash_files s' = flash_files s.
Proof.
  unfold silentlyUnlink, flash_files. intros E. destruct (vfs_unlink _ s) as [r s1] eqn:Eu.
  injection E as <- <-. apply unlink_law in Eu. rewrite Eu.
  destruct r; [|done..]. apply record_files_delete_other. intros id' _.
  apply temporaryPath_not_record.
Qed.

Lemma scanRecords_spec entries ids invalid :
  scanRecords entries ids invalid =
    (ids ++ omap (fun e => if e.2 || negb (endsWith e.1 (chars ".rec")) then None
                           else parseRecordName (afterSlash e.1)) entries,
     invalid ++ omap (fun e => if e.2 || negb (endsWith e.1 (chars ".rec")) then None
                               else match parseRecordName (afterSlash e.1) with
                                    | Some _ => None | None => Some e.1 end) entries).
Proof.
  revert ids invalid. induction entries as [|[path dir] entries IH]; intros ids invalid.
  - cbn. by rewrite !app_nil_r.
  - cbn [scanRecords omap list_omap fst snd].
    destruct (dir || negb (endsWith path (chars ".rec"))); [by rewrite IH|].
    destruct (parseRecordName (afterSlash path)); rewrite IH; by rewrite <- app_assoc.
Qed.

(** Removing paths outside the queue's record names. *)
Definition not_records (paths : list (list Z)) : Prop :=
  Forall (fun p => forall id, valid_id id -> p <> queuePath (recordName id)) paths.

Lemma removeInvalid_files paths n s o s' :
  not_records paths -> removeInvalid paths n s = (o, s') -> flash_files s' = flash_files s.
Proof.
  intros Hp. revert n s. induction Hp as [|p paths Hp Hps IH]; intros n s E; cbn in E.
  - by injection E as <- <-.
  - destruct (fs_remove p s) as [b s1] eqn:Er. apply remove_law in Er.
    assert (flash_files s1 = flash_files s) as E1.
    { unfold flash_files. rewrite Er. destruct b; [|done]. by apply record_files_delete_other. }
    destruct b; [|by injection E as <- <-]. apply IH in E. congruence.
Qed.

Lemma removeAll_files paths s :
  not_records paths -> flash_files (removeAll paths s) = flash_files s.
Proof.
  intros Hp. revert s. induction Hp as [|p paths Hp Hps IH]; intros s; [done|]. cbn.
  destruct (fs_remove p s) as [b s1] eqn:Er. apply remove_law in Er. rewrite IH.
  unfold flash_files. rewrite Er. destruct b; [|done]. by apply record_files_delete_other.
Qed.

(** Names of directory entries carry no slash, so they are no queue paths. *)
Definition plain (paths : list (list Z)) : Prop := Forall (fun p => 47 ∉ p) paths.

Lemma plain_not_records paths : plain paths -> not_records paths.
Proof.
  intros Hp. eapply Forall_impl; [exact Hp|]. intros p Hn id _ ->. apply Hn.
  unfold queuePath, kQueueDirectory. cbn. left.
Qed.

Lemma listed_plain p s entries s1 (P : list Z * bool -> Prop) `{!forall e, Decision (P e)} :
  fs_list p s = (Some entries, s1) -> (forall e, P e -> e.2 = false) ->
  plain (fst <$> filter P entries).
Proof.
  intros [_ Hl]%list_law Hd. apply Forall_fmap, Forall_forall.
  intros [path dir] [He Hin]%list_elem_of_filter. apply Hd in He. cbn in He. subst dir.
  by apply Hl in Hin as [? _].
Qed.

Lemma invalid_plain p s entries s1 :
  fs_list p s = (Some entries, s1) -> plain (scanRecords entries [] []).2.
Proof.
  intros [_ Hl]%list_law. rewrite scanRecords_spec. cbn [app snd]. apply Forall_forall.
  intros name ([path dir] & Hin & Hp)%list_elem_of_omap. cbn [fst snd] in Hp.
  destruct dir; cbn [orb] in Hp; [discriminate|]. destruct (negb _); [discriminate|].
  destruct (parseRecordName _); [discriminate|]. injection Hp as <-. by apply Hl in Hin as [? _].
Qed.

Lemma listRecordIds_files s o s' :
  flash_listRecordIds s = (o, s') -> flash_files s' = flash_files s.
Proof.
  unfold flash_listRecordIds. intros E. destruct (fs_list _ s) as [[entries|] s1] eqn:El.
  - pose proof El as Ek. apply list_keeps in Ek. apply invalid_plain in El.
    destruct (scanRecords entries [] []) as [recordIds invalid].
    destruct (removeInvalid _ 0 s1) as [n s2] eqn:Er. injection E as _ <-.
    apply removeInvalid_files in Er; [|by apply plain_not_records].
    rewrite Er. unfold flash_files. by rewrite Ek.
  - apply list_keeps in El. injection E as _ <-. unfold flash_files. by rewrite El.
Qed.

Lemma listRecordIds_ids s ids n s' :
  flash_listRecordIds s = (Some (ids, n), s') ->
  NoDup ids /\
  (forall id, id ∈ ids <-> valid_id id /\ is_Some (flash_files s !! recordName id)).
Proof.
  unfold flash_listRecordIds. intros E. destruct (fs_list _ s) as [[entries|] s1] eqn:El;
    [|discriminate].
  apply list_law in El as [Hn Hl]. rewrite scanRecords_spec in E. cbn [app] in E.
  destruct (removeInvalid _ 0 s1) as [[c|] s2]; [|discriminate]. injection E as <- _ _.
  set (f := fun e : list Z * bool => if e.2 || negb (endsWith e.1 (chars ".rec")) then None
                                     else parseRecordName (afterSlash e.1)).
  assert (forall e id, e ∈ entries -> f e = Some id ->
    valid_id id /\ e = (recordName id, false)) as Hf.
  { intros [path dir] id Hin Ef. unfold f in Ef. cbn [fst snd] in Ef.
    destruct dir; cbn [orb] in Ef; [discriminate|].
    destruct (negb _); [discriminate|]. pose proof (proj1 (Hl path) Hin) as [Hs _].
    rewrite afterSlash_plain in Ef by done. by apply parse_recordName_inv in Ef as [? ->]. }
  split.
  - assert (forall l, (forall e, e ∈ l -> e ∈ entries) -> NoDup l.*1 -> NoDup (omap f l))
      as Hnd; [|by apply Hnd].
    induction l as [|e l IH]; intros Hsub Hnl; [constructor|]. cbn [omap list_omap].
    rewrite fmap_cons in Hnl. apply NoDup_cons in Hnl as [Hni Hnl].
    destruct (f e) as [id|] eqn:Ef; [|apply IH; [intros; apply Hsub; by right|done]].
    apply NoDup_cons. split; [|apply IH; [intros; apply Hsub; by right|done]].
    intros (e' & He' & Ef')%list_elem_of_omap. apply Hni.
    apply Hf in Ef as [_ ->]; [|apply Hsub; by left].
    apply Hf in Ef' as [_ ->]; [|apply Hsub; by right].
    by apply (list_elem_of_fmap_2 fst _ (recordName id, false)).
  - intros id. rewrite list_elem_of_omap. split.
    + intros (e & Hin & Ef). destruct (Hf _ _ Hin Ef) as [Hv ->]. split; [done|].
      unfold flash_files. rewrite lookup_record_files by done. by apply Hl in Hin as [_ ?].
    + intros [Hv Hs]. exists (recordName id, false). unfold flash_files in Hs.
      rewrite lookup_record_files in Hs by done.
      assert (47 ∉ recordName id) as Hp.
      { intros Hi. pose proof (recordName_chars id) as Hc. rewrite Forall_forall in Hc.
        by destruct (Hc _ Hi). }
      split; [by apply Hl|]. unfold f. cbn [fst snd].
      rewrite recordName_endsWith. cbn [orb negb]. rewrite afterSlash_plain by done.
      by apply parse_recordName.
Qed.

Lemma readRecord_found s id bytes s' :
  valid_id id -> flash_readRecord (recordName id) s = (Some bytes, s') ->
  flash_files s !! recordName id = Some bytes.
Proof.
  unfold flash_readRecord, flash_files. intros Hv E. rewrite lookup_record_files by done.
  rewrite fullPath_recordName in E.
  destruct (fs_open _ s) as [[[dir n]|] s1] eqn:Eo; [|discriminate].
  destruct dir; [discriminate|]. cbn [orb] in E.
  destruct (_ <? n)%nat; [discriminate|].
  destruct (fs_read _ n s1) as [bs s2] eqn:Er.
  destruct (Nat.eqb_spec (length bs) n) as [Hn|]; [|discriminate]. injection E as <- <-.
  pose proof (open_keeps _ _ _ _ Eo) as Ek. apply open_law in Eo as (b & Hb & Hl).
  rewrite <- Ek in Hb. pose proof (read_law _ _ _ _ _ _ Er Hb) as Ebs.
  rewrite <- Ek, Hb, Ebs, Hn, <- Hl. f_equal. symmetry. apply firstn_all.
Qed.

Lemma readRecord_keeps s name o s' :
  flash_readRecord name s = (o, s') -> flash_files s' = flash_files s.
Proof.
  unfold flash_readRecord, flash_files. intros E.
  destruct (fs_open _ s) as [[[dir n]|] s1] eqn:Eo; apply open_keeps in Eo.
  - destruct (dir || _); [injection E as _ <-; by rewrite Eo|].
    destruct (fs_read _ n s1) as [bs s2] eqn:Er. apply read_keeps_disk in Er.
    injection E as _ <-. by rewrite Er, Eo.
  - injection E as _ <-. by rewrite Eo.
Qed.

(** The write: complete under the final name, or no record touched. *)
Lemma writeRecordAtomic_spec s id bytes b s' :
  valid_id id -> bytes_ok bytes -> flash_writeRecordAtomic id bytes s = (b, s') ->
  flash_files s' = if b then <[recordName id := bytes]> (flash_files s) else flash_files s.
Proof.
  unfold flash_writeRecordAtomic. intros Hv Hb E.
  destruct (silentlyUnlink _ s) as [cleared s1] eqn:Eu. apply silentlyUnlink_spec in Eu.
  destruct cleared; cbn [negb] in E; [|by injection E as <- <-].
  destruct (fs_write _ bytes s1) as [o s2] eqn:Ew. apply write_law in Ew; [|done].
  assert (flash_files s2 = flash_files s1) as E2.
  { unfold flash_files. destruct o as [n|].
    - destruct Ew as [_ ->]. apply record_files_keep. intros id' _.
      rewrite lookup_insert_ne; [done|]. apply temporaryPath_not_record.
    - apply record_files_keep. intros id' _. apply Ew. intros Eq.
      by apply (temporaryPath_not_record id id'). }
  destruct o as [n|]; [|injection E as <- <-; congruence].
  destruct (Nat.eqb_spec n (length bytes)) as [->|]; cbn [negb] in E.
  - destruct Ew as [_ Ew]. destruct (fs_rename _ _ s2) as [renamed s3] eqn:Er.
    apply rename_law in Er. destruct renamed; cbn [negb] in E.
    + injection E as <- <-. destruct Er as (c & Hc & Er).
      rewrite Ew, lookup_insert_eq in Hc. injection Hc as <-. rewrite firstn_all in Er.
      unfold flash_files in *. rewrite Er, finalPath_recordName, record_files_insert by done.
      rewrite record_files_delete_other by (intros; apply temporaryPath_not_record).
      by rewrite E2, Eu.
    + destruct (silentlyUnlink _ s3) as [? s4] eqn:Eu2. apply silentlyUnlink_spec in Eu2.
      injection E as <- <-. unfold flash_files in *. rewrite Eu2, Er. congruence.
  - destruct (silentlyUnlink _ s2) as [? s4] eqn:Eu2. apply silentlyUnlink_spec in Eu2.
    injection E as <- <-. congruence.
Qed.

Lemma removeRecord_spec s id b s' :
  valid_id id -> flash_removeRecord (recordName id) s = (b, s') ->
  flash_files s' = if b then delete (recordName id) (flash_files s) else flash_files s.
Proof.
  unfold flash_removeRecord, flash_files. intros Hv E. rewrite fullPath_recordName in E.
  apply remove_law in E. rewrite E. destruct b; [|done]. by apply record_files_delete.
Qed.

Lemma cleanup_files s : flash_files (flash_cleanupTemporaryFiles s) = flash_files s.
Proof.
  unfold flash_cleanupTemporaryFiles. destruct (fs_list _ s) as [[entries|] s1] eqn:El;
    pose proof (list_keeps _ _ _ _ El) as Ek.
  - rewrite removeAll_files; [unfold flash_files; by rewrite Ek|].
    apply plain_not_records. eapply listed_plain; [exact El|]. by intros e [].
  - unfold flash_files. by rewrite Ek.
Qed.

#[export] Instance flash_storage_laws : QueueStorageLaws F.
Proof.
  refine {| files := flash_files |}.
  - intros s name bytes Hf. unfold flash_files in Hf.
    destruct (parseRecordName name) as [id|] eqn:En.
    + apply parse_recordName_inv in En as [Hv ->].
      rewrite lookup_record_files in Hf by done. by eapply disk_bytes.
    + by rewrite lookup_record_files_other in Hf.
  - intros s ids corrupt s' E. destruct (listRecordIds_ids _ _ _ _ E) as [? ?].
    apply listRecordIds_files in E. split_and!; [done..|]. intros id _. by rewrite E.
  - intros s s' E id _. apply listRecordIds_files in E. by rewrite E.
  - intros s id bytes s'. apply readRecord_found.
  - intros s name o s'. apply readRecord_keeps.
  - intros s id bytes s' Hv Hb E. by apply writeRecordAtomic_spec in E.
  - intros s id bytes s' Hv Hb E. by apply writeRecordAtomic_spec in E.
  - intros s id s' Hv E. by apply removeRecord_spec in E.
  - intros s id s' Hv E. by apply removeRecord_spec in E.
  - intros s id Hv. cbn. by rewrite cleanup_files.
Defined.
End Laws.
