(* ===== verification/MemoryFlash.v ===== *)
(** * A flash in memory

    The file system the witnesses compute with: a map of files and the outcomes
    of the coming unlinks, writes, renames and removals (success once the list
    is empty; a write that fails stores half of its bytes). *)

From Stdlib Require Import ZArith Lia.
From stdpp Require Import gmap.
From S2P Require Import Prelude BuildConfig CString QueueRecord QueueStorage FlashStorage.
From S2P Require Import FlashStorageLaws.

Record MemoryFlash := mkMemoryFlash {
  mf_disk : gmap (list Z) (list Z);
  mf_script : list bool;
}.

Definition emptyFlash : MemoryFlash := mkMemoryFlash ∅ [].

Definition next_outcome (s : MemoryFlash) : bool * MemoryFlash :=
  (default true (head (mf_script s)), mkMemoryFlash (mf_disk s) (tail (mf_script s))).

Definition set_disk (d : gmap (list Z) (list Z)) (s : MemoryFlash) : MemoryFlash :=
  mkMemoryFlash d (mf_script s).

(** The path of a file of directory [p], as a name in it. *)
Definition name_in (p path : list Z) : option (list Z) :=
  let prefix := p ++ [47] in
  let name := drop (length prefix) path in
  if bool_decide (take (length prefix) path = prefix) && bool_decide (47 ∉ name)
  then Some name else None.

#[export] Instance MemoryFlash_ops : FileSystem MemoryFlash := {
  fs_mount _ s := (true, s);
  vfs_stat p s :=
    (if bool_decide (is_Some (mf_disk s !! drop 9 p)) then VfsOk else VfsNoEntry, s);
  vfs_unlink p s :=
    let '(b, s) := next_outcome s in
    if b then
      if bool_decide (is_Some (mf_disk s !! drop 9 p))
      then (VfsOk, set_disk (delete (drop 9 p) (mf_disk s)) s) else (VfsNoEntry, s)
    else (VfsError, s);
  fs_mkdir _ s := (true, s);
  fs_list p s :=
    (Some ((fun name => (name, false)) <$> omap (fun f => name_in p f.1) (map_to_list (mf_disk s))),
     s);
  fs_open p s := ((fun bytes => (false, length bytes)) <$> mf_disk s !! p, s);
  fs_read p n s := (take n (file_content (default [] (mf_disk s !! p))), s);
  fs_write p bytes s :=
    let '(b, s) := next_outcome s in
    let n := if b then length bytes else (length bytes / 2)%nat in
    (Some n, set_disk (<[p := take n bytes]> (mf_disk s)) s);
  fs_rename a b s :=
    let '(ok, s) := next_outcome s in
    match mf_disk s !! a with
    | Some bytes => if ok then (true, set_disk (<[b := bytes]> (delete a (mf_disk s))) s)
                    else (false, s)
    | None => (false, s)
    end;
  fs_remove p s :=
    let '(ok, s) := next_outcome s in
    if ok then (true, set_disk (delete p (mf_disk s)) s) else (false, s);
  fs_totalBytes _ := 1048576;
  fs_usedBytes _ := 0;
}.

Lemma name_in_spec p path name :
  name_in p path = Some name <-> 47 ∉ name /\ path = p ++ [47] ++ name.
Proof.
  unfold name_in. rewrite app_assoc. set (prefix := p ++ [47]). split.
  - intros E. case_bool_decide as Hp; [|discriminate]. case_bool_decide as Hn; [|discriminate].
    injection E as <-. split; [done|]. rewrite <- Hp at 1. by rewrite take_drop.
  - intros [Hn ->]. rewrite take_app_length, drop_app_length.
    by rewrite !bool_decide_true.
Qed.

Lemma mounted_drop p : drop 9 (mountedPath p) = p.
Proof. done. Qed.

#[export] Instance MemoryFlash_laws : FileSystemLaws MemoryFlash.
Proof.
  refine {| disk s := file_content <$> mf_disk s |}.
  - intros s p bytes H. apply lookup_fmap_Some in H as (b & <- & _).
    apply Forall_fmap, Forall_true. intros x. apply wrap_range. lia.
  - cbn. by intros s b s' [= _ <-].
  - cbn. by intros s p r s' [= _ <-].
  - cbn [vfs_stat MemoryFlash_ops]. intros s p s'. rewrite mounted_drop, lookup_fmap.
    case_bool_decide as Hs; [discriminate|]. intros _.
    destruct (mf_disk s !! p); [by destruct Hs|done].
  - cbn [vfs_unlink MemoryFlash_ops]. intros s p r s'. rewrite mounted_drop.
    unfold next_outcome. cbn. destruct (default true _); [|by intros [= <- <-]].
    case_bool_decide; intros [= <- <-]; cbn; [by rewrite fmap_delete|done].
  - cbn. by intros s p b s' [= _ <-].
  - cbn. by intros s p o s' [= _ <-].
  - cbn. intros s p entries s' [= <- <-]. split.
    + assert (forall l : list (list Z), ((fun name => (name, false)) <$> l).*1 = l) as ->
        by (intros l; rewrite <- list_fmap_compose; apply list_fmap_id).
      pose proof (NoDup_fst_map_to_list (mf_disk s)) as Hn.
      induction (map_to_list (mf_disk s)) as [|[path b] l IH]; cbn; [constructor|].
      rewrite fmap_cons, NoDup_cons in Hn. destruct Hn as [Hnin Hn].
      destruct (name_in p path) as [name|] eqn:En; [|by apply IH].
      apply NoDup_cons. split; [|by apply IH].
      intros ([path' b'] & Hin & En')%list_elem_of_omap. cbn in En'.
      apply name_in_spec in En as [_ ->], En' as [_ ->]. apply Hnin.
      by apply (list_elem_of_fmap_2 fst _ (p ++ [47] ++ name, b')).
    + intros name. rewrite lookup_fmap, fmap_is_Some.
      rewrite list_elem_of_fmap. setoid_rewrite list_elem_of_omap. split.
      * intros (n & [= <-] & [path b] & Hin & En). cbn in En.
        apply name_in_spec in En as [Hn ->]. apply elem_of_map_to_list in Hin.
        split; [done|]. by exists b.
      * intros [Hn [b Hb]]. exists name. split; [done|]. exists (p ++ [47] ++ name, b).
        rewrite elem_of_map_to_list. split; [done|]. by apply name_in_spec.
  - cbn. by intros s p o s' [= _ <-].
  - cbn. intros s p n s' [= E _]. apply fmap_Some in E as (b & Eb & [= ->]).
    exists (file_content b). rewrite lookup_fmap, Eb. split; [done|].
    unfold file_content. by rewrite length_fmap.
  - cbn. intros s p dir n s' [= E _] _. by apply fmap_Some in E as (b & _ & [= -> _]).
  - cbn. by intros s p n bs s' [= _ <-].
  - cbn. intros s p n bs s' bytes [= <- _]. rewrite lookup_fmap. intros Hb.
    apply fmap_Some in Hb as (b & Eb & ->). rewrite Eb. cbn. rewrite length_take.
    by rewrite <- take_take, firstn_all.
  - cbn. intros s p n bs s' [= <- _]. rewrite lookup_fmap, fmap_None. intros ->.
    by destruct n.
  - cbn. intros s p bytes o s' Hb [= <- <-]. cbn. split.
    + destruct (default true _); [lia|]. apply Nat.Div0.div_le_upper_bound. lia.
    + rewrite fmap_insert, file_content_ok; [done|]. by apply Forall_take.
  - cbn. intros s a b r s'. destruct (mf_disk s !! a) as [bytes|] eqn:Ea;
      [|by intros [= <- <-]].
    destruct (default true _); intros [= <- <-]; [|done]. cbn.
    exists (file_content bytes). rewrite lookup_fmap, Ea. split; [done|].
    by rewrite fmap_insert, fmap_delete.
  - cbn. intros s p r s'. destruct (default true _); intros [= <- <-]; cbn;
      [by rewrite fmap_delete|done].
Defined.
