(* ===== verification/FlashPower.v ===== *)
(** * Writing records to flash without losing them

    The write of a record file seen call by call, on any file system with the
    laws of FlashStorageLaws; the witness writes to a flash in memory. *)

From Stdlib Require Import ZArith Lia.
From stdpp Require Import gmap.
From S2P Require Import Prelude BuildConfig CString ByteIO QueueRecord QueueRecordCodec.
From S2P Require Import QueueStorage FlashStorage FlashStorageLaws MemoryFlash.

(** ** Losing power during a write

    A file system that logs every state it passes through: the states in which a
    power cut may leave the flash. *)

#[local] Arguments mountedPath : simpl never.
#[local] Arguments temporaryPath : simpl never.
#[local] Arguments finalPath : simpl never.
#[local] Arguments flash_files : simpl never.
#[local] Arguments silentlyUnlink : simpl never.

Section PowerCut.
Context {F : Type} `{FileSystemLaws F}.

Definition Logged : Type := F * list F.

Definition logged {A} (r : A * F) (log : list F) : A * Logged := (r.1, (r.2, log ++ [r.2])).

#[export] Instance logged_filesystem : FileSystem Logged := {
  fs_mount b s := logged (fs_mount b s.1) s.2;
  vfs_stat p s := logged (vfs_stat p s.1) s.2;
  vfs_unlink p s := logged (vfs_unlink p s.1) s.2;
  fs_mkdir p s := logged (fs_mkdir p s.1) s.2;
  fs_list p s := logged (fs_list p s.1) s.2;
  fs_open p s := logged (fs_open p s.1) s.2;
  fs_read p n s := logged (fs_read p n s.1) s.2;
  fs_write p bytes s := logged (fs_write p bytes s.1) s.2;
  fs_rename a b s := logged (fs_rename a b s.1) s.2;
  fs_remove p s := logged (fs_remove p s.1) s.2;
  fs_totalBytes s := fs_totalBytes s.1;
  fs_usedBytes s := fs_usedBytes s.1;
}.

Lemma logged_unlink id (s : F) log b s' log' :
  silentlyUnlink (temporaryPath id) (s, log) = (b, (s', log')) ->
  flash_files s' = flash_files s /\ log' = log ++ [s'].
Proof.
  unfold silentlyUnlink. cbn. intros E. destruct (vfs_unlink _ s) as [r s1] eqn:Eu.
  cbn in E. injection E as <- <- <-. split; [|done].
  apply (silentlyUnlink_spec id s (match r with VfsError => false | _ => true end)).
  unfold silentlyUnlink. rewrite Eu. by destruct r.
Qed.

Ltac log_states :=
  cbn [app]; repeat (apply Forall_cons; split; [first [left; congruence | right; congruence]|]);
  apply Forall_nil_2.

(** C14: a record file appears complete or not at all: whatever the file system
    refuses, and in every state the flash passes through while the record is
    written, the record files are those from before or those with the whole new
    record; true is answered exactly when it is there in the end. *)
Theorem write_power_safe id bytes (s : F) b s' log :
  valid_id id -> bytes_ok bytes ->
  flash_writeRecordAtomic id bytes (s, []) = (b, (s', log)) ->
  let new := <[recordName id := bytes]> (flash_files s) in
  Forall (fun t => flash_files t = flash_files s \/ flash_files t = new) log /\
  flash_files s' = (if b then new else flash_files s) /\ last log = Some s'.
Proof.
  unfold flash_writeRecordAtomic. intros Hv Hb E.
  destruct (silentlyUnlink _ (s, [])) as [cleared [s1 log1]] eqn:Eu.
  apply logged_unlink in Eu as [F1 ->]. cbn [app] in E.
  destruct cleared; cbn [negb] in E.
  2:{ injection E as <- <- <-. split_and!; [log_states|done..]. }
  cbn [fs_write logged_filesystem logged fst snd] in E. destruct (fs_write _ bytes s1) as [o s2] eqn:Ew. cbn in E.
  assert (flash_files s2 = flash_files s) as F2.
  { rewrite <- F1. unfold flash_files. apply record_files_keep. intros id' _.
    pose proof (temporaryPath_not_record id id') as Hne.
    apply write_law in Ew; [|done]. destruct o as [n|]; [destruct Ew as [_ ->]|by apply Ew; auto].
    by rewrite lookup_insert_ne. }
  destruct o as [n|].
  2:{ injection E as <- <- <-. split_and!; [log_states|done..]. }
  destruct (Nat.eqb_spec n (length bytes)) as [->|]; cbn [negb] in E.
  - destruct (fs_rename _ _ s2) as [renamed s3] eqn:Er. cbn in E.
    destruct renamed; cbn [negb] in E.
    + injection E as <- <- <-.
      assert (flash_files s3 = <[recordName id := bytes]> (flash_files s)) as F3.
      { apply write_law in Ew as [_ Ew]; [|done]. apply rename_law in Er as (c & Hc & Er).
        rewrite Ew, lookup_insert_eq in Hc. injection Hc as <-. rewrite firstn_all in Er.
        unfold flash_files in *. rewrite Er, finalPath_recordName, record_files_insert by done.
        rewrite record_files_delete_other by (intros; apply temporaryPath_not_record).
        by rewrite F2. }
      split_and!; [log_states|done..].
    + apply rename_law in Er. destruct (silentlyUnlink _ (s3, _)) as [? [s4 log4]] eqn:Eu2.
      apply logged_unlink in Eu2 as [F4 ->]. injection E as <- <- <-.
      assert (flash_files s3 = flash_files s) as F3
        by (unfold flash_files in *; rewrite Er; done).
      split_and!; [log_states|congruence|done].
  - destruct (silentlyUnlink _ (s2, _)) as [? [s4 log4]] eqn:Eu2.
    apply logged_unlink in Eu2 as [F4 ->]. injection E as <- <- <-.
    split_and!; [log_states|congruence|done].
Qed.
End PowerCut.

(** A first write that fails half-way, and a second one that succeeds. *)
Definition failingFlash : MemoryFlash := mkMemoryFlash ∅ [true; false].

Lemma write_power_safe_witness :
  let r := flash_writeRecordAtomic 42 (recordWire sampleRecord) (failingFlash, []) in
  r.1 = false /\ flash_files r.2.1 = flash_files failingFlash.
Proof.
  destruct (flash_writeRecordAtomic 42 (recordWire sampleRecord) (failingFlash, []))
    as [b [s' log]] eqn:E.
  assert (b = false) as ->.
  { change b with (b, (s', log)).1. rewrite <- E. vm_compute. reflexivity. }
  split; [reflexivity|].
  refine (proj1 (proj2 (write_power_safe 42 (recordWire sampleRecord) failingFlash false s' log
    _ _ E))).
  - split; [vm_compute; split; congruence|discriminate].
  - apply (bool_decide_unpack _). vm_compute. reflexivity.
Defined.
