(* ===== verification/Pairing.v ===== *)
(** * Pairing (lib/pairing/pairing_manager)

    The state of [PairingManager], its operations, and the three states it
    means: paired with a node, unpaired, or looking for a node. *)

From Stdlib Require Import ZArith Lia.
From S2P Require Import Prelude BuildConfig CString Protocol ProtocolSpec.

Record PairingCandidate := mkPairingCandidate {
  pc_available : bool;
  pc_nodeId : list Z;
  pc_persistentSessionId : Z;
  pc_sequence : Z;
  pc_rssiDbm : Z;
  pc_snrDb : Z;
  pc_observedUptimeMs : Z;
}.

Definition PairingCandidate_init : PairingCandidate :=
  mkPairingCandidate false (zeros kNodeIdCapacity) 0 0 0 0 0.

Record PairingManager := mkPairingManager {
  pm_pairedNodeId : list Z;
  pm_pairingMode : bool;
  pm_candidate : PairingCandidate;
}.

Definition PairingManager_init : PairingManager :=
  mkPairingManager (zeros kNodeIdCapacity) false PairingCandidate_init.

(** [pairedNodeId_[0] = '\0']. *)
Definition clearNode (node : list Z) : list Z := <[0%nat := 0]> node.

Definition pairingBegin (persistedNodeId : ptr (list Z)) (m : PairingManager)
  : PairingManager :=
  let node := clearNode (pm_pairedNodeId m) in
  mkPairingManager
    (if nodeIdValid persistedNodeId
     then strncpy node (default [] persistedNodeId) (kNodeIdCapacity - 1) else node)
    false PairingCandidate_init.

Definition paired (m : PairingManager) : bool :=
  negb (default 0 (pm_pairedNodeId m !! 0%nat) =? 0).

Definition pairingStart (m : PairingManager) : bool * PairingManager :=
  if paired m then (false, m)
  else (true, mkPairingManager (pm_pairedNodeId m) true PairingCandidate_init).

Definition pairingCancel (m : PairingManager) : PairingManager :=
  mkPairingManager (pm_pairedNodeId m) false PairingCandidate_init.

Definition observe (packet : TelemetryPacket) (rssiDbm snrDb uptimeMs : Z)
    (m : PairingManager) : PairingManager :=
  if negb (pm_pairingMode m) then m
  else
    mkPairingManager (pm_pairedNodeId m) (pm_pairingMode m)
      (mkPairingCandidate true
         (strncpy (pc_nodeId PairingCandidate_init) (tp_nodeId packet)
            (kNodeIdCapacity - 1))
         (tp_persistentSessionId packet) (tp_sequence packet) rssiDbm snrDb uptimeMs).

(** [strncpy(pairedNodeId_, id, n - 1); pairedNodeId_[n - 1] = '\0']. *)
Definition setNode (id node : list Z) : list Z :=
  <[(kNodeIdCapacity - 1)%nat := 0]> (strncpy node id (kNodeIdCapacity - 1)).

Definition confirmCandidate (m : PairingManager) : bool * PairingManager :=
  let candidate := pm_candidate m in
  if negb (pm_pairingMode m) || negb (pc_available candidate) ||
     negb (nodeIdValid (Some (pc_nodeId candidate)))
  then (false, m)
  else
    (true, mkPairingManager (setNode (pc_nodeId candidate) (pm_pairedNodeId m)) false
             candidate).

Definition pairManual (nodeId : ptr (list Z)) (m : PairingManager)
  : bool * PairingManager :=
  if negb (nodeIdValid nodeId) then (false, m)
  else
    (true, mkPairingManager (setNode (default [] nodeId) (pm_pairedNodeId m)) false
             PairingCandidate_init).

Definition unpair (m : PairingManager) : PairingManager :=
  mkPairingManager (clearNode (pm_pairedNodeId m)) false PairingCandidate_init.

Definition pairingMatches (nodeId : ptr (list Z)) (m : PairingManager) : bool :=
  paired m &&
  match nodeId with
  | nullptr => false
  | Some s => strncmp (pm_pairedNodeId m) s kNodeIdCapacity =? 0
  end.

(** ** What the states mean *)

(** A node that may be paired: the text of a valid identifier. *)
Definition valid_text (text : list Z) : Prop :=
  (1 <= length text <= kNodeIdCapacity - 1)%nat /\
  Forall (fun c => validNodeByte c = true) text.

Record PairingView := mkPairingView {
  pv_node : option (list Z);
  pv_searching : bool;
  pv_candidate : option PairingCandidate;
}.

Definition nodeOf (node : list Z) : option (list Z) :=
  let text := c_text kNodeIdCapacity node in
  if bool_decide (text = []) then None else Some text.

Definition view (m : PairingManager) : PairingView :=
  mkPairingView (nodeOf (pm_pairedNodeId m)) (pm_pairingMode m)
    (if pc_available (pm_candidate m) then Some (pm_candidate m) else None).

(** The array ends in NUL and holds nothing or a valid identifier; a candidate
    holds a string; no node is paired while one is sought. *)
Record pairing_ok (m : PairingManager) : Prop := {
  po_length : length (pm_pairedNodeId m) = kNodeIdCapacity;
  po_end : pm_pairedNodeId m !! (kNodeIdCapacity - 1)%nat = Some 0;
  po_node text : nodeOf (pm_pairedNodeId m) = Some text -> valid_text text;
  po_candidate : zero_padded kNodeIdCapacity (pc_nodeId (pm_candidate m));
  po_searching : pm_pairingMode m = true -> nodeOf (pm_pairedNodeId m) = None;
}.

(** ** The specification *)

Inductive PairingOp :=
  | OpBegin (persistedNodeId : ptr (list Z))
  | OpStart
  | OpCancel
  | OpObserve (packet : TelemetryPacket) (rssiDbm snrDb uptimeMs : Z)
  | OpConfirm
  | OpManual (nodeId : ptr (list Z))
  | OpUnpair.

(** The text of an identifier, if it may be paired. *)
Definition validNode (nodeId : ptr (list Z)) : option (list Z) :=
  s ← nodeId; if nodeIdValid (Some s) then Some (c_text kNodeIdCapacity s) else None.

Definition seen (packet : TelemetryPacket) (rssiDbm snrDb uptimeMs : Z) : PairingCandidate :=
  mkPairingCandidate true
    (strncpy (zeros kNodeIdCapacity) (tp_nodeId packet) (kNodeIdCapacity - 1))
    (tp_persistentSessionId packet) (tp_sequence packet) rssiDbm snrDb uptimeMs.

Definition spec_step (op : PairingOp) (v : PairingView) : bool * PairingView :=
  match op with
  | OpBegin id => (true, mkPairingView (validNode id) false None)
  | OpStart =>
      match pv_node v with
      | Some _ => (false, v)
      | None => (true, mkPairingView None true None)
      end
  | OpCancel => (true, mkPairingView (pv_node v) false None)
  | OpObserve packet rssi snr uptime =>
      (true, if pv_searching v
             then mkPairingView (pv_node v) true (Some (seen packet rssi snr uptime))
             else v)
  | OpConfirm =>
      match (if pv_searching v then pv_candidate v ≫= fun c => validNode (Some (pc_nodeId c))
             else None) with
      | Some text => (true, mkPairingView (Some text) false (pv_candidate v))
      | None => (false, v)
      end
  | OpManual id =>
      match validNode id with
      | Some text => (true, mkPairingView (Some text) false None)
      | None => (false, v)
      end
  | OpUnpair => (true, mkPairingView None false None)
  end.

Definition run_op (op : PairingOp) (m : PairingManager) : bool * PairingManager :=
  match op with
  | OpBegin id => (true, pairingBegin id m)
  | OpStart => pairingStart m
  | OpCancel => (true, pairingCancel m)
  | OpObserve packet rssi snr uptime => (true, observe packet rssi snr uptime m)
  | OpConfirm => confirmCandidate m
  | OpManual id => pairManual id m
  | OpUnpair => (true, unpair m)
  end.

(** ** Lemmas *)

#[local] Arguments nodeIdValid : simpl never.
#[local] Arguments c_text : simpl never.
#[local] Arguments strncpy : simpl never.
#[local] Arguments nodeOf : simpl never.

Lemma nodeOf_None node :
  nodeOf node = None <-> default 0 (node !! 0%nat) = 0.
Proof.
  unfold nodeOf. case_bool_decide as E; destruct node as [|c node]; cbn in *;
    try (by split).
  - unfold c_text in E. cbn in E. destruct (Z.eqb_spec c 0); [by split|discriminate].
  - unfold c_text in E. cbn in E. destruct (Z.eqb_spec c 0); [done|]. by split.
Qed.

Lemma paired_view m : paired m = true <-> pv_node (view m) <> None.
Proof.
  unfold paired. cbn [pv_node view]. rewrite nodeOf_None, negb_true_iff, Z.eqb_neq.
  done.
Qed.

Lemma nodeOf_clear node : nodeOf (clearNode node) = None.
Proof. apply nodeOf_None. by destruct node. Qed.

Lemma valid_text_of s : nodeIdValid (Some s) = true -> valid_text (c_text kNodeIdCapacity s).
Proof.
  intros [Hl Hf]%nodeIdValid_spec. unfold valid_text, nodeText in *. split; [lia|done].
Qed.

(** Writing a valid identifier over the array. *)
Lemma nodeOf_strncpy s node :
  nodeIdValid (Some s) = true -> length node = kNodeIdCapacity ->
  node !! (kNodeIdCapacity - 1)%nat = Some 0 ->
  nodeOf (strncpy node s (kNodeIdCapacity - 1)) = Some (c_text kNodeIdCapacity s).
Proof.
  intros Hv Hl He. apply nodeIdValid_spec in Hv as [Hn _]. unfold nodeText in Hn.
  pose proof (strnlen_le_n s 24). unfold nodeOf, kNodeIdCapacity in *.
  change (25 - 1)%nat with 24%nat in *.
  rewrite c_text_strncpy by (first [lia | by rewrite He]).
  assert (c_text 24 s = c_text 25 s) as ->.
  { unfold c_text in *. rewrite length_take in Hn. f_equal.
    destruct (decide (strnlen s 24 = 24)%nat); [|symmetry; apply strnlen_mono; lia].
    pose proof (strnlen_le_mono s 24 25). pose proof (strnlen_le_length s 25). lia. }
  rewrite bool_decide_false; [done|]. intros E. rewrite E in Hn. cbn in Hn. lia.
Qed.

Lemma strncpy_end s node n x :
  length node = S n -> node !! n = Some x -> strncpy node s n !! n = Some x.
Proof.
  intros Hl Hx. pose proof (length_c_text n s) as E. unfold c_text in E.
  unfold strncpy. pose proof (strnlen_le_n s n).
  rewrite app_assoc, lookup_app_r; rewrite length_app, length_replicate, E; [|lia].
  replace (n - (strnlen s n + (n - strnlen s n)))%nat with 0%nat by lia.
  rewrite lookup_drop. by rewrite Nat.add_0_r.
Qed.

Lemma setNode_strncpy s node :
  length node = kNodeIdCapacity -> node !! (kNodeIdCapacity - 1)%nat = Some 0 ->
  setNode s node = strncpy node s (kNodeIdCapacity - 1).
Proof.
  intros Hl He. unfold setNode. apply list_insert_id. by apply strncpy_end.
Qed.

(** The array of a paired node. *)
Lemma node_written s node :
  nodeIdValid (Some s) = true -> length node = kNodeIdCapacity ->
  node !! (kNodeIdCapacity - 1)%nat = Some 0 ->
  let node' := strncpy node s (kNodeIdCapacity - 1) in
  length node' = kNodeIdCapacity /\ node' !! (kNodeIdCapacity - 1)%nat = Some 0 /\
  nodeOf node' = Some (c_text kNodeIdCapacity s).
Proof.
  intros Hv Hl He node'. split_and!.
  - unfold node'. rewrite length_strncpy; [done|]. rewrite Hl. unfold kNodeIdCapacity. lia.
  - by apply strncpy_end.
  - by apply nodeOf_strncpy.
Qed.

Lemma clear_keeps node :
  length node = kNodeIdCapacity -> node !! (kNodeIdCapacity - 1)%nat = Some 0 ->
  length (clearNode node) = kNodeIdCapacity /\
  clearNode node !! (kNodeIdCapacity - 1)%nat = Some 0.
Proof.
  intros Hl He. unfold clearNode. rewrite length_insert. split; [done|].
  by rewrite list_lookup_insert_ne.
Qed.

Lemma candidate_init_padded : zero_padded kNodeIdCapacity (pc_nodeId PairingCandidate_init).
Proof. split; reflexivity. Qed.

Lemma seen_padded s :
  zero_padded kNodeIdCapacity (strncpy (zeros kNodeIdCapacity) s (kNodeIdCapacity - 1)).
Proof.
  unfold kNodeIdCapacity. change (25 - 1)%nat with 24%nat.
  rewrite strncpy_fresh. pose proof (strnlen_le_n s 24).
  rewrite <- (length_c_text 24 s). apply zero_padded_intro; [apply c_text_no_nul|].
  rewrite length_c_text. lia.
Qed.

#[local] Hint Resolve candidate_init_padded seen_padded : gateway.

Lemma validNode_Some id text :
  validNode id = Some text <->
  exists s, id = Some s /\ nodeIdValid (Some s) = true /\ text = c_text kNodeIdCapacity s.
Proof.
  unfold validNode. split.
  - intros (s & -> & E)%bind_Some. destruct (nodeIdValid (Some s)) eqn:Ev; [|discriminate].
    injection E as <-. by exists s.
  - intros (s & -> & Ev & ->). cbn. by rewrite Ev.
Qed.

Lemma validNode_None id : nodeIdValid id = false -> validNode id = None.
Proof. unfold validNode. destruct id as [s|]; [|done]. cbn. by intros ->. Qed.

(** A state whose array holds a fresh identifier, no search going on. *)
Lemma paired_ok s node c :
  nodeIdValid (Some s) = true -> length node = kNodeIdCapacity ->
  node !! (kNodeIdCapacity - 1)%nat = Some 0 -> zero_padded kNodeIdCapacity (pc_nodeId c) ->
  let m := mkPairingManager (strncpy node s (kNodeIdCapacity - 1)) false c in
  pairing_ok m /\
  view m = mkPairingView (Some (c_text kNodeIdCapacity s)) false
             (if pc_available c then Some c else None).
Proof.
  intros Hv Hl He Hc m. destruct (node_written s node Hv Hl He) as (Hl' & He' & En).
  unfold m. split; [split; cbn [pm_pairedNodeId pm_pairingMode pm_candidate]; try done|].
  - intros text. rewrite En. intros [= <-]. by apply valid_text_of.
  - unfold view. cbn [pm_pairedNodeId pm_pairingMode pm_candidate]. by rewrite En.
Qed.

(** A state without a paired node. *)
Lemma unpaired_ok node mode c :
  length node = kNodeIdCapacity -> node !! (kNodeIdCapacity - 1)%nat = Some 0 ->
  nodeOf node = None -> zero_padded kNodeIdCapacity (pc_nodeId c) ->
  let m := mkPairingManager node mode c in
  pairing_ok m /\
  view m = mkPairingView None mode (if pc_available c then Some c else None).
Proof.
  intros Hl He En Hc m. unfold m. split; [split; cbn; try done|].
  - by rewrite En.
  - unfold view. cbn [pm_pairedNodeId pm_pairingMode pm_candidate]. by rewrite En.
Qed.

Lemma init_ok : pairing_ok PairingManager_init.
Proof. by apply (unpaired_ok (zeros kNodeIdCapacity) false PairingCandidate_init). Qed.

(** Every operation preserves the invariant and does what the specification
    says to the meaning of the state. *)
Lemma run_op_refines op m :
  pairing_ok m ->
  pairing_ok (snd (run_op op m)) /\
  (fst (run_op op m), view (snd (run_op op m))) = spec_step op (view m).
Proof.
  intros O. pose proof O as [Hl He Hn Hc Hs].
  pose proof (clear_keeps _ Hl He) as [Hl0 He0].
  destruct op; cbn [run_op spec_step].
  - unfold pairingBegin. destruct (nodeIdValid persistedNodeId) eqn:Ev; cbn [fst snd].
    + destruct persistedNodeId as [s|]; [|discriminate]. change (default [] (Some s)) with s.
      destruct (paired_ok s _ PairingCandidate_init Ev Hl0 He0) as [? ->]; [auto with gateway|].
      split; [done|]. cbn. by rewrite Ev.
    + rewrite validNode_None by done.
      destruct (unpaired_ok _ false PairingCandidate_init Hl0 He0) as [? ->];
        auto using nodeOf_clear with gateway.
  - unfold pairingStart. destruct (paired m) eqn:Ep; cbn [fst snd].
    + apply paired_view in Ep. by destruct (pv_node (view m)).
    + assert (nodeOf (pm_pairedNodeId m) = None) as En.
      { destruct (nodeOf (pm_pairedNodeId m)) eqn:E; [|done].
        rewrite <- not_true_iff_false, paired_view in Ep. cbn in Ep. rewrite E in Ep.
        by destruct Ep. }
      cbn [view pv_node]. rewrite En.
      destruct (unpaired_ok _ true PairingCandidate_init Hl He En) as [? ->];
        auto with gateway.
  - split; [|done]. split; cbn; auto with gateway. done.
  - unfold observe. cbn [view pv_searching pv_node].
    destruct (pm_pairingMode m) eqn:Em; cbn [negb fst snd]; [|done].
    split; [|done]. split; cbn; auto with gateway.
  - unfold confirmCandidate. cbn [view pv_searching pv_candidate pv_node].
    destruct (pm_pairingMode m); cbn [negb orb fst snd]; [|done].
    destruct (pc_available (pm_candidate m)) eqn:Ea; cbn [negb orb fst snd option_bind mbind];
      [|done].
    destruct (nodeIdValid (Some (pc_nodeId (pm_candidate m)))) eqn:Ev; cbn [negb fst snd].
    + rewrite setNode_strncpy by done. cbn. rewrite Ev.
      destruct (paired_ok _ _ (pm_candidate m) Ev Hl He Hc) as [? E]. split; [done|].
      cbn in E. by rewrite E, Ea.
    + cbn. rewrite Ev. split; [done|]. f_equal.
  - unfold pairManual. destruct (nodeIdValid nodeId) eqn:Ev; cbn [negb fst snd].
    + destruct nodeId as [s|]; [|discriminate]. change (default [] (Some s)) with s.
      rewrite setNode_strncpy by done. cbn. rewrite Ev.
      destruct (paired_ok s _ PairingCandidate_init Ev Hl He) as [? E]; [auto with gateway|].
      split; [done|]. cbn in E. by rewrite E.
    + by rewrite validNode_None.
  - unfold unpair. cbn [fst snd].
    destruct (unpaired_ok _ false PairingCandidate_init Hl0 He0) as [? ->];
      auto using nodeOf_clear with gateway.
Qed.

(** ** Histories *)

Fixpoint run_ops (ops : list PairingOp) (m : PairingManager)
  : list bool * PairingManager :=
  match ops with
  | [] => ([], m)
  | op :: ops =>
      let '(b, m) := run_op op m in
      let '(bs, m) := run_ops ops m in (b :: bs, m)
  end.

Fixpoint spec_ops (ops : list PairingOp) (v : PairingView) : list bool * PairingView :=
  match ops with
  | [] => ([], v)
  | op :: ops =>
      let '(b, v) := spec_step op v in
      let '(bs, v) := spec_ops ops v in (b :: bs, v)
  end.

Lemma run_ops_refines ops m :
  pairing_ok m ->
  pairing_ok (snd (run_ops ops m)) /\
  (fst (run_ops ops m), view (snd (run_ops ops m))) = spec_ops ops (view m).
Proof.
  revert m. induction ops as [|op ops IH]; intros m O; [done|]. cbn [run_ops spec_ops].
  destruct (run_op_refines op m O) as [O1 E1]. rewrite <- E1.
  destruct (run_op op m) as [b m1]. cbn [fst snd] in *.
  destruct (IH m1 O1) as [O2 E2]. rewrite <- E2. by destruct (run_ops ops m1).
Qed.

Lemma matches_view m id :
  pairingMatches id m = true <->
  exists s, id = Some s /\ pv_node (view m) = Some (c_text kNodeIdCapacity s).
Proof.
  unfold pairingMatches. rewrite andb_true_iff, paired_view.
  cbn [view pv_node]. unfold nodeOf. split.
  - intros [Hp Hm]. destruct id as [s|]; [|discriminate]. exists s. split; [done|].
    apply Z.eqb_eq, strncmp_eq in Hm. case_bool_decide; [done|]. by rewrite Hm.
  - intros (s & -> & E). case_bool_decide; [discriminate|]. split; [done|].
    apply Z.eqb_eq, strncmp_eq. by injection E.
Qed.

(** ** Properties *)

(** C22: from a fresh manager on, any sequence of operations does to the paired
    node, the search and the candidate exactly what the specification says (a
    node is paired by its valid text only, a search needs no node to be paired,
    only a search observes candidates, confirming takes the last candidate), with
    the answers it says; the stored array always ends in NUL and names a valid
    node or none, and no node is ever paired while one is sought. *)
Theorem pairing_refines ops :
  let '(answers, m) := run_ops ops PairingManager_init in
  (answers, view m) = spec_ops ops (mkPairingView None false None) /\ pairing_ok m /\
  (forall id, pairingMatches id m = true <->
     exists s, id = Some s /\ pv_node (view m) = Some (c_text kNodeIdCapacity s)).
Proof.
  destruct (run_ops_refines ops PairingManager_init init_ok) as [O E].
  destruct (run_ops ops PairingManager_init) as [answers m]. cbn [fst snd] in *.
  split_and!; [exact E|done|]. intros id. apply matches_view.
Qed.

(** A node becomes the paired one only when it is named: by the persisted
    identifier at start-up, by hand, or by confirming the candidate that the
    search in progress has observed; in particular no packet changes the
    pairing. *)
Theorem pairing_explicit op m id :
  pairing_ok m -> pairingMatches (Some id) (snd (run_op op m)) = true ->
  pairingMatches (Some id) m = true \/
  exists named,
    (op = OpBegin (Some named) \/ op = OpManual (Some named) \/
     op = OpConfirm /\ pm_pairingMode m = true /\ pc_available (pm_candidate m) = true /\
     named = pc_nodeId (pm_candidate m)) /\
    nodeIdValid (Some named) = true /\ c_text kNodeIdCapacity id = c_text kNodeIdCapacity named.
Proof.
  intros O. destruct (run_op_refines op m O) as [_ E]. rewrite !matches_view.
  intros (s & [= <-] & Hn). apply (f_equal (fun x => pv_node (snd x))) in E. cbn [snd] in E.
  rewrite Hn in E. symmetry in E. destruct op; cbn [spec_step snd] in E.
  - apply validNode_Some in E as (s & -> & ? & ?). right. exists s. auto.
  - destruct (pv_node (view m)) eqn:Ev; [|discriminate]. left. exists id. split; [done|rewrite <- Ev; exact E].
  - left. eauto.
  - left. exists id. split; [done|]. by destruct (pv_searching (view m)).
  - destruct (if pv_searching (view m) then _ else _) as [text|] eqn:Ec; cbn in E; [|eauto].
    destruct (pv_searching (view m)) eqn:Es; [|discriminate].
    apply bind_Some in Ec as (c & Ec & (s & [= <-] & Hv & Et)%validNode_Some). right.
    exists (pc_nodeId c). injection E as ->. cbn in Ec, Es.
    destruct (pc_available (pm_candidate m)) eqn:Ea; [|discriminate]. injection Ec as <-.
    split_and!; [|done|done]. right. right. auto.
  - destruct (validNode nodeId) as [text|] eqn:Ev; cbn in E; [|eauto].
    injection E as ->. apply validNode_Some in Ev as (s & -> & ? & ?). right. exists s. auto.
  - discriminate.
Qed.

(** A search that has seen a node, and its confirmation. *)
Definition sampleSearch : PairingManager :=
  snd (run_ops
    [OpStart; OpObserve (TelemetryPacket_init
       <| tp_nodeId := strncpy (zeros 25) (chars "node-7") 24 |>) 0 0 5]
    PairingManager_init).

Lemma pairing_explicit_witness :
  pairingMatches (Some (chars "node-7")) (snd (run_op OpConfirm sampleSearch)) = true /\
  exists named, nodeIdValid (Some named) = true /\
    c_text kNodeIdCapacity (chars "node-7") = c_text kNodeIdCapacity named.
Proof.
  assert (pairingMatches (Some (chars "node-7")) (snd (run_op OpConfirm sampleSearch)) = true)
    as E by (vm_compute; reflexivity).
  split; [exact E|].
  destruct (pairing_explicit OpConfirm sampleSearch (chars "node-7")) as [Ec|(named & _ & H)].
  - exact (proj1 (run_ops_refines _ _ init_ok)).
  - exact E.
  - vm_compute in Ec. discriminate.
  - exists named. exact H.
Defined.
