(* ===== verification/CommandStore.v ===== *)
(** * The command store (lib/commands/command_store)

    [CommandStore]: the one command for the paired node, kept in RAM and in a
    persistent backend.  The bytes of a record in memory and their number are
    the compiler's: [object_bytes] gives the bytes in front of the checksum and
    [sizeof_record] the size of the structure. *)

From Stdlib Require Import ZArith Lia String.
From S2P Require Import Prelude BuildConfig CString Protocol.
Open Scope Z_scope.

(** ** Data *)

Definition kCommandStoreMagic : Z := 0x47574332.
Definition kCommandStoreSchema : Z := 1.

Module CommandState.
Inductive t :=
  | kNone | kPending | kSent | kConfirmed | kFailed | kCancelled | unnamed (v : Z).
#[export] Instance enum : Enum t := {
  to_u8 e := match e with
    | kNone => 0 | kPending => 1 | kSent => 2 | kConfirmed => 3 | kFailed => 4
    | kCancelled => 5 | unnamed v => v end;
  of_u8 v := if v =? 0 then kNone else if v =? 1 then kPending else if v =? 2 then kSent
    else if v =? 3 then kConfirmed else if v =? 4 then kFailed
    else if v =? 5 then kCancelled else unnamed v;
}.
#[export] Instance laws : EnumLaws t.
Proof. solve_enum_laws. Qed.
#[export] Instance t_eq_dec : EqDecision t.
Proof. solve_decision. Defined.
End CommandState.
Export (hints) CommandState.

Record GatewayCommand := mkGatewayCommand {
  gc_commandId : Z;
  gc_type : CommandType.t;
  gc_state : CommandState.t;
  gc_pollIntervalMinutes : Z;
  gc_scheduledMaintenanceUnix : Z;
  gc_createdUnixMs : Z;
  gc_lastSentUnixMs : Z;
  gc_sendCount : Z;
  gc_result : CommandResultCode.t;
  gc_effectivePollIntervalMinutes : Z;
  gc_effectiveMaintenanceUnix : Z;
}.

Definition GatewayCommand_init : GatewayCommand :=
  mkGatewayCommand 0 CommandType.kNone CommandState.kNone 0 0 (-1) (-1) 0
    CommandResultCode.kNone 0 0.

Record CommandStoreRecord := mkCommandStoreRecord {
  sr_magic : Z;
  sr_schemaVersion : Z;
  sr_structureSize : Z;
  sr_nextCommandId : Z;
  sr_command : GatewayCommand;
  sr_checksum : Z;
}.

Definition CommandStoreRecord_init : CommandStoreRecord :=
  mkCommandStoreRecord kCommandStoreMagic kCommandStoreSchema 0 1 GatewayCommand_init 0.

(** The object after [memset(&record, 0, sizeof(record))]. *)
Definition CommandStoreRecord_zero : CommandStoreRecord :=
  mkCommandStoreRecord 0 0 0 0
    (mkGatewayCommand 0 (of_u8 0) (of_u8 0) 0 0 0 0 0 (of_u8 0) 0 0) 0.

(** The persistent backend, over its state. *)
Class CommandBackend (B : Type) := {
  backend_load : B -> option CommandStoreRecord * B;
  backend_save : CommandStoreRecord -> B -> bool * B;
}.

(** [cs_mutex]: the mutex exists (a lock on it is then always obtained);
    [cs_backend]: [backend_] is set. *)
Record CommandStore := mkCommandStore {
  cs_mutex : bool;
  cs_backend : bool;
  cs_record : CommandStoreRecord;
  cs_lastError : string;
}.

Definition CommandStore_init : CommandStore :=
  mkCommandStore false false CommandStoreRecord_init "not initialized".

Definition setError (e : string) (cs : CommandStore) : CommandStore :=
  mkCommandStore (cs_mutex cs) (cs_backend cs) (cs_record cs) e.

Definition setRecord (r : CommandStoreRecord) (cs : CommandStore) : CommandStore :=
  mkCommandStore (cs_mutex cs) (cs_backend cs) r (cs_lastError cs).

(** The command is still to be confirmed: pending or sent. *)
Definition outstanding (c : GatewayCommand) : bool :=
  enum_eqb (gc_state c) CommandState.kPending || enum_eqb (gc_state c) CommandState.kSent.

Definition withChecksum (checksum : Z) (r : CommandStoreRecord) : CommandStoreRecord :=
  mkCommandStoreRecord (sr_magic r) (sr_schemaVersion r) (sr_structureSize r)
    (sr_nextCommandId r) (sr_command r) checksum.

Definition withCommand (c : GatewayCommand) (r : CommandStoreRecord) : CommandStoreRecord :=
  mkCommandStoreRecord (sr_magic r) (sr_schemaVersion r) (sr_structureSize r)
    (sr_nextCommandId r) c (sr_checksum r).

Definition commandStateName (state : CommandState.t) : string :=
  match state with
  | CommandState.kNone => "NONE"
  | CommandState.kPending => "PENDING"
  | CommandState.kSent => "SENT"
  | CommandState.kConfirmed => "CONFIRMED"
  | CommandState.kFailed => "FAILED"
  | CommandState.kCancelled => "CANCELLED"
  | CommandState.unnamed _ => "UNKNOWN"
  end.

(** ** Operations *)

Section Operations.
Context (object_bytes : CommandStoreRecord -> list Z) (sizeof_record : Z).
Context {B : Type} `{CommandBackend B}.

(** FNV-1a over the bytes in front of the checksum. *)
Definition fnvStep (hash byte : Z) : Z := wrap 32 (Z.lxor hash byte * 16777619).

Definition checksum (record : CommandStoreRecord) : Z :=
  foldl fnvStep 2166136261 (object_bytes record).

Definition initialize : CommandStoreRecord :=
  let z := CommandStoreRecord_zero in
  let c := sr_command z in
  let record := mkCommandStoreRecord kCommandStoreMagic kCommandStoreSchema
    (wrap 16 sizeof_record) 1
    (mkGatewayCommand (gc_commandId c) (gc_type c) (gc_state c)
       (gc_pollIntervalMinutes c) (gc_scheduledMaintenanceUnix c) (-1) (-1)
       (gc_sendCount c) CommandResultCode.kNone (gc_effectivePollIntervalMinutes c)
       (gc_effectiveMaintenanceUnix c)) (sr_checksum z) in
  withChecksum (checksum record) record.

Definition valid (r : CommandStoreRecord) : bool :=
  (sr_magic r =? kCommandStoreMagic) && (sr_schemaVersion r =? kCommandStoreSchema) &&
  (sr_structureSize r =? sizeof_record) && negb (sr_nextCommandId r =? 0) &&
  (to_u8 (gc_type (sr_command r)) <=? to_u8 CommandType.kSetPollIntervalMinutes) &&
  (to_u8 (gc_state (sr_command r)) <=? to_u8 CommandState.kCancelled) &&
  (enum_eqb (gc_result (sr_command r)) CommandResultCode.kNone ||
   (to_u8 (gc_result (sr_command r)) <=? to_u8 CommandResultCode.kInternalError)) &&
  (sr_checksum r =? checksum r).

(** [created]: the outcome of [xSemaphoreCreateMutex], when it is called. *)
Definition storeBegin (created : bool) (cs : CommandStore) (b : B) (initializedFresh : bool)
  : bool * bool * CommandStore * B :=
  let mutex := cs_mutex cs || created in
  let cs := mkCommandStore mutex (cs_backend cs) (cs_record cs) (cs_lastError cs) in
  if negb mutex
  then (false, initializedFresh,
        setError "command state mutex initialization failed" cs, b)
  else
    let cs := mkCommandStore (cs_mutex cs) true (cs_record cs) (cs_lastError cs) in
    let '(loaded, b) := backend_load b in
    match (match loaded with
           | Some r => if valid r then Some r else None
           | None => None
           end) with
    | Some r => (true, false, setError "command state loaded" (setRecord r cs), b)
    | None =>
        let cs := setRecord initialize cs in
        let '(saved, b) := backend_save (cs_record cs) b in
        if negb saved
        then (false, true,
              setError "command state initialization write failed" cs, b)
        else (true, true, setError "command state initialized" cs, b)
    end.

Definition commit (candidate : CommandStoreRecord) (cs : CommandStore) (b : B)
  : bool * CommandStore * B :=
  if negb (cs_backend cs) then (false, cs, b) else
  let candidate := withChecksum (checksum candidate) candidate in
  let '(saved, b) := backend_save candidate b in
  if negb saved then (false, setError "command state persistence failed" cs, b)
  else (true, setRecord candidate cs, b).

(** [if (!commit(candidate)) return false; lastError_ = done;]. *)
Definition commitNoting (done : string) (candidate : CommandStoreRecord)
    (cs : CommandStore) (b : B) : bool * CommandStore * B :=
  let '(ok, cs, b) := commit candidate cs b in
  if negb ok then (false, cs, b) else (true, setError done cs, b).

Definition create (type : CommandType.t) (pollIntervalMinutes scheduledMaintenanceUnix
    createdUnixMs commandId : Z) (cs : CommandStore) (b : B)
  : bool * Z * CommandStore * B :=
  if negb (cs_mutex cs) then (false, commandId, cs, b) else
  let r := cs_record cs in
  if enum_eqb type CommandType.kNone || (sr_nextCommandId r =? UINT32_MAX) ||
     outstanding (sr_command r)
  then (false, 0, setError "a command is already pending or arguments are invalid" cs, b)
  else if (enum_eqb type CommandType.kSetPollIntervalMinutes && (pollIntervalMinutes =? 0)) ||
          (enum_eqb type CommandType.kScheduleMaintenanceAt &&
           (scheduledMaintenanceUnix =? 0))
  then (false, 0, setError "command payload is invalid" cs, b)
  else
    let command := mkGatewayCommand (sr_nextCommandId r) type CommandState.kPending
      pollIntervalMinutes scheduledMaintenanceUnix createdUnixMs (-1) 0
      CommandResultCode.kNone 0 0 in
    let candidate := mkCommandStoreRecord (sr_magic r) (sr_schemaVersion r)
      (sr_structureSize r) (wrap 32 (sr_nextCommandId r + 1)) command (sr_checksum r) in
    let '(ok, cs, b) := commit candidate cs b in
    if negb ok then (false, 0, cs, b)
    else (true, gc_commandId command,
          setError "command created and allocator persisted" cs, b).

Definition markSent (commandId sentUnixMs : Z) (cs : CommandStore) (b : B)
  : bool * CommandStore * B :=
  if negb (cs_mutex cs) then (false, cs, b) else
  let r := cs_record cs in
  let c := sr_command r in
  if (commandId =? 0) || negb (commandId =? gc_commandId c) || negb (outstanding c)
  then (false, cs, b)
  else
    commitNoting "command send recorded"
      (withCommand (mkGatewayCommand (gc_commandId c) (gc_type c) CommandState.kSent
         (gc_pollIntervalMinutes c) (gc_scheduledMaintenanceUnix c) (gc_createdUnixMs c)
         sentUnixMs (wrap 32 (gc_sendCount c + 1)) (gc_result c)
         (gc_effectivePollIntervalMinutes c) (gc_effectiveMaintenanceUnix c)) r) cs b.

(** The first component is the answer, the second the output [duplicate]. *)
Definition confirm (result : CommandResultPacket) (duplicate : bool) (cs : CommandStore)
    (b : B) : bool * bool * CommandStore * B :=
  if negb (cs_mutex cs) then (false, duplicate, cs, b) else
  let r := cs_record cs in
  let c := sr_command r in
  if (cr_commandId result =? 0) || negb (cr_commandId result =? gc_commandId c) ||
     negb (enum_eqb (cr_commandType result) (gc_type c))
  then (false, false, setError "command result does not match current command" cs, b)
  else if enum_eqb (gc_state c) CommandState.kConfirmed then (true, true, cs, b)
  else if negb (outstanding c) then (false, false, cs, b)
  else
    let '(ok, cs, b) :=
      commitNoting "matching command result confirmed"
        (withCommand (mkGatewayCommand (gc_commandId c) (gc_type c)
           CommandState.kConfirmed (gc_pollIntervalMinutes c)
           (gc_scheduledMaintenanceUnix c) (gc_createdUnixMs c) (gc_lastSentUnixMs c)
           (gc_sendCount c) (cr_resultCode result)
           (cr_effectivePollIntervalMinutes result)
           (cr_scheduledMaintenanceUnix result)) r) cs b in
    (ok, false, cs, b).

Definition cancel (commandId : Z) (cs : CommandStore) (b : B) : bool * CommandStore * B :=
  if negb (cs_mutex cs) then (false, cs, b) else
  let r := cs_record cs in
  let c := sr_command r in
  if (commandId =? 0) || negb (commandId =? gc_commandId c) || negb (outstanding c)
  then (false, cs, b)
  else
    commitNoting "command cancelled"
      (withCommand (mkGatewayCommand (gc_commandId c) (gc_type c) CommandState.kCancelled
         (gc_pollIntervalMinutes c) (gc_scheduledMaintenanceUnix c) (gc_createdUnixMs c)
         (gc_lastSentUnixMs c) (gc_sendCount c) (gc_result c)
         (gc_effectivePollIntervalMinutes c) (gc_effectiveMaintenanceUnix c)) r) cs b.

Definition pendingForAck (cs : CommandStore) : option GatewayCommand :=
  if negb (cs_mutex cs) then None
  else if outstanding (sr_command (cs_record cs)) then Some (sr_command (cs_record cs))
  else None.

Definition current (cs : CommandStore) : GatewayCommand :=
  if negb (cs_mutex cs) then GatewayCommand_init else sr_command (cs_record cs).

Definition nextCommandId (cs : CommandStore) : Z :=
  if negb (cs_mutex cs) then 0 else sr_nextCommandId (cs_record cs).

End Operations.

#[global] Arguments checksum : simpl never.
#[global] Arguments outstanding : simpl never.
