(* ===== verification/CommandStoreSpec.v ===== *)
(** * What the command store promises

    [lifecycle]: the moves a command may make.  [store_ok]: RAM and the backend
    each hold a valid record, the same one except after a start that could
    neither load nor save.  Every operation either makes a move, and stores it,
    or changes neither record; a start takes the record the backend answers, or
    begins afresh when it answers none. *)

From Stdlib Require Import ZArith Lia String.
From S2P Require Import Prelude BuildConfig CString Protocol CommandStore.
Open Scope Z_scope.

(** ** Typed records *)

Record command_typed (c : GatewayCommand) : Prop := {
  ct_id : is_u 32 (gc_commandId c);
  ct_type : enum_ok (gc_type c);
  ct_state : enum_ok (gc_state c);
  ct_result : enum_ok (gc_result c);
  ct_poll : is_u 8 (gc_pollIntervalMinutes c);
  ct_scheduled : is_u 32 (gc_scheduledMaintenanceUnix c);
}.

Record store_typed (r : CommandStoreRecord) : Prop := {
  st_next : is_u 32 (sr_nextCommandId r);
  st_command : command_typed (sr_command r);
}.

Class CommandBackendLaws (B : Type) `{CommandBackend B} := {
  persisted : B -> option CommandStoreRecord;
  load_keeps b o b' : backend_load b = (o, b') -> persisted b' = persisted b;
  load_found b r b' : backend_load b = (Some r, b') -> persisted b = Some r;
  load_typed b r b' : backend_load b = (Some r, b') -> store_typed r;
  save_done b r b' :
    store_typed r -> backend_save r b = (true, b') -> persisted b' = Some r;
  save_failed b r b' : backend_save r b = (false, b') -> persisted b' = persisted b;
}.

(** ** The life of a command *)

Inductive CommandOp :=
  | OpCreate (type : CommandType.t) (poll scheduled created : Z)
  | OpMarkSent (id sentUnixMs : Z)
  | OpConfirm (result : CommandResultPacket)
  | OpCancel (id : Z)
  | OpRestart.

(** The identifier to give next, and the current command. *)
Abbreviation CommandView := (Z * GatewayCommand)%type.

Definition recordView (r : CommandStoreRecord) : CommandView :=
  (sr_nextCommandId r, sr_command r).

Definition commandView (cs : CommandStore) : CommandView := recordView (cs_record cs).

Definition matching (result : CommandResultPacket) (c : GatewayCommand) : Prop :=
  cr_commandId result <> 0 /\ cr_commandId result = gc_commandId c /\
  to_u8 (cr_commandType result) = to_u8 (gc_type c).

Inductive lifecycle : CommandOp -> CommandView -> CommandView -> Prop :=
  | life_created type poll scheduled created next c :
      outstanding c = false -> next < UINT32_MAX -> to_u8 type <> 0 ->
      (to_u8 type = 3 -> poll <> 0) -> (to_u8 type = 2 -> scheduled <> 0) ->
      lifecycle (OpCreate type poll scheduled created) (next, c)
        (next + 1, mkGatewayCommand next type CommandState.kPending poll scheduled created
                     (-1) 0 CommandResultCode.kNone 0 0)
  | life_sent id sentUnixMs next c c' :
      outstanding c = true -> id <> 0 -> id = gc_commandId c ->
      c' = mkGatewayCommand (gc_commandId c) (gc_type c) CommandState.kSent
             (gc_pollIntervalMinutes c) (gc_scheduledMaintenanceUnix c)
             (gc_createdUnixMs c) sentUnixMs (wrap 32 (gc_sendCount c + 1)) (gc_result c)
             (gc_effectivePollIntervalMinutes c) (gc_effectiveMaintenanceUnix c) ->
      lifecycle (OpMarkSent id sentUnixMs) (next, c) (next, c')
  | life_confirmed result next c c' :
      outstanding c = true -> matching result c ->
      c' = mkGatewayCommand (gc_commandId c) (gc_type c) CommandState.kConfirmed
             (gc_pollIntervalMinutes c) (gc_scheduledMaintenanceUnix c)
             (gc_createdUnixMs c) (gc_lastSentUnixMs c) (gc_sendCount c)
             (cr_resultCode result) (cr_effectivePollIntervalMinutes result)
             (cr_scheduledMaintenanceUnix result) ->
      lifecycle (OpConfirm result) (next, c) (next, c')
  | life_confirmed_again result next c :
      gc_state c = CommandState.kConfirmed -> matching result c ->
      lifecycle (OpConfirm result) (next, c) (next, c)
  | life_cancelled id next c c' :
      outstanding c = true -> id <> 0 -> id = gc_commandId c ->
      c' = mkGatewayCommand (gc_commandId c) (gc_type c) CommandState.kCancelled
             (gc_pollIntervalMinutes c) (gc_scheduledMaintenanceUnix c)
             (gc_createdUnixMs c) (gc_lastSentUnixMs c) (gc_sendCount c) (gc_result c)
             (gc_effectivePollIntervalMinutes c) (gc_effectiveMaintenanceUnix c) ->
      lifecycle (OpCancel id) (next, c) (next, c').

(** The values an operation is called with. *)
Definition op_typed (op : CommandOp) : Prop :=
  match op with
  | OpCreate type poll scheduled _ =>
      enum_ok type /\ to_u8 type <= 3 /\ is_u 8 poll /\ is_u 32 scheduled
  | OpConfirm result =>
      enum_ok (cr_commandType result) /\ enum_ok (cr_resultCode result) /\
      (to_u8 (cr_resultCode result) <= 7)
  | _ => True
  end.

(** Whatever the backend does, the record in RAM stays typed. *)
Section Typed.
Context (object_bytes : CommandStoreRecord -> list Z).
Context {B : Type} `{CommandBackend B}.

Abbreviation ram_typed cs := (store_typed (cs_record cs)).

Lemma commitNoting_typed done candidate cs b ok cs' (b' : B) :
  ram_typed cs -> store_typed candidate ->
  commitNoting object_bytes done candidate cs b = (ok, cs', b') -> ram_typed cs'.
Proof.
  intros T [Tn Tc] E. unfold commitNoting, commit in E.
  destruct (cs_backend cs); cbn [negb] in E; [|by injection E as <- <- <-].
  destruct (backend_save _ b) as [[] b1]; cbn [negb] in E; injection E as <- <- <-; [|done].
  by split.
Qed.

Lemma markSent_typed id sentUnixMs cs b ok cs' (b' : B) :
  ram_typed cs -> markSent object_bytes id sentUnixMs cs b = (ok, cs', b') -> ram_typed cs'.
Proof.
  intros T E. unfold markSent in E.
  destruct (cs_mutex cs); cbn [negb] in E; [|by injection E as <- <- <-].
  destruct (_ || _); [by injection E as <- <- <-|].
  eapply commitNoting_typed; [exact T| |exact E]. destruct T as [Tn []].
  split; [done|]. split; try done; solve_enum_ok.
Qed.

Lemma confirm_typed result duplicate cs b ok duplicate' cs' (b' : B) :
  ram_typed cs -> enum_ok (cr_resultCode result) ->
  confirm object_bytes result duplicate cs b = (ok, duplicate', cs', b') -> ram_typed cs'.
Proof.
  intros T Hr E. unfold confirm in E.
  destruct (cs_mutex cs); cbn [negb] in E; [|by injection E as <- <- <- <-].
  destruct (_ || _ || _); [by injection E as <- <- <- <-|].
  destruct (enum_eqb _ _); [by injection E as <- <- <- <-|].
  destruct (outstanding _); cbn [negb] in E; [|by injection E as <- <- <- <-].
  destruct (commitNoting _ _ _ cs b) as [[ok1 cs1] b1] eqn:Ec. injection E as <- <- <- <-.
  eapply commitNoting_typed; [exact T| |exact Ec]. destruct T as [Tn []].
  split; [done|]. split; try done; solve_enum_ok.
Qed.
End Typed.

(** ** Records *)

Section Spec.
Context (object_bytes : CommandStoreRecord -> list Z) (sizeof_record : Z).
(** The bytes in front of the checksum do not depend on it. *)
Context (bytes_before : forall v r, object_bytes (withChecksum v r) = object_bytes r).
(** The size of the structure fits the field that stores it. *)
Context (size_fits : is_u 16 sizeof_record).
Context {B : Type} `{CommandBackendLaws B}.

Abbreviation validRecord := (valid object_bytes sizeof_record).

Lemma checksum_withChecksum v r :
  checksum object_bytes (withChecksum v r) = checksum object_bytes r.
Proof. unfold checksum. by rewrite bytes_before. Qed.

(** The part of validity that is not the checksum. *)
Record fields_valid (r : CommandStoreRecord) : Prop := {
  fv_magic : sr_magic r = kCommandStoreMagic;
  fv_schema : sr_schemaVersion r = kCommandStoreSchema;
  fv_size : sr_structureSize r = sizeof_record;
  fv_next : sr_nextCommandId r <> 0;
  fv_type : to_u8 (gc_type (sr_command r)) <= 3;
  fv_state : to_u8 (gc_state (sr_command r)) <= 5;
  fv_result : to_u8 (gc_result (sr_command r)) = 255 \/ to_u8 (gc_result (sr_command r)) <= 7;
}.

Lemma valid_spec r :
  validRecord r = true <-> fields_valid r /\ sr_checksum r = checksum object_bytes r.
Proof.
  unfold valid, enum_eqb. enum_codes.
  rewrite !andb_true_iff, orb_true_iff, negb_true_iff, !Z.eqb_eq, Z.eqb_neq, !Z.leb_le.
  split.
  - intros (((((((? & ?) & ?) & ?) & ?) & ?) & ?) & ?). by split; [split|].
  - intros [[] ?]. tauto.
Qed.

(** A valid record is what it says of the command: the rest follows. *)
Lemma recordView_inj r r' :
  validRecord r = true -> validRecord r' = true -> recordView r = recordView r' -> r = r'.
Proof.
  intros [F E]%valid_spec [F' E']%valid_spec Ev.
  assert (withChecksum 0 r = withChecksum 0 r') as E0.
  { unfold withChecksum. unfold recordView in Ev. injection Ev as -> ->.
    by rewrite (fv_magic _ F), (fv_magic _ F'), (fv_schema _ F), (fv_schema _ F'),
      (fv_size _ F), (fv_size _ F'). }
  assert (sr_checksum r = sr_checksum r') as Ec.
  { by rewrite E, E', <- (checksum_withChecksum 0 r), E0, checksum_withChecksum. }
  destruct r, r'. unfold withChecksum in E0. cbn in *. congruence.
Qed.

Lemma sealed_valid r :
  fields_valid r -> validRecord (withChecksum (checksum object_bytes r) r) = true.
Proof.
  intros []. apply valid_spec. split; [by split|]. symmetry. apply checksum_withChecksum.
Qed.

Lemma initialize_fields : fields_valid (initialize object_bytes sizeof_record).
Proof.
  split; [reflexivity|reflexivity|by apply wrap_id|done|by vm_compute|by vm_compute|].
  left. by vm_compute.
Qed.

Lemma initialize_valid : validRecord (initialize object_bytes sizeof_record) = true.
Proof.
  apply valid_spec. split; [apply initialize_fields|]. unfold initialize. cbn [sr_checksum].
  by rewrite checksum_withChecksum.
Qed.

Lemma initialize_typed : store_typed (initialize object_bytes sizeof_record).
Proof. split; [by vm_compute|]. split; cbn; try solve_enum_ok; by vm_compute. Qed.

(** ** The invariant *)

Record store_ok (cs : CommandStore) (b : B) : Prop := {
  so_mutex : cs_mutex cs = true;
  so_backend : cs_backend cs = true;
  so_typed : store_typed (cs_record cs);
  so_valid : validRecord (cs_record cs) = true;
  so_stored : exists r, persisted b = Some r /\ store_typed r /\ validRecord r = true;
  so_apart : persisted b = Some (cs_record cs) \/
    cs_record cs = initialize object_bytes sizeof_record;
}.

(** What an operation that answers [ok] leaves in the backend. *)
Definition tracked (ok : bool) (b : B) (cs' : CommandStore) (b' : B) : Prop :=
  persisted b' = if ok then Some (cs_record cs') else persisted b.

Lemma store_ok_error e cs b : store_ok cs b -> store_ok (setError e cs) b.
Proof. intros []. by split. Qed.

Lemma store_ok_stored cs b r :
  cs_mutex cs = true -> cs_backend cs = true -> cs_record cs = r -> store_typed r ->
  validRecord r = true -> persisted b = Some r -> store_ok cs b.
Proof. intros ? ? <- ? ? E. split; try done; [by exists (cs_record cs)|by left]. Qed.

Lemma store_ok_backend cs b b' :
  store_ok cs b -> persisted b' = persisted b -> store_ok cs b'.
Proof. intros [] E. split; by rewrite ?E. Qed.

(** A store whose command is confirmed agrees with its backend. *)
Lemma confirmed_in_step cs b :
  store_ok cs b -> gc_state (sr_command (cs_record cs)) = CommandState.kConfirmed ->
  persisted b = Some (cs_record cs).
Proof. intros C E. destruct (so_apart _ _ C) as [->|Ei]; [done|]. by rewrite Ei in E. Qed.

(** Committing: both copies move, or neither. *)
Lemma commit_spec candidate cs b ok cs' b' :
  store_ok cs b -> store_typed candidate -> fields_valid candidate ->
  commit object_bytes candidate cs b = (ok, cs', b') ->
  store_ok cs' b' /\ tracked ok b cs' b' /\
  cs_record cs' = (if ok then withChecksum (checksum object_bytes candidate) candidate
                   else cs_record cs).
Proof.
  intros C Tc Fc E. unfold commit in E. rewrite (so_backend _ _ C) in E. cbn [negb] in E.
  destruct (backend_save _ b) as [saved b1] eqn:Es.
  assert (store_typed (withChecksum (checksum object_bytes candidate) candidate)) as Tc'
    by (destruct Tc; by split).
  destruct saved; cbn [negb] in E; injection E as <- <- <-.
  - apply save_done in Es; [|done]. split_and!; [|done..].
    eapply store_ok_stored; [apply C|apply C|reflexivity|done|by apply sealed_valid|done].
  - apply save_failed in Es. split_and!; [|done..].
    by apply store_ok_error, (store_ok_backend cs b).
Qed.

Lemma commitNoting_spec done candidate cs b ok cs' b' :
  store_ok cs b -> store_typed candidate -> fields_valid candidate ->
  commitNoting object_bytes done candidate cs b = (ok, cs', b') ->
  store_ok cs' b' /\ tracked ok b cs' b' /\
  cs_record cs' = (if ok then withChecksum (checksum object_bytes candidate) candidate
                   else cs_record cs).
Proof.
  intros C Tc Fc E. unfold commitNoting in E.
  destruct (commit object_bytes candidate cs b) as [[ok1 cs1] b1] eqn:Ec.
  apply commit_spec in Ec as (C1 & Et & Er); [|assumption..].
  destruct ok1; cbn [negb] in E; injection E as <- <- <-; auto using store_ok_error.
Qed.

(** A command in place of the current one. *)
Lemma withCommand_ok r c :
  store_typed r -> fields_valid r -> command_typed c ->
  to_u8 (gc_type c) <= 3 -> to_u8 (gc_state c) <= 5 ->
  to_u8 (gc_result c) = 255 \/ to_u8 (gc_result c) <= 7 ->
  store_typed (withCommand c r) /\ fields_valid (withCommand c r).
Proof. intros [] [] ? ? ? ?. split; by split. Qed.

(** ** Runs *)

(** What an operation answers: of a start, also whether it began afresh and
    whether the backend answered its load. *)
Record CommandAnswer := mkCommandAnswer {
  an_ok : bool;
  an_id : Z;
  an_duplicate : bool;
  an_fresh : bool;
  an_loaded : bool;
}.

Definition answer_of (ok : bool) (id : Z) (duplicate : bool) : CommandAnswer :=
  mkCommandAnswer ok id duplicate false false.

(** One operation; a restart begins a fresh store on the same backend. *)
Definition run_command (op : CommandOp) (cs : CommandStore) (b : B)
  : CommandAnswer * CommandStore * B :=
  match op with
  | OpCreate type poll scheduled created =>
      let '(ok, id, cs, b) := create object_bytes type poll scheduled created 0 cs b in
      (answer_of ok id false, cs, b)
  | OpMarkSent id sentUnixMs =>
      let '(ok, cs, b) := markSent object_bytes id sentUnixMs cs b in
      (answer_of ok 0 false, cs, b)
  | OpConfirm result =>
      let '(ok, duplicate, cs, b) := confirm object_bytes result false cs b in
      (answer_of ok 0 duplicate, cs, b)
  | OpCancel id =>
      let '(ok, cs, b) := cancel object_bytes id cs b in
      (answer_of ok 0 false, cs, b)
  | OpRestart =>
      let loaded := bool_decide (is_Some (fst (backend_load b))) in
      let '(ok, fresh, cs, b) :=
        storeBegin object_bytes sizeof_record true CommandStore_init b false in
      (mkCommandAnswer ok 0 false fresh loaded, cs, b)
  end.

(** What a refused operation leaves. *)
Lemma refused cs b (cs' : CommandStore) (b' : B) :
  store_ok cs b -> cs' = cs \/ (exists e, cs' = setError e cs) -> b' = b ->
  store_ok cs' b' /\ tracked false b cs' b' /\ cs_record cs' = cs_record cs.
Proof. intros C [->|[e ->]] ->; split_and!; done || by apply store_ok_error. Qed.

Lemma outstanding_spec c :
  outstanding c = true <-> to_u8 (gc_state c) = 1 \/ to_u8 (gc_state c) = 2.
Proof. unfold outstanding, enum_eqb. enum_codes. by rewrite orb_true_iff, !Z.eqb_eq. Qed.

Lemma matching_spec result c :
  (cr_commandId result =? 0) || negb (cr_commandId result =? gc_commandId c) ||
    negb (enum_eqb (cr_commandType result) (gc_type c)) = false <-> matching result c.
Proof.
  unfold enum_eqb, matching.
  rewrite !orb_false_iff, !negb_false_iff, Z.eqb_neq, !Z.eqb_eq. tauto.
Qed.

Lemma named_spec id c :
  (id =? 0) || negb (id =? gc_commandId c) || negb (outstanding c) = false <->
  id <> 0 /\ id = gc_commandId c /\ outstanding c = true.
Proof. rewrite !orb_false_iff, !negb_false_iff, Z.eqb_neq, Z.eqb_eq. tauto. Qed.

Lemma create_step type poll scheduled created cs b ok id cs' b' :
  store_ok cs b -> op_typed (OpCreate type poll scheduled created) ->
  create object_bytes type poll scheduled created 0 cs b = (ok, id, cs', b') ->
  store_ok cs' b' /\ tracked ok b cs' b' /\
  if ok then lifecycle (OpCreate type poll scheduled created) (commandView cs)
               (commandView cs') /\ id = sr_nextCommandId (cs_record cs)
  else cs_record cs' = cs_record cs /\ id = 0.
Proof.
  intros C (Ht & H3 & Hpoll & Hsch) E. unfold create in E. rewrite (so_mutex _ _ C) in E. cbn [negb] in E.
  unfold enum_eqb in E. enum_codes.
  destruct ((to_u8 type =? 0) || _ || _) eqn:G1.
  { injection E as <- <- <- <-. split_and!; [by apply store_ok_error|done..]. }
  destruct ((_ && _) || _) eqn:G2.
  { injection E as <- <- <- <-. split_and!; [by apply store_ok_error|done..]. }
  destruct (commit _ _ cs b) as [[ok1 cs1] b1] eqn:Ec.
  pose proof C as [Hm Hb Ht0 Hv _ _]. apply valid_spec in Hv as [Fv _].
  pose proof (st_next _ Ht0) as Hn. unfold is_u, UINT32_MAX in *.
  apply orb_false_iff in G2 as [G3 G2].
  apply orb_false_iff in G1 as [[G0 Gn]%orb_false_iff Go].
  apply Z.eqb_neq in G0, Gn.
  assert (wrap 32 (sr_nextCommandId (cs_record cs) + 1) = sr_nextCommandId (cs_record cs) + 1)
    as Ew by (apply wrap_id; unfold is_u; change (2 ^ 32) with 4294967296 in *; lia).
  apply commit_spec in Ec as (C1 & Et & Er); [|done|..].
  - destruct ok1; cbn [negb] in E; injection E as <- <- <- <-;
      [|by split_and!]. split_and!; [by apply store_ok_error|done| |done].
    unfold commandView, recordView. cbn [cs_record setError]. rewrite Er. cbn [sr_nextCommandId sr_command withChecksum].
    rewrite Ew. constructor; try done; unfold UINT32_MAX;
      change (2 ^ 32) with 4294967296 in *; [lia|..]; intros E0 Ez;
      [rewrite E0, Ez in G3|rewrite E0, Ez in G2]; vm_compute in G2, G3; congruence.
  - split; cbn; [rewrite Ew; unfold is_u; change (2 ^ 32) with 4294967296 in *; lia|].
    split; cbn; [exact Hn|done|solve_enum_ok|solve_enum_ok|done|done].
  - destruct Fv. split; [done|done|done| |exact H3|by vm_compute|left; by vm_compute].
    cbn. rewrite Ew. lia.
Qed.

(** Committing a change of the current command. *)
Lemma command_step done c cs b ok cs' b' :
  store_ok cs b -> command_typed c ->
  to_u8 (gc_type c) <= 3 -> to_u8 (gc_state c) <= 5 ->
  to_u8 (gc_result c) = 255 \/ to_u8 (gc_result c) <= 7 ->
  commitNoting object_bytes done (withCommand c (cs_record cs)) cs b = (ok, cs', b') ->
  store_ok cs' b' /\ tracked ok b cs' b' /\
  if ok then commandView cs' = (sr_nextCommandId (cs_record cs), c)
  else cs_record cs' = cs_record cs.
Proof.
  intros C Tc H3 H5 H7 E. pose proof C as [_ _ T V _ _]. apply valid_spec in V as [F _].
  destruct (withCommand_ok _ c T F Tc H3 H5 H7) as [T1 F1].
  apply commitNoting_spec in E as (C1 & Et & Er); [|done..]. split_and!; [done..|].
  destruct ok; [|done]. unfold commandView. by rewrite Er.
Qed.

Lemma current_ok cs b :
  store_ok cs b ->
  command_typed (sr_command (cs_record cs)) /\ fields_valid (cs_record cs).
Proof. intros [_ _ T V _ _]. apply valid_spec in V as [F _]. split; [apply T|done]. Qed.

Lemma markSent_step id sentUnixMs cs b ok cs' b' :
  store_ok cs b -> markSent object_bytes id sentUnixMs cs b = (ok, cs', b') ->
  store_ok cs' b' /\ tracked ok b cs' b' /\
  if ok then lifecycle (OpMarkSent id sentUnixMs) (commandView cs) (commandView cs')
  else cs_record cs' = cs_record cs.
Proof.
  intros C E. unfold markSent in E. rewrite (so_mutex _ _ C) in E. cbn [negb] in E.
  destruct (_ || _ || _) eqn:G.
  { injection E as <- <- <-. apply (refused cs b); auto. }
  apply named_spec in G as (Hi & Hg & Ho). destruct (current_ok _ _ C) as [[] []].
  apply command_step in E as (C1 & Et & E1);
    [|exact C|by split; try solve_enum_ok|done|by vm_compute|done].
  split_and!; [done..|]. destruct ok; [|done]. rewrite E1. by apply life_sent.
Qed.

Lemma cancel_step id cs b ok cs' b' :
  store_ok cs b -> cancel object_bytes id cs b = (ok, cs', b') ->
  store_ok cs' b' /\ tracked ok b cs' b' /\
  if ok then lifecycle (OpCancel id) (commandView cs) (commandView cs')
  else cs_record cs' = cs_record cs.
Proof.
  intros C E. unfold cancel in E. rewrite (so_mutex _ _ C) in E. cbn [negb] in E.
  destruct (_ || _ || _) eqn:G.
  { injection E as <- <- <-. apply (refused cs b); auto. }
  apply named_spec in G as (Hi & Hg & Ho). destruct (current_ok _ _ C) as [[] []].
  apply command_step in E as (C1 & Et & E1);
    [|exact C|by split; try solve_enum_ok|done|by vm_compute|done].
  split_and!; [done..|]. destruct ok; [|done]. rewrite E1. by apply life_cancelled.
Qed.

(** Confirmation, and when it counts as a repetition. *)
Lemma confirm_step result cs b ok duplicate cs' b' :
  store_ok cs b -> op_typed (OpConfirm result) ->
  confirm object_bytes result false cs b = (ok, duplicate, cs', b') ->
  store_ok cs' b' /\ tracked ok b cs' b' /\
  (if ok then lifecycle (OpConfirm result) (commandView cs) (commandView cs')
   else cs_record cs' = cs_record cs) /\
  (duplicate = true <-> gc_state (sr_command (cs_record cs)) = CommandState.kConfirmed /\
     matching result (sr_command (cs_record cs))) /\
  (duplicate = true -> ok = true /\ cs' = cs /\ b' = b).
Proof.
  intros C (Ht & Hr & H7) E. unfold confirm in E. rewrite (so_mutex _ _ C) in E.
  cbn [negb] in E. destruct (current_ok _ _ C) as [[] []].
  destruct (_ || _ || _) eqn:G.
  { injection E as <- <- <- <-. split_and!; [by apply store_ok_error|done|done| |done].
    split; [done|]. intros [_ Hm]. apply matching_spec in Hm. congruence. }
  apply matching_spec in G.
  destruct (enum_eqb_spec (gc_state (sr_command (cs_record cs))) CommandState.kConfirmed)
    as [Es|Es]; [done|solve_enum_ok| |].
  { injection E as <- <- <- <-. split_and!; [done|by apply confirmed_in_step|by constructor|tauto|done]. }
  destruct (outstanding _) eqn:Go; cbn [negb] in E.
  2:{ injection E as <- <- <- <-. split_and!; [done|done|done| |done]. split; [done|tauto]. }
  destruct (commitNoting _ _ _ cs b) as [[ok1 cs1] b1] eqn:Ec.
  apply command_step in Ec as (C1 & Et & E1);
    [|exact C|by split; try solve_enum_ok|done|by vm_compute|by right].
  injection E as <- <- <- <-. split_and!; [done|done| |split; [done|tauto]|done].
  destruct ok1; [|done]. rewrite E1. by eapply life_confirmed.
Qed.

(** A start takes the record the backend answers; when it answers none, a fresh
    record takes its place, in RAM, and in the backend when that can be saved. *)
Lemma restart_step cs b ok fresh cs' b' :
  store_ok cs b ->
  storeBegin object_bytes sizeof_record true CommandStore_init b false =
    (ok, fresh, cs', b') ->
  store_ok cs' b' /\
  (if bool_decide (is_Some (fst (backend_load b)))
   then ok = true /\ fresh = false /\ persisted b = Some (cs_record cs') /\
        persisted b' = Some (cs_record cs')
   else fresh = true /\ cs_record cs' = initialize object_bytes sizeof_record /\
        tracked ok b cs' b').
Proof.
  intros C E. unfold storeBegin in E. cbn [cs_mutex CommandStore_init orb negb] in E.
  destruct (so_stored _ _ C) as (r & P & T & V).
  destruct (backend_load b) as [loaded b1] eqn:El. pose proof (load_keeps _ _ _ El) as Ek.
  cbn [fst]. destruct loaded as [r'|].
  - apply load_found in El. assert (r' = r) as -> by congruence. rewrite V in E.
    injection E as <- <- <- <-. rewrite bool_decide_true by done.
    rewrite Ek. split_and!; [|done..].
    eapply store_ok_stored; [done|done|reflexivity|done|done|cbn; congruence].
  - rewrite bool_decide_false by (by intros [? [=]]).
    cbn [cs_record setRecord] in E. destruct (backend_save _ b1) as [saved b2] eqn:Ew.
    pose proof initialize_typed as Ti. pose proof initialize_valid as Vi.
    destruct saved; cbn [negb] in E; injection E as <- <- <- <-; (split; [|split_and!; try done]).
    + eapply store_ok_stored; [done|done|reflexivity|done|done|]. by apply save_done in Ew.
    + by apply save_done in Ew.
    + apply save_failed in Ew. split; try done; [|by right].
      exists r. split; [congruence|done].
    + unfold tracked. apply save_failed in Ew. congruence.
Qed.

(** The identifier a move gives, and whether it repeats a confirmation. *)
Definition given (op : CommandOp) (v : CommandView) : Z :=
  match op with OpCreate _ _ _ _ => v.1 | _ => 0 end.

Definition repeats (op : CommandOp) (v : CommandView) : bool :=
  match op with
  | OpConfirm _ => bool_decide (gc_state v.2 = CommandState.kConfirmed)
  | _ => false
  end.

(** One operation, its answer, and what RAM and the backend hold before and
    after it. *)
Inductive move : CommandOp -> CommandAnswer -> CommandView * CommandView ->
    CommandView * CommandView -> Prop :=
  | move_made op v v' s :
      lifecycle op v v' ->
      move op (answer_of true (given op v) (repeats op v)) (v, s) (v', v')
  | move_refused op v s :
      op <> OpRestart -> move op (answer_of false 0 false) (v, s) (v, s)
  | move_loaded v s :
      move OpRestart (mkCommandAnswer true 0 false false true) (v, s) (s, s)
  | move_fresh v s saved :
      let v' := recordView (initialize object_bytes sizeof_record) in
      move OpRestart (mkCommandAnswer saved 0 false true false) (v, s)
        (v', if saved then v' else s).

(** What RAM and the backend hold. *)
Definition storeViews (cs : CommandStore) (b : B) : CommandView * CommandView :=
  (commandView cs, default (commandView cs) (recordView <$> persisted b)).

Lemma storeViews_tracked ok cs b cs' b' :
  store_ok cs b -> tracked ok b cs' b' ->
  storeViews cs' b' = (commandView cs', if ok then commandView cs' else (storeViews cs b).2).
Proof.
  intros C E. destruct (so_stored _ _ C) as (r & P & _).
  unfold storeViews. rewrite E, P. by destruct ok.
Qed.

Lemma op_move op ok id duplicate cs b cs' b' :
  op <> OpRestart -> store_ok cs b -> tracked ok b cs' b' ->
  (if ok then lifecycle op (commandView cs) (commandView cs') /\
     id = given op (commandView cs) /\ duplicate = repeats op (commandView cs)
   else cs_record cs' = cs_record cs /\ id = 0 /\ duplicate = false) ->
  move op (answer_of ok id duplicate) (storeViews cs b) (storeViews cs' b').
Proof.
  intros Hop C Et Ho. rewrite (storeViews_tracked _ _ _ _ _ C Et).
  destruct ok; destruct Ho as (Ho & -> & ->); [by apply move_made|].
  unfold commandView at 1. rewrite Ho. by apply move_refused.
Qed.

Lemma confirm_repeats result (ok duplicate : bool) (v v' : CommandView) :
  (if ok then lifecycle (OpConfirm result) v v' else True) ->
  (duplicate = true <-> gc_state v.2 = CommandState.kConfirmed /\ matching result v.2) ->
  (duplicate = true -> ok = true) ->
  if ok then duplicate = repeats (OpConfirm result) v else duplicate = false.
Proof.
  intros L Hd Hok. destruct ok.
  - assert (matching result v.2) as Hm by by inversion L.
    cbn. case_bool_decide; destruct duplicate; try done; tauto.
  - destruct duplicate; [|done]. discriminate (Hok eq_refl).
Qed.

Lemma command_run_step op cs b answer cs' b' :
  store_ok cs b -> op_typed op -> run_command op cs b = (answer, cs', b') ->
  store_ok cs' b' /\ move op answer (storeViews cs b) (storeViews cs' b').
Proof.
  intros C T E. destruct op; cbn [run_command] in E.
  - destruct (create _ _ _ _ _ _ cs b) as [[[ok id] cs1] b1] eqn:Ec.
    injection E as <- <- <-. apply create_step in Ec as (? & ? & Ho); [|done..].
    split; [done|]. apply op_move; try done. destruct ok; by destruct Ho.
  - destruct (markSent _ _ _ cs b) as [[ok cs1] b1] eqn:Ec. injection E as <- <- <-.
    apply markSent_step in Ec as (? & ? & Ho); [|done]. split; [done|].
    apply op_move; try done. by destruct ok.
  - destruct (confirm _ _ _ cs b) as [[[ok d] cs1] b1] eqn:Ec. injection E as <- <- <-.
    apply confirm_step in Ec as (? & ? & Ho & Hd & Hk); [|done..]. split; [done|].
    apply op_move; try done.
    pose proof (confirm_repeats result ok d (commandView cs) (commandView cs1)
      ltac:(by destruct ok) Hd (fun e => proj1 (Hk e))). by destruct ok.
  - destruct (cancel _ _ cs b) as [[ok cs1] b1] eqn:Ec. injection E as <- <- <-.
    apply cancel_step in Ec as (? & ? & Ho); [|done]. split; [done|].
    apply op_move; try done. by destruct ok.
  - destruct (storeBegin _ _ _ _ b _) as [[[ok fresh] cs1] b1] eqn:Ec.
    injection E as <- <- <-. eapply restart_step in Ec as [C1 Hr]; [|done]. split; [done|].
    destruct (bool_decide _) eqn:El.
    + destruct Hr as (-> & -> & P & P').
      unfold storeViews at 2. rewrite P'. unfold storeViews. rewrite P. by apply move_loaded.
    + destruct Hr as (-> & Ei & Et). rewrite (storeViews_tracked _ _ _ _ _ C Et).
      unfold commandView. rewrite Ei. by apply move_fresh.
Qed.
End Spec.
