(* ===== verification/CommandStoreTheorems.v ===== *)
(** * Theorems on the command store

    Histories of operations and restarts on a store whose RAM and backend agree;
    the witnesses run a backend in memory. *)

From Stdlib Require Import ZArith Lia String.
From stdpp Require Import sorting.
From S2P Require Import Prelude BuildConfig CString ByteIO Protocol ProtocolSpec ProtocolCommands.
From S2P Require Import CommandStore CommandStoreSpec.
Open Scope Z_scope.

(** ** Histories *)

Section Histories.
Context (object_bytes : CommandStoreRecord -> list Z) (sizeof_record : Z).
Context (bytes_before : forall v r, object_bytes (withChecksum v r) = object_bytes r).
Context (size_fits : is_u 16 sizeof_record).
Context {B : Type} `{CommandBackendLaws B}.

Abbreviation run := (run_command object_bytes sizeof_record).
Abbreviation ok := (store_ok object_bytes sizeof_record).
Abbreviation step := (command_run_step object_bytes sizeof_record bytes_before size_fits).

(** The moves a history makes, each operation with its answer. *)
Inductive moves : list (CommandOp * CommandAnswer) -> CommandView * CommandView ->
    CommandView * CommandView -> Prop :=
  | moves_nil v : moves [] v v
  | moves_cons op answer rest v v' v'' :
      move object_bytes sizeof_record op answer v v' -> moves rest v' v'' ->
      moves ((op, answer) :: rest) v v''.

Fixpoint run_commands (ops : list CommandOp) (cs : CommandStore) (b : B)
  : list (CommandOp * CommandAnswer) * CommandStore * B :=
  match ops with
  | [] => ([], cs, b)
  | op :: ops =>
      let '(answer, cs, b) := run op cs b in
      let '(trace, cs, b) := run_commands ops cs b in ((op, answer) :: trace, cs, b)
  end.

(** The identifiers given to the commands created in a history. *)
Definition created_ids (trace : list (CommandOp * CommandAnswer)) : list Z :=
  omap (fun oa => match oa.1 with
                  | OpCreate _ _ _ _ => if an_ok oa.2 then Some (an_id oa.2) else None
                  | _ => None
                  end) trace.

(** The identifiers the answers of a history call for, when the next ones in RAM
    and in the backend are [next] and [stored]: consecutive ones, from what the
    backend holds after a start that loads, from 1 after a start that begins
    afresh. *)
Fixpoint numbered (trace : list (CommandOp * CommandAnswer)) (next stored : Z) : list Z :=
  match trace with
  | [] => []
  | (op, a) :: rest =>
      match op with
      | OpRestart =>
          if an_fresh a then numbered rest 1 (if an_ok a then 1 else stored)
          else numbered rest stored stored
      | OpCreate _ _ _ _ =>
          if an_ok a then next :: numbered rest (next + 1) (next + 1)
          else numbered rest next stored
      | _ => numbered rest next (if an_ok a then next else stored)
      end
  end.

(** The backend answers the load of every start. *)
Definition loads_answered : list (CommandOp * CommandAnswer) -> Prop :=
  Forall (fun oa => oa.1 = OpRestart -> an_loaded oa.2 = true).

(** Every start saves the record it begins afresh with. *)
Definition starts_saved : list (CommandOp * CommandAnswer) -> Prop :=
  Forall (fun oa => oa.1 = OpRestart -> an_ok oa.2 = true).

Lemma run_commands_moves ops cs b trace cs' b' :
  ok cs b -> Forall op_typed ops -> run_commands ops cs b = (trace, cs', b') ->
  ok cs' b' /\ moves trace (storeViews cs b) (storeViews cs' b') /\ trace.*1 = ops.
Proof.
  intros C T. revert cs b trace C. induction T as [|op ops Top T IH]; intros cs b trace C E;
    cbn [run_commands] in E.
  { injection E as <- <- <-. split_and!; [done|constructor|done]. }
  destruct (run op cs b) as [[answer cs1] b1] eqn:E1.
  destruct (run_commands ops cs1 b1) as [[rest cs2] b2] eqn:E2. injection E as <- <- <-.
  destruct (step _ _ _ _ _ _ C Top E1) as [C1 Hs].
  apply IH in E2 as (C2 & Hm & Eo); [|done].
  split_and!; [done|by eapply moves_cons|by cbn; rewrite Eo].
Qed.

Lemma created_ids_cons op a rest :
  created_ids ((op, a) :: rest) =
    match op with
    | OpCreate _ _ _ _ => if an_ok a then an_id a :: created_ids rest else created_ids rest
    | _ => created_ids rest
    end.
Proof. unfold created_ids. cbn. by destruct op, (an_ok a). Qed.

(** What a move of the life cycle makes of the next identifier. *)
Lemma lifecycle_next op v v' :
  lifecycle op v v' ->
  op <> OpRestart /\
  v'.1 = match op with OpCreate _ _ _ _ => v.1 + 1 | _ => v.1 end.
Proof. intros L. by inversion L. Qed.

Lemma moves_numbered trace v v' :
  moves trace v v' -> created_ids trace = numbered trace v.1.1 v.2.1.
Proof.
  induction 1 as [|op a rest v v1 v2 M _ IH]; [done|].
  rewrite created_ids_cons. cbn [numbered]. rewrite IH. destruct M as [op v v1 s L|op v s Ho| |].
  - apply lifecycle_next in L as [Hop E]. cbn. destruct op; cbn in *; by rewrite ?E.
  - by destruct op.
  - done.
  - by destruct saved.
Qed.

(** While every load is answered, RAM and the backend stay together, and the next
    identifier only grows, by one for every command created. *)
Lemma moves_next trace v v' :
  moves trace v v' -> v.1 = v.2 -> loads_answered trace ->
  v'.1 = v'.2 /\
  created_ids trace = (fun k => v.1.1 + Z.of_nat k) <$> seq 0 (length (created_ids trace)) /\
  v'.1.1 = v.1.1 + Z.of_nat (length (created_ids trace)).
Proof.
  induction 1 as [|op a rest v v1 v2 M _ IH]; intros Ev Hl.
  { split_and!; [done..|cbn; lia]. }
  apply Forall_cons in Hl as [Hl Hr]. cbn in Hl.
  assert (v1.1 = v1.2 /\ v1.1.1 = v.1.1 + Z.of_nat (length (created_ids [(op, a)])) /\
    created_ids ((op, a) :: rest) = created_ids [(op, a)] ++ created_ids rest /\
    created_ids [(op, a)] =
      (fun k => v.1.1 + Z.of_nat k) <$> seq 0 (length (created_ids [(op, a)])))
    as (E1 & En & -> & Ea).
  { rewrite !created_ids_cons. destruct M as [op v v1 s L|op v s Ho| |]; cbn in *.
    - apply lifecycle_next in L as [Hop E]. destruct op; cbn in *; rewrite ?E;
        split_and!; try done; try lia. f_equal. lia.
    - destruct op; cbn; split_and!; done || lia.
    - subst. split_and!; [done|lia|done..].
    - by specialize (Hl eq_refl). }
  destruct (IH E1 Hr) as (E2 & Ei & Ex). rewrite length_app, seq_app, fmap_app, <- Ea.
  split_and!; [done| |lia]. f_equal. rewrite Ei at 1. rewrite En.
  set (n := length (created_ids [(op, a)])). set (m := length (created_ids rest)).
  replace (seq (0 + n) m) with (Nat.add n <$> seq 0 m)
    by (by rewrite fmap_add_seq, Nat.add_0_r).
  rewrite <- list_fmap_compose.
  apply list_fmap_ext. intros ? k _. cbn. lia.
Qed.

(** The starts of a history, one by one. *)
Lemma moves_starts trace v v' :
  moves trace v v' ->
  Forall (fun oa => oa.1 = OpRestart -> an_fresh oa.2 = negb (an_loaded oa.2)) trace.
Proof.
  induction 1 as [|op a rest v v1 v2 M _ IH]; constructor; [|done].
  destruct M as [op v v1 s L|op v s Ho| |]; intros Eo; cbn in Eo; [|done..].
  by apply lifecycle_next in L as [Hop _].
Qed.

Lemma moves_in_step trace v v' :
  moves trace v v' -> v.1 = v.2 -> starts_saved trace -> v'.1 = v'.2.
Proof.
  induction 1 as [|op a rest v v1 v2 M _ IH]; intros Ev Hs; [done|].
  apply Forall_cons in Hs as [Hs Hr]. apply IH; [|done]. cbn in Hs.
  destruct M as [| | |v s saved]; try done. specialize (Hs eq_refl). cbn in Hs. by subst.
Qed.

Lemma lifecycle_functional op v v1 v2 : lifecycle op v v1 -> lifecycle op v v2 -> v1 = v2.
Proof.
  intros L1 L2. destruct L1; inversion L2; subst; try done;
    match goal with Ho : outstanding ?c = true, Es : gc_state ?c = _ |- _ =>
      unfold outstanding in Ho; rewrite Es in Ho; discriminate end.
Qed.

Lemma lifecycle_move op answer v v' v1 s s1 :
  lifecycle op v v' -> an_ok answer = true ->
  move object_bytes sizeof_record op answer (v, s) (v1, s1) -> v1 = v'.
Proof.
  intros L Ea M. inversion M; subst; try done; try by inversion L.
  by eapply lifecycle_functional.
Qed.

Lemma lifecycle_confirmed result v v' :
  lifecycle (OpConfirm result) v v' ->
  gc_state v'.2 = CommandState.kConfirmed /\ matching result v'.2.
Proof. intros L. inversion L; subst; by split. Qed.

Lemma create_guard type next c :
  outstanding c = false -> next < UINT32_MAX -> to_u8 type <> 0 ->
  enum_eqb type CommandType.kNone || (next =? UINT32_MAX) || outstanding c = false.
Proof.
  intros -> Hn Ht. unfold enum_eqb. enum_codes. rewrite (proj2 (Z.eqb_neq _ _) Ht).
  destruct (Z.eqb_spec next UINT32_MAX); [lia|done].
Qed.

Lemma payload_guard type poll scheduled :
  (to_u8 type = 3 -> poll <> 0) -> (to_u8 type = 2 -> scheduled <> 0) ->
  (enum_eqb type CommandType.kSetPollIntervalMinutes && (poll =? 0)) ||
  (enum_eqb type CommandType.kScheduleMaintenanceAt && (scheduled =? 0)) = false.
Proof.
  intros H3 H2. unfold enum_eqb. enum_codes. apply orb_false_iff.
  rewrite !andb_false_iff, !Z.eqb_neq. lia.
Qed.

(** ** Properties *)

(** C10: over any history of operations and starts of a store whose mutex can be
    created, on any backend that keeps its laws, whether or not its loads and saves
    succeed: an operation answered true makes one move of the command's life cycle, in RAM and in the backend,
    and answers the identifier it gave and whether it repeated a confirmation; a
    refused one changes neither; a start takes the record the backend holds
    when the backend answers the load, and begins afresh when it does not, with
    no command and identifier 1, in the backend too if that can be saved. RAM
    and the backend each hold a valid record all along, and the same one when
    every start of the history could save what it began with. *)
Theorem command_lifecycle ops cs b trace cs' b' :
  ok cs b -> Forall op_typed ops -> run_commands ops cs b = (trace, cs', b') ->
  trace.*1 = ops /\ moves trace (storeViews cs b) (storeViews cs' b') /\ ok cs' b' /\
  (persisted b = Some (cs_record cs) -> starts_saved trace ->
   persisted b' = Some (cs_record cs')).
Proof.
  intros C T E. destruct (run_commands_moves _ _ _ _ _ _ C T E) as (C' & Hm & Eo).
  split_and!; try done. intros P Hs. apply moves_in_step in Hm; [|by cbn; rewrite P|done].
  destruct (so_stored _ _ _ _ C') as (r & P' & _ & V). cbn in Hm. rewrite P' in Hm |- *.
  f_equal. by apply (recordView_inj object_bytes sizeof_record bytes_before);
    [|apply C'|].
Qed.

(** C24: the identifiers of the commands created in a history are those the starts
    of the history call for: consecutive ones, from what the backend holds after
    a start that loads it, from 1 after a start that begins afresh. A start
    begins afresh exactly when the backend does not answer its load. In a
    history in which every load is answered no identifier is given twice,
    restarts included: the commands are numbered consecutively from the next
    identifier on. *)
Theorem command_ids_unique ops cs b trace cs' b' :
  ok cs b -> Forall op_typed ops -> run_commands ops cs b = (trace, cs', b') ->
  created_ids trace =
    numbered trace (storeViews cs b).1.1 (storeViews cs b).2.1 /\
  Forall (fun oa => oa.1 = OpRestart -> an_fresh oa.2 = negb (an_loaded oa.2)) trace /\
  (persisted b = Some (cs_record cs) -> loads_answered trace ->
   created_ids trace =
     (fun k => sr_nextCommandId (cs_record cs) + Z.of_nat k) <$>
       seq 0 (length (created_ids trace)) /\
   NoDup (created_ids trace) /\
   Forall (fun id => id < sr_nextCommandId (cs_record cs')) (created_ids trace)).
Proof.
  intros C T E. destruct (run_commands_moves _ _ _ _ _ _ C T E) as (C' & Hm & Eo).
  split_and!; [by eapply moves_numbered|by eapply moves_starts|]. intros P Hl.
  destruct (moves_next _ _ _ Hm ltac:(by cbn; rewrite P) Hl) as (_ & Ei & En).
  cbn in Ei, En. split_and!; [done|..].
  - rewrite Ei. apply NoDup_fmap; [intros x y; lia|apply NoDup_seq].
  - set (n := length (created_ids trace)) in *. rewrite En, Ei.
    apply Forall_fmap, Forall_seq. intros j Hj. cbn. lia.
Qed.

(** The store does not refuse without a reason: when the backend saves,
    every move that the life cycle allows is made. *)
Theorem command_accepted op cs b v :
  ok cs b -> op_typed op -> lifecycle op (commandView cs) v ->
  (forall r, fst (backend_save r b) = true) ->
  an_ok (run op cs b).1.1 = true /\ commandView (run op cs b).1.2 = v.
Proof.
  intros C T L Hsave.
  assert (forall c, exists cs1 b1, commit object_bytes c cs b = (true, cs1, b1)) as Hcommit.
  { intros c. unfold commit. rewrite (so_backend _ _ _ _ C). cbn [negb].
    specialize (Hsave (withChecksum (checksum object_bytes c) c)).
    destruct (backend_save _ b) as [saved b1]. cbn in Hsave. subst saved. cbn [negb]. eauto. }
  assert (an_ok (run op cs b).1.1 = true) as Ea.
  { pose proof (so_mutex _ _ _ _ C) as Hm. inversion L; subst; cbn [run_command].
    - unfold create. rewrite Hm, create_guard, payload_guard by done. cbn [negb].
      match goal with |- context [commit _ ?c cs b] =>
        destruct (Hcommit c) as (cs1 & b1 & ->) end. done.
    - unfold markSent. rewrite Hm. cbn [negb].
      rewrite (proj2 (named_spec _ _)) by done. unfold commitNoting.
      match goal with |- context [commit _ ?c cs b] =>
        destruct (Hcommit c) as (cs1 & b1 & ->) end. done.
    - unfold confirm. rewrite Hm. cbn [negb].
      rewrite (proj2 (matching_spec _ _)) by done.
      destruct (enum_eqb _ CommandState.kConfirmed); [done|].
      match goal with H : outstanding _ = true |- _ => rewrite H end. cbn [negb].
      unfold commitNoting.
      match goal with |- context [commit _ ?c cs b] =>
        destruct (Hcommit c) as (cs1 & b1 & ->) end. done.
    - unfold confirm. rewrite Hm. cbn [negb].
      rewrite (proj2 (matching_spec _ _)) by done.
      match goal with H : gc_state _ = _ |- _ => rewrite H end. done.
    - unfold cancel. rewrite Hm. cbn [negb].
      rewrite (proj2 (named_spec _ _)) by done. unfold commitNoting.
      match goal with |- context [commit _ ?c cs b] =>
        destruct (Hcommit c) as (cs1 & b1 & ->) end. done. }
  split; [done|].
  destruct (run op cs b) as [[answer cs1] b1] eqn:E. cbn in *.
  destruct (step _ _ _ _ _ _ C T E) as [_ L1]. subst.
  by eapply (lifecycle_move op answer); [exact L|exact Ea|exact L1].
Qed.

(** Starting up never leaves the store in doubt: with a mutex, it either
    loads the valid record the backend answers, or stores a fresh one without a
    command, and fails only when that cannot be saved. *)
Theorem command_begin b fresh0 answer fresh cs' b' :
  storeBegin object_bytes sizeof_record true CommandStore_init b fresh0 =
    (answer, fresh, cs', b') ->
  let stored := match fst (backend_load b) with
                | Some r => valid object_bytes sizeof_record r
                | None => false
                end in
  fresh = negb stored /\
  (if stored then answer = true /\ fst (backend_load b) = Some (cs_record cs')
   else cs_record cs' = initialize object_bytes sizeof_record /\
     answer = fst (backend_save (initialize object_bytes sizeof_record)
                     (snd (backend_load b)))) /\
  (answer = true -> ok cs' b').
Proof.
  intros E stored. unfold storeBegin in E. cbn [cs_mutex CommandStore_init orb negb] in E.
  pose proof (initialize_typed object_bytes sizeof_record) as Ht.
  pose proof (initialize_valid object_bytes sizeof_record bytes_before size_fits) as Hv.
  destruct (backend_load b) as [loaded b1] eqn:El. pose proof (load_keeps _ _ _ El) as Ek.
  cbn [fst snd] in *. destruct stored eqn:Es; subst stored.
  - destruct loaded as [r|]; [|discriminate]. rewrite Es in E. injection E as <- <- <- <-.
    split_and!; [done..|]. intros _. pose proof (load_found _ _ _ El) as P.
    eapply store_ok_stored; [done|done|reflexivity|by eapply load_typed|done|].
    by rewrite Ek.
  - assert (match loaded with
            | Some r => if valid object_bytes sizeof_record r then Some r else None
            | None => None end = None) as Eo by (destruct loaded; [by rewrite Es|done]).
    rewrite Eo in E. cbn [cs_record setRecord] in E.
    destruct (backend_save _ b1) as [saved b2] eqn:Ew.
    destruct saved; cbn [negb] in E; injection E as <- <- <- <-; (split_and!; [done..|]);
      [|done]. intros _. apply save_done in Ew; [|done].
    by eapply store_ok_stored.
Qed.

(** A confirmation counts once: after a command result has been confirmed,
    nothing is pending for the next acknowledgement, and the same result again is
    answered as a duplicate that changes nothing; no other result is accepted. *)
Theorem confirmed_once result cs b duplicate cs1 b1 :
  ok cs b -> op_typed (OpConfirm result) ->
  confirm object_bytes result false cs b = (true, duplicate, cs1, b1) ->
  pendingForAck cs1 = None /\
  confirm object_bytes result false cs1 b1 = (true, true, cs1, b1) /\
  (forall other, ~ matching other (sr_command (cs_record cs1)) ->
     (confirm object_bytes other false cs1 b1).1.1.1 = false).
Proof.
  intros C T E. pose proof T as (Tt & Tr & H7).
  destruct (confirm_step object_bytes sizeof_record bytes_before _ _ _ _ _ _ _ C T E)
    as (C1 & _ & L & _).
  assert (gc_state (sr_command (cs_record cs1)) = CommandState.kConfirmed /\
          matching result (sr_command (cs_record cs1))) as [Es Hm].
  { exact (lifecycle_confirmed _ _ _ L). }
  unfold pendingForAck, confirm. rewrite (so_mutex _ _ _ _ C1). cbn [negb].
  rewrite (proj2 (matching_spec _ _) Hm), Es.
  unfold outstanding. rewrite Es. split_and!; [done|done|].
  intros other Ho. destruct (_ || _) eqn:G; [done|]. by apply matching_spec in G.
Qed.
End Histories.

(** ** A backend in memory

    It holds a record and the outcomes of the coming writes and loads; the bytes
    of a record are those of its fields, in order. *)

Record MemoryBackend := mkMemoryBackend {
  mb_record : option CommandStoreRecord;
  mb_script : list bool;
  mb_loads : list bool;
}.

Definition enum_okb {E} `{Enum E, EqDecision E} (e : E) : bool :=
  bool_decide (is_u 8 (to_u8 e)) && bool_decide (of_u8 (to_u8 e) = e).

Definition store_typedb (r : CommandStoreRecord) : bool :=
  let c := sr_command r in
  bool_decide (is_u 32 (sr_nextCommandId r)) && bool_decide (is_u 32 (gc_commandId c)) &&
  enum_okb (gc_type c) && enum_okb (gc_state c) && enum_okb (gc_result c) &&
  bool_decide (is_u 8 (gc_pollIntervalMinutes c)) &&
  bool_decide (is_u 32 (gc_scheduledMaintenanceUnix c)).

Lemma store_typedb_spec r : store_typedb r = true <-> store_typed r.
Proof.
  unfold store_typedb, enum_okb. rewrite !andb_true_iff, !bool_decide_eq_true. split.
  - intros ((((((? & ?) & ? & ?) & ? & ?) & ? & ?) & ?) & ?). split; [done|]. by split.
  - intros [? [? [] [] [] ? ?]]. tauto.
Qed.

Definition readable (b : MemoryBackend) : option CommandStoreRecord :=
  r ← mb_record b; if store_typedb r then Some r else None.

#[export] Instance MemoryBackend_ops : CommandBackend MemoryBackend := {
  backend_load b :=
    (if default true (head (mb_loads b)) then readable b else None,
     mkMemoryBackend (mb_record b) (mb_script b) (tail (mb_loads b)));
  backend_save r b :=
    if default true (head (mb_script b))
    then (true, mkMemoryBackend (Some r) (tail (mb_script b)) (mb_loads b))
    else (false, mkMemoryBackend (mb_record b) (tail (mb_script b)) (mb_loads b));
}.

#[export] Instance MemoryBackend_laws : CommandBackendLaws MemoryBackend.
Proof.
  refine {| persisted := readable |}.
  - cbn. by intros b o b' [= _ <-].
  - cbn. intros b r b' [= E _]. by destruct (default _ _).
  - cbn. intros b r b' [= E _]. destruct (default _ _); [|discriminate]. unfold readable in E.
    apply bind_Some in E as (r' & _ & E). destruct (store_typedb r') eqn:Et; [|discriminate].
    injection E as <-. by apply store_typedb_spec.
  - cbn. intros b r b' T E. split_match_in E; [|discriminate]. injection E as <-.
    unfold readable. cbn. by rewrite (proj2 (store_typedb_spec r) T).
  - cbn. intros b r b' E. split_match_in E; [discriminate|]. by injection E as <-.
Defined.

Definition sampleBytes (r : CommandStoreRecord) : list Z :=
  let c := sr_command r in
  be32 (sr_magic r) ++ be16 (sr_schemaVersion r) ++ be16 (sr_structureSize r) ++
  be32 (sr_nextCommandId r) ++ be32 (gc_commandId c) ++
  [to_u8 (gc_type c); to_u8 (gc_state c); gc_pollIntervalMinutes c] ++
  be32 (gc_scheduledMaintenanceUnix c) ++ be64 (wrap 64 (gc_createdUnixMs c)) ++
  be64 (wrap 64 (gc_lastSentUnixMs c)) ++ be32 (gc_sendCount c) ++
  [to_u8 (gc_result c); gc_effectivePollIntervalMinutes c] ++
  be32 (gc_effectiveMaintenanceUnix c).

Definition sampleSize : Z := 72.

Lemma sampleBytes_before v r : sampleBytes (withChecksum v r) = sampleBytes r.
Proof. done. Qed.

Lemma sampleSize_fits : is_u 16 sampleSize.
Proof. vm_compute. split; congruence. Qed.

Definition started (script loads : list bool) : CommandStore * MemoryBackend :=
  let '(_, _, cs, b) := storeBegin sampleBytes sampleSize true CommandStore_init
    (mkMemoryBackend None script loads) false in (cs, b).

Definition startedStore : CommandStore := (started [] []).1.
Definition startedBackend : MemoryBackend := (started [] []).2.

Ltac solve_store_ok :=
  eapply store_ok_stored; [..|vm_compute; reflexivity];
    [vm_compute; reflexivity..|apply store_typedb_spec; vm_compute; reflexivity
    |vm_compute; reflexivity].

Lemma started_ok : store_ok sampleBytes sampleSize startedStore startedBackend.
Proof. solve_store_ok. Qed.

(** A backend that answers its first load and not the second. *)
Definition lossy : CommandStore * MemoryBackend := started [] [true; false].

Lemma lossy_ok : store_ok sampleBytes sampleSize lossy.1 lossy.2.
Proof. solve_store_ok. Qed.

(** ** A history

    A command is created, sent, survives a restart, is confirmed, and the next
    command gets the next identifier; in between a write fails. *)

Definition sampleConfirmation : CommandResultPacket :=
  CommandResultPacket_init
    <| cr_commandId := 1 |> <| cr_commandType := CommandType.kSetPollIntervalMinutes |>
    <| cr_resultCode := CommandResultCode.kApplied |>
    <| cr_effectivePollIntervalMinutes := 15 |>.

Definition sampleHistory : list CommandOp :=
  [OpCreate CommandType.kSetPollIntervalMinutes 15 0 1000; OpMarkSent 1 2000; OpRestart;
   OpCreate CommandType.kEnterMaintenanceNow 0 0 3000; OpConfirm sampleConfirmation;
   OpConfirm sampleConfirmation; OpCreate CommandType.kEnterMaintenanceNow 0 0 4000].

Definition sampleRun :=
  run_commands sampleBytes sampleSize sampleHistory startedStore startedBackend.

Lemma sampleHistory_typed : Forall op_typed sampleHistory.
Proof.
  unfold sampleHistory. repeat apply Forall_cons_2; try apply Forall_nil_2; cbn [op_typed];
    split_and?; try solve_enum_ok; vm_compute; try split; congruence.
Qed.

Lemma sampleRun_eq :
  run_commands sampleBytes sampleSize sampleHistory startedStore startedBackend =
    (sampleRun.1.1, sampleRun.1.2, sampleRun.2).
Proof. unfold sampleRun. by destruct (run_commands _ _ _ _ _) as [[? ?] ?]. Qed.

(** A command is created, and the load of the next start fails: the identifier is
    given again. *)
Definition lossyHistory : list CommandOp :=
  [OpCreate CommandType.kSetPollIntervalMinutes 15 0 1000; OpRestart;
   OpCreate CommandType.kEnterMaintenanceNow 0 0 4000].

Definition lossyRun :=
  run_commands sampleBytes sampleSize lossyHistory lossy.1 lossy.2.

Lemma lossyHistory_typed : Forall op_typed lossyHistory.
Proof.
  unfold lossyHistory. repeat apply Forall_cons_2; try apply Forall_nil_2; cbn [op_typed];
    split_and?; try solve_enum_ok; vm_compute; try split; congruence.
Qed.

Lemma lossyRun_eq :
  run_commands sampleBytes sampleSize lossyHistory lossy.1 lossy.2 =
    (lossyRun.1.1, lossyRun.1.2, lossyRun.2).
Proof. unfold lossyRun. by destruct (run_commands _ _ _ _ _) as [[? ?] ?]. Qed.

Ltac solve_starts :=
  vm_compute; repeat (constructor; [intros ?; (reflexivity || discriminate)|]); constructor.

Lemma command_lifecycle_witness :
  (an_ok <$> sampleRun.1.1.*2) = [true; true; true; false; true; true; true] /\
  persisted sampleRun.2 = Some (cs_record sampleRun.1.2).
Proof.
  split; [vm_compute; reflexivity|].
  refine (proj2 (proj2 (proj2 (command_lifecycle sampleBytes sampleSize sampleBytes_before
    sampleSize_fits sampleHistory _ _ _ _ _ started_ok sampleHistory_typed sampleRun_eq)))
    _ _).
  - vm_compute. reflexivity.
  - solve_starts.
Defined.

(** The identifiers of a history whose loads are answered, and those of one in
    which a load is not. *)
Lemma command_ids_unique_witness :
  (created_ids sampleRun.1.1 = [1; 2] /\ NoDup (created_ids sampleRun.1.1)) /\
  created_ids lossyRun.1.1 = [1; 1] /\
  created_ids lossyRun.1.1 =
    numbered lossyRun.1.1 (storeViews lossy.1 lossy.2).1.1
      (storeViews lossy.1 lossy.2).2.1.
Proof.
  split; [split; [vm_compute; reflexivity|]|split; [vm_compute; reflexivity|]].
  - refine (proj1 (proj2 (proj2 (proj2 (command_ids_unique sampleBytes sampleSize
      sampleBytes_before sampleSize_fits sampleHistory _ _ _ _ _ started_ok
      sampleHistory_typed sampleRun_eq)) _ _))).
    + vm_compute. reflexivity.
    + solve_starts.
  - exact (proj1 (command_ids_unique sampleBytes sampleSize sampleBytes_before
      sampleSize_fits lossyHistory _ _ _ _ _ lossy_ok lossyHistory_typed lossyRun_eq)).
Defined.

(** A backend whose writes always succeed. *)
Record SteadyBackend := mkSteadyBackend { sb_record : option CommandStoreRecord }.

#[export] Instance SteadyBackend_ops : CommandBackend SteadyBackend := {
  backend_load b := (sb_record b ≫= fun r => if store_typedb r then Some r else None, b);
  backend_save r b := (true, mkSteadyBackend (Some r));
}.

#[export] Instance SteadyBackend_laws : CommandBackendLaws SteadyBackend.
Proof.
  refine {| persisted b := sb_record b ≫= fun r => if store_typedb r then Some r else None |}.
  - cbn. by intros b o b' [= _ <-].
  - cbn. by intros b r b' [= -> _].
  - cbn. intros b r b' [= E _]. apply bind_Some in E as (r' & _ & E).
    destruct (store_typedb r') eqn:Et; [|discriminate].
    injection E as <-. by apply store_typedb_spec.
  - cbn. intros b r b' T [= <-]. cbn. by rewrite (proj2 (store_typedb_spec r) T).
  - cbn. discriminate.
Defined.

Definition steadyStore : CommandStore * SteadyBackend :=
  let '(_, _, cs, b) :=
    storeBegin sampleBytes sampleSize true CommandStore_init (mkSteadyBackend None) false in
  (cs, b).

Lemma steady_ok : store_ok sampleBytes sampleSize steadyStore.1 steadyStore.2.
Proof. solve_store_ok. Qed.

Lemma command_accepted_witness :
  let op := OpCreate CommandType.kSetPollIntervalMinutes 15 0 1000 in
  an_ok (run_command sampleBytes sampleSize op steadyStore.1 steadyStore.2).1.1 = true.
Proof.
  refine (proj1 (command_accepted sampleBytes sampleSize sampleBytes_before sampleSize_fits _ _ _
    (commandView (run_command sampleBytes sampleSize
       (OpCreate CommandType.kSetPollIntervalMinutes 15 0 1000) steadyStore.1
       steadyStore.2).1.2) steady_ok _ _ _)).
  - split_and?; try done; try solve_enum_ok; vm_compute; split; congruence.
  - apply life_created; vm_compute; congruence.
  - intros r. reflexivity.
Defined.

Lemma command_begin_witness :
  let '(answer, fresh, cs, b) :=
    storeBegin sampleBytes sampleSize true CommandStore_init sampleRun.2 true in
  fresh = false /\ answer = true /\ cs_record cs = cs_record sampleRun.1.2.
Proof.
  destruct (storeBegin sampleBytes sampleSize true CommandStore_init sampleRun.2 true)
    as [[[answer fresh] cs] b] eqn:E.
  destruct (command_begin sampleBytes sampleSize sampleBytes_before sampleSize_fits
    _ _ _ _ _ _ E) as (Ef & Hs & _).
  assert (fst (backend_load sampleRun.2) = Some (cs_record sampleRun.1.2)) as Er
    by (vm_compute; reflexivity).
  assert (valid sampleBytes sampleSize (cs_record sampleRun.1.2) = true) as Ev
    by (vm_compute; reflexivity).
  rewrite Er, Ev in Ef, Hs. destruct Hs as [Ha Hp]. split; [exact Ef|]. split; [exact Ha|].
  congruence.
Defined.

(** The store with a command sent. *)
Definition sentRun :=
  run_commands sampleBytes sampleSize (take 2 sampleHistory) startedStore startedBackend.

Lemma sentRun_ok : store_ok sampleBytes sampleSize sentRun.1.2 sentRun.2.
Proof. solve_store_ok. Qed.

Lemma confirmed_once_witness :
  let '(ok, duplicate, cs, b) :=
    confirm sampleBytes sampleConfirmation false sentRun.1.2 sentRun.2 in
  ok = true /\ pendingForAck cs = None.
Proof.
  destruct (confirm sampleBytes sampleConfirmation false sentRun.1.2 sentRun.2)
    as [[[ok d] cs] b] eqn:E.
  assert (ok = true) as ->.
  { change ok with (ok, d, cs, b).1.1.1. rewrite <- E. vm_compute. reflexivity. }
  split; [reflexivity|].
  refine (proj1 (confirmed_once sampleBytes sampleSize sampleBytes_before _ _ _ _ _ _
    sentRun_ok _ E)).
  split; [solve_enum_ok|]. split; [solve_enum_ok|vm_compute; congruence].
Defined.
