(* ===== verification/Metrics.v ===== *)
(** * Running statistics (lib/metrics/running_statistics)

    A [double] is a [spec_float] with the parameters of IEEE binary64; its
    operations round to nearest even. *)

From Stdlib Require Import ZArith Lia SpecFloat.
From S2P Require Import Prelude.
Open Scope Z_scope.

(** ** Doubles *)

Abbreviation double := spec_float.

Definition double_prec : Z := 53.
Definition double_emax : Z := 1024.

(** [static_cast<double>] of a [uint64_t]. *)
Definition double_of_u64 (v : Z) : double := binary_normalize double_prec double_emax v 0 false.

Definition double_add : double -> double -> double := SFadd double_prec double_emax.
Definition double_sub : double -> double -> double := SFsub double_prec double_emax.
Definition double_div : double -> double -> double := SFdiv double_prec double_emax.

(** ** Statistics *)

Record RunningStatistics := mkRunningStatistics {
  st_count : Z;
  st_minimum : Z;
  st_maximum : Z;
  st_average : double;
}.

Definition RunningStatistics_init : RunningStatistics :=
  mkRunningStatistics 0 0 0 (S754_zero false).

Definition record_sample (sample : Z) (s : RunningStatistics) : RunningStatistics :=
  let count := wrap 64 (st_count s + 1) in
  if count =? 1 then mkRunningStatistics count sample sample (double_of_u64 sample)
  else
    mkRunningStatistics count
      (if sample <? st_minimum s then sample else st_minimum s)
      (if st_maximum s <? sample then sample else st_maximum s)
      (double_add (st_average s)
         (double_div (double_sub (double_of_u64 sample) (st_average s))
            (double_of_u64 count))).

Record RunningStatisticsSnapshot := mkSnapshot {
  sn_count : Z;
  sn_minimum : Z;
  sn_maximum : Z;
  sn_average : double;
}.

Definition snapshot (s : RunningStatistics) : RunningStatisticsSnapshot :=
  mkSnapshot (st_count s) (st_minimum s) (st_maximum s) (st_average s).

Record AckLatencyStatistics := mkAckLatencyStatistics {
  al_rxToStart : RunningStatistics;
  al_rxToComplete : RunningStatistics;
  al_txDuration : RunningStatistics;
}.

Definition AckLatencyStatistics_init : AckLatencyStatistics :=
  mkAckLatencyStatistics RunningStatistics_init RunningStatistics_init
    RunningStatistics_init.

Definition record_ack (rxToStartUs rxToCompleteUs : Z) (a : AckLatencyStatistics)
  : AckLatencyStatistics :=
  if rxToCompleteUs <? rxToStartUs then a
  else
    mkAckLatencyStatistics (record_sample rxToStartUs (al_rxToStart a))
      (record_sample rxToCompleteUs (al_rxToComplete a))
      (record_sample (wrap 64 (rxToCompleteUs - rxToStartUs)) (al_txDuration a)).

(** ** What they are statistics of *)

Definition statistics (samples : list Z) : RunningStatistics :=
  foldl (fun s sample => record_sample sample s) RunningStatistics_init samples.

(** The mean, sample by sample, rounded at every step. *)
Fixpoint mean (n : Z) (average : double) (samples : list Z) : double :=
  match samples with
  | [] => average
  | sample :: rest =>
      mean (n + 1)
        (double_add average
           (double_div (double_sub (double_of_u64 sample) average) (double_of_u64 (n + 1))))
        rest
  end.

Lemma statistics_from n lo hi average samples :
  1 <= n -> n + Z.of_nat (length samples) < 2 ^ 64 ->
  foldl (fun s sample => record_sample sample s) (mkRunningStatistics n lo hi average) samples =
  mkRunningStatistics (n + Z.of_nat (length samples)) (foldl Z.min lo samples)
    (foldl Z.max hi samples) (mean n average samples).
Proof.
  revert n lo hi average. induction samples as [|x samples IH]; intros n lo hi average H1 H2.
  - cbn. by rewrite Z.add_0_r.
  - cbn [length] in H2. cbn [foldl mean]. unfold record_sample at 2. cbn.
    rewrite wrap_id by (unfold is_u; lia). destruct (Z.eqb_spec (n + 1) 1); [lia|].
    assert ((if x <? lo then x else lo) = Z.min lo x) as ->
      by (destruct (Z.ltb_spec x lo); lia).
    assert ((if hi <? x then x else hi) = Z.max hi x) as ->
      by (destruct (Z.ltb_spec hi x); lia).
    rewrite IH by lia. f_equal. lia.
Qed.

(** After any number of samples below 2^64, the count is theirs, minimum and
    maximum are exact, and the average is the incremental mean that starts at
    the first sample; a snapshot shows all four. *)
Theorem statistics_exact first samples :
  Z.of_nat (length samples) + 1 < 2 ^ 64 ->
  snapshot (statistics (first :: samples)) =
    mkSnapshot (Z.of_nat (length samples) + 1) (foldl Z.min first samples)
      (foldl Z.max first samples) (mean 1 (double_of_u64 first) samples) /\
  Forall (fun x => foldl Z.min first samples <= x <= foldl Z.max first samples)
    (first :: samples).
Proof.
  intros Hn. split.
  - unfold statistics. cbn [foldl]. unfold record_sample at 2. cbn [st_count RunningStatistics_init].
    change (wrap 64 (0 + 1)) with 1. cbn [Z.eqb].
    rewrite (proj2 (Z.eqb_eq 1 1) eq_refl), statistics_from by lia.
    unfold snapshot. cbn. f_equal. lia.
  - clear Hn. assert (forall l a, foldl Z.min a l <= a <= foldl Z.max a l) as Ha.
    { induction l as [|x l IH]; intros a; cbn; [lia|].
      pose proof (proj1 (IH (Z.min a x))). pose proof (proj2 (IH (Z.max a x))). lia. }
    constructor; [apply Ha|].
    assert (forall l lo hi, lo <= hi ->
      Forall (fun x => foldl Z.min lo l <= x <= foldl Z.max hi l) l) as Hl; [|by apply Hl].
    induction l as [|x l IH]; intros lo hi Hlh; [constructor|]. cbn. constructor.
    + pose proof (proj1 (Ha l (Z.min lo x))). pose proof (proj2 (Ha l (Z.max hi x))). lia.
    + apply IH. lia.
Qed.

Lemma statistics_exact_witness :
  sn_minimum (snapshot (statistics [7; 3; 12])) = 3 /\
  sn_maximum (snapshot (statistics [7; 3; 12])) = 12.
Proof.
  destruct (statistics_exact 7 [3; 12]) as [E _]; [vm_compute; reflexivity|].
  rewrite E. split; reflexivity.
Defined.

(** The latency statistics are those of the pairs that do not run backwards. *)
Definition forward (pairs : list (Z * Z)) : list (Z * Z) :=
  filter (fun p => p.1 <= p.2) pairs.

Lemma record_acks pairs :
  Forall (fun p => is_u 64 p.1 /\ is_u 64 p.2) pairs ->
  foldl (fun a p => record_ack p.1 p.2 a) AckLatencyStatistics_init pairs =
    mkAckLatencyStatistics (statistics (forward pairs).*1) (statistics (forward pairs).*2)
      (statistics ((fun p => p.2 - p.1) <$> forward pairs)).
Proof.
  unfold statistics, forward, AckLatencyStatistics_init.
  generalize RunningStatistics_init at 1 4 as s1.
  generalize RunningStatistics_init at 1 3 as s2.
  generalize RunningStatistics_init as s3.
  intros s3 s2 s1 Hp. revert s1 s2 s3.
  induction Hp as [|[a b] pairs [Ha Hb] Hp IH]; intros s1 s2 s3; [done|].
  rewrite filter_cons. cbn [foldl fst snd] in *. unfold record_ack at 2.
  destruct (Z.ltb_spec b a), (decide (a <= b)); try lia; [apply IH|].
  cbn [al_rxToStart al_rxToComplete al_txDuration fmap list_fmap foldl fst snd].
  rewrite wrap_id by (unfold is_u in *; lia). apply IH.
Qed.
