(* ===== verification/PacketProcessor.v ===== *)
(** * The packet processor (lib/radio/packet_processor)

    [PacketProcessor::process] over the interfaces of packet_processor.hpp.  The
    queue, the radio, the clock and the command backend act on one world [W];
    the manager of the pairing and the command store are objects the processor
    shares with the application, so they are part of its state. *)

From Stdlib Require Import ZArith Lia.
From S2P Require Import Prelude BuildConfig CString Protocol QueueRecord Dedup Pairing.
From S2P Require Import CommandStore Metrics.

(** ** Data *)

Record ReceivedFrame := mkReceivedFrame {
  rf_bytes : list Z;
  rf_length : nat;
  rf_reception : ReceptionMetadata;
  rf_observedUs : Z;
}.

Record EnqueueOutcome := mkEnqueueOutcome {
  eo_persisted : bool;
  eo_droppedOldest : bool;
}.

Record AckTransmission := mkAckTransmission {
  at_attempted : bool;
  at_success : bool;
  at_receiveRestored : bool;
  at_startUs : Z;
  at_completedUs : Z;
}.

Definition AckTransmission_init : AckTransmission := mkAckTransmission false false false 0 0.

Class PacketQueueSink (W : Type) := {
  containsKey : TelemetryKey -> W -> bool * W;
  durablyEnqueue : QueueRecord -> W -> EnqueueOutcome * W;
  noteDuplicate : W -> W;
}.

(** The sink that implements it refers to the command store the processor refers
    to ([RadioService::commands_]), hence the store in and out. *)
Class AckSink (W : Type) := {
  transmitAck : TelemetryPacket -> CommandStore -> W -> AckTransmission * CommandStore * W;
}.

Class MonotonicClock (W : Type) := {
  nowUs : W -> Z * W;
}.

Module PacketDisposition.
Inductive t :=
  | kDecodeRejected | kPairingCandidate | kUnpairedIgnored | kUnknownNodeIgnored
  | kDurableEnqueueFailed | kNewAcknowledged | kDuplicateAcknowledged | kAckFailed
  | kCommandResultConfirmed | kCommandResultDuplicate | kCommandResultIgnored.
#[export] Instance t_eq_dec : EqDecision t.
Proof. solve_decision. Defined.
End PacketDisposition.
Export (hints) PacketDisposition.

Record PacketProcessingStats := mkPacketProcessingStats {
  ps_validProtocolPackets : Z;
  ps_validTelemetryPackets : Z;
  ps_validCommandResultPackets : Z;
  ps_decodeErrors : Z;
  ps_unknownNodePackets : Z;
  ps_duplicates : Z;
  ps_ackSent : Z;
  ps_ackFailures : Z;
  ps_durableEnqueueFailures : Z;
  ps_commandResultsConfirmed : Z;
  ps_commandResultsIgnored : Z;
  ps_lastQueueWriteUs : Z;
  ps_lastRxToDurableEnqueueUs : Z;
  ps_lastRxToAckStartUs : Z;
  ps_lastRxToAckCompleteUs : Z;
  ps_lastAckTxDurationUs : Z;
  ps_successfulAckLatency : AckLatencyStatistics;
}.

Definition PacketProcessingStats_init : PacketProcessingStats :=
  mkPacketProcessingStats 0 0 0 0 0 0 0 0 0 0 0 0 0 0 0 0 AckLatencyStatistics_init.

Record LatestTelemetry := mkLatestTelemetry {
  lt_available : bool;
  lt_packet : TelemetryPacket;
  lt_reception : ReceptionMetadata;
}.

Definition LatestTelemetry_init : LatestTelemetry :=
  mkLatestTelemetry false TelemetryPacket_init ReceptionMetadata_init.

Record PacketProcessingResult := mkPacketProcessingResult {
  pr_disposition : PacketDisposition.t;
  pr_decodeStatus : DecodeStatus.t;
  pr_telemetry : TelemetryPacket;
  pr_commandResult : CommandResultPacket;
  pr_isCommandResult : bool;
  pr_ack : AckTransmission;
  pr_droppedOldest : bool;
}.

Definition PacketProcessingResult_init : PacketProcessingResult :=
  mkPacketProcessingResult PacketDisposition.kDecodeRejected DecodeStatus.kBufferTooSmall
    TelemetryPacket_init CommandResultPacket_init false AckTransmission_init false.

(** The processor and the objects it refers to. *)
Record PacketProcessor := mkPacketProcessor {
  pp_pairing : PairingManager;
  pp_commands : CommandStore;
  pp_stats : PacketProcessingStats;
  pp_latest : LatestTelemetry;
}.

(** [++] on the 64-bit counters. *)
Definition bump64 (v : Z) : Z := wrap 64 (v + 1).

Definition countDecodeError (s : PacketProcessingStats) : PacketProcessingStats :=
  s <| ps_decodeErrors := bump64 (ps_decodeErrors s) |>.

Definition countCommandResult (s : PacketProcessingStats) : PacketProcessingStats :=
  s <| ps_validProtocolPackets := bump64 (ps_validProtocolPackets s) |>
    <| ps_validCommandResultPackets := bump64 (ps_validCommandResultPackets s) |>.

Definition countTelemetry (s : PacketProcessingStats) : PacketProcessingStats :=
  s <| ps_validProtocolPackets := bump64 (ps_validProtocolPackets s) |>
    <| ps_validTelemetryPackets := bump64 (ps_validTelemetryPackets s) |>.

Definition countIgnored (s : PacketProcessingStats) : PacketProcessingStats :=
  s <| ps_commandResultsIgnored := bump64 (ps_commandResultsIgnored s) |>.

Definition countConfirmed (s : PacketProcessingStats) : PacketProcessingStats :=
  s <| ps_commandResultsConfirmed := bump64 (ps_commandResultsConfirmed s) |>.

Definition countUnknown (s : PacketProcessingStats) : PacketProcessingStats :=
  s <| ps_unknownNodePackets := bump64 (ps_unknownNodePackets s) |>.

Definition countDuplicate (s : PacketProcessingStats) : PacketProcessingStats :=
  s <| ps_duplicates := bump64 (ps_duplicates s) |>.

Definition countEnqueueFailure (s : PacketProcessingStats) : PacketProcessingStats :=
  s <| ps_durableEnqueueFailures := bump64 (ps_durableEnqueueFailures s) |>.

(** The times of a durable enqueue. *)
Definition noteEnqueued (frame : ReceivedFrame) (startedUs completedUs : Z)
    (s : PacketProcessingStats) : PacketProcessingStats :=
  let s := s <| ps_lastQueueWriteUs := wrap 64 (completedUs - startedUs) |> in
  if rf_observedUs frame <=? completedUs
  then s <| ps_lastRxToDurableEnqueueUs := wrap 64 (completedUs - rf_observedUs frame) |>
  else s.

(** The times of an acknowledgement. *)
Definition noteAckTimes (frame : ReceivedFrame) (ack : AckTransmission)
    (s : PacketProcessingStats) : PacketProcessingStats :=
  let s := if at_attempted ack && (rf_observedUs frame <=? at_startUs ack)
    then s <| ps_lastRxToAckStartUs := wrap 64 (at_startUs ack - rf_observedUs frame) |>
    else s in
  let s := if at_attempted ack && (rf_observedUs frame <=? at_completedUs ack)
    then s <| ps_lastRxToAckCompleteUs :=
                wrap 64 (at_completedUs ack - rf_observedUs frame) |>
    else s in
  if at_attempted ack && (at_startUs ack <=? at_completedUs ack)
  then s <| ps_lastAckTxDurationUs := wrap 64 (at_completedUs ack - at_startUs ack) |>
  else s.

Definition countAckSent (frame : ReceivedFrame) (ack : AckTransmission)
    (s : PacketProcessingStats) : PacketProcessingStats :=
  let s := s <| ps_ackSent := bump64 (ps_ackSent s) |> in
  if (rf_observedUs frame <=? at_startUs ack) && (rf_observedUs frame <=? at_completedUs ack)
  then s <| ps_successfulAckLatency :=
              record_ack (wrap 64 (at_startUs ack - rf_observedUs frame))
                (wrap 64 (at_completedUs ack - rf_observedUs frame))
                (ps_successfulAckLatency s) |>
  else s.

Definition countAckFailure (s : PacketProcessingStats) : PacketProcessingStats :=
  s <| ps_ackFailures := bump64 (ps_ackFailures s) |>.

Definition withStats (f : PacketProcessingStats -> PacketProcessingStats)
    (p : PacketProcessor) : PacketProcessor :=
  mkPacketProcessor (pp_pairing p) (pp_commands p) (f (pp_stats p)) (pp_latest p).

(** [record.rawPayload] after [memcpy(rawPayload, bytes, length)]. *)
Definition recordOfFrame (frame : ReceivedFrame) : QueueRecord :=
  mkQueueRecord (qr_recordId QueueRecord_init) (rf_reception frame)
    (wrap 8 (Z.of_nat (rf_length frame)))
    (take (rf_length frame) (rf_bytes frame) ++
     drop (rf_length frame) (qr_rawPayload QueueRecord_init)).

(** ** process *)

Section Process.
Context (object_bytes : CommandStoreRecord -> list Z).
Context {W : Type} `{PacketQueueSink W, AckSink W, MonotonicClock W, CommandBackend W}.

(** The branch of a COMMAND_RESULT frame. *)
Definition processCommandResult (frame : ReceivedFrame) (p : PacketProcessor) (w : W)
  : PacketProcessingResult * PacketProcessor * W :=
  let '(status, commandResult) :=
    decodeCommandResult (Some (rf_bytes frame)) (rf_length frame)
      (pr_commandResult PacketProcessingResult_init) in
  let result disposition :=
    mkPacketProcessingResult disposition status
      (pr_telemetry PacketProcessingResult_init) commandResult true
      (pr_ack PacketProcessingResult_init) false in
  if negb (bool_decide (status = DecodeStatus.kOk))
  then (result PacketDisposition.kDecodeRejected, withStats countDecodeError p, w)
  else
    let p := withStats countCommandResult p in
    if negb (paired (pp_pairing p)) || negb (lt_available (pp_latest p)) ||
       negb (pairingMatches (Some (cr_nodeId commandResult)) (pp_pairing p)) ||
       negb (tp_persistentSessionId (lt_packet (pp_latest p)) =?
             cr_persistentSessionId commandResult)
    then (result PacketDisposition.kCommandResultIgnored, withStats countIgnored p, w)
    else
      let '(ok, duplicate, commands, w) :=
        confirm object_bytes commandResult false (pp_commands p) w in
      let p := mkPacketProcessor (pp_pairing p) commands (pp_stats p) (pp_latest p) in
      if negb ok
      then (result PacketDisposition.kCommandResultIgnored, withStats countIgnored p, w)
      else
        (result (if (duplicate : bool) then PacketDisposition.kCommandResultDuplicate
                 else PacketDisposition.kCommandResultConfirmed),
         withStats countConfirmed p, w).

(** Storing the packet, unless it is known already: [inl] is the early return
    after a failed enqueue, [inr] carries [duplicate] and [droppedOldest]. *)
Definition storePacket (frame : ReceivedFrame) (telemetry : TelemetryPacket)
    (p : PacketProcessor) (w : W) : (bool + bool * bool) * PacketProcessor * W :=
  let key := makeTelemetryKey (Some (tp_nodeId telemetry))
    (tp_persistentSessionId telemetry) (tp_sequence telemetry) in
  let '(duplicate, w) := containsKey key w in
  if duplicate then (inr (true, false), withStats countDuplicate p, noteDuplicate w)
  else
    let record := recordOfFrame frame in
    let '(startedUs, w) := nowUs w in
    let '(enqueue, w) := durablyEnqueue record w in
    if negb (eo_persisted enqueue)
    then (inl (eo_droppedOldest enqueue), withStats countEnqueueFailure p, w)
    else
      let '(completedUs, w) := nowUs w in
      (inr (false, eo_droppedOldest enqueue),
       withStats (noteEnqueued frame startedUs completedUs) p, w).

(** Acknowledging it. *)
Definition acknowledge (frame : ReceivedFrame) (telemetry : TelemetryPacket)
    (duplicate : bool) (p : PacketProcessor) (w : W)
  : AckTransmission * PacketDisposition.t * PacketProcessor * W :=
  let '(ack, commands, w) := transmitAck telemetry (pp_commands p) w in
  let p := mkPacketProcessor (pp_pairing p) commands (pp_stats p) (pp_latest p) in
  let p := withStats (noteAckTimes frame ack) p in
  if at_success ack && at_receiveRestored ack
  then (ack, if duplicate then PacketDisposition.kDuplicateAcknowledged
             else PacketDisposition.kNewAcknowledged,
        withStats (countAckSent frame ack) p, w)
  else (ack, PacketDisposition.kAckFailed, withStats countAckFailure p, w).

Definition processTelemetry (frame : ReceivedFrame) (p : PacketProcessor) (w : W)
  : PacketProcessingResult * PacketProcessor * W :=
  let '(status, telemetry) :=
    decodeTelemetry (Some (rf_bytes frame)) (rf_length frame)
      (pr_telemetry PacketProcessingResult_init) in
  let result disposition ack droppedOldest :=
    mkPacketProcessingResult disposition status telemetry
      (pr_commandResult PacketProcessingResult_init) false ack droppedOldest in
  let plain disposition := result disposition AckTransmission_init false in
  if negb (bool_decide (status = DecodeStatus.kOk))
  then (plain PacketDisposition.kDecodeRejected, withStats countDecodeError p, w)
  else
    let p := withStats countTelemetry p in
    if pm_pairingMode (pp_pairing p)
    then
      (plain PacketDisposition.kPairingCandidate,
       mkPacketProcessor
         (observe telemetry (rm_rssiDbm (rf_reception frame))
            (rm_snrDb (rf_reception frame)) (rm_gatewayUptimeMs (rf_reception frame))
            (pp_pairing p)) (pp_commands p) (pp_stats p) (pp_latest p), w)
    else if negb (paired (pp_pairing p))
    then (plain PacketDisposition.kUnpairedIgnored, withStats countUnknown p, w)
    else if negb (pairingMatches (Some (tp_nodeId telemetry)) (pp_pairing p))
    then (plain PacketDisposition.kUnknownNodeIgnored, withStats countUnknown p, w)
    else
      let p := mkPacketProcessor (pp_pairing p) (pp_commands p) (pp_stats p)
        (mkLatestTelemetry true telemetry (rf_reception frame)) in
      let '(stored, p, w) := storePacket frame telemetry p w in
      match stored with
      | inl droppedOldest =>
          (result PacketDisposition.kDurableEnqueueFailed AckTransmission_init droppedOldest,
           p, w)
      | inr (duplicate, droppedOldest) =>
          let '(ack, disposition, p, w) := acknowledge frame telemetry duplicate p w in
          (result disposition ack droppedOldest, p, w)
      end.

Definition process (frame : ReceivedFrame) (p : PacketProcessor) (w : W)
  : PacketProcessingResult * PacketProcessor * W :=
  if (4 <=? rf_length frame)%nat &&
     (default 0 (rf_bytes frame !! 3%nat) =? to_u8 MessageType.kCommandResult)
  then processCommandResult frame p w
  else processTelemetry frame p w.

End Process.
