(* ===== verification/PacketProcessorTheorems.v ===== *)
(** * Theorems on the packet processor

    [GatewayWorld]: what the processor relies on.  Some telemetry is [accepted]
    (it has been made durable, whether or not it has been uploaded since),
    [on_air] lists the packets the radio has sent, and [world_ok] is the
    invariant of the world the operations act on. *)

From Stdlib Require Import ZArith Lia.
From S2P Require Import Prelude BuildConfig CString Protocol ProtocolSpec QueueRecord.
From S2P Require Import ProtocolCommands QueueRecordCodec Dedup DurableQueueCore Pairing.
From S2P Require Import CommandStore CommandStoreSpec Metrics.
From S2P Require Import PacketProcessor.

(** A packet that acknowledges [t]. *)
Definition acknowledges (t : TelemetryPacket) (bytes : list Z) : Prop :=
  exists ack, decodeAckCommand (Some bytes) (length bytes) AckCommandPacket_init =
                (DecodeStatus.kOk, ack) /\ ackMatches ack t = true.

Abbreviation commands_typed cs := (store_typed (cs_record cs)).

Class GatewayWorld (W : Type)
    `{PacketQueueSink W, AckSink W, MonotonicClock W, CommandBackend W} := {
  world_ok : W -> Prop;
  accepted : W -> TelemetryKey -> Prop;
  on_air : W -> list (list Z);
  contains_law key w b w' :
    world_ok w -> containsKey key w = (b, w') ->
    world_ok w' /\ on_air w' = on_air w /\ (b = true -> accepted w' key);
  enqueue_law r w o w' :
    world_ok w -> record_typed r -> record_padded r -> durablyEnqueue r w = (o, w') ->
    world_ok w' /\ on_air w' = on_air w /\
    (forall t, eo_persisted o = true -> telemetryOf r = Some t -> accepted w' (keyOf t));
  duplicate_law w :
    world_ok w ->
    world_ok (noteDuplicate w) /\ on_air (noteDuplicate w) = on_air w /\
    (forall key, accepted w key -> accepted (noteDuplicate w) key);
  transmit_law t cs w a cs' w' :
    world_ok w -> telemetry_wf t -> commands_typed cs ->
    transmitAck t cs w = (a, cs', w') ->
    world_ok w' /\ commands_typed cs' /\
    (on_air w' = on_air w /\ at_success a = false \/
     exists bytes, on_air w' = on_air w ++ [bytes] /\ acknowledges t bytes) /\
    (forall key, accepted w key -> accepted w' key);
  now_law w t w' :
    world_ok w -> nowUs w = (t, w') ->
    world_ok w' /\ on_air w' = on_air w /\ (forall key, accepted w key -> accepted w' key);
  save_law r w b w' :
    world_ok w -> backend_save r w = (b, w') -> world_ok w' /\ on_air w' = on_air w;
}.

(** A frame as the radio hands it over. *)
Record frame_ok (frame : ReceivedFrame) : Prop := {
  fo_bytes : length (rf_bytes frame) = kRadioPacketCapacity;
  fo_typed : bytes_ok (rf_bytes frame);
  fo_length : (rf_length frame <= kRadioPacketCapacity)%nat;
  fo_ms : is_s 64 (rm_gatewayReceivedUnixMs (rf_reception frame));
  fo_uptime : is_u 64 (rm_gatewayUptimeMs (rf_reception frame));
  fo_boot : is_u 32 (rm_gatewayBootSessionId (rf_reception frame));
  fo_rssi : is_u 32 (rm_rssiDbm (rf_reception frame));
  fo_snr : is_u 32 (rm_snrDb (rf_reception frame));
  fo_error : is_s 32 (rm_frequencyErrorHz (rf_reception frame));
  fo_packet : is_u 16 (rm_packetLength (rf_reception frame));
}.

(** The record made of a frame carries the telemetry of the frame. *)
Lemma recordOfFrame_telemetry frame t :
  frame_ok frame ->
  decodeTelemetry (Some (rf_bytes frame)) (rf_length frame) TelemetryPacket_init =
    (DecodeStatus.kOk, t) ->
  telemetryOf (recordOfFrame frame) = Some t.
Proof.
  intros [Hl Hb Hn _ _ _ _ _ _ _] E.
  apply decodeTelemetry_inv in E as (W & tl & Et & Ef); [|lia|done|by left].
  unfold telemetryOf, recordOfFrame. cbn [qr_rawPayload qr_payloadLength].
  rewrite wrap_id by (unfold is_u, kRadioPacketCapacity in *; change (2 ^ 8) with 256; lia).
  rewrite Nat2Z.id.
  erewrite (decodeTelemetry_image _ _ _ _ tl); [|..|exact W|].
  - by rewrite <- Ef, bool_decide_true.
  - rewrite length_app, length_take. lia.
  - rewrite take_app_length'; [done|]. rewrite length_take. lia.
Qed.

Lemma recordOfFrame_typed frame :
  frame_ok frame -> record_typed (recordOfFrame frame) /\ record_padded (recordOfFrame frame).
Proof.
  intros [Hl Hb Hn ? ? ? ? ? ? ?]. unfold kRadioPacketCapacity in *.
  assert (wrap 8 (Z.of_nat (rf_length frame)) = Z.of_nat (rf_length frame)) as Ew
    by (apply wrap_id; unfold is_u; change (2 ^ 8) with 256; lia).
  split; [split|]; cbn [recordOfFrame qr_recordId qr_reception qr_payloadLength qr_rawPayload];
    try done.
  - apply wrap_range. lia.
  - unfold zeros. cbn [QueueRecord_init qr_rawPayload]. split.
    + rewrite length_app, length_take, length_drop. cbn [QueueRecord_init qr_rawPayload].
      unfold zeros, kRadioPacketCapacity. rewrite length_replicate. lia.
    + apply Forall_app. split; [by apply Forall_take|]. apply Forall_drop.
      unfold zeros. apply Forall_replicate. vm_compute. split; congruence.
  - unfold record_padded. cbn [recordOfFrame qr_payloadLength qr_rawPayload QueueRecord_init].
    rewrite Ew, Nat2Z.id, drop_app_length' by (rewrite length_take; lia).
    unfold zeros, kRadioPacketCapacity. by rewrite drop_replicate.
Qed.

Section Theorems.
Context (object_bytes : CommandStoreRecord -> list Z).
Context {W : Type} `{GatewayWorld W}.

Abbreviation processFrame := (process object_bytes).

Lemma commitNoting_world done c cs w ok cs' w' :
  world_ok w -> commitNoting object_bytes done c cs w = (ok, cs', w') ->
  world_ok w' /\ on_air w' = on_air w.
Proof.
  unfold commitNoting, commit. intros Hw E. destruct (cs_backend cs); cbn [negb] in E.
  - destruct (backend_save _ w) as [saved w1] eqn:Es. apply save_law in Es; [|done].
    destruct saved; cbn [negb] in E; by injection E as <- <- <-.
  - by injection E as <- <- <-.
Qed.

Lemma confirm_world result d cs w ok d' cs' w' :
  world_ok w -> confirm object_bytes result d cs w = (ok, d', cs', w') ->
  world_ok w' /\ on_air w' = on_air w.
Proof.
  unfold confirm. intros Hw E.
  destruct (cs_mutex cs); cbn [negb] in E; [|by injection E as <- <- <- <-].
  destruct (_ || _ || _); [by injection E as <- <- <- <-|].
  destruct (enum_eqb _ CommandState.kConfirmed); [by injection E as <- <- <- <-|].
  destruct (outstanding _); cbn [negb] in E; [|by injection E as <- <- <- <-].
  destruct (commitNoting _ _ _ cs w) as [[ok1 cs1] w1] eqn:Ec.
  injection E as <- <- <- <-. by eapply commitNoting_world.
Qed.

Lemma processCommandResult_world frame p w r p' w' :
  world_ok w -> processCommandResult object_bytes frame p w = (r, p', w') ->
  world_ok w' /\ on_air w' = on_air w.
Proof.
  unfold processCommandResult. intros Hw E.
  destruct (decodeCommandResult _ _ _) as [status cr].
  destruct (bool_decide _); cbn [negb] in E; [|by injection E as <- <- <-].
  destruct (_ || _); [by injection E as <- <- <-|].
  destruct (confirm _ _ _ _ w) as [[[ok d] cs] w1] eqn:Ec.
  apply confirm_world in Ec; [|done].
  destruct ok; cbn [negb] in E; by injection E as <- <- <-.
Qed.

Lemma processCommandResult_typed frame p w r p' w' :
  commands_typed (pp_commands p) -> frame_ok frame ->
  processCommandResult object_bytes frame p w = (r, p', w') -> commands_typed (pp_commands p').
Proof.
  unfold processCommandResult. intros T F E.
  destruct (decodeCommandResult _ _ _) as [status cr] eqn:Ed.
  destruct (bool_decide _) eqn:Eb; cbn [negb] in E; [|by injection E as <- <- <-].
  apply bool_decide_eq_true in Eb. subst status.
  destruct (_ || _); [by injection E as <- <- <-|].
  destruct (confirm _ _ _ _ w) as [[[ok d] cs] w1] eqn:Ec.
  apply decodeCommandResult_inv in Ed as (Wc & _);
    [|pose proof (fo_bytes _ F); pose proof (fo_length _ F); lia|apply F|by left].
  apply confirm_typed in Ec; [|done|apply Wc].
  destruct ok; cbn [negb] in E; by injection E as <- <- <-.
Qed.

Lemma processCommandResult_quiet frame p w r p' w' :
  world_ok w -> frame_ok frame -> commands_typed (pp_commands p) ->
  processCommandResult object_bytes frame p w = (r, p', w') ->
  world_ok w' /\ commands_typed (pp_commands p') /\
  forall P : Prop,
  on_air w' = on_air w /\
     pr_disposition r <> PacketDisposition.kNewAcknowledged /\
     pr_disposition r <> PacketDisposition.kDuplicateAcknowledged \/ P.
Proof.
  intros Hw F T E. destruct (processCommandResult_world _ _ _ _ _ _ Hw E) as [Hw' A].
  split_and!; [done|by eapply processCommandResult_typed|]. intros P. left.
  split; [done|]. unfold processCommandResult in E.
  destruct (decodeCommandResult _ _ _) as [status cr].
  destruct (bool_decide _); cbn [negb] in E; [|by injection E as <- <- <-].
  destruct (_ || _); [by injection E as <- <- <-|].
  destruct (confirm _ _ _ _ w) as [[[ok d] cs] w1].
  destruct ok; cbn [negb] in E; injection E as <- <- <-; [|done]. by destruct d.
Qed.

Lemma decoded_wf frame t :
  frame_ok frame ->
  decodeTelemetry (Some (rf_bytes frame)) (rf_length frame) TelemetryPacket_init =
    (DecodeStatus.kOk, t) -> telemetry_wf t.
Proof.
  intros F Ed. apply decodeTelemetry_inv in Ed as (Wt & _); [done| |apply F|by left].
  pose proof (fo_bytes _ F); pose proof (fo_length _ F); lia.
Qed.

(** A branch without acknowledgement. *)
Ltac quiet E := injection E as <- <- <-; split_and!; auto; by left.

(** A packet that is not refused is accepted before it is acknowledged. *)
Lemma storePacket_accepted frame t p w stored p' w' :
  world_ok w -> frame_ok frame ->
  decodeTelemetry (Some (rf_bytes frame)) (rf_length frame) TelemetryPacket_init =
    (DecodeStatus.kOk, t) ->
  storePacket frame t p w = (stored, p', w') ->
  world_ok w' /\ on_air w' = on_air w /\
  match stored with
  | inr _ => accepted w' (keyOf t)
  | inl _ => True
  end.
Proof.
  intros Hw F Ed E. unfold storePacket in E. fold (keyOf t) in E.
  destruct (containsKey (keyOf t) w) as [duplicate w1] eqn:Ec.
  destruct (contains_law _ _ _ _ Hw Ec) as (Hw1 & A1 & Hc). destruct duplicate.
  - injection E as <- <- <-. destruct (duplicate_law _ Hw1) as (? & A2 & Hd).
    split_and!; [done|congruence|by apply Hd, Hc].
  - destruct (nowUs w1) as [t1 w2] eqn:En1.
    destruct (now_law _ _ _ Hw1 En1) as (Hw2 & A2 & _).
    destruct (durablyEnqueue _ w2) as [o w3] eqn:Ee.
    destruct (recordOfFrame_typed frame F) as [Tr Pr].
    destruct (enqueue_law _ _ _ _ Hw2 Tr Pr Ee) as (Hw3 & A3 & Ha).
    destruct (eo_persisted o) eqn:Ep; cbn [negb] in E.
    + destruct (nowUs w3) as [t2 w4] eqn:En2. injection E as <- <- <-.
      destruct (now_law _ _ _ Hw3 En2) as (Hw4 & A4 & Hn).
      split_and!; [done|congruence|]. apply Hn, Ha; [done|]. by apply recordOfFrame_telemetry.
    + injection E as <- <- <-. split_and!; [done|congruence|done].
Qed.

Lemma storePacket_objects frame t p w stored p' w' :
  storePacket frame t p w = (stored, p', w') ->
  pp_pairing p' = pp_pairing p /\ pp_commands p' = pp_commands p /\
  pp_latest p' = pp_latest p.
Proof.
  unfold storePacket. intros E. destruct (containsKey _ w) as [[] w1].
  - by injection E as <- <- <-.
  - destruct (nowUs w1) as [t1 w2]. destruct (durablyEnqueue _ w2) as [o w3].
    destruct (eo_persisted o); cbn [negb] in E; [|by injection E as <- <- <-].
    destruct (nowUs w3) as [t2 w4]. by injection E as <- <- <-.
Qed.

(** ** Properties *)

(** Durable before acknowledged: a frame puts at most one packet on the
    air; that packet decodes to an acknowledgement of the telemetry the frame
    decodes to, which is durable at that point, comes from the paired node and
    did not arrive during a search for a node.  A frame is reported as
    acknowledged only when the packet has gone out. *)
Lemma ack_only_durable frame p w r p' w' :
  world_ok w -> frame_ok frame -> commands_typed (pp_commands p) ->
  processFrame frame p w = (r, p', w') ->
  world_ok w' /\ commands_typed (pp_commands p') /\
  (on_air w' = on_air w /\
     pr_disposition r <> PacketDisposition.kNewAcknowledged /\
     pr_disposition r <> PacketDisposition.kDuplicateAcknowledged \/
   exists t bytes,
     on_air w' = on_air w ++ [bytes] /\ acknowledges t bytes /\ accepted w' (keyOf t) /\
     decodeTelemetry (Some (rf_bytes frame)) (rf_length frame) TelemetryPacket_init =
       (DecodeStatus.kOk, t) /\
     pairingMatches (Some (tp_nodeId t)) (pp_pairing p) = true /\
     pm_pairingMode (pp_pairing p) = false).
Proof.
  intros Hw F T E. unfold process in E.
  destruct (_ && _);
    [apply processCommandResult_quiet in E as (? & ? & HP); [split_and!; [done|done|apply HP]|done..]|].
  unfold processTelemetry in E. cbn [pr_telemetry PacketProcessingResult_init] in E.
  destruct (decodeTelemetry _ _ _) as [status t] eqn:Ed.
  destruct (bool_decide _) eqn:Eb; cbn [negb] in E; [|quiet E].
  apply bool_decide_eq_true in Eb. subst status.
  pose proof (decoded_wf _ _ F Ed) as Wt. cbn [withStats pp_pairing pp_commands] in E.
  destruct (pm_pairingMode (pp_pairing p)) eqn:Em; [quiet E|].
  destruct (paired _); cbn [negb] in E; [|quiet E].
  destruct (pairingMatches _ _) eqn:Ematch; cbn [negb] in E; [|quiet E].
  destruct (storePacket _ _ _ w) as [[stored p1] w1] eqn:Es.
  pose proof (storePacket_objects _ _ _ _ _ _ _ Es) as (_ & Ec & _). cbn in Ec.
  destruct (storePacket_accepted _ _ _ _ _ _ _ Hw F Ed Es) as (Hw1 & A1 & Hacc).
  destruct stored as [dropped|[duplicate dropped]];
    [injection E as <- <- <-; rewrite Ec; split_and!; auto; by left|].
  unfold acknowledge in E. destruct (transmitAck t _ w1) as [[a cs2] w2] eqn:Et.
  rewrite Ec in Et. destruct (transmit_law _ _ _ _ _ _ Hw1 Wt T Et) as (Hw2 & T2 & A2 & Hkeep).
  assert (w' = w2 /\ pp_commands p' = cs2 /\ (at_success a = false ->
    pr_disposition r = PacketDisposition.kAckFailed)) as (-> & -> & Hd).
  { destruct (at_success a && at_receiveRestored a) eqn:Eok; injection E as <- <- <-;
      (split_and!; [done|done|]); [|done]. intros Hs. by rewrite Hs in Eok. }
  split_and!; [done|done|]. destruct A2 as [[A2 Hs]|(bytes & A2 & Ha)]; [left|right].
  - rewrite (Hd Hs). split_and!; congruence.
  - exists t, bytes. split_and!; try done; [congruence|by apply Hkeep].
Qed.

(** A branch that leaves the command alone. *)
Ltac untouched E := injection E as <- <- <-; (split; [by left|done]).

(** C25: only a result that the node of the current telemetry session reports can
    move the command, and only through the command store's own check; such
    frames neither touch the pairing, the latest telemetry nor put anything on the
    air.  Telemetry touches the command only through its acknowledgement. *)
Theorem command_result_guarded frame p w r p' w' :
  world_ok w -> processFrame frame p w = (r, p', w') ->
  (pr_isCommandResult r = false ->
     pp_commands p' = pp_commands p \/
     exists w1, transmitAck (pr_telemetry r) (pp_commands p) w1 =
                  (pr_ack r, pp_commands p', w')) /\
  (pr_isCommandResult r = true ->
     pp_pairing p' = pp_pairing p /\ pp_latest p' = pp_latest p /\ on_air w' = on_air w /\
     (pp_commands p' = pp_commands p /\ w' = w \/
      lt_available (pp_latest p) = true /\
      decodeCommandResult (Some (rf_bytes frame)) (rf_length frame) CommandResultPacket_init =
        (DecodeStatus.kOk, pr_commandResult r) /\
      pairingMatches (Some (cr_nodeId (pr_commandResult r))) (pp_pairing p) = true /\
      tp_persistentSessionId (lt_packet (pp_latest p)) =
        cr_persistentSessionId (pr_commandResult r) /\
      exists ok duplicate,
        confirm object_bytes (pr_commandResult r) false (pp_commands p) w =
          (ok, duplicate, pp_commands p', w') /\
        pr_disposition r =
          if ok then if duplicate then PacketDisposition.kCommandResultDuplicate
                     else PacketDisposition.kCommandResultConfirmed
          else PacketDisposition.kCommandResultIgnored)).
Proof.
  intros Hw E. unfold process in E. destruct (_ && _).
  - destruct (processCommandResult_world _ _ _ _ _ _ Hw E) as [_ A].
    unfold processCommandResult in E. cbn [pr_commandResult PacketProcessingResult_init] in E.
    destruct (decodeCommandResult _ _ _) as [status cr] eqn:Ed.
    destruct (bool_decide _) eqn:Eb; cbn [negb] in E; [|injection E as <- <- <-; split; [done|intros _; split_and!; auto]].
    apply bool_decide_eq_true in Eb. subst status. cbn [withStats pp_pairing pp_latest pp_commands] in E.
    destruct (_ || _) eqn:G; [injection E as <- <- <-; split; [done|intros _; split_and!; auto]|].
    bool_prop. destruct (confirm _ _ _ _ w) as [[[ok d] cs] w1] eqn:Ec.
    destruct ok; cbn [negb] in E; injection E as <- <- <-; (split; [done|]); intros _;
      (split_and!; [done..|]); right; split_and!; try done; eexists _, _; done.
  - unfold processTelemetry in E. cbn [pr_telemetry PacketProcessingResult_init] in E.
    destruct (decodeTelemetry _ _ _) as [status t].
    destruct (bool_decide _); cbn [negb] in E; [|untouched E].
    cbn [withStats pp_pairing] in E.
    destruct (pm_pairingMode (pp_pairing p)); [untouched E|].
    destruct (paired _); cbn [negb] in E; [|untouched E].
    destruct (pairingMatches _ _); cbn [negb] in E; [|untouched E].
    destruct (storePacket _ _ _ w) as [[stored p1] w1] eqn:Es.
    assert (pp_commands p1 = pp_commands p) as Ep.
    { by destruct (storePacket_objects _ _ _ _ _ _ _ Es) as (_ & ? & _). }
    destruct stored as [dropped|[duplicate dropped]]; [untouched E|].
    unfold acknowledge in E. destruct (transmitAck t _ w1) as [[a cs2] w2] eqn:Et.
    rewrite Ep in Et.
    destruct (_ && _); injection E as <- <- <-; (split; [|done]); intros _; right; by exists w1.
Qed.
End Theorems.

(** ** The books

    The counters a frame moves are determined by what became of it, and by whether the
    queue knew its telemetry when it arrived. *)

Definition tally (s : PacketProcessingStats) : list Z :=
  [ps_validProtocolPackets s; ps_validTelemetryPackets s; ps_validCommandResultPackets s;
   ps_decodeErrors s; ps_unknownNodePackets s; ps_ackSent s; ps_ackFailures s;
   ps_durableEnqueueFailures s; ps_commandResultsConfirmed s; ps_commandResultsIgnored s;
   ps_duplicates s].

Definition contribution (known : bool) (r : PacketProcessingResult) : list Z :=
  let one d : Z := if decide (pr_disposition r = d) then 1 else 0 in
  let valid := 1 - one PacketDisposition.kDecodeRejected in
  [valid; if pr_isCommandResult r then 0 else valid;
   if pr_isCommandResult r then valid else 0;
   one PacketDisposition.kDecodeRejected;
   one PacketDisposition.kUnpairedIgnored + one PacketDisposition.kUnknownNodeIgnored;
   one PacketDisposition.kNewAcknowledged + one PacketDisposition.kDuplicateAcknowledged;
   one PacketDisposition.kAckFailed; one PacketDisposition.kDurableEnqueueFailed;
   one PacketDisposition.kCommandResultConfirmed + one PacketDisposition.kCommandResultDuplicate;
   one PacketDisposition.kCommandResultIgnored;
   one PacketDisposition.kDuplicateAcknowledged +
     (if known then one PacketDisposition.kAckFailed else 0)].

Definition add_counts (counts more : list Z) : list Z :=
  zip_with (fun c i => wrap 64 (c + i)) counts more.

Definition totals (results : list (bool * PacketProcessingResult)) : list Z :=
  foldr (zip_with Z.add) (replicate 11 0) ((fun x => contribution x.1 x.2) <$> results).

Section Books.
Context (object_bytes : CommandStoreRecord -> list Z).
Context {W : Type} `{PacketQueueSink W, AckSink W, MonotonicClock W, CommandBackend W}.

(** What becomes of the frames, each with the queue's answer, at its arrival, whether it
    knows the telemetry. *)
Fixpoint processAll (frames : list ReceivedFrame) (p : PacketProcessor) (w : W)
  : list (bool * PacketProcessingResult) * PacketProcessor * W :=
  match frames with
  | [] => ([], p, w)
  | frame :: frames =>
      let '(r, p, w1) := process object_bytes frame p w in
      let known := (containsKey (keyOf (pr_telemetry r)) w).1 in
      let '(rs, p, w) := processAll frames p w1 in ((known, r) :: rs, p, w)
  end.

Lemma tally_times frame ack s : tally (noteAckTimes frame ack s) = tally s.
Proof. destruct s. unfold noteAckTimes. by repeat split_match. Qed.

Lemma tally_enqueued frame t1 t2 s : tally (noteEnqueued frame t1 t2 s) = tally s.
Proof. destruct s. unfold noteEnqueued. by repeat split_match. Qed.

(** One more in the counters at the given positions. *)
Definition marks (positions : list nat) : list Z :=
  foldr (fun i l => <[i := 1]> l) (replicate 11 0) positions.

Ltac count_marks :=
  intros Hs; repeat (apply Forall_cons in Hs as [? Hs]);
  match goal with s : PacketProcessingStats |- _ => destruct s end; cbn in *;
  unfold tally, bump64; cbn; repeat (f_equal; try (rewrite Z.add_0_r; symmetry; by apply wrap_id)).

Lemma tally_duplicate s : Forall (is_u 64) (tally s) ->
  tally (countDuplicate s) = add_counts (tally s) (marks [10%nat]).
Proof. count_marks. Qed.

Lemma tally_decodeError s : Forall (is_u 64) (tally s) ->
  tally (countDecodeError s) = add_counts (tally s) (marks [3%nat]).
Proof. count_marks. Qed.

Lemma tally_commandResult s : Forall (is_u 64) (tally s) ->
  tally (countCommandResult s) = add_counts (tally s) (marks [0%nat; 2%nat]).
Proof. count_marks. Qed.

Lemma tally_telemetry s : Forall (is_u 64) (tally s) ->
  tally (countTelemetry s) = add_counts (tally s) (marks [0%nat; 1%nat]).
Proof. count_marks. Qed.

Lemma tally_ignored s : Forall (is_u 64) (tally s) ->
  tally (countIgnored s) = add_counts (tally s) (marks [9%nat]).
Proof. count_marks. Qed.

Lemma tally_confirmed s : Forall (is_u 64) (tally s) ->
  tally (countConfirmed s) = add_counts (tally s) (marks [8%nat]).
Proof. count_marks. Qed.

Lemma tally_unknown s : Forall (is_u 64) (tally s) ->
  tally (countUnknown s) = add_counts (tally s) (marks [4%nat]).
Proof. count_marks. Qed.

Lemma tally_enqueueFailure s : Forall (is_u 64) (tally s) ->
  tally (countEnqueueFailure s) = add_counts (tally s) (marks [7%nat]).
Proof. count_marks. Qed.

Lemma tally_ackFailure s : Forall (is_u 64) (tally s) ->
  tally (countAckFailure s) = add_counts (tally s) (marks [6%nat]).
Proof. count_marks. Qed.

Lemma tally_ackSent frame ack s : Forall (is_u 64) (tally s) ->
  tally (countAckSent frame ack s) = add_counts (tally s) (marks [5%nat]).
Proof.
  intros Hs. transitivity (tally (s <| ps_ackSent := bump64 (ps_ackSent s) |>)).
  - destruct s. unfold countAckSent. by split_match.
  - revert Hs. count_marks.
Qed.

Lemma add_counts_typed t a : Forall (is_u 64) (add_counts t a).
Proof.
  revert a. induction t as [|x t IH]; intros [|y a]; cbn; constructor; [|apply IH].
  apply wrap_range. lia.
Qed.

Lemma add_counts_add t a b :
  add_counts (add_counts t a) b = add_counts t (zip_with Z.add a b).
Proof.
  revert a b. induction t as [|x t IH]; intros [|y a] [|z b]; cbn; try done.
  f_equal; [|apply IH]. unfold wrap. rewrite Zplus_mod_idemp_l. f_equal. lia.
Qed.

(** Behind the storage of a packet the counters have moved by a failure, or by a
    duplicate when the queue knew the telemetry. *)
Lemma storePacket_tally frame t p w stored p' w' :
  Forall (is_u 64) (tally (pp_stats p)) -> storePacket frame t p w = (stored, p', w') ->
  let known := (containsKey (keyOf t) w).1 in
  match stored with
  | inl _ => known = false /\ tally (pp_stats p') = add_counts (tally (pp_stats p)) (marks [7%nat])
  | inr (duplicate, _) => duplicate = known /\
      tally (pp_stats p') =
        if known then add_counts (tally (pp_stats p)) (marks [10%nat]) else tally (pp_stats p)
  end.
Proof.
  intros Hs E known. unfold storePacket in E. unfold known, keyOf.
  destruct (containsKey _ w) as [[] w1]; cbn [fst].
  - injection E as <- <- <-. cbn [withStats pp_stats]. split; [done|]. by apply tally_duplicate.
  - destruct (nowUs w1) as [t1 w2]. destruct (durablyEnqueue _ w2) as [o w3].
    destruct (eo_persisted o); cbn [negb] in E.
    + destruct (nowUs w3) as [t2 w4]. injection E as <- <- <-. cbn [withStats pp_stats].
      split; [done|]. apply tally_enqueued.
    + injection E as <- <- <-. cbn [withStats pp_stats]. split; [done|].
      by apply tally_enqueueFailure.
Qed.

Lemma processCommandResult_tally frame p w r p' w' :
  Forall (is_u 64) (tally (pp_stats p)) ->
  processCommandResult object_bytes frame p w = (r, p', w') ->
  forall known, tally (pp_stats p') = add_counts (tally (pp_stats p)) (contribution known r).
Proof.
  intros Hs E known. unfold processCommandResult in E.
  destruct (decodeCommandResult _ _ _) as [status cr].
  destruct (bool_decide _); cbn [negb] in E.
  2:{ injection E as <- <- <-. cbn [withStats pp_stats]. rewrite tally_decodeError by done.
      by destruct known. }
  cbn [withStats pp_pairing pp_latest pp_commands pp_stats] in E.
  pose proof (tally_commandResult _ Hs) as Ec.
  assert (Forall (is_u 64) (tally (countCommandResult (pp_stats p)))) as Hs1
    by (rewrite Ec; apply add_counts_typed).
  destruct (_ || _).
  { injection E as <- <- <-. cbn [withStats pp_stats].
    rewrite tally_ignored, Ec, add_counts_add by done. by destruct known. }
  destruct (confirm _ _ _ _ w) as [[[ok d] cs] w1].
  destruct ok; cbn [negb] in E; injection E as <- <- <-; cbn [withStats pp_stats].
  - rewrite tally_confirmed, Ec, add_counts_add by done. by destruct d, known.
  - rewrite tally_ignored, Ec, add_counts_add by done. by destruct known.
Qed.

Lemma processTelemetry_tally frame p w r p' w' :
  Forall (is_u 64) (tally (pp_stats p)) ->
  processTelemetry frame p w = (r, p', w') ->
  tally (pp_stats p') =
    add_counts (tally (pp_stats p))
      (contribution (containsKey (keyOf (pr_telemetry r)) w).1 r).
Proof.
  intros Hs E. unfold processTelemetry in E.
  destruct (decodeTelemetry _ _ _) as [status t].
  destruct (bool_decide _); cbn [negb] in E.
  2:{ injection E as <- <- <-. cbn [withStats pp_stats]. rewrite tally_decodeError by done.
      by destruct (containsKey _ w) as [[] ?]. }
  cbn [withStats pp_pairing pp_latest pp_commands pp_stats] in E.
  pose proof (tally_telemetry _ Hs) as Ec.
  assert (Forall (is_u 64) (tally (countTelemetry (pp_stats p)))) as Hs1
    by (rewrite Ec; apply add_counts_typed).
  destruct (pm_pairingMode _).
  { injection E as <- <- <-. cbn [pp_stats]. rewrite Ec. by destruct (containsKey _ w) as [[] ?]. }
  destruct (paired _); cbn [negb] in E.
  2:{ injection E as <- <- <-. cbn [withStats pp_stats].
      rewrite tally_unknown, Ec, add_counts_add by done.
      by destruct (containsKey _ w) as [[] ?]. }
  destruct (pairingMatches _ _); cbn [negb] in E.
  2:{ injection E as <- <- <-. cbn [withStats pp_stats].
      rewrite tally_unknown, Ec, add_counts_add by done.
      by destruct (containsKey _ w) as [[] ?]. }
  destruct (storePacket _ _ _ w) as [[stored p1] w1] eqn:Es.
  apply storePacket_tally in Es; [|exact Hs1]. cbn [pp_stats] in Es.
  set (known := (containsKey (keyOf t) w).1) in Es. cbv zeta in Es.
  destruct stored as [dropped|[duplicate dropped]]; destruct Es as [Ek Es].
  { injection E as <- <- <-. cbn [pr_telemetry]. fold known.
    by rewrite Es, Ec, Ek, add_counts_add. }
  assert (Forall (is_u 64) (tally (pp_stats p1))) as Hs2
    by (rewrite Es; destruct known; [apply add_counts_typed|done]).
  unfold acknowledge in E. destruct (transmitAck t _ w1) as [[a cs2] w2].
  destruct (_ && _); injection E as <- <- <-; cbn [withStats pp_stats pr_telemetry]; fold known.
  - rewrite tally_ackSent, tally_times, Es, Ec, Ek by (by rewrite tally_times).
    by destruct known; rewrite !add_counts_add.
  - rewrite tally_ackFailure, tally_times, Es, Ec by (by rewrite tally_times).
    by destruct known; rewrite !add_counts_add.
Qed.

Lemma length_totals rs : length (totals rs) = 11%nat.
Proof.
  induction rs as [|r rs IH]; [done|].
  change (totals (r :: rs)) with (zip_with Z.add (contribution r.1 r.2) (totals rs)).
  by rewrite length_zip_with, IH.
Qed.

Lemma add_counts_zero t : Forall (is_u 64) t -> add_counts t (replicate (length t) 0) = t.
Proof.
  induction 1 as [|x t Hx Ht IH]; [done|]. cbn. rewrite Z.add_0_r, wrap_id by done.
  f_equal. exact IH.
Qed.

Lemma processAll_tally frames p w rs p' w' :
  Forall (is_u 64) (tally (pp_stats p)) ->
  processAll frames p w = (rs, p', w') ->
  length rs = length frames /\
  tally (pp_stats p') = add_counts (tally (pp_stats p)) (totals rs).
Proof.
  revert p w rs. induction frames as [|frame frames IH]; intros p w rs Hs E;
    cbn [processAll] in E.
  - injection E as <- <- <-. split; [done|]. symmetry. by apply (add_counts_zero (tally _)).
  - destruct (process object_bytes frame p w) as [[r p1] w1] eqn:Ep.
    destruct (processAll frames p1 w1) as [[rs1 p2] w2] eqn:Ea. injection E as <- <- <-.
    assert (tally (pp_stats p1) = add_counts (tally (pp_stats p))
      (contribution (containsKey (keyOf (pr_telemetry r)) w).1 r)) as Et.
    { unfold process in Ep. destruct (_ && _);
        [by eapply processCommandResult_tally|by eapply processTelemetry_tally]. }
    apply IH in Ea as [El Ea]; [|rewrite Et; apply add_counts_typed].
    split; [cbn; lia|]. by rewrite Ea, Et, add_counts_add.
Qed.

(** C23: the statistics are the books of what became of the frames: after any sequence
    of frames each of the eleven counters is, modulo 2^64, the number of frames with the
    dispositions it counts; for the duplicates these are the frames acknowledged as such
    and those whose acknowledgement failed although the queue, asked when the frame
    arrived, knew the telemetry.  (The other fields are the latest times and the latency
    statistics, [noteAckTimes] and [record_ack].) *)
Theorem statistics_keep_books frames pairing commands latest w rs p' w' :
  processAll frames (mkPacketProcessor pairing commands PacketProcessingStats_init latest) w =
    (rs, p', w') ->
  length rs = length frames /\ tally (pp_stats p') = wrap 64 <$> totals rs.
Proof.
  intros E. apply processAll_tally in E as [El Et]; [|by repeat constructor].
  split; [done|]. rewrite Et. cbn [pp_stats].
  assert (forall t l : list Z, t = replicate (length l) 0 -> add_counts t l = wrap 64 <$> l) as Hz.
  { intros t l ->. induction l as [|x l IH]; [done|]. cbn. f_equal. exact IH. }
  apply Hz. by rewrite length_totals.
Qed.
End Books.
