(* ===== verification/DurableQueue.v ===== *)
(** * The durable queue of the firmware (lib/queue/durable_queue, DurableQueue)

    The core queue on the flash storage, together with the ring of recently
    finished telemetry, its persistence and the operational counters.  The flash,
    the preferences in NVS and the millisecond clock act on one environment [E].
    A mutex that exists is always obtained ([portMAX_DELAY]). *)

From Stdlib Require Import ZArith Lia String.
From S2P Require Import Prelude BuildConfig CString ByteIO Protocol QueueRecord Dedup QueueStorage.
From S2P Require Import DurableQueueCore FlashStorage PacketProcessor Platform.
Open Scope Z_scope.

(** ** The library calls *)

(** [Preferences]: typed values under keys of an opened name space.  The writes
    answer the number of bytes written. *)
Class Preferences (E : Type) := {
  prefs_begin : string -> bool -> E -> bool * E;
  prefs_getBool : string -> bool -> E -> bool * E;
  prefs_putBool : string -> bool -> E -> Z * E;
  prefs_getULong64 : string -> Z -> E -> Z * E;
  prefs_putULong64 : string -> Z -> E -> Z * E;
}.

(** ** Data *)

Record QueueOperationalStats := mkQueueOperationalStats {
  qo_recordsUploaded : Z;
  qo_uploadRetries : Z;
  qo_recordsDeduplicated : Z;
  qo_recordsPermanentlyRejected : Z;
  qo_recordsDroppedOldest : Z;
  qo_filesystemErrors : Z;
}.

Definition QueueOperationalStats_init : QueueOperationalStats :=
  mkQueueOperationalStats 0 0 0 0 0 0.

Record QueueTerminalAction := mkQueueTerminalAction {
  qa_recordId : Z;
  qa_key : TelemetryKey;
  qa_permanentlyRejected : bool;
}.

(** [dq_mutex]: the mutex exists. *)
Record DurableQueue := mkDurableQueue {
  dq_core : option DurableQueueCore;
  dq_recent : RecentDeduplicator;
  dq_mutex : bool;
  dq_stats : QueueOperationalStats;
  dq_mutationsSinceCheckpoint : Z;
  dq_lastCheckpointMs : Z;
  dq_observedCoreDropped : Z;
  dq_observedCoreErrors : Z;
  dq_healthy : bool;
}.

Definition DurableQueue_init : DurableQueue :=
  mkDurableQueue None (RecentDeduplicator_new kRecentDedupCapacity) false
    QueueOperationalStats_init 0 0 0 0 false.

(** [x += n] on the 64-bit counters. *)
Definition add64 (x n : Z) : Z := wrap 64 (x + n).

Definition addErrors (n : Z) (q : DurableQueue) : DurableQueue :=
  q <| dq_stats->qo_filesystemErrors := add64 (qo_filesystemErrors (dq_stats q)) n |>.

Definition addDropped (n : Z) (q : DurableQueue) : DurableQueue :=
  q <| dq_stats->qo_recordsDroppedOldest := add64 (qo_recordsDroppedOldest (dq_stats q)) n |>.

Definition noteMutation (q : DurableQueue) : DurableQueue :=
  q <| dq_mutationsSinceCheckpoint := wrap 32 (dq_mutationsSinceCheckpoint q + 1) |>.

(** ** Capacity *)

Definition deriveCapacity (filesystemBytes : Z) : Z :=
  if filesystemBytes <=? kQueueReservedBytes then 1
  else
    let perRecord := Z.of_nat kMaximumEncodedBytes + kEstimatedLittleFsFileOverhead in
    let capacity := (filesystemBytes - kQueueReservedBytes) / perRecord in
    let capacity := wrap 64 (capacity * 4) / 5 in
    let capacity := if capacity =? 0 then 1 else capacity in
    let capacity := if kQueueCapacityHardMax <? capacity then kQueueCapacityHardMax
                    else capacity in
    wrap 32 capacity.

(** ** The recent keys as bytes *)

Definition kRecentMagic : Z := 0x47544431.
Definition kRecentPath : list Z := chars "/queue/recent.bin".
Definition kRecentTempPath : list Z := chars "/queue/recent.tmp".

Definition writeU32 (bytes : list Z) (value : Z) : list Z :=
  bytes ++ [wrap 8 (Z.shiftr value 24); wrap 8 (Z.shiftr value 16);
            wrap 8 (Z.shiftr value 8); wrap 8 value].

(** The cursor is the list of the bytes up to [end]. *)
Definition readU32 (cursor : list Z) : option (Z * list Z) :=
  if (length cursor <? 4)%nat then None
  else
    let b i := default 0 (cursor !! i) in
    Some (Z.lor (Z.lor (Z.lor (Z.shiftl (b 0%nat) 24) (Z.shiftl (b 1%nat) 16))
                   (Z.shiftl (b 2%nat) 8)) (b 3%nat), drop 4 cursor).

Definition encodeKey (bytes : list Z) (key : TelemetryKey) : list Z :=
  let length := strnlen (tk_nodeId key) kNodeIdCapacity in
  let bytes := bytes ++ [wrap 8 (Z.of_nat length)] in
  let bytes := bytes ++ take length (tk_nodeId key) in
  let bytes := writeU32 bytes (tk_persistentSessionId key) in
  writeU32 bytes (tk_sequence key).

Definition encodeRecent (recent : RecentDeduplicator) : list Z :=
  let bytes := writeU32 [] kRecentMagic ++ [wrap 8 (Z.of_nat (rd_size recent))] in
  let bytes := foldl (fun bytes index => encodeKey bytes (oldestAt recent index)) bytes
                 (List.seq 0 (rd_size recent)) in
  writeU32 bytes (crc32 bytes (length bytes)).

(** The loop of [loadRecent]: one key at a time into the ring. *)
Fixpoint decodeKeys (count : nat) (cursor : list Z) (recent : RecentDeduplicator)
  : bool * list Z * RecentDeduplicator :=
  match count with
  | O => (true, cursor, recent)
  | S count =>
      match cursor with
      | [] => (false, cursor, recent)
      | len :: cursor =>
          let n := Z.to_nat len in
          if (n =? 0)%nat || (kNodeIdCapacity <=? n)%nat || (length cursor <? n + 8)%nat
          then (false, cursor, recent)
          else
            let nodeId := take n cursor ++ drop n (zeros kNodeIdCapacity) in
            let cursor := drop n cursor in
            if negb (nodeIdValid (Some nodeId)) then (false, cursor, recent)
            else match readU32 cursor with
            | None => (false, cursor, recent)
            | Some (boot, cursor) =>
                match readU32 cursor with
                | None => (false, cursor, recent)
                | Some (sequence, cursor) =>
                    decodeKeys count cursor
                      (snd (remember recent (makeTelemetryKey (Some nodeId) boot sequence)))
                end
            end
      end
  end.

(** The rest of [loadRecent], on the bytes of the file. *)
Definition decodeRecent (bytes : list Z) (recent : RecentDeduplicator)
  : bool * RecentDeduplicator :=
  let body := (length bytes - 4)%nat in
  let b i := default 0 (bytes !! (length bytes - i)%nat) in
  let storedCrc := Z.lor (Z.lor (Z.lor (Z.shiftl (b 4%nat) 24) (Z.shiftl (b 3%nat) 16))
                            (Z.shiftl (b 2%nat) 8)) (b 1%nat) in
  if negb (storedCrc =? crc32 bytes body) then (false, recent)
  else
    match readU32 (take body bytes) with
    | None => (false, recent)
    | Some (magic, cursor) =>
        if negb (magic =? kRecentMagic) then (false, recent)
        else match cursor with
        | [] => (false, recent)
        | count :: cursor =>
            if Z.of_nat kRecentDedupCapacity <? count then (false, recent)
            else
              let '(ok, cursor, recent) :=
                decodeKeys (Z.to_nat count) cursor (dedupClear recent) in
              (ok && (length cursor =? 0)%nat, recent)
        end
    end.

(** ** Operations *)

Section Operations.
Context {E : Type} `{FileSystem E, Preferences E, Millis E}.

Definition loadRecent (q : DurableQueue) (e : E) : bool * DurableQueue * E :=
  let '(presence, e) := filePresence kRecentPath e in
  if presence =? 0 then (true, q, e)
  else if presence <? 0 then (false, q, e)
  else
    let '(file, e) := fs_open kRecentPath e in
    match file with
    | None => (false, q, e)
    | Some (_, size) =>
        if (size <? 9)%nat || (4096 <? size)%nat then (false, q, e)
        else
          let '(bytes, e) := fs_read kRecentPath size e in
          if negb (length bytes =? size)%nat then (false, q, e)
          else
            let '(ok, recent) := decodeRecent bytes (dq_recent q) in
            (ok, q <| dq_recent := recent |>, e)
    end.

Definition persistRecent (q : DurableQueue) (e : E) : bool * E :=
  let bytes := encodeRecent (dq_recent q) in
  let '(cleared, e) := silentlyUnlink kRecentTempPath e in
  if negb cleared then (false, e) else
  let '(written, e) := fs_write kRecentTempPath bytes e in
  match written with
  | None => (false, e)
  | Some n =>
      if negb (n =? length bytes)%nat
      then let '(_, e) := silentlyUnlink kRecentTempPath e in (false, e)
      else fs_rename kRecentTempPath kRecentPath e
  end.

Definition loadCounters (q : DurableQueue) (e : E) : DurableQueue * E :=
  let '(uploaded, e) := prefs_getULong64 "uploaded" 0 e in
  let '(retries, e) := prefs_getULong64 "retries" 0 e in
  let '(dedup, e) := prefs_getULong64 "dedup" 0 e in
  let '(rejected, e) := prefs_getULong64 "rejected" 0 e in
  let '(dropped, e) := prefs_getULong64 "dropped" 0 e in
  let '(errors, e) := prefs_getULong64 "fs-errors" 0 e in
  (q <| dq_stats := mkQueueOperationalStats uploaded retries dedup rejected dropped errors |>,
   e).

Definition persistCounters (q : DurableQueue) (e : E) : bool * DurableQueue * E :=
  let s := dq_stats q in
  let '(n1, e) := prefs_putULong64 "uploaded" (qo_recordsUploaded s) e in
  let '(n2, e) := prefs_putULong64 "retries" (qo_uploadRetries s) e in
  let '(n3, e) := prefs_putULong64 "dedup" (qo_recordsDeduplicated s) e in
  let '(n4, e) := prefs_putULong64 "rejected" (qo_recordsPermanentlyRejected s) e in
  let '(n5, e) := prefs_putULong64 "dropped" (qo_recordsDroppedOldest s) e in
  let '(n6, e) := prefs_putULong64 "fs-errors" (qo_filesystemErrors s) e in
  let okay := forallb (fun n => 0 <? n) [n1; n2; n3; n4; n5; n6] in
  if okay then
    let '(now, e) := millis e in
    (okay, q <| dq_mutationsSinceCheckpoint := 0 |> <| dq_lastCheckpointMs := now |>, e)
  else (okay, q, e).

Definition checkpointCountersUnlocked (force : bool) (q : DurableQueue) (e : E)
  : DurableQueue * E :=
  let '(now, e) := millis e in
  if negb force && (dq_mutationsSinceCheckpoint q <? 16) &&
     (wrap 32 (now - dq_lastCheckpointMs q) <? 60000)
  then (q, e)
  else let '(_, q, e) := persistCounters q e in (q, e).

(** [begin] after the recovery of the core. *)
Definition finishBegin (core : DurableQueueCore) (q : DurableQueue) (e : E)
  : bool * DurableQueue * E :=
  let q := q <| dq_observedCoreDropped := qs_droppedOldest (c_stats core) |>
             <| dq_observedCoreErrors :=
                  wrap 32 (qs_storageErrors (c_stats core) +
                           qs_corruptRecords (c_stats core)) |> in
  let '(q, e) := loadCounters q e in
  let q := addDropped (dq_observedCoreDropped q) q in
  let q := addErrors (dq_observedCoreErrors q) q in
  let '(recentReady, q, e) := loadRecent q e in
  let '(q, e) :=
    if negb recentReady then
      let q := q <| dq_recent := dedupClear (dq_recent q) |> in
      let q := addErrors 1 q in
      let '(unlinked, e) := silentlyUnlink kRecentPath e in
      (if negb unlinked then addErrors 1 q else q, e)
    else (q, e) in
  let '(q, e) :=
    if (0 <? dq_observedCoreDropped q) || (0 <? dq_observedCoreErrors q) || negb recentReady
    then let '(_, q, e) := persistCounters q e in (q, e)
    else (q, e) in
  (true, q <| dq_healthy := true |>, e).

(** [created]: the outcome of [xSemaphoreCreateMutex]. *)
Definition queueBegin (created : bool) (q : DurableQueue) (e : E)
  : bool * DurableQueue * E :=
  let q := q <| dq_mutex := created |> in
  if negb created then (false, q, e) else
  let '(opened, e) := prefs_begin "gw-queue" false e in
  if negb opened then (false, q, e) else
  let '(initializedBefore, e) := prefs_getBool "fs-ready" false e in
  let '(mounted, e) := storageBegin (negb initializedBefore) e in
  if negb mounted then (false, q, e) else
  let '(marked, e) :=
    if negb initializedBefore then
      let '(n, e) := prefs_putBool "fs-ready" true e in ((n =? 1), e)
    else (true, e) in
  if negb marked then (false, q, e) else
  let core := DurableQueueCore_new (Z.to_nat (deriveCapacity (fs_totalBytes e))) in
  let '(recovered, core, e) := recover core e in
  let q := q <| dq_core := Some core |> in
  if negb recovered then (false, q, e) else
  finishBegin core q e.

(** [lock && healthy_ && core_ != nullptr]. *)
Definition ready (q : DurableQueue) : option DurableQueueCore :=
  if dq_mutex q && dq_healthy q then dq_core q else None.

Definition queueEnqueue (record : QueueRecord) (q : DurableQueue) (e : E)
  : EnqueueOutcome * QueueRecord * DurableQueue * E :=
  match ready q with
  | None => (mkEnqueueOutcome false false, record, q, e)
  | Some core =>
      let beforeDropped := qs_droppedOldest (c_stats core) in
      let beforeErrors := qs_storageErrors (c_stats core) in
      let '(result, record, core, e) := enqueue core e record in
      let q := q <| dq_core := Some core |> in
      let q := addDropped (wrap 32 (qs_droppedOldest (c_stats core) - beforeDropped)) q in
      let q := addErrors (wrap 32 (qs_storageErrors (c_stats core) - beforeErrors)) q in
      let droppedSome := negb (qs_droppedOldest (c_stats core) =? beforeDropped) in
      let '(q, e) :=
        if droppedSome then let '(_, q, e) := persistCounters q e in (q, e) else (q, e) in
      (mkEnqueueOutcome result droppedSome, record, q, e)
  end.

Definition queuePeek (limit : nat) (q : DurableQueue) (e : E)
  : bool * list QueueRecord * DurableQueue * E :=
  match ready q with
  | None => (false, [], q, e)
  | Some core =>
      let '(ok, records, core, e) := peek limit core e in
      (ok, records, q <| dq_core := Some core |>, e)
  end.

Definition queueContainsKey (key : TelemetryKey) (q : DurableQueue) (e : E)
  : bool * DurableQueue * E :=
  match ready q with
  | None => (false, q, e)
  | Some core =>
      let beforeErrors := qs_storageErrors (c_stats core) in
      let '(contained, core, e) :=
        if dedupContains (dq_recent q) key then (true, core, e)
        else queueContains key core e in
      let q := q <| dq_core := Some core |> in
      (contained,
       addErrors (wrap 32 (qs_storageErrors (c_stats core) - beforeErrors)) q, e)
  end.

(** The loop of [finish]: the removals and what is remembered of them. *)
Fixpoint finishActions (actions : list QueueTerminalAction) (core : DurableQueueCore)
    (success changedRecent : bool) (q : DurableQueue) (e : E)
  : bool * bool * DurableQueueCore * DurableQueue * E :=
  match actions with
  | [] => (success, changedRecent, core, q, e)
  | action :: actions =>
      let '(removed, core, e) := queueRemove (qa_recordId action) core e in
      if negb removed then finishActions actions core false changedRecent (addErrors 1 q) e
      else
        let '(remembered, recent) := remember (dq_recent q) (qa_key action) in
        let q := q <| dq_recent := recent |> in
        let q :=
          if qa_permanentlyRejected action
          then q <| dq_stats->qo_recordsPermanentlyRejected :=
                      add64 (qo_recordsPermanentlyRejected (dq_stats q)) 1 |>
          else q <| dq_stats->qo_recordsUploaded :=
                      add64 (qo_recordsUploaded (dq_stats q)) 1 |> in
        finishActions actions core success (remembered || changedRecent)
          (noteMutation q) e
  end.

Definition finish (actions : list QueueTerminalAction) (q : DurableQueue) (e : E)
  : bool * DurableQueue * E :=
  match ready q with
  | None => (false, q, e)
  | Some core =>
      let '(success, changedRecent, core, q, e) :=
        finishActions actions core true false q e in
      let q := q <| dq_core := Some core |> in
      let '(success, q, e) :=
        if changedRecent then
          let '(persisted, e) := persistRecent q e in
          if negb persisted then (false, addErrors 1 q, e) else (success, q, e)
        else (success, q, e) in
      let '(q, e) := checkpointCountersUnlocked false q e in
      (success, q, e)
  end.

Definition recordDuplicate (q : DurableQueue) : DurableQueue :=
  if negb (dq_mutex q) then q
  else noteMutation (q <| dq_stats->qo_recordsDeduplicated :=
                            add64 (qo_recordsDeduplicated (dq_stats q)) 1 |>).

Definition recordUploadRetry (q : DurableQueue) (e : E) : DurableQueue * E :=
  if negb (dq_mutex q) then (q, e)
  else
    let q := noteMutation (q <| dq_stats->qo_uploadRetries :=
                                  add64 (qo_uploadRetries (dq_stats q)) 1 |>) in
    checkpointCountersUnlocked false q e.

Definition recordFilesystemError (q : DurableQueue) : DurableQueue :=
  if negb (dq_mutex q) then q else noteMutation (addErrors 1 q).

Definition checkpointCounters (force : bool) (q : DurableQueue) (e : E) : DurableQueue * E :=
  if dq_mutex q then checkpointCountersUnlocked force q e else (q, e).

Definition durableSize (q : DurableQueue) : nat :=
  if dq_mutex q then match dq_core q with Some core => queueSize core | None => 0%nat end
  else 0%nat.

Definition durableCapacity (q : DurableQueue) : nat :=
  if dq_mutex q then match dq_core q with Some core => c_capacity core | None => 0%nat end
  else 0%nat.

Definition filesystemTotalBytes (q : DurableQueue) (e : E) : Z :=
  if dq_mutex q then fs_totalBytes e else 0.

Definition filesystemUsedBytes (q : DurableQueue) (e : E) : Z :=
  if dq_mutex q then fs_usedBytes e else 0.

Definition operationalStats (q : DurableQueue) : QueueOperationalStats :=
  if dq_mutex q then dq_stats q else QueueOperationalStats_init.

End Operations.
