(* ===== verification/RecentCodec.v ===== *)
(** * The recent keys as bytes (lib/queue/durable_queue, [persistRecent], [loadRecent])

    What is written of the ring, and that reading it back gives the same keys. *)

From Stdlib Require Import ZArith Lia.
From stdpp Require Import list sorting.
From S2P Require Import Prelude BuildConfig CString ByteIO Protocol ProtocolSpec QueueRecord.
From S2P Require Import QueueRecordSpec QueueRecordCodec Dedup DurableQueueCore DurableQueue.
Open Scope Z_scope.

(** ** The form *)

Record key_wf (k : TelemetryKey) : Prop := {
  kw_node : node_ok (tk_nodeId k);
  kw_session : is_u 32 (tk_persistentSessionId k);
  kw_sequence : is_u 32 (tk_sequence k);
}.

Definition keyWire (k : TelemetryKey) : list Z :=
  [wrap 8 (Z.of_nat (length (nodeText (tk_nodeId k))))] ++ nodeText (tk_nodeId k) ++
  be32 (tk_persistentSessionId k) ++ be32 (tk_sequence k).

Definition recentBody (d : RecentDeduplicator) : list Z :=
  be32 kRecentMagic ++ [wrap 8 (Z.of_nat (rd_size d))] ++ concat (keyWire <$> recent d).

Lemma encodeKey_wire bytes k : encodeKey bytes k = bytes ++ keyWire k.
Proof.
  unfold encodeKey, writeU32, keyWire, nodeText. rewrite length_c_text, <- !app_assoc. done.
Qed.

Lemma encodeRecent_wire d : encodeRecent d = with_crc (recentBody d).
Proof.
  unfold encodeRecent, with_crc, recentBody, recent.
  set (head := writeU32 [] kRecentMagic ++ _).
  assert (forall l bytes, foldl (fun bytes index => encodeKey bytes (oldestAt d index)) bytes l =
    bytes ++ concat (keyWire <$> (oldestAt d <$> l))) as Hf.
  { induction l as [|i l IH]; intros bytes; cbn; [by rewrite app_nil_r|].
    by rewrite IH, encodeKey_wire, <- app_assoc. }
  rewrite Hf. unfold head, writeU32. cbn [app]. by rewrite <- app_assoc.
Qed.

(** The file is never short, nor too long for [loadRecent]. *)
Lemma length_encodeRecent d :
  ring_ok d -> (9 <= length (encodeRecent d) <= 4096)%nat.
Proof.
  intros [_ Hc Hs _ _]. rewrite encodeRecent_wire. unfold with_crc, recentBody.
  rewrite !length_app. cbn [length be32].
  assert (forall l, length (concat (keyWire <$> l)) <= 34 * length l)%nat as Hl.
  { induction l as [|k l IH]; [done|]. cbn [fmap list_fmap concat length]. rewrite length_app.
    unfold keyWire at 1. rewrite !length_app. unfold nodeText. rewrite !length_c_text.
    pose proof (strnlen_le_n (tk_nodeId k) kNodeIdCapacity). unfold kNodeIdCapacity in *.
    cbn [length be32]. lia. }
  specialize (Hl (recent d)). rewrite length_recent in Hl. unfold kRecentDedupCapacity in *. lia.
Qed.

(** ** Reading a key *)

Lemma be32_lor v :
  is_u 32 v ->
  Z.lor (Z.lor (Z.lor (Z.shiftl (wrap 8 (Z.shiftr v 24)) 24) (Z.shiftl (wrap 8 (Z.shiftr v 16)) 16))
           (Z.shiftl (wrap 8 (Z.shiftr v 8)) 8)) (wrap 8 v) = v.
Proof.
  intros Hv. rewrite lor32 by (apply wrap_range; lia). apply (be32_value v Hv).
Qed.

Lemma readU32_be32 v tl : is_u 32 v -> readU32 (be32 v ++ tl) = Some (v, tl).
Proof.
  intros Hv. unfold readU32. destruct (Nat.ltb_spec (length (be32 v ++ tl)) 4) as [Hl|_].
  { rewrite length_app in Hl. cbn in Hl. lia. }
  change (Some (Z.lor (Z.lor (Z.lor (Z.shiftl (wrap 8 (Z.shiftr v 24)) 24)
    (Z.shiftl (wrap 8 (Z.shiftr v 16)) 16)) (Z.shiftl (wrap 8 (Z.shiftr v 8)) 8)) (wrap 8 v), tl) =
    Some (v, tl)). by rewrite be32_lor.
Qed.

(** A padded identifier is its own copy. *)
Lemma node_copy node :
  node_ok node -> strncpy (zeros kNodeIdCapacity) node (kNodeIdCapacity - 1) = node.
Proof.
  intros [[Hl Hp] Hv]. apply nodeIdValid_spec in Hv as [Hn _].
  unfold nodeText in Hn. rewrite length_c_text in Hn.
  assert (strnlen node (kNodeIdCapacity - 1) = strnlen node kNodeIdCapacity) as E.
  { rewrite Hp at 1. rewrite strnlen_padded; rewrite ?length_c_text; [done| |unfold kNodeIdCapacity in *; lia].
    apply c_text_no_nul. }
  etransitivity; [|symmetry; exact Hp]. unfold strncpy, c_text, zeros. rewrite E. f_equal.
  rewrite drop_replicate, <- replicate_add. f_equal. unfold kNodeIdCapacity in *. lia.
Qed.

Lemma makeTelemetryKey_node node session sequence :
  node_ok node ->
  makeTelemetryKey (Some node) session sequence = mkTelemetryKey node session sequence.
Proof.
  intros Hn. unfold makeTelemetryKey.
  change (mkTelemetryKey (strncpy (zeros kNodeIdCapacity) node (kNodeIdCapacity - 1))
    session sequence = mkTelemetryKey node session sequence). by rewrite node_copy.
Qed.

Lemma makeTelemetryKey_wf k :
  key_wf k -> makeTelemetryKey (Some (tk_nodeId k)) (tk_persistentSessionId k) (tk_sequence k) = k.
Proof. intros [Hn _ _]. rewrite makeTelemetryKey_node by done. by destruct k. Qed.

Lemma decodeKey_wire count k tl d :
  key_wf k ->
  decodeKeys (S count) (keyWire k ++ tl) d = decodeKeys count tl (snd (remember d k)).
Proof.
  intros W. pose proof W as [[[Hl Hp] Hv] Hs Hq]. pose proof Hv as Hv'.
  apply nodeIdValid_spec in Hv' as [Hn _]. unfold keyWire. set (t := nodeText (tk_nodeId k)) in *.
  rewrite wrap_id by (unfold is_u, kNodeIdCapacity in *; lia).
  cbn [app decodeKeys]. rewrite Nat2Z.id.
  destruct (Nat.eqb_spec (length t) 0); [lia|]. destruct (Nat.leb_spec kNodeIdCapacity (length t)); [lia|].
  rewrite <- app_assoc. rewrite <- app_assoc.
  destruct (Nat.ltb_spec (length (t ++ be32 (tk_persistentSessionId k) ++ be32 (tk_sequence k) ++ tl))
    (length t + 8)) as [Hx|_]; [rewrite !length_app in Hx; cbn in Hx; lia|]. cbn [orb].
  rewrite take_app_length, drop_app_length.
  assert (t ++ drop (length t) (zeros kNodeIdCapacity) = tk_nodeId k) as ->.
  { etransitivity; [|symmetry; exact Hp]. unfold t, nodeText, zeros.
    by rewrite drop_replicate, length_c_text. }
  rewrite Hv. cbn [negb]. rewrite !readU32_be32 by done. by rewrite makeTelemetryKey_wf.
Qed.

(** ** Reading them all *)

Definition differ (a b : TelemetryKey) : Prop := telemetryKeyEqual a b = false.

Lemma sorted_middle {A} (R : A -> A -> Prop) l k l' :
  StronglySorted R (l ++ k :: l') -> Forall (fun x => R x k) l.
Proof.
  induction l as [|x l IH]; intros Hs; [constructor|]. inversion Hs as [|? ? Hs' Hx]; subst.
  constructor; [|by apply IH]. rewrite Forall_app, Forall_cons in Hx. tauto.
Qed.

Lemma decodeKeys_wire l d tl :
  Forall key_wf l -> ring_ok d -> StronglySorted differ (recent d ++ l) ->
  (rd_size d + length l <= rd_capacity d)%nat ->
  exists d', decodeKeys (length l) (concat (keyWire <$> l) ++ tl) d = (true, tl, d') /\
    ring_ok d' /\ recent d' = recent d ++ l.
Proof.
  intros Hw. revert d. induction Hw as [|k l Hk Hl IH]; intros d Hd Hs Hc.
  { exists d. by rewrite app_nil_r. }
  cbn [fmap list_fmap concat length]. rewrite <- app_assoc, decodeKey_wire by done.
  cbn [length] in Hc. pose proof (sorted_middle _ _ _ _ Hs) as Hdiff.
  assert (dedupContains d k = false) as Ec.
  { rewrite contains_recent. apply not_true_iff_false. intros (x & Hx & He)%existsb_exists.
    rewrite Forall_forall in Hdiff. apply list_elem_of_In, Hdiff in Hx. unfold differ in Hx. congruence. }
  destruct (remember d k) as [b d1] eqn:Er.
  assert (b = true) as -> by (unfold remember in Er; rewrite Ec in Er; by injection Er).
  pose proof (remember_ok d k Hd) as Hd1. pose proof (remember_filling d k d1 Hd) as Hr.
  destruct (remember_refines d k Hd) as (_ & _ & Hcap). rewrite Er in *. cbn [snd] in *.
  specialize (Hr ltac:(lia) eq_refl).
  destruct (IH d1 Hd1) as (d' & E & Hd' & Hr').
  - rewrite Hr, <- app_assoc. exact Hs.
  - apply (f_equal length) in Hr. rewrite length_app, !length_recent in Hr. cbn in Hr. lia.
  - exists d'. rewrite E, Hr', Hr, <- app_assoc. done.
Qed.

(** What [loadRecent] makes of what [persistRecent] writes. *)
Lemma decodeRecent_encodeRecent d r0 :
  ring_ok d -> Forall key_wf (recent d) -> StronglySorted differ (recent d) ->
  ring_ok r0 -> (rd_size d <= rd_capacity r0)%nat ->
  exists d', decodeRecent (encodeRecent d) r0 = (true, d') /\ ring_ok d' /\ recent d' = recent d.
Proof.
  intros Hd Hw Hs H0 Hc. rewrite encodeRecent_wire. unfold decodeRecent, with_crc.
  set (body := recentBody d). set (crc := crc32 body (length body)).
  assert (is_u 32 crc) as Hcrc by (apply wrap_range; lia).
  assert (length (body ++ be32 crc) = (length body + 4)%nat) as El
    by (rewrite length_app; reflexivity).
  rewrite El.
  assert (forall i, (1 <= i <= 4)%nat ->
    (body ++ be32 crc) !! (length body + 4 - i)%nat = be32 crc !! (4 - i)%nat) as Hlast.
  { intros i Hi. rewrite lookup_app_r by lia. f_equal. lia. }
  rewrite !Hlast by lia. replace (length body + 4 - 4)%nat with (length body) by lia.
  cbn [be32 lookup list_lookup Nat.sub default from_option id]. rewrite be32_lor by done.
  rewrite crc32_take, take_app_length. fold crc. rewrite Z.eqb_refl. cbn [negb].
  unfold body at 1, recentBody. rewrite readU32_be32 by done. rewrite Z.eqb_refl. cbn [negb app].
  pose proof (ro_capacity _ H0) as Hcap. pose proof (ro_size _ Hd) as Hsize.
  rewrite wrap_id by (unfold is_u, kRecentDedupCapacity in *; lia).
  destruct (Z.ltb_spec (Z.of_nat kRecentDedupCapacity) (Z.of_nat (rd_size d))); [lia|].
  rewrite Nat2Z.id, <- (length_recent d), <- (app_nil_r (concat _)).
  destruct (decodeKeys_wire (recent d) (dedupClear r0) []) as (d' & E & Hd' & Hr'); [done|..].
  - by apply clear_ok.
  - done.
  - rewrite length_recent. cbn. lia.
  - rewrite E. by exists d'.
Qed.

(** ** Rings of well-formed keys *)

(** A key made of a valid identifier. *)
Lemma makeTelemetryKey_bytes node session sequence :
  nodeIdValid (Some node) = true -> bytes_ok (tk_nodeId (makeTelemetryKey (Some node) session sequence)).
Proof.
  intros Hv.
  change (bytes_ok (strncpy (zeros kNodeIdCapacity) node (kNodeIdCapacity - 1))).
  unfold strncpy. rewrite !Forall_app. split_and!.
  - assert (take (strnlen node (kNodeIdCapacity - 1)) node =
      take (strnlen node (kNodeIdCapacity - 1)) (nodeText node)) as ->.
    { unfold nodeText, c_text. rewrite take_take. f_equal.
      unfold kNodeIdCapacity.
      pose proof (strnlen_le_mono node (25 - 1) 25). lia. }
    apply Forall_take. by apply nodeText_bytes.
  - apply Forall_replicate. vm_compute. split; congruence.
  - apply Forall_drop, Forall_replicate. vm_compute. split; congruence.
Qed.

Lemma key_wf_bytes k : key_wf k -> bytes_ok (tk_nodeId k).
Proof.
  intros W. rewrite <- (makeTelemetryKey_wf k W). apply makeTelemetryKey_bytes. apply W.
Qed.

Lemma keyOf_wf t : telemetry_wf t -> key_wf (keyOf t).
Proof.
  intros W. pose proof (wf_node _ W) as Hn. pose proof (wf_typed _ W) as T.
  unfold keyOf. rewrite makeTelemetryKey_node by done. split; [done|apply T..].
Qed.

(** A ring whose keys are well-formed and differ. *)
Record ring_wf (r : RecentDeduplicator) : Prop := {
  rw_ok : ring_ok r;
  rw_keys : Forall key_wf (recent r);
  rw_differ : StronglySorted differ (recent r);
}.

Lemma differ_drop n l : StronglySorted differ l -> StronglySorted differ (drop n l).
Proof.
  revert n. induction l as [|k l IH]; intros [|n] Hs; try done. cbn. apply IH.
  by inversion Hs.
Qed.

Lemma differ_snoc l k :
  StronglySorted differ l -> Forall (fun x => differ x k) l -> StronglySorted differ (l ++ [k]).
Proof.
  induction 1 as [|x l Hs IH Hx]; intros Hk; cbn; [repeat constructor|].
  apply Forall_cons in Hk as [Hxk Hk]. constructor; [by apply IH|].
  apply Forall_app. split; [done|]. by constructor.
Qed.

Lemma remember_wf r k : ring_wf r -> key_wf k -> ring_wf (snd (remember r k)).
Proof.
  intros [Ho Hw Hd] Hk. destruct (remember_refines r k Ho) as (_ & Er & _).
  split; [by apply remember_ok|rewrite Er..]; unfold remember_list;
    destruct (existsb _ (recent r)) eqn:Ex; cbn [snd]; try done.
  - apply Forall_drop, Forall_app. split; [done|]. by constructor.
  - apply differ_drop, differ_snoc; [done|]. apply Forall_forall. intros x Hx.
    apply not_true_iff_false. intros He. apply not_true_iff_false in Ex. apply Ex.
    apply existsb_exists. exists x. by rewrite <- list_elem_of_In.
Qed.

Lemma new_wf : ring_wf (RecentDeduplicator_new kRecentDedupCapacity).
Proof. split; [apply new_ok|constructor..]. Qed.

Lemma keyWire_bytes k : key_wf k -> bytes_ok (keyWire k).
Proof.
  intros [[_ Hv] Hs Hq]. unfold keyWire. rewrite !Forall_app. split_and!.
  - repeat constructor; apply wrap_range; lia.
  - by apply nodeText_bytes.
  - repeat constructor; apply wrap_range; lia.
  - repeat constructor; apply wrap_range; lia.
Qed.

Lemma encodeRecent_bytes r : ring_wf r -> bytes_ok (encodeRecent r).
Proof.
  intros [_ Hw _]. rewrite encodeRecent_wire. unfold with_crc, recentBody. rewrite !Forall_app.
  split_and!; try (repeat constructor; apply wrap_range; lia).
  apply Forall_concat, Forall_fmap. eapply Forall_impl; [exact Hw|]. intros k. apply keyWire_bytes.
Qed.
