(* ===== verification/DurableQueueWorld.v ===== *)
(** * The durable queue as the sink of the packet processor

    [DurableQueue] on a flash with the laws of the file system keeps the contents
    of the core queue, whatever the preferences and the clock do. *)

From Stdlib Require Import ZArith Lia String.
From stdpp Require Import gmap sorting.
From S2P Require Import Prelude BuildConfig CString ByteIO Protocol ProtocolSpec QueueRecord.
From S2P Require Import QueueRecordSpec QueueRecordCodec Dedup QueueStorage DurableQueueCore.
From S2P Require Import DurableQueueSpec DurableQueueRecovery DurableQueueTheorems FlashStorage.
From S2P Require Import FlashStorageLaws Pairing CommandStore Metrics PacketProcessor.
From S2P Require Import PacketProcessorTheorems Platform DurableQueue RecentCodec.
Open Scope Z_scope.

(** Preferences and clock do not touch the files. *)
Class EnvironmentLaws (E : Type) `{FileSystemLaws E, Preferences E, Millis E} := {
  begin_disk n b e r e' : prefs_begin n b e = (r, e') -> disk e' = disk e;
  getBool_disk k d e v e' : prefs_getBool k d e = (v, e') -> disk e' = disk e;
  putBool_disk k v e n e' : prefs_putBool k v e = (n, e') -> disk e' = disk e;
  getULong64_disk k d e v e' : prefs_getULong64 k d e = (v, e') -> disk e' = disk e;
  putULong64_disk k v e n e' : prefs_putULong64 k v e = (n, e') -> disk e' = disk e;
  millis_disk e t e' : millis e = (t, e') -> disk e' = disk e;
}.

Section Ops.
Context {E : Type} `{EnvironmentLaws E}.

Lemma persistCounters_keeps q e b q' e' :
  persistCounters q e = (b, q', e') ->
  disk e' = disk e /\ dq_core q' = dq_core q /\ dq_recent q' = dq_recent q /\
  dq_mutex q' = dq_mutex q /\ dq_healthy q' = dq_healthy q /\ dq_stats q' = dq_stats q.
Proof.
  unfold persistCounters. intros Eq.
  repeat match type of Eq with
  | context [prefs_putULong64 ?k ?v ?e0] =>
      let n := fresh "n" in let e1 := fresh "e" in let Ep := fresh "Ep" in
      destruct (prefs_putULong64 k v e0) as [n e1] eqn:Ep; apply putULong64_disk in Ep
  end.
  destruct (forallb _ _).
  - destruct (millis _) as [now e7] eqn:Em. apply millis_disk in Em.
    injection Eq as _ <- <-. destruct q; cbn. split_and!; congruence.
  - injection Eq as _ <- <-. split_and!; congruence.
Qed.

Lemma checkpoint_keeps force q e q' e' :
  checkpointCountersUnlocked force q e = (q', e') ->
  disk e' = disk e /\ dq_core q' = dq_core q /\ dq_recent q' = dq_recent q /\
  dq_mutex q' = dq_mutex q /\ dq_healthy q' = dq_healthy q /\ dq_stats q' = dq_stats q.
Proof.
  unfold checkpointCountersUnlocked. intros Eq.
  destruct (millis e) as [now e1] eqn:Em. apply millis_disk in Em.
  destruct (_ && _); [injection Eq as <- <-; split_and!; congruence|].
  destruct (persistCounters q e1) as [[b q1] e2] eqn:Ep. injection Eq as <- <-.
  apply persistCounters_keeps in Ep as (Ed & ? & ? & ? & ? & ?). split_and!; congruence.
Qed.

Lemma disk_files (e e' : E) : disk e' = disk e -> files e' = files e.
Proof. intros Ed. change (flash_files e' = flash_files e). unfold flash_files. by rewrite Ed. Qed.

(** What the queue holds: [rs] on flash, [recent] in the ring. *)
Record queue_ok (q : DurableQueue) (e : E) (rs : list QueueRecord) : Prop := {
  qk_ready : exists core, ready q = Some core /\ core_ok core (files e) rs;
  qk_ring : ring_wf (dq_recent q);
}.

Lemma ready_core q core : ready q = Some core -> dq_core q = Some core.
Proof. unfold ready. by destruct (_ && _). Qed.

Lemma queue_ok_wf q (e : E) rs :
  queue_ok q (e : E) rs -> Forall record_wf rs /\ NoDup (qr_recordId <$> rs).
Proof.
  intros [(core & Hr & [_ _ Hs _ _ Hh]) _]. split.
  - clear Hs. induction Hh as [|x r es rs He Hh IH]; constructor; [apply He|done].
  - rewrite (holds_ids _ _ _ Hh). by apply sorted_NoDup.
Qed.

Lemma queue_ok_stored q (e : E) rs : queue_ok q e rs -> Forall (stored (files e)) rs.
Proof. intros [(core & _ & C) _]. by eapply core_ok_stored. Qed.

Lemma queue_ok_sorted q (e : E) rs : queue_ok q e rs -> StronglySorted Z.lt (qr_recordId <$> rs).
Proof. intros [(core & _ & C) _]. rewrite (holds_ids _ _ _ (co_holds _ _ _ C)). apply C. Qed.

(** Changing what does not matter to the contents. *)
Lemma queue_ok_keep q (e : E) rs q' (e' : E) :
  queue_ok q e rs -> files e' = files e ->
  dq_core q' = dq_core q -> dq_mutex q' = dq_mutex q -> dq_healthy q' = dq_healthy q ->
  ring_wf (dq_recent q') -> queue_ok q' e' rs.
Proof.
  intros [(core & Hr & C) R] Ef Ec Em Eh R'. split; [|done]. exists core.
  unfold ready in *. rewrite Em, Eh, Ec, Ef. done.
Qed.

Lemma addErrors_keeps n q :
  dq_core (addErrors n q) = dq_core q /\ dq_recent (addErrors n q) = dq_recent q /\
  dq_mutex (addErrors n q) = dq_mutex q /\ dq_healthy (addErrors n q) = dq_healthy q.
Proof. by destruct q. Qed.

Lemma addDropped_keeps n q :
  dq_core (addDropped n q) = dq_core q /\ dq_recent (addDropped n q) = dq_recent q /\
  dq_mutex (addDropped n q) = dq_mutex q /\ dq_healthy (addDropped n q) = dq_healthy q.
Proof. by destruct q. Qed.

Lemma noteMutation_keeps q :
  dq_core (noteMutation q) = dq_core q /\ dq_recent (noteMutation q) = dq_recent q /\
  dq_mutex (noteMutation q) = dq_mutex q /\ dq_healthy (noteMutation q) = dq_healthy q.
Proof. by destruct q. Qed.

(** The core queue with another one in its place. *)
Lemma queue_ok_core q rs core (e' : E) :
  ring_wf (dq_recent q) -> is_Some (ready q) -> core_ok core (files e') rs ->
  queue_ok (q <| dq_core := Some core |>) e' rs.
Proof.
  intros R Hr C. destruct q as [c r m s mu l od oe h]. unfold ready in Hr. cbn in *.
  split; [|done]. exists core. split; [|done]. unfold ready. cbn.
  destruct (m && h); [done|by destruct Hr].
Qed.

(** The identifier of the next record; 0 when there are no more. *)
Definition queue_next (q : DurableQueue) : Z :=
  match dq_core q with Some core => c_nextRecordId core | None => 0 end.

Lemma ready_capacity q core : ready q = Some core -> durableCapacity q = c_capacity core.
Proof.
  unfold ready, durableCapacity. destruct (dq_mutex q), (dq_healthy q); cbn; try done. by intros ->.
Qed.

(** ** Enqueue *)

Lemma queueEnqueue_spec q e rs record outcome record' q' e' :
  queue_ok q e rs -> record_typed record -> record_padded record ->
  queueEnqueue record q e = (outcome, record', q', e') ->
  dq_recent q' = dq_recent q /\
  exists kept, (kept = rs \/ kept = tail rs /\ length rs = durableCapacity q) /\
    if eo_persisted outcome
    then queue_ok q' e' (kept ++ [record']) /\
         record' = record <| qr_recordId := queue_next q |>
    else queue_ok q' e' kept.
Proof.
  intros [(core & Hr & C) R] T P Eq. unfold queueEnqueue in Eq. rewrite Hr in Eq.
  destruct (enqueue core e record) as [[[result record1] core1] e1] eqn:Ee.
  apply (enqueue_cases _ _ rs) in Ee; [|done..].
  set (q1 := q <| dq_core := Some core1 |>) in Eq.
  set (q2 := addDropped _ q1) in Eq. set (q3 := addErrors _ q2) in Eq.
  assert (ready q <> None) as Hr' by congruence.
  rewrite (ready_capacity _ _ Hr).
  assert (queue_next q = c_nextRecordId core) as -> by (unfold queue_next; by rewrite (ready_core _ _ Hr)).
  assert (exists kept, (kept = rs \/ kept = tail rs /\ length rs = c_capacity core) /\
    core_ok core1 (files e1) (if result then kept ++ [record1] else kept) /\
    (result = true -> record1 = record <| qr_recordId := c_nextRecordId core |>))
    as (kept & Hk & C1 & Hid).
  { destruct result.
    - destruct Ee as (_ & _ & Er & _ & [[C1 _]|(C1 & _ & ?)]); [exists rs|exists (tail rs)]; auto.
    - destruct Ee as [[C1 _]|(C1 & _ & ?)]; [exists rs|exists (tail rs)];
        (split; [auto|]); split; done. }
  assert (queue_ok q1 e1 (if result then kept ++ [record1] else kept)) as K1
    by (apply queue_ok_core; [done|by rewrite Hr; eauto|done]).
  assert (queue_ok q3 e1 (if result then kept ++ [record1] else kept) /\
          dq_recent q3 = dq_recent q) as [K3 R3].
  { unfold q3, q2. destruct (addErrors_keeps
      (wrap 32 (qs_storageErrors (c_stats core1) - qs_storageErrors (c_stats core))) q2)
      as (? & ? & ? & ?).
    destruct (addDropped_keeps
      (wrap 32 (qs_droppedOldest (c_stats core1) - qs_droppedOldest (c_stats core))) q1)
      as (? & ? & ? & ?).
    fold q2 q3. assert (dq_recent q3 = dq_recent q) as Er
      by (transitivity (dq_recent q1); [unfold q3, q2 in *; congruence|by destruct q]).
    split; [|done]. eapply queue_ok_keep; [exact K1|done|unfold q3, q2 in *; congruence..|].
    by rewrite Er. }
  clearbody q3. destruct (negb _).
  - destruct (persistCounters q3 e1) as [[b q4] e2] eqn:Ep.
    apply persistCounters_keeps in Ep as (Ed & ? & Er & ? & ? & _).
    injection Eq as <- <- <- <-. cbn [eo_persisted]. split; [congruence|].
    assert (queue_ok q4 e2 (if result then kept ++ [record1] else kept)) as K4
      by (eapply queue_ok_keep; [exact K3|by apply disk_files|done..|by rewrite Er, R3]).
    exists kept. split; [done|]. destruct result; [|done]. split; [done|]. auto.
  - injection Eq as <- <- <- <-. cbn [eo_persisted]. split; [done|].
    exists kept. split; [done|]. destruct result; [|done]. split; [done|]. auto.
Qed.

(** ** Lookups *)

Lemma queueContainsKey_spec key q e rs b q' e' :
  queue_ok q e rs -> queueContainsKey key q e = (b, q', e') ->
  queue_ok q' e' rs /\ dq_recent q' = dq_recent q /\
  (b = true -> queued rs key \/ dedupContains (dq_recent q) key = true).
Proof.
  intros [(core & Hr & C) R] Eq. unfold queueContainsKey in Eq. rewrite Hr in Eq.
  destruct (if dedupContains (dq_recent q) key then _ else _) as [[contained core1] e1] eqn:Ec.
  assert (core_ok core1 (files e1) rs /\
    (contained = true -> queued rs key \/ dedupContains (dq_recent q) key = true))
    as [C1 Hb].
  { destruct (dedupContains (dq_recent q) key) eqn:Ed.
    - injection Ec as <- <- <-. auto.
    - apply (containsLoop_sound _ rs) in Ec as (Ef & Hb & Hc); [|apply C].
      rewrite Ef. split; auto. }
  injection Eq as <- <- <-.
  set (q1 := q <| dq_core := Some core1 |>).
  assert (queue_ok q1 e1 rs) as K1 by (apply queue_ok_core; [done|by rewrite Hr; eauto|done]).
  destruct (addErrors_keeps
    (wrap 32 (qs_storageErrors (c_stats core1) - qs_storageErrors (c_stats core))) q1)
    as (? & Er & ? & ?).
  assert (dq_recent q1 = dq_recent q) as Er1 by (by destruct q).
  split; [|split; [etransitivity; [exact Er|exact Er1]|done]].
  apply (queue_ok_keep q1 e1); try done.
Qed.

Lemma recordDuplicate_keeps q :
  dq_core (recordDuplicate q) = dq_core q /\ dq_recent (recordDuplicate q) = dq_recent q /\
  dq_mutex (recordDuplicate q) = dq_mutex q /\ dq_healthy (recordDuplicate q) = dq_healthy q.
Proof. unfold recordDuplicate. destruct q as [c r [] s mu l od oe h]; done. Qed.

(** ** Finishing *)

(** What is left of [rs] when these actions have been carried out. *)
Definition left_over (removed : list QueueTerminalAction) (rs : list QueueRecord)
  : list QueueRecord :=
  filter (fun r => qr_recordId r ∉ qa_recordId <$> removed) rs.

Definition remember_all (cap : nat) (removed : list QueueTerminalAction)
    (recent : list TelemetryKey) : list TelemetryKey :=
  foldl (fun l action => snd (remember_list cap l (qa_key action))) recent removed.

Lemma left_over_cons action removed rs :
  left_over (action :: removed) rs =
    left_over removed (filter (fun r => qr_recordId r <> qa_recordId action) rs).
Proof.
  unfold left_over. rewrite list_filter_filter. apply list_filter_iff. intros r.
  rewrite fmap_cons, not_elem_of_cons. tauto.
Qed.

Lemma queueRemove_filter c (s : E) rs id ok c' s' :
  core_ok c (files s) rs -> queueRemove id c s = (ok, c', s') ->
  core_ok c' (files s') (if ok then filter (fun r => qr_recordId r <> id) rs else rs).
Proof.
  intros C Eq. pose proof C as [_ _ Hs _ _ Hh].
  apply (queueRemove_spec _ _ rs) in Eq; [|done]. destruct ok.
  - destruct Eq as (i & r & Hi & Er & C' & _). rewrite <- Er, <- (delete_filter _ i); [done| |done].
    rewrite (holds_ids _ _ _ Hh). exact Hs.
  - apply Eq.
Qed.

(** The counters an action moves. *)
Definition countAction (action : QueueTerminalAction) (s : QueueOperationalStats)
  : QueueOperationalStats :=
  if qa_permanentlyRejected action
  then s <| qo_recordsPermanentlyRejected := add64 (qo_recordsPermanentlyRejected s) 1 |>
  else s <| qo_recordsUploaded := add64 (qo_recordsUploaded s) 1 |>.

Lemma finishActions_spec actions core success changed q e rs success' changed' core' q' e' :
  core_ok core (files e) rs -> ring_wf (dq_recent q) ->
  Forall (fun action => key_wf (qa_key action)) actions ->
  finishActions actions core success changed q e = (success', changed', core', q', e') ->
  exists removed, removed `sublist_of` actions /\
    core_ok core' (files e') (left_over removed rs) /\ ring_wf (dq_recent q') /\
    recent (dq_recent q') =
      remember_all (rd_capacity (dq_recent q)) removed (recent (dq_recent q)) /\
    dq_core q' = dq_core q /\ dq_mutex q' = dq_mutex q /\ dq_healthy q' = dq_healthy q /\
    (success' = true -> success = true /\ removed = actions).
Proof.
  intros C R Hk. revert core success changed q e rs C R.
  induction Hk as [|action actions Hka Hk IH]; intros core success changed q e rs C R Eq;
    cbn [finishActions] in Eq.
  - injection Eq as <- <- <- <- <-. exists []. unfold left_over. cbn.
    rewrite filter_all by (apply Forall_forall; intros r _; apply not_elem_of_nil).
    split_and!; done.
  - destruct (queueRemove _ core e) as [[ok core1] e1] eqn:Er.
    apply (queueRemove_filter _ _ rs) in Er; [|done]. destruct ok; cbn [negb] in Eq.
    + destruct (remember_refines (dq_recent q) (qa_key action) (rw_ok _ R)) as (R1 & R2 & R3).
      pose proof (remember_wf (dq_recent q) (qa_key action) R Hka) as R4.
      destruct (remember (dq_recent q) (qa_key action)) as [remembered ring] eqn:Em.
      cbn [snd] in *.
      match type of Eq with finishActions _ _ _ _ ?q1 _ = _ => set (q2 := q1) in Eq end.
      assert (dq_recent q2 = ring /\ dq_core q2 = dq_core q /\ dq_mutex q2 = dq_mutex q /\
        dq_healthy q2 = dq_healthy q) as (K1 & K2 & K3 & K4)
        by (unfold q2; destruct q; by destruct (qa_permanentlyRejected action)).
      clearbody q2. apply (IH _ _ _ _ _ (filter (fun r => qr_recordId r <> qa_recordId action) rs))
        in Eq as (removed & Hsub & C' & R' & Hrec & Hc & Hm & Hh & Hok);
        [|done|by rewrite K1].
      exists (action :: removed). split_and!; try congruence.
      * by apply sublist_skip.
      * by rewrite left_over_cons.
      * rewrite Hrec, K1, R2, R3. done.
      * intros Hs. destruct (Hok Hs) as [? ->]. done.
    + destruct (addErrors_keeps 1 q) as (K2 & K1 & K3 & K4).
      apply (IH _ _ _ _ _ rs) in Eq as (removed & Hsub & C' & R' & Hrec & Hc & Hm & Hh & Hok);
        [|done|by rewrite K1].
      exists removed. split_and!; try congruence; [by apply sublist_cons|].
      intros Hs. by destruct (Hok Hs).
Qed.

Lemma recentPath_not_record id :
  kRecentPath <> queuePath (recordName id) /\ kRecentTempPath <> queuePath (recordName id).
Proof.
  assert (length (queuePath (recordName id)) = 27%nat) as El.
  { unfold queuePath, recordName. by rewrite !length_app, length_hexDigits. }
  split; intros Ep; rewrite <- Ep in El; discriminate.
Qed.

Lemma unlink_recent (e : E) b e' :
  silentlyUnlink kRecentTempPath e = (b, e') -> files e' = files e.
Proof.
  unfold silentlyUnlink. intros Eq. destruct (vfs_unlink _ e) as [r e1] eqn:Eu.
  injection Eq as <- <-. apply unlink_law in Eu.
  change (flash_files e1 = flash_files e). unfold flash_files. rewrite Eu.
  destruct r; [|done..]. apply record_files_delete_other. intros id _. apply recentPath_not_record.
Qed.

Lemma persistRecent_files q (e : E) b e' :
  bytes_ok (encodeRecent (dq_recent q)) ->
  persistRecent q e = (b, e') -> files e' = files e.
Proof.
  intros Hb Eq. unfold persistRecent in Eq.
  destruct (silentlyUnlink _ e) as [cleared e1] eqn:Eu. apply unlink_recent in Eu.
  destruct cleared; cbn [negb] in Eq; [|by injection Eq as <- <-].
  destruct (fs_write _ _ e1) as [o e2] eqn:Ew. apply write_law in Ew; [|done].
  assert (files e2 = files e1) as E2.
  { change (flash_files e2 = flash_files e1). apply record_files_keep. intros id _.
    pose proof (proj2 (recentPath_not_record id)) as Hne.
    destruct o as [n|]; [destruct Ew as [_ ->]; by rewrite lookup_insert_ne|by apply Ew; auto]. }
  destruct o as [n|]; [|injection Eq as <- <-; congruence].
  destruct (negb _).
  - destruct (silentlyUnlink _ e2) as [? e3] eqn:Eu3. apply unlink_recent in Eu3.
    injection Eq as <- <-. congruence.
  - apply rename_law in Eq. destruct b; [|rewrite <- Eu, <- E2; by apply disk_files].
    destruct Eq as (c & _ & Ed). rewrite <- Eu, <- E2.
    change (flash_files e' = flash_files e2). apply record_files_keep. intros id _.
    destruct (recentPath_not_record id). rewrite Ed, lookup_insert_ne, lookup_delete_ne; done.
Qed.

Lemma finish_spec actions q (e : E) rs ok q' e' :
  queue_ok q e rs -> Forall (fun action => key_wf (qa_key action)) actions ->
  finish actions q e = (ok, q', e') ->
  exists removed, removed `sublist_of` actions /\
    queue_ok q' e' (left_over removed rs) /\
    recent (dq_recent q') =
      remember_all (rd_capacity (dq_recent q)) removed (recent (dq_recent q)) /\
    (ok = true -> removed = actions).
Proof.
  intros [(core & Hr & C) R] Hk Eq. unfold finish in Eq. rewrite Hr in Eq.
  destruct (finishActions actions core true false q e) as [[[[success changed] core1] q1] e1]
    eqn:Ef.
  apply (finishActions_spec _ _ _ _ _ _ rs) in Ef
    as (removed & Hsub & C1 & R1 & Hrec & Hc & Hm & Hh & Hok); [|done..].
  set (q2 := q1 <| dq_core := Some core1 |>) in Eq.
  assert (dq_recent q2 = dq_recent q1) as Er2 by (by destruct q1).
  assert (queue_ok q2 e1 (left_over removed rs)) as K2.
  { apply queue_ok_core; [done| |done]. unfold ready in *. rewrite Hc, Hm, Hh, Hr. eauto. }
  clearbody q2.
  destruct (if changed then _ else _) as [[success2 q3] e2] eqn:Ep.
  assert (queue_ok q3 e2 (left_over removed rs) /\ dq_recent q3 = dq_recent q2 /\
    (success2 = true -> success = true)) as (K3 & Er3 & Hs).
  { destruct changed.
    - destruct (persistRecent q2 e1) as [persisted e3] eqn:Epr.
      apply persistRecent_files in Epr; [|by apply encodeRecent_bytes, K2].
      destruct (addErrors_keeps 1 q2) as (? & Era & ? & ?).
      destruct persisted; cbn [negb] in Ep; injection Ep as <- <- <-; split_and!; try done.
      + eapply queue_ok_keep; [exact K2|done..|apply K2].
      + eapply queue_ok_keep; [exact K2|done..|]. rewrite Era. apply K2.
    - injection Ep as <- <- <-. done. }
  destruct (checkpointCountersUnlocked false q3 e2) as [q4 e4] eqn:Ec. injection Eq as <- <- <-.
  apply checkpoint_keeps in Ec as (Ed & ? & Er4 & ? & ? & _).
  exists removed. split_and!; [done| | |].
  - eapply queue_ok_keep; [exact K3|by apply disk_files|done..|]. rewrite Er4. apply K3.
  - by rewrite Er4, Er3, Er2.
  - intros Ht. by destruct (Hok (Hs Ht)).
Qed.
End Ops.
