(* ===== verification/QueueRestart.v ===== *)
(** * The queue after a restart (lib/queue/durable_queue, [DurableQueue::begin])

    What [begin] finds on the flash of a queue that lost power: the records that
    were stored, and the keys that were remembered, as far as they can be read.
    [ReliableFiles]: the files of the queue's directory can be looked up and read. *)

From Stdlib Require Import ZArith Lia String.
From stdpp Require Import gmap list sorting.
From S2P Require Import Prelude BuildConfig CString ByteIO Platform Protocol ProtocolSpec.
From S2P Require Import QueueRecord QueueRecordSpec QueueRecordCodec Dedup QueueStorage.
From S2P Require Import DurableQueueCore DurableQueueSpec DurableQueueRecovery.
From S2P Require Import DurableQueueTheorems FlashStorage FlashStorageLaws MemoryFlash FlashPower.
From S2P Require Import ProtocolTheorems PacketProcessor DurableQueue DurableQueueWorld.
From S2P Require Import RecentCodec.
Open Scope Z_scope.

Class ReliableFiles (F : Type) `{FileSystemLaws F} := {
  stat_reliable name s :
    (vfs_stat (mountedPath (queuePath name)) s).1 =
      if decide (is_Some (disk s !! queuePath name)) then VfsOk else VfsNoEntry;
  open_reliable p s bytes :
    disk s !! p = Some bytes -> (fs_open p s).1 = Some (false, length bytes);
  file_reliable p n s bytes :
    disk s !! p = Some bytes -> length (fs_read p n s).1 = Nat.min n (length bytes);
}.

(** ** What recovery does not touch *)

Section Untouched.
Context {St : Type} `{QueueStorage St} (P : St -> Prop).
Hypothesis cleanup_P : forall s, P s -> P (cleanupTemporaryFiles s).
Hypothesis list_P : forall s, P s -> P (listRecordIds s).2.
Hypothesis read_P : forall name s, P s -> P (readRecord name s).2.
Hypothesis remove_P : forall id s, P s -> P (removeRecord (recordName id) s).2.

Lemma loadRecord_untouched name s : P s -> P (loadRecord name s).2.
Proof.
  intros Hs. unfold loadRecord. pose proof (read_P name s Hs) as H1.
  destruct (readRecord name s) as [[bytes|] s1]; [|done]. by destruct (queueDecode _ _).
Qed.

Lemma recoverOne_untouched c s id : P s -> P (recoverOne (c, s) id).2.
Proof.
  intros Hs. unfold recoverOne. pose proof (loadRecord_untouched (recordName id) s Hs) as H1.
  destruct (loadRecord _ s) as [loaded s1]. cbn [snd] in H1.
  pose proof (remove_P id s1 H1) as H2.
  destruct (match loaded with Some _ => _ | None => _ end) as [[record t]|]; [done|].
  by destruct (removeRecord _ s1).
Qed.

Lemma recoverAll_untouched ids cs : P cs.2 -> P (foldl recoverOne cs ids).2.
Proof.
  revert cs. induction ids as [|id ids IH]; intros [c s] Hs; [done|].
  apply IH. by apply recoverOne_untouched.
Qed.

Lemma trimOldest_untouched entries c s : P s -> P (trimOldest entries c s).2.
Proof.
  revert c s. induction entries as [|e entries IH]; intros c s Hs; cbn [trimOldest];
    destruct (_ <=? _)%nat; try done.
  pose proof (remove_P (e_recordId e) s Hs) as H1. destruct (removeRecord _ s) as [[] s1]; [|done].
  by apply IH.
Qed.

Lemma recover_untouched c s : P s -> P (recover c s).2.
Proof.
  intros Hs. unfold recover. pose proof (list_P _ (cleanup_P _ Hs)) as H1.
  destruct (listRecordIds _) as [[[recordIds corruptNames]|] s1]; [|done].
  match goal with |- context [foldl recoverOne ?cs recordIds] =>
    pose proof (recoverAll_untouched recordIds cs H1) as H2;
    destruct (foldl recoverOne cs recordIds) as [c2 s2] end.
  pose proof (trimOldest_untouched (sortEntries (c_entries c2)) c2 s2 H2) as H3.
  by destruct (trimOldest _ c2 s2) as [[[] c3] s3].
Qed.
End Untouched.

Section Restart.
Context {E : Type} `{EnvironmentLaws E}.

(** ** The file of the ring *)

Definition same_ring (d : gmap (list Z) (list Z)) (e : E) : Prop :=
  disk e !! kRecentPath = d !! kRecentPath.

Lemma removeAll_other p paths (e : E) :
  p ∉ paths -> disk (removeAll paths e) !! p = disk e !! p.
Proof.
  revert e. induction paths as [|x paths IH]; intros e Hp; [done|]. cbn [removeAll].
  apply not_elem_of_cons in Hp as [Hx Hp]. destruct (fs_remove x e) as [b e1] eqn:Er.
  apply remove_law in Er. rewrite IH, Er by done. destruct b; [|done]. by apply lookup_delete_ne.
Qed.

Lemma removeInvalid_other p paths n (e : E) :
  p ∉ paths -> disk (removeInvalid paths n e).2 !! p = disk e !! p.
Proof.
  revert n e. induction paths as [|x paths IH]; intros n e Hp; [done|]. cbn [removeInvalid].
  apply not_elem_of_cons in Hp as [Hx Hp]. destruct (fs_remove x e) as [b e1] eqn:Er.
  apply remove_law in Er. destruct b; [|cbn; by rewrite Er].
  rewrite IH, Er by done. by apply lookup_delete_ne.
Qed.

Lemma recentPath_not_plain paths : plain paths -> kRecentPath ∉ paths.
Proof.
  unfold plain. rewrite Forall_forall. intros Hp Hin. apply (Hp _ Hin). cbn. left.
Qed.

Lemma recover_ring d c (e : E) : same_ring d e -> same_ring d (recover c e).2.
Proof.
  intros He0. apply (recover_untouched (same_ring d)); [..|done]; clear e He0;
    unfold same_ring; cbn.
  - intros e He. unfold flash_cleanupTemporaryFiles. destruct (fs_list _ e) as [[entries|] e1] eqn:El;
      pose proof (list_keeps _ _ _ _ El) as Ek; [|by rewrite Ek].
    rewrite removeAll_other, Ek; [done|]. apply recentPath_not_plain.
    eapply listed_plain; [exact El|]. by intros x [].
  - intros e He. unfold flash_listRecordIds. destruct (fs_list _ e) as [[entries|] e1] eqn:El;
      pose proof (list_keeps _ _ _ _ El) as Ek; [|cbn; by rewrite Ek].
    apply invalid_plain, recentPath_not_plain in El.
    destruct (scanRecords _ _ _) as [recordIds invalid].
    pose proof (removeInvalid_other _ _ 0 e1 El) as Er. destruct (removeInvalid _ _ e1).
    cbn in *. by rewrite Er, Ek.
  - intros name e He. unfold flash_readRecord. destruct (fs_open _ e) as [[[dir n]|] e1] eqn:Eo;
      pose proof (open_keeps _ _ _ _ Eo) as Ek; [|cbn; by rewrite Ek].
    destruct (dir || _); [cbn; by rewrite Ek|]. destruct (fs_read _ n e1) as [bs e2] eqn:Er.
    apply read_keeps_disk in Er. cbn. by rewrite Er, Ek.
  - intros id e He. unfold flash_removeRecord. rewrite fullPath_recordName.
    destruct (fs_remove _ e) as [b e1] eqn:Er. apply remove_law in Er. cbn. rewrite Er.
    destruct b; [|done]. rewrite lookup_delete_ne; [done|].
    intros Ep. by destruct (recentPath_not_record id).
Qed.

(** The file of the ring holds these keys. *)
Definition ring_file (d : gmap (list Z) (list Z)) (keys : list TelemetryKey) : Prop :=
  match d !! kRecentPath with
  | None => keys = []
  | Some bytes => exists r, ring_wf r /\ bytes = encodeRecent r /\ recent r = keys
  end.

(** ** Frames *)

(** What the rest of [begin] leaves of the queue. *)
Record carried (q : DurableQueue) (e : E) (q' : DurableQueue) (e' : E) : Prop := {
  ca_disk : disk e' = disk e;
  ca_core : dq_core q' = dq_core q;
  ca_mutex : dq_mutex q' = dq_mutex q;
}.

Lemma loadCounters_carried q e q' e' :
  loadCounters q e = (q', e') -> carried q e q' e' /\ dq_recent q' = dq_recent q.
Proof.
  unfold loadCounters. intros Eq.
  repeat match type of Eq with
  | context [prefs_getULong64 ?k ?v ?e0] =>
      let n := fresh "n" in let e1 := fresh "e" in let Ep := fresh "Ep" in
      destruct (prefs_getULong64 k v e0) as [n e1] eqn:Ep; apply getULong64_disk in Ep
  end.
  injection Eq as <- <-. destruct q; cbn. split; [split; cbn; congruence|done].
Qed.

Lemma presence_keeps p e r e' : filePresence p e = (r, e') -> disk e' = disk e.
Proof.
  unfold filePresence. destruct (vfs_stat _ e) as [x e1] eqn:Es. intros [= <- <-].
  by apply stat_keeps in Es.
Qed.

Lemma loadRecent_carried q e ok q' e' :
  loadRecent q e = (ok, q', e') -> carried q e q' e'.
Proof.
  unfold loadRecent. destruct (filePresence _ e) as [presence e1] eqn:Ep.
  apply presence_keeps in Ep. destruct (_ =? 0); [by intros [= <- <- <-]|].
  destruct (_ <? 0); [by intros [= <- <- <-]|].
  destruct (fs_open _ e1) as [file e2] eqn:Eo. apply open_keeps in Eo. rewrite Ep in Eo.
  destruct file as [[dir size]|]; [|by intros [= <- <- <-]].
  destruct (_ || _); [by intros [= <- <- <-]|].
  destruct (fs_read _ size e2) as [bytes e3] eqn:Er. apply read_keeps_disk in Er. rewrite Eo in Er.
  destruct (negb _); [by intros [= <- <- <-]|].
  destruct (decodeRecent bytes _) as [ok1 r].
  intros [= <- <- <-]. by destruct q.
Qed.

Lemma storageBegin_keeps b e e' : storageBegin false e = (b, e') -> disk e' = disk e.
Proof.
  unfold storageBegin. destruct (fs_mount false e) as [mounted e1] eqn:Em. apply mount_keeps in Em.
  destruct (negb mounted); [by intros [= <- <-]|].
  destruct (filePresence _ e1) as [presence e2] eqn:Ep. apply presence_keeps in Ep.
  destruct (_ <? 0); [intros [= <- <-]; congruence|].
  destruct (_ =? 0); [intros Ek%mkdir_keeps; congruence|intros [= <- <-]; congruence].
Qed.

(** ** The ring on its way to the file *)

Lemma ring_file_same (d d' : gmap (list Z) (list Z)) keys :
  d' !! kRecentPath = d !! kRecentPath -> ring_file d keys -> ring_file d' keys.
Proof. unfold ring_file. by intros ->. Qed.

(** The file determines the keys. *)
Lemma ring_file_unique d keys keys' : ring_file d keys -> ring_file d keys' -> keys = keys'.
Proof.
  unfold ring_file. destruct (d !! kRecentPath) as [bytes|]; [|by intros -> ->].
  intros (r & [Ho Hw Hd] & -> & <-) (r' & [Ho' Hw' Hd'] & Eb & <-).
  assert (forall r0, ring_ok r0 -> (rd_size r0 <= rd_capacity (RecentDeduplicator_new kRecentDedupCapacity))%nat)
    as Hsize by (intros r0 [_ ? ? _ _]; change (rd_capacity _) with kRecentDedupCapacity; lia).
  destruct (decodeRecent_encodeRecent r (RecentDeduplicator_new kRecentDedupCapacity))
    as (r1 & E1 & _ & <-); [done..|apply new_ok|auto|].
  destruct (decodeRecent_encodeRecent r' (RecentDeduplicator_new kRecentDedupCapacity))
    as (r2 & E2 & _ & <-); [done..|apply new_ok|auto|].
  rewrite Eb, E2 in E1. by injection E1 as ->.
Qed.

Lemma ring_file_new (d : gmap (list Z) (list Z)) r :
  ring_wf r -> d !! kRecentPath = Some (encodeRecent r) -> ring_file d (recent r).
Proof. unfold ring_file. intros W ->. by exists r. Qed.

Lemma paths_differ : kRecentPath <> kRecentTempPath.
Proof. by vm_compute. Qed.

Lemma unlink_temp (e : E) b e' :
  silentlyUnlink kRecentTempPath e = (b, e') -> disk e' !! kRecentPath = disk e !! kRecentPath.
Proof.
  unfold silentlyUnlink. destruct (vfs_unlink _ e) as [r e1] eqn:Eu. intros [= <- <-].
  apply unlink_law in Eu. rewrite Eu. destruct r; [|done..].
  apply lookup_delete_ne, not_eq_sym, paths_differ.
Qed.

Lemma write_temp bytes (e : E) o e' :
  bytes_ok bytes -> fs_write kRecentTempPath bytes e = (o, e') ->
  disk e' !! kRecentPath = disk e !! kRecentPath.
Proof.
  intros Hb Ew. apply write_law in Ew; [|done]. destruct o as [n|]; [|apply Ew, paths_differ].
  destruct Ew as [_ ->]. apply lookup_insert_ne, not_eq_sym, paths_differ.
Qed.

Lemma rename_temp bytes (e : E) e1 b e' :
  bytes_ok bytes -> fs_write kRecentTempPath bytes e = (Some (length bytes), e1) ->
  fs_rename kRecentTempPath kRecentPath e1 = (b, e') ->
  disk e' !! kRecentPath = if b then Some bytes else disk e !! kRecentPath.
Proof.
  intros Hb Ew Er. pose proof (write_temp _ _ _ _ Hb Ew) as Es.
  apply write_law in Ew as [_ Ew]; [|done]. apply rename_law in Er. destruct b; [|by rewrite Er].
  destruct Er as (c & Hc & ->). rewrite Ew, lookup_insert_eq, firstn_all in Hc.
  rewrite lookup_insert_eq. done.
Qed.

Lemma persistRecent_ring q (e : E) b e' :
  ring_wf (dq_recent q) -> persistRecent q e = (b, e') ->
  disk e' !! kRecentPath = if b then Some (encodeRecent (dq_recent q)) else disk e !! kRecentPath.
Proof.
  intros R%encodeRecent_bytes. unfold persistRecent.
  destruct (silentlyUnlink _ e) as [cleared e1] eqn:Eu. apply unlink_temp in Eu.
  destruct cleared; cbn [negb]; [|by intros [= <- <-]].
  destruct (fs_write _ _ e1) as [o e2] eqn:Ew. pose proof (write_temp _ _ _ _ R Ew) as E2.
  destruct o as [n|]; [|intros [= <- <-]; congruence].
  destruct (Nat.eqb_spec n (length (encodeRecent (dq_recent q)))) as [->|]; cbn [negb].
  - intros Er. rewrite (rename_temp _ _ _ _ _ R Ew Er). by rewrite Eu.
  - destruct (silentlyUnlink _ e2) as [x e3] eqn:E3. apply unlink_temp in E3.
    intros [= <- <-]. congruence.
Qed.

Lemma finishActions_ring actions core success changed q (e : E) success' changed' core' q' e' d :
  ring_wf (dq_recent q) -> Forall (fun a => key_wf (qa_key a)) actions -> same_ring d e ->
  finishActions actions core success changed q e = (success', changed', core', q', e') ->
  ring_wf (dq_recent q') /\ same_ring d e' /\
  (changed' = false -> changed = false /\ dq_recent q' = dq_recent q).
Proof.
  intros W Hk. revert core success changed q e W.
  induction Hk as [|action actions Hka Hk IH]; intros core success changed q e W Hd;
    cbn [finishActions]; [by intros [= <- <- <- <- <-]|].
  destruct (queueRemove _ core e) as [[ok core1] e1] eqn:Er.
  assert (same_ring d e1) as Hd1.
  { unfold queueRemove in Er. destruct (list_find _ _) as [[i found]|]; [|by injection Er as <- <- <-].
    destruct (removeRecord _ e) as [b e2] eqn:Em. cbn in Em. unfold flash_removeRecord in Em.
    rewrite fullPath_recordName in Em. apply remove_law in Em.
    assert (e1 = e2) as -> by (destruct b; by injection Er). unfold same_ring. rewrite Em.
    destruct b; [|done]. rewrite lookup_delete_ne; [done|].
    intros Ep. by destruct (recentPath_not_record (e_recordId found)). }
  destruct ok; cbn [negb].
  - pose proof (remember_wf _ _ W Hka) as W1.
    destruct (remember (dq_recent q) (qa_key action)) as [remembered ring] eqn:Em. cbn [snd] in W1.
    assert (remembered = false -> ring = dq_recent q) as Hsame
      by (unfold remember in Em; destruct (dedupContains _ _); injection Em as <- <-; done).
    match goal with |- context [finishActions _ _ _ _ ?q1 _] => set (q2 := q1) end.
    assert (dq_recent q2 = ring) as Eq2
      by (unfold q2; destruct q; by destruct (qa_permanentlyRejected action)).
    clearbody q2. intros Ef. apply IH in Ef as (W' & Hd' & Hc); [|by rewrite Eq2|done].
    split_and!; [done..|]. intros Hch. destruct (Hc Hch) as [[Hr ->]%orb_false_iff Es].
    split; [done|]. rewrite Es, Eq2. by apply Hsame.
  - destruct (addErrors_keeps 1 q) as (_ & Ea & _). intros Ef.
    apply IH in Ef as (W' & Hd' & Hc); [|by rewrite Ea|done]. by rewrite Ea in Hc.
Qed.

(** After [finish] the file of the ring holds the
    keys it held before or the ring's new ones, and the new ones whenever [finish]
    answers true and file and ring agreed before. *)
Lemma finish_ring actions q rs keys (e : E) ok q' e' :
  queue_ok q e rs -> Forall (fun a => key_wf (qa_key a)) actions ->
  ring_file (disk e) keys -> finish actions q e = (ok, q', e') ->
  (ring_file (disk e') keys \/ ring_file (disk e') (recent (dq_recent q'))) /\
  (ok = true -> keys = recent (dq_recent q) -> ring_file (disk e') (recent (dq_recent q'))).
Proof.
  intros [(core & Hr & C) W] Hw Hk. unfold finish. rewrite Hr.
  destruct (finishActions actions core true false q e) as [[[[success changed] core1] q1] e1] eqn:Ef.
  destruct (finishActions_ring _ _ _ _ _ _ _ _ _ _ _ (disk e) W Hw eq_refl Ef) as (W1 & D1 & Hsame).
  set (q2 := q1 <| dq_core := Some core1 |>).
  assert (dq_recent q2 = dq_recent q1) as Eq2 by (unfold q2; by destruct q1). clearbody q2.
  rewrite <- Eq2 in *. destruct (if changed then _ else _) as [[success3 q3] e3] eqn:E3.
  assert (dq_recent q3 = dq_recent q2 /\
    (ring_file (disk e3) keys \/ ring_file (disk e3) (recent (dq_recent q2))) /\
    (success3 = true -> keys = recent (dq_recent q) -> ring_file (disk e3) (recent (dq_recent q2))))
    as (Er & Hor & Hok).
  { destruct changed.
    - destruct (persistRecent q2 e1) as [persisted e2] eqn:Ep.
      apply persistRecent_ring in Ep; [|done]. destruct persisted; cbn [negb] in E3; injection E3 as <- <- <-.
      + split_and!; [done|right|intros _ _]; by apply ring_file_new.
      + split_and!; [by destruct q2|left|done]. by apply (ring_file_same (disk e)); [rewrite Ep|].
    - injection E3 as <- <- <-. destruct (Hsame eq_refl) as [_ ->].
      assert (ring_file (disk e1) keys) as Hk1 by (by apply (ring_file_same (disk e))).
      split_and!; [done|by left|]. by intros _ <-. }
  destruct (checkpointCountersUnlocked false q3 e3) as [q4 e4] eqn:Ec.
  apply checkpoint_keeps in Ec as (Ed & _ & Er4 & _). intros [= <- <- <-].
  by rewrite Ed, Er4, Er.
Qed.

(** ** Reading what is there *)

#[export] Instance reliable_reads `{!ReliableFiles E} : ReliableReads E.
Proof.
  split. intros e id bytes Hv Hf Hl. change (files e) with (record_files (disk e)) in Hf.
  rewrite lookup_record_files in Hf by done. cbn. unfold flash_readRecord.
  rewrite fullPath_recordName. pose proof (open_reliable _ _ _ Hf) as Eo.
  destruct (fs_open _ e) as [file e1] eqn:Ef. cbn in Eo. subst file. cbn [orb].
  apply open_keeps in Ef. destruct (Nat.ltb_spec kMaximumEncodedBytes (length bytes)); [lia|].
  rewrite <- Ef in Hf. pose proof (file_reliable _ (length bytes) _ _ Hf) as Er.
  destruct (fs_read _ _ e1) as [bs e2] eqn:Ed. cbn in Er. rewrite Nat.min_id in Er.
  apply (read_law _ _ _ _ _ bytes) in Ed; [|done]. rewrite Er, Nat.eqb_refl. cbn.
  by rewrite Ed, Er, firstn_all.
Qed.

(** The file of the ring can be loaded. *)
Definition ring_loads (e : E) : bool := (loadRecent DurableQueue_init e).1.1.

(** Loading the ring answers true exactly when its file can be read, and brings
    its keys back. *)
Lemma loadRecent_spec q e keys ok q' e' :
  dq_recent q = dq_recent DurableQueue_init -> ring_file (disk e) keys ->
  loadRecent q e = (ok, q', e') ->
  ok = ring_loads e /\
  if ok then ring_wf (dq_recent q') /\ recent (dq_recent q') = keys
  else dq_recent q' = dq_recent q.
Proof.
  intros Hq Hfile El. unfold ring_loads. unfold loadRecent in *. rewrite Hq in El.
  assert (ring_wf (dq_recent q)) as Hw by (rewrite Hq; apply new_wf).
  destruct (filePresence _ e) as [presence e1] eqn:Ep.
  assert (presence = 0 -> disk e !! kRecentPath = None) as Habs.
  { intros ->. unfold filePresence in Ep. destruct (vfs_stat _ e) as [x e0] eqn:Ev.
    injection Ep as Ep _. destruct x; try discriminate. by eapply stat_absent. }
  apply presence_keeps in Ep. destruct (Z.eqb_spec presence 0) as [Hp|_].
  { injection El as <- <- <-. split; [done|]. split; [done|]. rewrite Hq.
    unfold ring_file in Hfile. by rewrite (Habs Hp) in Hfile. }
  destruct (presence <? 0); [by injection El as <- <- <-|].
  destruct (fs_open _ e1) as [[[dir size]|] e2] eqn:Eo; [|by injection El as <- <- <-].
  destruct (_ || _) eqn:Eb; [by injection El as <- <- <-|].
  destruct (fs_read _ size e2) as [bytes e3] eqn:Er.
  destruct (negb _) eqn:En; [by injection El as <- <- <-|].
  apply negb_false_iff, Nat.eqb_eq in En.
  pose proof (open_keeps _ _ _ _ Eo) as Ek. unfold ring_file in Hfile.
  rewrite <- Ep in Hfile. destruct (disk e1 !! kRecentPath) as [file|] eqn:Ed.
  2:{ apply read_absent in Er as ->; [|by rewrite Ek]. by subst size. }
  assert (dir = false) as -> by (by eapply open_file).
  apply open_law in Eo as (file' & Ed' & Hsize). rewrite Ed in Ed'. injection Ed' as <-.
  apply (read_law _ _ _ _ _ file) in Er; [|by rewrite Ek].
  rewrite En, <- Hsize, firstn_all in Er. subst bytes.
  destruct Hfile as (r & [Hok Hwf Hd] & -> & Ekeys).
  destruct (decodeRecent_encodeRecent r (dq_recent DurableQueue_init)) as (r' & Er' & Hok' & Ek');
    [done..|apply new_ok| |].
  { change (rd_capacity (dq_recent DurableQueue_init)) with kRecentDedupCapacity.
    pose proof (ro_capacity _ Hok). pose proof (ro_size _ Hok). lia. }
  rewrite Er' in El |- *. injection El as <- <- <-. split; [done|].
  assert (recent r' = keys) as Ekk by congruence.
  assert (ring_wf r') as Hw' by (split; rewrite ?Ek'; done). destruct q; by split.
Qed.

(** It cannot fail on files that can be looked up and read. *)
Lemma ring_loads_reliable `{!ReliableFiles E} e keys :
  ring_file (disk e) keys -> ring_loads e = true.
Proof.
  intros Hfile. unfold ring_loads, loadRecent, filePresence, ring_file in *.
  pose proof (stat_reliable (chars "recent.bin") e) as Es.
  change (queuePath (chars "recent.bin")) with kRecentPath in Es.
  destruct (vfs_stat _ e) as [x e1] eqn:Ev. apply stat_keeps in Ev. cbn [fst] in Es. subst x.
  destruct (disk e !! kRecentPath) as [bytes|] eqn:Ed;
    [rewrite decide_True by done|by rewrite decide_False by (by intros [])].
  destruct Hfile as (r & [Hok Hw Hd] & -> & Ek). cbn [Z.eqb Z.ltb Z.compare].
  rewrite <- Ev in Ed. pose proof (open_reliable _ _ _ Ed) as Eo.
  destruct (fs_open _ e1) as [file e2] eqn:Ef. cbn in Eo. subst file. apply open_keeps in Ef.
  destruct (length_encodeRecent r Hok) as [L1 L2].
  destruct (Nat.ltb_spec (length (encodeRecent r)) 9); [lia|].
  destruct (Nat.ltb_spec 4096 (length (encodeRecent r))); [lia|]. cbn [orb].
  rewrite <- Ef in Ed. pose proof (file_reliable _ (length (encodeRecent r)) _ _ Ed) as El.
  destruct (fs_read _ _ e2) as [bs e3] eqn:Er. cbn in El. rewrite Nat.min_id in El.
  apply (read_law _ _ _ _ _ (encodeRecent r)) in Er; [|done].
  rewrite El, firstn_all in Er. subst bs. rewrite Nat.eqb_refl. cbn [negb].
  destruct (decodeRecent_encodeRecent r (dq_recent DurableQueue_init)) as (r' & Er' & _);
    [done..|apply new_ok| |by rewrite Er'].
  change (rd_capacity (dq_recent DurableQueue_init)) with kRecentDedupCapacity.
  pose proof (ro_capacity _ Hok). pose proof (ro_size _ Hok). lia.
Qed.

(** ** begin *)

(** The file system has been set up in an earlier start. *)
Definition set_up (e : E) : Prop :=
  (prefs_getBool "fs-ready" false (prefs_begin "gw-queue" false e).2).1 = true.

(** The newest [n] of a list of records. *)
Definition newest (n : nat) (rs : list QueueRecord) : list QueueRecord := drop (length rs - n) rs.

Lemma carried_trans q1 e1 q2 e2 q3 e3 :
  carried q1 e1 q2 e2 -> carried q2 e2 q3 e3 -> carried q1 e1 q3 e3.
Proof. intros [] []. split; congruence. Qed.

Lemma addBoth_carried n m q (e : E) :
  carried q e (addErrors n (addDropped m q)) e /\
  dq_recent (addErrors n (addDropped m q)) = dq_recent q.
Proof. by destruct q. Qed.

Lemma persist_carried (b : bool) q (e : E) q' e' :
  (if b then let '(_, q, e) := persistCounters q e in (q, e) else (q, e)) = (q', e') ->
  carried q e q' e' /\ dq_recent q' = dq_recent q.
Proof.
  destruct b; [|by intros [= <- <-]]. destruct (persistCounters q e) as [[ok q1] e1] eqn:Ep.
  apply persistCounters_keeps in Ep as (? & ? & ? & ? & _). by intros [= <- <-].
Qed.

Lemma loadCounters_state q (e : E) : (loadCounters q e).2 = (loadCounters DurableQueue_init e).2.
Proof.
  unfold loadCounters.
  repeat match goal with |- context [prefs_getULong64 ?k ?v ?e0] =>
    destruct (prefs_getULong64 k v e0) end. done.
Qed.

(** The ring's file can be loaded in the rest of [begin]. *)
Definition ring_ready (e : E) : bool := ring_loads (loadCounters DurableQueue_init e).2.

(** Taking away the file of the ring. *)
Lemma unlink_ring (e : E) b e' :
  silentlyUnlink kRecentPath e = (b, e') ->
  files e' = files e /\
  (disk e' !! kRecentPath = disk e !! kRecentPath \/ disk e' !! kRecentPath = None).
Proof.
  unfold silentlyUnlink. destruct (vfs_unlink _ e) as [r e1] eqn:Eu. intros [= _ <-].
  apply unlink_law in Eu. split.
  - apply record_files_keep. intros id _. rewrite Eu. destruct r; [|done..].
    apply lookup_delete_ne, recentPath_not_record.
  - rewrite Eu. destruct r; [right; apply lookup_delete_eq|by left..].
Qed.

Lemma finishBegin_spec core q e rs keys ok q' e' :
  core_ok core (files e) rs -> dq_core q = Some core -> dq_mutex q = true ->
  dq_recent q = dq_recent DurableQueue_init ->
  ring_file (disk e) keys -> finishBegin core q e = (ok, q', e') ->
  ok = true /\ queue_ok q' e' rs /\ durableCapacity q' = c_capacity core /\
  queue_next q' = c_nextRecordId core /\
  recent (dq_recent q') = (if ring_ready e then keys else []).
Proof.
  intros C Hc Hm Hr Hk. unfold finishBegin.
  set (q0 := q <| dq_observedCoreDropped := _ |> <| dq_observedCoreErrors := _ |>).
  assert (dq_core q0 = Some core /\ dq_mutex q0 = true /\ dq_recent q0 = dq_recent q)
    as (Hc0 & Hm0 & Hr0) by (unfold q0; by destruct q).
  clearbody q0. pose proof (loadCounters_state q0 e) as Es.
  destruct (loadCounters q0 e) as [q1 e1] eqn:E1. cbn [snd] in Es.
  apply loadCounters_carried in E1 as [A1 R1].
  destruct (addBoth_carried (dq_observedCoreErrors (addDropped (dq_observedCoreDropped q1) q1))
    (dq_observedCoreDropped q1) q1 e1) as [A2 R2].
  set (q2 := addErrors _ _) in *. clearbody q2.
  assert (dq_recent q2 = dq_recent DurableQueue_init) as Hr2 by congruence.
  destruct (loadRecent q2 e1) as [[ready3 q3] e3] eqn:E3.
  pose proof E3 as E3'. apply (loadRecent_spec _ _ keys) in E3' as [Eready Hring];
    [|done|by rewrite (ca_disk _ _ _ _ A1)].
  rewrite Es in Eready. fold (ring_ready e) in Eready.
  apply loadRecent_carried in E3 as A3.
  destruct (carried_trans _ _ _ _ _ _ (carried_trans _ _ _ _ _ _ A1 A2) A3) as [Ad Ac Am].
  rewrite Hc0 in Ac. rewrite Hm0 in Am. apply disk_files in Ad.
  destruct (if negb ready3 then _ else _) as [q4 e4] eqn:E4.
  assert (files e4 = files e /\ dq_core q4 = Some core /\ dq_mutex q4 = true /\
    ring_wf (dq_recent q4) /\ recent (dq_recent q4) = if ring_ready e then keys else [])
    as (Hf4 & Hc4 & Hm4 & Hw4 & Hr4).
  { rewrite <- Eready. destruct ready3; cbn [negb] in E4.
    - injection E4 as <- <-. destruct Hring. done.
    - destruct (silentlyUnlink kRecentPath e3) as [unlinked e5] eqn:E5.
      apply unlink_ring in E5 as [Hf5 _]. injection E4 as <- <-. rewrite Hf5.
      assert (ring_wf (dedupClear (dq_recent q3))) as Hw.
      { rewrite Hring, Hr2. split; rewrite ?clear_recent; [apply clear_ok, new_ok|constructor..]. }
      destruct q3, unlinked; cbn in *; split_and!; try done; apply clear_recent. }
  destruct (if _ || _ || _ then _ else _) as [q5 e5] eqn:E5.
  apply persist_carried in E5 as [[Ad5 Ac5 Am5] R5]. intros [= <- <- <-].
  rewrite Hc4 in Ac5. rewrite Hm4 in Am5. apply disk_files in Ad5.
  rewrite <- R5 in Hw4, Hr4. rewrite <- Hf4, <- Ad5 in C.
  destruct q5 as [c rd m st mu l od oe h]. cbn in *. subst c m.
  split_and!; try done. split; [|done]. by exists core.
Qed.

(** The flash when recovery begins, the preferences opened and the file system
    mounted, and when it has ended. *)
Definition mounted_at (e : E) : E :=
  (storageBegin false (prefs_getBool "fs-ready" false (prefs_begin "gw-queue" false e).2).2).2.

Definition start_capacity (e : E) : nat :=
  Z.to_nat (deriveCapacity (fs_totalBytes (mounted_at e))).

Definition recovered_at (e : E) : E :=
  (recover (DurableQueueCore_new (start_capacity e)) (mounted_at e)).2.

(** The records whose file a start on [e] cannot read, and whether it can load the
    file of the ring. *)
Definition start_unread (e : E) : list Z := unread_at (mounted_at e).
Definition start_ring (e : E) : bool := ring_ready (recovered_at e).

Lemma mounted_disk e : disk (mounted_at e) = disk e.
Proof.
  unfold mounted_at. destruct (prefs_begin _ _ e) as [opened e1] eqn:E1. apply begin_disk in E1.
  cbn [snd]. destruct (prefs_getBool _ _ e1) as [flag e2] eqn:E2. apply getBool_disk in E2.
  cbn [snd]. destruct (storageBegin false e2) as [mounted e3] eqn:E3.
  apply storageBegin_keeps in E3. cbn [snd]. congruence.
Qed.

Lemma queueBegin_recovers e q' e' :
  set_up e -> queueBegin true DurableQueue_init e = (true, q', e') ->
  exists core,
    recover (DurableQueueCore_new (start_capacity e)) (mounted_at e) =
      (true, core, recovered_at e) /\
    finishBegin core (DurableQueue_init <| dq_mutex := true |> <| dq_core := Some core |>)
      (recovered_at e) = (true, q', e').
Proof.
  unfold recovered_at, start_capacity, mounted_at, set_up, queueBegin. cbn [negb].
  destruct (prefs_begin _ _ e) as [opened e1].
  cbn [snd]. destruct opened; cbn [negb]; [|discriminate].
  destruct (prefs_getBool _ _ e1) as [flag e2]. cbn [fst snd].
  intros ->. cbn [negb]. destruct (storageBegin false e2) as [mounted e3]. cbn [snd].
  destruct mounted; cbn [negb]; [|discriminate].
  destruct (recover _ e3) as [[recovered core] e4].
  destruct recovered; cbn [negb]; [|discriminate]. intros Eq. by exists core.
Qed.

Lemma new_capacity n : (1 <= c_capacity (DurableQueueCore_new n) /\
  n <= c_capacity (DurableQueueCore_new n))%nat.
Proof. unfold DurableQueueCore_new. destruct (Nat.eqb_spec n 0); cbn; lia. Qed.

(** The flash can be started on: preferences and file system open, the directory can
    be listed, and no more records are stored than the capacity allows. *)
Record starts (e : E) : Prop := {
  st_opens : (prefs_begin "gw-queue" false e).1 = true;
  st_mounts : let e2 := (prefs_getBool "fs-ready" false (prefs_begin "gw-queue" false e).2).2 in
    let '(mounted, e3) := storageBegin false e2 in
    mounted = true /\ (listRecordIds (cleanupTemporaryFiles e3)).1 <> None /\
    forall rs, Forall (stored (files e)) rs -> StronglySorted Z.lt (qr_recordId <$> rs) ->
      (length rs <= Z.to_nat (deriveCapacity (fs_totalBytes e3)))%nat;
}.

Lemma finishBegin_true core q (e : E) : (finishBegin core q e).1.1 = true.
Proof.
  unfold finishBegin. destruct (loadCounters _ e) as [q1 e1].
  destruct (loadRecent _ e1) as [[ok q2] e2].
  destruct (if negb ok then _ else _) as [q3 e3]. by destruct (if _ || _ || _ then _ else _).
Qed.

Lemma queueBegin_starts e :
  set_up e -> starts e -> files e !! recordName (2 ^ 64 - 1) = None ->
  (queueBegin true DurableQueue_init e).1.1 = true.
Proof.
  unfold set_up, queueBegin. intros Hset [Ho Hm] Hmax. cbn [negb].
  destruct (prefs_begin _ _ e) as [opened e1] eqn:E1. apply begin_disk in E1.
  cbn [fst snd] in *. subst opened. cbn [negb].
  destruct (prefs_getBool _ _ e1) as [flag e2] eqn:E2. apply getBool_disk in E2.
  cbn [fst snd] in *. subst flag. cbn [negb].
  destruct (storageBegin false e2) as [mounted e3] eqn:E3. apply storageBegin_keeps in E3.
  destruct Hm as (-> & Hlist & Hroom). cbn [negb].
  set (n := Z.to_nat _) in *. destruct (new_capacity n) as [_ Hcap].
  assert (files e3 = files e) as Ef by (apply disk_files; congruence). rewrite <- Ef in *.
  destruct (recover_indexed (DurableQueueCore_new n) e3 Hmax)
    as [[? _]|(all & rs & c2 & s2 & Hix & ->)]; [done|].
  destruct (indexed_stored _ _ _ _ _ _ _ Hix) as [Hst Hss].
  assert (length all <= c_capacity (DurableQueueCore_new n))%nat as Hl.
  { rewrite (Forall2_length _ _ _ (ix_holds _ _ _ _ _ _ _ Hix)). etransitivity; [|exact Hcap].
    apply Hroom; [|done]. apply Forall_forall. intros r Hr. by apply Hst. }
  rewrite trimOldest_fits by (rewrite (ix_capacity _ _ _ _ _ _ _ Hix); exact Hl).
  cbn [negb]. apply finishBegin_true.
Qed.

(** A start that succeeds restores what is stored and can be read. *)
Lemma queueBegin_restored keys e q' e' :
  ring_file (disk e) keys -> set_up e -> files e !! recordName (2 ^ 64 - 1) = None ->
  queueBegin true DurableQueue_init e = (true, q', e') ->
  exists all,
    (forall r, r ∈ all <-> stored (files e) r /\ qr_recordId r ∉ start_unread e) /\
    StronglySorted Z.lt (qr_recordId <$> all) /\
    queue_ok q' e' (newest (durableCapacity q') all) /\
    Forall (fun r => qr_recordId r < queue_next q') (newest (durableCapacity q') all) /\
    recent (dq_recent q') = (if start_ring e then keys else []).
Proof.
  intros Hk Hset Hmax Hb.
  destruct (queueBegin_recovers _ _ _ Hset Hb) as (core & Er & Ef).
  pose proof (recover_ring (disk e) (DurableQueueCore_new (start_capacity e)) (mounted_at e))
    as Hring.
  rewrite Er in Hring. cbn [snd] in Hring. unfold same_ring in Hring.
  rewrite mounted_disk in Hring. specialize (Hring eq_refl).
  assert (ring_file (disk (recovered_at e)) keys) as Hk2 by (unfold ring_file in *; by rewrite Hring).
  pose proof (disk_files _ _ (mounted_disk e)) as Ed. rewrite <- Ed in Hmax.
  destruct (recover_contents _ _ _ _ (proj1 (new_capacity (start_capacity e))) Hmax Er)
    as (all & Ha & Hs & C & Hn & Ecap). rewrite <- Ecap in C.
  apply (finishBegin_spec core _ _ (newest (c_capacity core) all) keys) in Ef
    as (_ & K & Hcap & Hnext & Hr); [|exact C|reflexivity..|exact Hk2].
  rewrite Hcap, Hnext. exists all. split_and!; try done.
  - intros r. rewrite Ha. unfold legible. by rewrite Ed.
  - destruct C as [_ _ _ _ [|Hf] Hh]; [done|]. unfold ids in Hf.
    rewrite <- (holds_ids _ _ _ Hh), Forall_fmap in Hf. exact Hf.
Qed.

(** Where files can be looked up and read, a start reads all that is stored. *)
Lemma start_reads `{!ReliableFiles E} keys e :
  ring_file (disk e) keys ->
  start_ring e = true /\ (forall r, stored (files e) r -> qr_recordId r ∉ start_unread e).
Proof.
  intros Hk. split.
  - unfold start_ring, ring_ready, recovered_at.
    set (e2 := (recover _ _).2). destruct (loadCounters DurableQueue_init e2) as [q3 e3] eqn:E3.
    apply loadCounters_carried in E3 as [[Ed _ _] _]. cbn [snd].
    apply (ring_loads_reliable e3 keys). rewrite Ed.
    apply (ring_file_same (disk e)); [|done]. apply recover_ring. unfold same_ring.
    by rewrite mounted_disk.
  - intros r Hr. apply stored_legible. by rewrite (disk_files _ _ (mounted_disk e)).
Qed.

(** C3: nothing acknowledged is lost in a restart that can read it: when the flash
    stores the records [rs] (those of the queue, as a loss of power at any moment leaves
    them), the queue has been set up in an earlier start and the identifier 2^64 - 1 is
    not in use, [begin] succeeds if the flash can be started on; and when it succeeds,
    the new queue holds the newest, as many as its capacity allows, of all the records
    stored whose files recovery could read ([start_unread]: those it could not), in
    order, with all of [rs] that could be read among them; nothing but [rs] when no
    other record was left behind; it gives out a fresh identifier next and remembers the
    keys of the ring's file, or none if that file could not be loaded. On files that can
    be looked up and read every record and every key is brought back. *)
Theorem queue_restart rs keys e ok q' e' :
  Forall (stored (files e)) rs -> StronglySorted Z.lt (qr_recordId <$> rs) -> ring_file (disk e) keys -> set_up e ->
  files e !! recordName (2 ^ 64 - 1) = None ->
  queueBegin true DurableQueue_init e = (ok, q', e') ->
  (starts e -> ok = true) /\
  (ok = true -> exists all,
    (forall r, r ∈ all <-> stored (files e) r /\ qr_recordId r ∉ start_unread e) /\
    (forall r, r ∈ rs -> r ∈ all \/ qr_recordId r ∈ start_unread e) /\
    (rs ⊆ all -> all ⊆ rs -> all = rs) /\
    StronglySorted Z.lt (qr_recordId <$> all) /\
    queue_ok q' e' (newest (durableCapacity q') all) /\
    Forall (fun r => qr_recordId r < queue_next q') (newest (durableCapacity q') all) /\
    recent (dq_recent q') = (if start_ring e then keys else [])) /\
  (ReliableFiles E -> start_ring e = true /\
    forall r, stored (files e) r -> qr_recordId r ∉ start_unread e).
Proof.
  intros F0 S0 Hk Hset Hmax Hb. rewrite Forall_forall in F0. split_and!.
  - intros Hst. pose proof (queueBegin_starts e Hset Hst Hmax) as Ht. by rewrite Hb in Ht.
  - intros ->. destruct (queueBegin_restored _ _ _ _ Hk Hset Hmax Hb) as (all & Ha & Hs & K & Hf & Hr).
    exists all. split_and!; try done.
    + intros r Hin. destruct (decide (qr_recordId r ∈ start_unread e)); [by right|left].
      apply Ha. split; [by apply F0|done].
    + intros Hsub Hall. apply (stored_lists_eq (files e)); [| |done..|].
      * apply Forall_forall. intros r Hin. by apply Ha.
      * by apply Forall_forall.
      * intros r. split; [apply Hall|apply Hsub].
  - intros Hrel. by apply (start_reads keys).
Qed.
End Restart.

(** ** A flash to start on

    Preferences that have seen an earlier start, one record and one key on flash. *)

#[export] Instance MemoryFlash_files : ReliableFiles MemoryFlash.
Proof.
  split.
  - intros name s. cbn [vfs_stat MemoryFlash_ops fst]. rewrite mounted_drop.
    cbn [disk MemoryFlash_laws]. rewrite lookup_fmap.
    case_bool_decide as Hs; [rewrite decide_True; [done|by apply fmap_is_Some]|].
    rewrite decide_False; [done|by rewrite fmap_is_Some].
  - intros p s bytes. cbn [disk MemoryFlash_laws]. rewrite lookup_fmap.
    intros (b & Eb & ->)%fmap_Some. cbn. rewrite Eb. cbn. unfold file_content. by rewrite length_fmap.
  - intros p n s bytes. cbn [disk MemoryFlash_laws]. rewrite lookup_fmap.
    intros (b & Eb & ->)%fmap_Some. cbn. rewrite Eb. cbn. by rewrite length_take.
Qed.

Module StartedFlash.
#[export] Instance started_preferences : Preferences MemoryFlash := {
  prefs_begin _ _ f := (true, f);
  prefs_getBool _ _ f := (true, f);
  prefs_putBool _ _ f := (1, f);
  prefs_getULong64 _ d f := (d, f);
  prefs_putULong64 _ _ f := (8, f);
}.

#[export] Instance started_millis : Millis MemoryFlash := { millis f := (0, f) }.

#[export] Instance started_environment : EnvironmentLaws MemoryFlash.
Proof. constructor; cbn; intros; simplify_eq; done. Qed.
End StartedFlash.
Import StartedFlash.

Definition keptKey : TelemetryKey := keyOf (sampleTelemetry <| tp_sequence := 6 |>).
Definition keptRing : RecentDeduplicator :=
  snd (remember (RecentDeduplicator_new kRecentDedupCapacity) keptKey).

Definition keptFlash : MemoryFlash := mkMemoryFlash
  (<[kRecentPath := encodeRecent keptRing]>
    {[ queuePath (recordName 1) := recordWire ((sampleQueued 7) <| qr_recordId := 1 |>) ]}) [].

Definition keptQueue : DurableQueue :=
  mkDurableQueue (Some sampleCore) keptRing true QueueOperationalStats_init 0 0 0 0 true.

Lemma keptKey_wf : key_wf keptKey.
Proof.
  unfold keptKey, keyOf. rewrite makeTelemetryKey_node by apply sampleNode_ok.
  split; [apply sampleNode_ok|vm_compute; split; congruence..].
Qed.

Lemma keptRing_wf : ring_wf keptRing.
Proof. apply remember_wf; [apply new_wf|apply keptKey_wf]. Qed.

Lemma keptFlash_files : files keptFlash = files sampleStorage.
Proof. vm_compute. reflexivity. Qed.

Lemma keptQueue_ok : queue_ok keptQueue keptFlash sampleContents.
Proof.
  split; [|apply keptRing_wf].
  exists sampleCore. split; [reflexivity|]. rewrite keptFlash_files. apply sampleCore_ok.
Qed.

Lemma keptFlash_ring : ring_file (disk keptFlash) [keptKey].
Proof.
  exists keptRing. split; [apply keptRing_wf|]. split; vm_compute; reflexivity.
Qed.

Lemma queue_restart_witness :
  exists q' e', queueBegin true DurableQueue_init keptFlash = (true, q', e') /\
    queue_ok q' e' sampleContents /\ recent (dq_recent q') = [keptKey].
Proof.
  destruct (queueBegin true DurableQueue_init keptFlash) as [[ok q'] e'] eqn:E.
  assert (ok = true) as -> by (change ok with (ok, q', e').1.1; rewrite <- E; vm_compute; reflexivity).
  exists q', e'. split; [reflexivity|].
  destruct (queue_restart sampleContents [keptKey] keptFlash true q' e'
    (queue_ok_stored _ _ _ keptQueue_ok) (queue_ok_sorted _ _ _ keptQueue_ok) keptFlash_ring)
    as (_ & Ht & Hread); [reflexivity|rewrite keptFlash_files; vm_compute; reflexivity|exact E|].
  destruct (Hread _) as [Hring Hun]. pose proof (queue_ok_stored _ _ _ keptQueue_ok) as Hsto.
  rewrite Forall_forall in Hsto.
  destruct (Ht eq_refl) as (all & Hst & Hin & Hall & _ & K & _ & Hr). rewrite Hring in Hr.
  split; [|exact Hr]. rewrite Hall in K.
  - assert (newest (durableCapacity q') sampleContents = sampleContents) as En.
    { change q' with (true, q', e').1.2. rewrite <- E. vm_compute. reflexivity. }
    rewrite En in K. exact K.
  - intros r Hr'. destruct (Hin r Hr') as [|Hu]; [done|]. by destruct (Hun r (Hsto r Hr') Hu).
  - intros r Hr'. apply sampleStorage_only. rewrite <- keptFlash_files. by apply Hst.
Defined.
