(* ===== verification/QueuePower.v ===== *)
(** * Losing power while the queue works

    [history]: the states the flash has passed through, every one of which a loss of
    power may leave behind.  What the queue has stored is in all of them, but for what
    the operation is to remove. *)

From Stdlib Require Import ZArith Lia String.
From stdpp Require Import gmap list sorting.
From S2P Require Import Prelude BuildConfig CString ByteIO Platform Protocol ProtocolSpec.
From S2P Require Import QueueRecord QueueRecordSpec QueueRecordCodec Dedup QueueStorage.
From S2P Require Import DurableQueueCore DurableQueueSpec DurableQueueRecovery.
From S2P Require Import DurableQueueTheorems FlashStorage FlashStorageLaws MemoryFlash FlashPower.
From S2P Require Import ProtocolTheorems PacketProcessor DurableQueue DurableQueueWorld.
From S2P Require Import RecentCodec.
From S2P Require Import QueueRestart.
Open Scope Z_scope.

Abbreviation Disk := (gmap (list Z) (list Z)).

(** ** Histories *)

Class FlashHistory (E : Type) := { history : E -> list Disk }.

(** From [e] to [e'] the flash passes through states with [P] only. *)
Definition passes `{FlashHistory E} (P : Disk -> Prop) (e e' : E) : Prop :=
  exists l, history e' = history e ++ l /\ Forall P l.

(** A call is done or not done when the power goes; a file that was being written may
    hold anything. *)
Class HistoryLaws (E : Type) `{EnvironmentLaws E, FlashHistory E} := {
  mount_passes e b e' : fs_mount false e = (b, e') -> passes (eq (disk e)) e e';
  stat_passes p e r e' :
    vfs_stat (mountedPath p) e = (r, e') -> passes (eq (disk e)) e e';
  mkdir_passes p e b e' : fs_mkdir p e = (b, e') -> passes (eq (disk e)) e e';
  list_passes p e o e' : fs_list p e = (o, e') -> passes (eq (disk e)) e e';
  open_passes p e o e' : fs_open p e = (o, e') -> passes (eq (disk e)) e e';
  read_passes p n e bs e' : fs_read p n e = (bs, e') -> passes (eq (disk e)) e e';
  begin_passes n b e r e' : prefs_begin n b e = (r, e') -> passes (eq (disk e)) e e';
  getBool_passes k d e v e' : prefs_getBool k d e = (v, e') -> passes (eq (disk e)) e e';
  get_passes k d e v e' : prefs_getULong64 k d e = (v, e') -> passes (eq (disk e)) e e';
  put_passes k v e n e' : prefs_putULong64 k v e = (n, e') -> passes (eq (disk e)) e e';
  millis_passes e t e' : millis e = (t, e') -> passes (eq (disk e)) e e';
  unlink_passes p e r e' :
    vfs_unlink p e = (r, e') -> passes (fun d => d = disk e \/ d = disk e') e e';
  rename_passes a b e r e' :
    fs_rename a b e = (r, e') -> passes (fun d => d = disk e \/ d = disk e') e e';
  remove_passes p e r e' :
    fs_remove p e = (r, e') -> passes (fun d => d = disk e \/ d = disk e') e e';
  write_passes p bytes e o e' :
    bytes_ok bytes -> fs_write p bytes e = (o, e') ->
    passes (fun d => forall q, q <> p -> d !! q = disk e !! q) e e';
}.

Section Lasts.
Context {E : Type} `{HistoryLaws E}.

(** A property of the flash that holds all along. *)
Definition lasts (P : Disk -> Prop) (e e' : E) : Prop :=
  P (disk e) -> passes P e e' /\ P (disk e').

Lemma passes_mono (P Q : Disk -> Prop) (e e' : E) :
  (forall d, P d -> Q d) -> passes P e e' -> passes Q e e'.
Proof. intros HPQ (l & El & Hl). exists l. split; [done|]. by eapply Forall_impl. Qed.

Lemma passes_trans (P : Disk -> Prop) (e1 e2 e3 : E) :
  passes P e1 e2 -> passes P e2 e3 -> passes P e1 e3.
Proof.
  intros (l1 & E1 & H1') (l2 & E2 & H2'). exists (l1 ++ l2).
  split; [by rewrite E2, E1, app_assoc|by apply Forall_app].
Qed.

Lemma lasts_refl P (e : E) : lasts P e e.
Proof. intros HP. split; [|done]. exists []. by rewrite app_nil_r. Qed.

Lemma lasts_trans P (e1 e2 e3 : E) : lasts P e1 e2 -> lasts P e2 e3 -> lasts P e1 e3.
Proof.
  intros K1 K2 HP. destruct (K1 HP) as [A1 P1]. destruct (K2 P1) as [A2 P2].
  split; [by eapply passes_trans|done].
Qed.

Lemma lasts_same P (e e' : E) : disk e' = disk e -> passes (eq (disk e)) e e' -> lasts P e e'.
Proof.
  intros Ed A HP. split; [|by rewrite Ed]. eapply passes_mono; [|exact A]. by intros d <-.
Qed.

(** Nothing happens to the flash. *)
Definition still (e e' : E) : Prop := forall P, lasts P e e'.

Lemma still_same (e e' : E) : disk e' = disk e -> passes (eq (disk e)) e e' -> still e e'.
Proof. intros Ed A P. by apply lasts_same. Qed.

Lemma still_refl (e : E) : still e e.
Proof. intros P. apply lasts_refl. Qed.

Lemma still_trans (e1 e2 e3 : E) : still e1 e2 -> still e2 e3 -> still e1 e3.
Proof. intros S1 S2 P. by eapply lasts_trans. Qed.

Lemma still_disk (e e' : E) : still e e' -> disk e' = disk e.
Proof. intros Hs. by destruct (Hs (fun d => d = disk e) eq_refl). Qed.

Lemma lasts_either P (e e' : E) :
  (P (disk e) -> P (disk e')) -> passes (fun d => d = disk e \/ d = disk e') e e' -> lasts P e e'.
Proof.
  intros HP' A HP. split; [|by apply HP']. eapply passes_mono; [|exact A].
  intros d [-> | ->]; auto.
Qed.

(** [P] depends on the records and the file of the ring only. *)
Definition essential (P : Disk -> Prop) : Prop :=
  forall d d', record_files d' = record_files d -> d' !! kRecentPath = d !! kRecentPath ->
    P d -> P d'.

(** [p] is neither a record's path nor the ring's. *)
Definition aside (p : list Z) : Prop :=
  (forall id, p <> queuePath (recordName id)) /\ p <> kRecentPath.

Lemma temporaryPath_aside id : aside (temporaryPath id).
Proof.
  split; [intros id'; apply temporaryPath_not_record|]. intros Ep.
  apply (f_equal length) in Ep. unfold temporaryPath in Ep.
  rewrite !length_app, length_hexDigits in Ep. vm_compute in Ep. discriminate.
Qed.

Lemma recentTempPath_aside : aside kRecentTempPath.
Proof.
  split; [intros id; apply recentPath_not_record|]. apply not_eq_sym, paths_differ.
Qed.

Lemma essential_elsewhere (P : Disk -> Prop) p d d' :
  essential P -> aside p -> (forall q, q <> p -> d' !! q = d !! q) -> P d -> P d'.
Proof.
  intros HP [Hr Hk] Hd. apply HP; [|by apply Hd, not_eq_sym].
  apply record_files_keep. intros id _. apply Hd, not_eq_sym, Hr.
Qed.

Lemma unlink_lasts P p (e : E) b e' :
  essential P -> aside p -> silentlyUnlink p e = (b, e') -> lasts P e e'.
Proof.
  intros HP Hp. unfold silentlyUnlink. destruct (vfs_unlink _ e) as [r e1] eqn:Eu.
  intros [= <- <-]. apply lasts_either; [|by eapply unlink_passes].
  apply unlink_law in Eu. apply (essential_elsewhere P p); [done..|].
  intros q Hq. rewrite Eu. destruct r; [|done..]. by apply lookup_delete_ne.
Qed.

Lemma write_lasts P p bytes (e : E) o e' :
  essential P -> aside p -> bytes_ok bytes -> fs_write p bytes e = (o, e') -> lasts P e e'.
Proof.
  intros HP Hp Hb Ew HPe. pose proof (write_passes _ _ _ _ _ Hb Ew) as A.
  apply write_law in Ew; [|done]. split.
  - eapply passes_mono; [|exact A]. intros d Hd. by apply (essential_elsewhere P p (disk e)).
  - apply (essential_elsewhere P p (disk e)); [done..| |done].
    destruct o as [n|]; [|done]. destruct Ew as [_ ->]. intros q Hq. by apply lookup_insert_ne.
Qed.

(** Renaming the file just written in full to [final]. *)
Lemma rename_lasts P p final bytes (e e1 : E) b e' :
  essential P -> aside p -> p <> final -> bytes_ok bytes ->
  (forall d, P d -> P (<[final := bytes]> d)) ->
  fs_write p bytes e = (Some (length bytes), e1) -> fs_rename p final e1 = (b, e') ->
  lasts P e1 e'.
Proof.
  intros HP Hp Hne Hb Hins Ew Er. apply lasts_either; [|by eapply rename_passes].
  apply write_law in Ew as [_ Ew]; [|done]. apply rename_law in Er. intros HP1.
  destruct b; [|by rewrite Er]. destruct Er as (c & Hc & Er).
  rewrite Ew, lookup_insert_eq, firstn_all in Hc. injection Hc as <-.
  apply (essential_elsewhere P p (<[final := bytes]> (disk e1))); [done..| |by apply Hins].
  intros q Hq. rewrite Er. destruct (decide (q = final)) as [->|Hf]; [by rewrite !lookup_insert_eq|].
  rewrite !lookup_insert_ne by done. by apply lookup_delete_ne.
Qed.

(** ** The storage *)

(** Taking away a record's file, or putting one there, keeps [P]. *)
Definition takes (P : Disk -> Prop) (id : Z) : Prop :=
  forall d, P d -> P (delete (queuePath (recordName id)) d).
Definition puts (P : Disk -> Prop) (id : Z) : Prop :=
  forall bytes d, P d -> P (<[queuePath (recordName id) := bytes]> d).

Lemma writeRecord_lasts P id bytes (e : E) b e' :
  essential P -> bytes_ok bytes -> puts P id ->
  writeRecordAtomic id bytes e = (b, e') -> lasts P e e'.
Proof.
  intros HP Hb Hins. cbn. unfold flash_writeRecordAtomic. pose proof (temporaryPath_aside id) as Ht.
  destruct (silentlyUnlink _ e) as [cleared e1] eqn:Eu. eapply unlink_lasts in Eu; [|done..].
  destruct cleared; cbn [negb]; [|by intros [= <- <-]].
  destruct (fs_write _ bytes e1) as [o e2] eqn:Ew.
  pose proof (write_lasts P _ _ _ _ _ HP Ht Hb Ew) as K2. pose proof (lasts_trans _ _ _ _ Eu K2) as K.
  destruct o as [n|]; [|by intros [= <- <-]].
  destruct (Nat.eqb_spec n (length bytes)) as [->|]; cbn [negb].
  - destruct (fs_rename _ _ e2) as [renamed e3] eqn:Er.
    eapply rename_lasts in Er; [|exact HP|exact Ht|apply Ht|exact Hb|apply Hins|exact Ew].
    pose proof (lasts_trans _ _ _ _ K Er) as K3. destruct renamed; cbn [negb]; [by intros [= <- <-]|].
    destruct (silentlyUnlink _ e3) as [x e4] eqn:E4. eapply unlink_lasts in E4; [|done..].
    intros [= <- <-]. by eapply lasts_trans.
  - destruct (silentlyUnlink _ e2) as [x e3] eqn:E3. eapply unlink_lasts in E3; [|done..].
    intros [= <- <-]. by eapply lasts_trans.
Qed.

Lemma removeRecord_lasts P id (e : E) b e' :
  (b = true -> takes P id) -> removeRecord (recordName id) e = (b, e') -> lasts P e e'.
Proof.
  intros Hdel. cbn. unfold flash_removeRecord. rewrite fullPath_recordName. intros Er.
  apply lasts_either; [|by eapply remove_passes]. apply remove_law in Er. rewrite Er.
  destruct b; [by apply Hdel|done].
Qed.

Lemma readRecord_same P name (e : E) o e' : readRecord name e = (o, e') -> lasts P e e'.
Proof.
  cbn. unfold flash_readRecord. destruct (fs_open _ e) as [file e1] eqn:Eo.
  pose proof (open_keeps _ _ _ _ Eo) as D1.
  pose proof (lasts_same P _ _ D1 (open_passes _ _ _ _ Eo)) as K1.
  destruct file as [[dir size]|]; [|by intros [= <- <-]].
  destruct (dir || _); [by intros [= <- <-]|]. destruct (fs_read _ size e1) as [bs e2] eqn:Er.
  pose proof (read_keeps_disk _ _ _ _ _ Er) as D2. intros [= <- <-].
  eapply lasts_trans; [exact K1|]. by eapply lasts_same, read_passes.
Qed.

(** ** Reading *)

Lemma loadRecord_still name (e : E) o e' : loadRecord name e = (o, e') -> still e e'.
Proof.
  unfold loadRecord. intros El P. destruct (readRecord name e) as [[bytes|] e1] eqn:Er;
    apply (readRecord_same P) in Er; [|by injection El as <- <-].
  destruct (queueDecode _ _) as [ok record]. by injection El as <- <-.
Qed.

Lemma peekLoop_still es (e : E) o e' : peekLoop es e = (o, e') -> still e e'.
Proof.
  revert e o. induction es as [|x es IH]; intros e o; cbn [peekLoop];
    [intros [= <- <-]; apply still_refl|].
  destruct (loadRecord _ e) as [[record|] e1] eqn:El; apply loadRecord_still in El;
    [|by intros [= <- <-]].
  destruct (peekLoop es e1) as [o2 e2] eqn:Ep. intros [= <- <-].
  eapply still_trans; [exact El|by eapply IH].
Qed.

Lemma queuePeek_still n q (e : E) ok out q' e' : queuePeek n q e = (ok, out, q', e') -> still e e'.
Proof.
  unfold queuePeek, peek. destruct (ready q) as [core|]; [|intros [= <- <- <- <-]; apply still_refl].
  destruct (peekLoop _ e) as [[records|] e1] eqn:Ep; apply peekLoop_still in Ep;
    by intros [= <- <- <- <-].
Qed.

Lemma containsLoop_still es key hash c (e : E) b c' e' :
  containsLoop es key hash c e = (b, c', e') -> still e e'.
Proof.
  revert c e. induction es as [|x es IH]; intros c e; cbn [containsLoop];
    [intros [= <- <- <-]; apply still_refl|].
  destruct (negb _); [apply IH|].
  destruct (loadRecord _ e) as [loaded e1] eqn:El. apply loadRecord_still in El.
  destruct (loaded ≫= telemetryOf) as [t|];
    [destruct (telemetryKeyEqual _ _); [by intros [= <- <- <-]|]|];
    intros Ec; eapply still_trans, IH; eauto.
Qed.

Lemma queueContainsKey_still key q (e : E) b q' e' :
  queueContainsKey key q e = (b, q', e') -> still e e'.
Proof.
  unfold queueContainsKey, queueContains.
  destruct (ready q) as [core|]; [|intros [= <- <- <-]; apply still_refl].
  destruct (dedupContains (dq_recent q) key); [intros [= <- <- <-]; apply still_refl|].
  destruct (containsLoop _ _ _ core e) as [[contained core1] e1] eqn:Ec.
  apply containsLoop_still in Ec. by intros [= <- <- <-].
Qed.

(** ** Enqueueing *)

(** The first entry is gone: the file of its record may go. *)
Definition may_drop (P : Disk -> Prop) (c c' : DurableQueueCore) : Prop :=
  forall oldest, head (c_entries c) = Some oldest -> c_entries c' = tail (c_entries c) ->
    takes P (e_recordId oldest).

Lemma dropFront_lasts P c (e : E) ok c' e' :
  may_drop P c c' -> dropFront c e = (ok, c', e') ->
  lasts P e e' /\ c_entries c' = if ok then tail (c_entries c) else c_entries c.
Proof.
  intros Hd. unfold dropFront. destruct (c_entries c) as [|oldest rest] eqn:Ec.
  { intros [= <- <- <-]. split; [apply lasts_refl|done]. }
  destruct (removeRecord _ e) as [removed e1] eqn:Er. intros Eq.
  apply (removeRecord_lasts P) in Er.
  - destruct removed; injection Eq as <- <- <-; split; by destruct c.
  - intros ->. injection Eq as <- <- <-. apply Hd; rewrite Ec; [done|by destruct c].
Qed.

Lemma dropFront_entries c (e : E) ok c' e' :
  dropFront c e = (ok, c', e') -> c_entries c' = if ok then tail (c_entries c) else c_entries c.
Proof.
  unfold dropFront. destruct (c_entries c) as [|oldest rest] eqn:Ec; [by intros [= <- <- <-]|].
  destruct (removeRecord _ e) as [[] e1]; intros [= <- <- <-]; by destruct c.
Qed.

Lemma bumpErrors_entries c : c_entries (bumpErrors c) = c_entries c.
Proof. by destruct c. Qed.

(** At most the first entry goes. *)
Definition shortened (c c' : DurableQueueCore) : Prop :=
  c_entries c' = c_entries c \/ c_entries c' = tail (c_entries c).

Lemma writeOrDrop_shortened id bytes c (e : E) ok c' e' :
  writeOrDrop id bytes c e = (ok, c', e') -> shortened c c'.
Proof.
  unfold writeOrDrop, shortened. destruct (writeRecordAtomic id bytes e) as [[] e1];
    [intros [= <- <- <-]; by left|].
  destruct (_ <=? _)%nat; [|intros [= <- <- <-]; by left; rewrite bumpErrors_entries].
  destruct (dropFront c e1) as [[dropped c2] e2] eqn:E2. apply dropFront_entries in E2.
  destruct dropped; cbn [negb]; [|intros [= <- <- <-]; by left; rewrite bumpErrors_entries].
  destruct (writeRecordAtomic id bytes e2) as [[] e3]; intros [= <- <- <-]; right;
    by rewrite ?bumpErrors_entries.
Qed.

Lemma makeRoom_shortened id c (e : E) ok c' e' :
  makeRoom id c e = (ok, c', e') -> shortened c c'.
Proof.
  unfold makeRoom, shortened. destruct (_ <=? _)%nat; [|intros [= <- <- <-]; by left].
  destruct (dropFront c e) as [[dropped c2] e2] eqn:E2. apply dropFront_entries in E2.
  destruct dropped; [intros [= <- <- <-]; by right|].
  destruct (removeRecord _ e2). intros [= <- <- <-]. left. by rewrite bumpErrors_entries.
Qed.

Lemma writeOrDrop_lasts P id bytes c (e : E) ok c' e' :
  essential P -> bytes_ok bytes -> puts P id -> may_drop P c c' ->
  writeOrDrop id bytes c e = (ok, c', e') -> lasts P e e'.
Proof.
  intros HP Hb Hput Hd. unfold writeOrDrop.
  destruct (writeRecordAtomic id bytes e) as [wrote e1] eqn:E1.
  apply (writeRecord_lasts P) in E1; [|done..]. destruct wrote; [by intros [= <- <- <-]|].
  destruct (_ <=? _)%nat; [|by intros [= <- <- <-]].
  destruct (dropFront c e1) as [[dropped c2] e2] eqn:E2. intros Eq.
  assert (c_entries c' = c_entries c2) as Ec.
  { destruct dropped; cbn [negb] in Eq; [destruct (writeRecordAtomic id bytes e2) as [[] e3]|];
      injection Eq as <- <- <-; by rewrite ?bumpErrors_entries. }
  apply (dropFront_lasts P) in E2 as [K2 _]; [|unfold may_drop in *; by rewrite <- Ec].
  pose proof (lasts_trans _ _ _ _ E1 K2) as K12.
  destruct dropped; cbn [negb] in Eq; [|by injection Eq as <- <- <-].
  destruct (writeRecordAtomic id bytes e2) as [again e3] eqn:E3.
  apply (writeRecord_lasts P) in E3; [|done..]. pose proof (lasts_trans _ _ _ _ K12 E3) as K13.
  destruct again; by injection Eq as <- <- <-.
Qed.

Lemma makeRoom_lasts P id c (e : E) ok c' e' :
  takes P id -> may_drop P c c' -> makeRoom id c e = (ok, c', e') -> lasts P e e'.
Proof.
  intros Hid Hd. unfold makeRoom. destruct (_ <=? _)%nat; [|intros [= <- <- <-]; apply lasts_refl].
  destruct (dropFront c e) as [[dropped c2] e2] eqn:E2. intros Eq.
  assert (c_entries c' = c_entries c2) as Ec.
  { destruct dropped; [|destruct (removeRecord _ e2)]; injection Eq as <- <- <-;
      by rewrite ?bumpErrors_entries. }
  apply (dropFront_lasts P) in E2 as [K2 _]; [|unfold may_drop in *; by rewrite <- Ec].
  destruct dropped; [by injection Eq as <- <- <-|].
  destruct (removeRecord _ e2) as [removed e3] eqn:E3. apply (removeRecord_lasts P) in E3; [|done].
  injection Eq as <- <- <-. by eapply lasts_trans.
Qed.

Lemma shortened_ids c c' id : shortened c c' -> id ∈ ids c' -> id ∈ ids c.
Proof.
  unfold shortened, ids. intros [-> | ->]; [done|]. destruct (c_entries c); [done|]. by right.
Qed.

(** An entry that has been dropped does not come back. *)
Lemma dropped_gone c c' (later : list Z) oldest :
  NoDup (ids c) -> head (c_entries c) = Some oldest -> c_entries c' = tail (c_entries c) ->
  (forall id, id ∈ later -> id ∈ ids c' \/ id ∉ ids c) -> e_recordId oldest ∉ later.
Proof.
  unfold ids. intros Hnd Hh -> Hl Hin. destruct (c_entries c) as [|x es]; [done|].
  injection Hh as ->. rewrite fmap_cons in *. apply NoDup_cons in Hnd as [Hx _].
  destruct (Hl _ Hin) as [?|Hn]; [done|]. apply Hn. left.
Qed.

(** What lasts while a record is enqueued: whatever allows for the new record's file
    and for the files of records that are no longer listed in the end. *)
Lemma enqueue_lasts P c (e : E) rs record ok record' c' e' :
  essential P -> core_ok c (files e) rs -> record_typed record ->
  (c_nextRecordId c <> 0 -> takes P (c_nextRecordId c) /\ puts P (c_nextRecordId c)) ->
  enqueue c e record = (ok, record', c', e') ->
  (forall id, id ∈ ids c -> id ∉ ids c' -> takes P id) -> lasts P e e'.
Proof.
  intros HP C T Hnew. unfold enqueue.
  destruct (Z.eqb_spec (c_nextRecordId c) 0) as [|Hn]; [intros [= <- <- <- <-] _; apply lasts_refl|].
  destruct (Hnew Hn) as [Htake Hput].
  destruct (telemetryOf record) as [t|]; [|intros [= <- <- <- <-] _; apply lasts_refl].
  set (r := record <| qr_recordId := c_nextRecordId c |>).
  assert (record_typed r) as Tr by (apply record_typed_id; [done|apply C]).
  assert (qr_recordId r = c_nextRecordId c) as Er by (by destruct record).
  destruct (queueEncode r) as [encoded bytes] eqn:Ee.
  destruct encoded; cbn [negb]; [|intros [= <- <- <- <-] _; apply lasts_refl].
  apply queueEncode_true in Ee as [_ ->]; [|done]. rewrite Er.
  pose proof (fresh_not_in _ _ _ C Hn) as Hfresh. pose proof (sorted_NoDup _ (co_sorted _ _ _ C)) as Hnd.
  destruct (writeOrDrop _ _ c e) as [[wrote c1] e1] eqn:Ew.
  pose proof (writeOrDrop_shortened _ _ _ _ _ _ _ Ew) as S1.
  assert (forall c3, (forall id, id ∈ ids c3 -> id ∈ ids c1 \/ id = c_nextRecordId c) ->
    (forall id, id ∈ ids c -> id ∉ ids c3 -> takes P id) -> may_drop P c c1) as Hd1.
  { intros c3 Hc3 Hgone oldest Hh Ht. apply Hgone.
    - unfold ids. destruct (c_entries c); [done|]. injection Hh as ->. left.
    - apply (dropped_gone c c1); [done..|]. intros id Hin.
      destruct (Hc3 id Hin) as [?| ->]; [by left|by right]. }
  destruct wrote; cbn [negb].
  2:{ intros [= <- <- <- <-] Hgone. eapply (writeOrDrop_lasts P) in Ew; [done|done| |done|].
      - by apply recordWire_bytes.
      - apply (Hd1 c1); [by left|done]. }
  destruct (makeRoom _ c1 e1) as [[fits c2] e2] eqn:Em.
  pose proof (makeRoom_shortened _ _ _ _ _ _ Em) as S2. intros Eq Hgone.
  assert (forall id, id ∈ ids c' -> id ∈ ids c2 \/ id = c_nextRecordId c) as Hids.
  { intros id. destruct fits; cbn [negb] in Eq; injection Eq as <- <- <- <-; [|by left].
    rewrite <- Er. unfold ids. cbn [c_entries].
    rewrite fmap_app, elem_of_app. intros [?|Hin]; [by left|right].
    by apply list_elem_of_singleton in Hin. }
  assert (e' = e2) as -> by (destruct fits; cbn [negb] in Eq; by injection Eq as <- <- <- <-).
  eapply lasts_trans.
  - eapply (writeOrDrop_lasts P); [done|by apply recordWire_bytes|done| |exact Ew].
    apply (Hd1 c'); [|done]. intros id Hin. destruct (Hids id Hin) as [?|?]; [left|by right].
    by eapply shortened_ids.
  - eapply (makeRoom_lasts P); [done| |exact Em]. intros oldest Hh Ht. apply Hgone.
    + apply (shortened_ids c c1); [done|]. unfold ids. destruct (c_entries c1); [done|].
      injection Hh as ->. left.
    + apply (dropped_gone c1 c2); [|done..|].
      * unfold ids in *. destruct S1 as [-> | ->]; [done|]. destruct (c_entries c); [done|].
        rewrite fmap_cons in Hnd. by apply NoDup_cons in Hnd as [_ ?].
      * intros id Hin. destruct (Hids id Hin) as [?| ->]; [by left|right].
        intros Hi. by apply Hfresh, (shortened_ids c c1).
Qed.

Lemma persistCounters_lasts P q (e : E) b q' e' :
  persistCounters q e = (b, q', e') -> lasts P e e'.
Proof.
  unfold persistCounters. intros Eq.
  repeat match type of Eq with
  | context [prefs_putULong64 ?k ?v ?e0] =>
      let n := fresh "n" in let e1 := fresh "e" in let Ep := fresh "Ep" in
      destruct (prefs_putULong64 k v e0) as [n e1] eqn:Ep;
      apply (fun Hp => lasts_same P _ _ (putULong64_disk _ _ _ _ _ Hp) (put_passes _ _ _ _ _ Hp)) in Ep
  end.
  match type of Eq with (if ?b then _ else _) = _ => destruct b end.
  - destruct (millis _) as [now e7] eqn:Em.
    apply (fun Hm => lasts_same P _ _ (millis_disk _ _ _ Hm) (millis_passes _ _ _ Hm)) in Em.
    injection Eq as _ _ <-. eauto 10 using lasts_trans.
  - injection Eq as _ _ <-. eauto 10 using lasts_trans.
Qed.

Lemma checkpoint_lasts P force q (e : E) q' e' :
  checkpointCountersUnlocked force q e = (q', e') -> lasts P e e'.
Proof.
  unfold checkpointCountersUnlocked. destruct (millis e) as [now e1] eqn:Em.
  apply (fun Hm => lasts_same P _ _ (millis_disk _ _ _ Hm) (millis_passes _ _ _ Hm)) in Em.
  destruct (_ && _); [by intros [= <- <-]|].
  destruct (persistCounters q e1) as [[b q1] e2] eqn:Ep. apply (persistCounters_lasts P) in Ep.
  intros [= <- <-]. by eapply lasts_trans.
Qed.

Lemma recordUploadRetry_still q (e : E) q' e' : recordUploadRetry q e = (q', e') -> still e e'.
Proof.
  unfold recordUploadRetry. destruct (negb _); [intros [= <- <-]; apply still_refl|].
  intros Ec P. by eapply checkpoint_lasts.
Qed.

Lemma checkpointCounters_still force q (e : E) q' e' :
  checkpointCounters force q e = (q', e') -> still e e'.
Proof.
  unfold checkpointCounters. destruct (dq_mutex q); [|intros [= <- <-]; apply still_refl].
  intros Ec P. by eapply checkpoint_lasts.
Qed.

(** ** What is to survive *)

(** The records [rs] are stored, and the ring's file is in order. *)
Definition survives (ring : Disk -> Prop) (rs : list QueueRecord) (d : Disk) : Prop :=
  Forall (stored (record_files d)) rs /\ ring d.

Definition ring_only (ring : Disk -> Prop) : Prop :=
  forall d d', d' !! kRecentPath = d !! kRecentPath -> ring d -> ring d'.

Lemma survives_essential ring rs : ring_only ring -> essential (survives ring rs).
Proof.
  intros Hr d d' Ef Ek [Hs Hd]. unfold survives. rewrite Ef. split; [done|by eapply Hr].
Qed.

Lemma stored_other m m' r :
  stored m r -> m' !! recordName (qr_recordId r) = m !! recordName (qr_recordId r) -> stored m' r.
Proof. unfold stored. intros (? & ? & ? & ?) ->. done. Qed.

Lemma ring_path id : kRecentPath <> queuePath (recordName id).
Proof. apply recentPath_not_record. Qed.

Lemma survives_takes ring rs id :
  ring_only ring -> valid_id id -> id ∉ qr_recordId <$> rs -> takes (survives ring rs) id.
Proof.
  intros Hr Hv Hid d [Hs Hd]. split.
  - rewrite record_files_delete by done. rewrite Forall_forall in Hs |- *. intros r Hin.
    pose proof (Hs r Hin) as Hst. apply (stored_other _ _ _ Hst), lookup_delete_ne.
    intros E1. apply recordName_inj in E1 as ->; [|done|apply Hst]. apply Hid.
    by apply list_elem_of_fmap_2.
  - eapply Hr; [|exact Hd]. apply lookup_delete_ne, not_eq_sym, ring_path.
Qed.

Lemma survives_puts ring rs id :
  ring_only ring -> valid_id id -> id ∉ qr_recordId <$> rs -> puts (survives ring rs) id.
Proof.
  intros Hr Hv Hid bytes d [Hs Hd]. split.
  - rewrite record_files_insert by done. rewrite Forall_forall in Hs |- *. intros r Hin.
    pose proof (Hs r Hin) as Hst. apply (stored_other _ _ _ Hst), lookup_insert_ne.
    intros E1. apply recordName_inj in E1 as ->; [|done|apply Hst]. apply Hid.
    by apply list_elem_of_fmap_2.
  - eapply Hr; [|exact Hd]. apply lookup_insert_ne, not_eq_sym, ring_path.
Qed.

Lemma ring_file_only keys : ring_only (fun d => ring_file d keys).
Proof. intros d d' Ed. by apply ring_file_same. Qed.

(** Whatever is still in the queue in the end is stored all along. *)
Lemma enqueue_survives ring record q (e : E) rs L o record' q' e' rs' :
  queue_ok q e rs -> record_typed record -> ring_only ring -> L ⊆ rs -> L ⊆ rs' ->
  queueEnqueue record q e = (o, record', q', e') -> queue_ok q' e' rs' ->
  lasts (survives ring L) e e'.
Proof.
  intros [(core & Hr & C) _] T Hring Hsub Hsub' Eq K'. unfold queueEnqueue in Eq. rewrite Hr in Eq.
  set (P := survives ring L).
  destruct (enqueue core e record) as [[[result r1] core1] e1] eqn:Ee.
  assert (dq_core q' = Some core1 /\ lasts P e1 e') as [Hc Hend].
  { match type of Eq with context [persistCounters ?q3 e1] => set (q4 := q3) in Eq end.
    assert (dq_core q4 = Some core1) as Hc4 by (unfold q4; by destruct q). clearbody q4.
    destruct (negb _); [|injection Eq as <- <- <- <-; by split; [|apply lasts_refl]].
    destruct (persistCounters q4 e1) as [[b q5] e5] eqn:Ep. injection Eq as <- <- <- <-.
    pose proof (persistCounters_lasts P _ _ _ _ _ Ep). apply persistCounters_keeps in Ep as (_ & -> & _).
    done. }
  destruct K' as [(core' & Hr' & C') _]. apply ready_core in Hr'. rewrite Hc in Hr'. injection Hr' as <-.
  pose proof (holds_ids _ _ _ (co_holds _ _ _ C)) as Eids.
  pose proof (holds_ids _ _ _ (co_holds _ _ _ C')) as Eids'.
  eapply lasts_trans; [|exact Hend].
  eapply (enqueue_lasts P); [by apply survives_essential|exact C|done| |exact Ee|].
  - intros Hn. assert (valid_id (c_nextRecordId core)) as Hv by (split; [apply C|done]).
    assert (c_nextRecordId core ∉ qr_recordId <$> L) as Hfresh.
    { intros (r & Er & Hin)%list_elem_of_fmap. apply (fresh_not_in _ _ _ C Hn).
      unfold ids. rewrite <- Eids, Er. by apply list_elem_of_fmap_2, Hsub. }
    split; [by apply survives_takes|by apply survives_puts].
  - intros id Hin Hout. apply survives_takes; [done| |].
    + apply list_elem_of_fmap in Hin as (x & -> & Hx). apply list_elem_of_lookup in Hx as (i & Hi).
      destruct (Forall2_lookup_l _ _ _ _ _ (co_holds _ _ _ C) Hi) as (r & _ & Hh). apply Hh.
    + intros (r & -> & HL)%list_elem_of_fmap. apply Hout. unfold ids. rewrite <- Eids'.
      by apply list_elem_of_fmap_2, Hsub'.
Qed.

(** The records kept and the ring's file last. *)
Lemma enqueue_kept record q (e : E) rs o record' q' e' :
  queue_ok q e rs -> record_typed record -> record_padded record ->
  queueEnqueue record q e = (o, record', q', e') ->
  exists kept, (kept = rs \/ kept = tail rs /\ length rs = durableCapacity q) /\
    queue_ok q' e' (if eo_persisted o then kept ++ [record'] else kept) /\
    (eo_persisted o = true -> record' = record <| qr_recordId := queue_next q |>) /\
    forall keys, ring_file (disk e) keys ->
      passes (survives (fun d => ring_file d keys) kept) e e' /\ ring_file (disk e') keys.
Proof.
  intros K T Pd Eq.
  pose proof (queueEnqueue_spec _ _ _ _ _ _ _ _ K T Pd Eq) as (_ & kept & Hkept & K').
  assert (queue_ok q' e' (if eo_persisted o then kept ++ [record'] else kept)) as K2
    by (destruct (eo_persisted o); [apply K'|done]).
  assert (kept ⊆ rs) as Hsub
    by (destruct Hkept as [->|[-> _]]; [done|destruct rs; [done|by apply list_subseteq_cons]]).
  exists kept. split_and!; [done|done|intros Ho; rewrite Ho in K'; apply K'|]. intros keys Hk.
  assert (kept ⊆ if eo_persisted o then kept ++ [record'] else kept) as Hsub2
    by (destruct (eo_persisted o); [intros r Hr; apply elem_of_app; by left|done]).
  destruct (enqueue_survives (fun d => ring_file d keys) _ _ _ _ kept _ _ _ _ _ K T
    (ring_file_only keys) Hsub Hsub2 Eq K2) as [A [_ B]]; [|by split].
  split; [|done]. pose proof (queue_ok_stored _ _ _ K) as Hst.
  rewrite Forall_forall in Hst |- *. intros r Hin. by apply Hst, Hsub.
Qed.

(** C16: enqueueing loses nothing when the power goes: the records that are kept, all of
    the queue but maybe the oldest of a full one, are stored in every state the flash
    passes through, with the ring's file as before; in the end the queue holds them and,
    when the answer is true, the new record. *)
Theorem enqueue_power_safe record q (e : E) rs keys o record' q' e' :
  queue_ok q e rs -> record_typed record -> record_padded record -> ring_file (disk e) keys ->
  queueEnqueue record q e = (o, record', q', e') ->
  exists kept, (kept = rs \/ kept = tail rs /\ length rs = durableCapacity q) /\
    passes (fun d => Forall (stored (record_files d)) kept /\ ring_file d keys) e e' /\
    queue_ok q' e' (if eo_persisted o then kept ++ [record'] else kept).
Proof.
  intros K T Pd Hk Eq.
  destruct (enqueue_kept _ _ _ _ _ _ _ _ K T Pd Eq) as (kept & Hkept & K' & _ & Hl).
  exists kept. split_and!; [done|exact (proj1 (Hl keys Hk))|done].
Qed.

(** ** Finishing *)

Lemma queueRemove_lasts P id c (e : E) ok c' e' :
  Forall valid_id (ids c) -> queueRemove id c e = (ok, c', e') ->
  (ok = true -> valid_id id -> takes P id) -> lasts P e e'.
Proof.
  intros Hv. unfold queueRemove, ids in *.
  destruct (list_find (has_id id) (c_entries c)) as [[i found]|] eqn:Ef;
    [|intros [= <- <- <-] _; apply lasts_refl].
  apply list_find_Some in Ef as (Hi & Eid & _). unfold has_id in Eid.
  assert (valid_id (e_recordId found)) as Hf.
  { rewrite Forall_fmap, Forall_lookup in Hv. exact (Hv _ _ Hi). }
  destruct (removeRecord _ e) as [removed e1] eqn:Er. intros Eq Hid.
  apply (removeRecord_lasts P) in Er.
  - destruct removed; by injection Eq as <- <- <-.
  - intros ->. injection Eq as <- <- <-. rewrite Eid in *. by apply Hid.
Qed.

(** What is removed is no longer listed, and nothing is listed anew. *)
Lemma queueRemove_ids id c (e : E) ok c' e' :
  NoDup (ids c) -> queueRemove id c e = (ok, c', e') ->
  NoDup (ids c') /\ ids c' ⊆ ids c /\ (ok = true -> id ∉ ids c').
Proof.
  intros Hnd. unfold queueRemove, ids in *.
  destruct (list_find (has_id id) (c_entries c)) as [[i found]|] eqn:Ef;
    [|intros [= <- <- <-]; split_and!; [done|done|]].
  2:{ intros _ (x & -> & Hx)%list_elem_of_fmap. apply list_find_None in Ef.
      rewrite Forall_forall in Ef. by apply (Ef x Hx). }
  apply list_find_Some in Ef as (Hi & Eid & _). unfold has_id in Eid.
  destruct (removeRecord _ e) as [[] e1]; intros [= <- <- <-]; destruct c as [cap n es st]; cbn in *;
    [|done]. rewrite list_fmap_delete. assert ((e_recordId <$> es) !! i = Some id) as Hid
    by (by rewrite list_lookup_fmap, Hi, <- Eid).
  apply delete_Permutation in Hid as Hp. rewrite Hp in Hnd. apply NoDup_cons in Hnd as [Hx Hnd].
  split_and!; [done| |done]. intros x Hin. rewrite Hp. by right.
Qed.

Lemma finishActions_ids actions core success changed q (e : E) success' changed' core' q' e' :
  NoDup (ids core) ->
  finishActions actions core success changed q e = (success', changed', core', q', e') ->
  ids core' ⊆ ids core.
Proof.
  revert core success changed q e. induction actions as [|action actions IH];
    intros core success changed q e Hnd; cbn [finishActions]; [by intros [= <- <- <- <- <-]|].
  destruct (queueRemove _ core e) as [[ok core1] e1] eqn:Er.
  apply queueRemove_ids in Er as (Hnd1 & Hsub & _); [|done].
  destruct ok; cbn [negb]; [destruct (remember _ _)|]; intros Ef; apply IH in Ef; try done;
    by etransitivity.
Qed.

Lemma finishActions_lasts P actions core success changed q (e : E) success' changed' core' q' e' :
  Forall valid_id (ids core) -> NoDup (ids core) ->
  finishActions actions core success changed q e = (success', changed', core', q', e') ->
  (forall id, valid_id id -> id ∉ ids core' -> takes P id) -> lasts P e e'.
Proof.
  revert core success changed q e. induction actions as [|action actions IH];
    intros core success changed q e Hv Hnd; cbn [finishActions];
    [intros [= <- <- <- <- <-] _; apply lasts_refl|].
  destruct (queueRemove _ core e) as [[ok core1] e1] eqn:Er.
  pose proof (queueRemove_ids _ _ _ _ _ _ Hnd Er) as (Hnd1 & Hsub & Hout).
  assert (Forall valid_id (ids core1)) as Hv1
    by (rewrite Forall_forall in Hv |- *; intros id Hin; by apply Hv, Hsub).
  assert (forall success1 changed1 q1,
    finishActions actions core1 success1 changed1 q1 e1 = (success', changed', core', q', e') ->
    (forall id, valid_id id -> id ∉ ids core' -> takes P id) -> lasts P e e') as Hgo.
  { intros success1 changed1 q1 Ef Ht. eapply lasts_trans; [|by eapply IH].
    apply finishActions_ids in Ef as Hsub'; [|done].
    eapply queueRemove_lasts; [exact Hv|exact Er|]. intros -> Hid. apply Ht; [done|].
    intros Hin. by apply Hout, Hsub'. }
  destruct ok; cbn [negb]; [destruct (remember _ _)|]; intros Ef; exact (Hgo _ _ _ Ef).
Qed.

Lemma persistRecent_lasts P q (e : E) b e' :
  essential P -> ring_wf (dq_recent q) ->
  (forall d, P d -> P (<[kRecentPath := encodeRecent (dq_recent q)]> d)) ->
  persistRecent q e = (b, e') -> lasts P e e'.
Proof.
  intros HP R%encodeRecent_bytes Hins. unfold persistRecent. pose proof recentTempPath_aside as Ht.
  destruct (silentlyUnlink _ e) as [cleared e1] eqn:Eu. eapply unlink_lasts in Eu; [|done..].
  destruct cleared; cbn [negb]; [|by intros [= <- <-]].
  destruct (fs_write _ _ e1) as [o e2] eqn:Ew.
  pose proof (write_lasts P _ _ _ _ _ HP Ht R Ew) as K2. pose proof (lasts_trans _ _ _ _ Eu K2) as K.
  destruct o as [n|]; [|by intros [= <- <-]].
  destruct (Nat.eqb_spec n (length (encodeRecent (dq_recent q)))) as [->|]; cbn [negb].
  - intros Er. eapply rename_lasts in Er; [|exact HP|exact Ht|apply Ht|exact R|exact Hins|exact Ew].
    by eapply lasts_trans.
  - destruct (silentlyUnlink _ e2) as [x e3] eqn:E3. eapply unlink_lasts in E3; [|done..].
    intros [= <- <-]. by eapply lasts_trans.
Qed.

Lemma record_files_ring (bytes : list Z) (d : Disk) :
  record_files (<[kRecentPath := bytes]> d) = record_files d.
Proof. apply record_files_keep. intros id _. apply lookup_insert_ne, ring_path. Qed.

(** What is still in the queue in the end is stored all along, and the ring's file is
    one of the two. *)
Lemma finish_survives actions q (e : E) rs keys ok q' e' rs' :
  queue_ok q e rs -> Forall (fun a => key_wf (qa_key a)) actions ->
  ring_file (disk e) keys -> finish actions q e = (ok, q', e') -> queue_ok q' e' rs' -> rs' ⊆ rs ->
  passes (survives (fun d => ring_file d keys \/ ring_file d (recent (dq_recent q'))) rs') e e'.
Proof.
  intros K Ha Hk Eq K' Hsub. pose proof (queue_ok_stored _ _ _ K) as Hst.
  pose proof K as [(core & Hr & C) R]. unfold finish in Eq. rewrite Hr in Eq.
  assert (Forall valid_id (ids core)) as Hv.
  { unfold ids. apply Forall_fmap. eapply Forall2_Forall_l; [apply C|].
    apply Forall_forall. intros r _ x Hx. apply Hx. }
  set (ring := fun d : Disk => ring_file d keys \/ ring_file d (recent (dq_recent q'))).
  assert (ring_only ring) as Hring by (intros d d' Ed [Hd|Hd]; [left|right]; by eapply ring_file_same).
  set (P := survives ring rs').
  destruct (finishActions actions core true false q e) as [[[[success changed] core1] q1] e1] eqn:Ef.
  set (q2 := q1 <| dq_core := Some core1 |>) in Eq.
  assert (dq_recent q2 = dq_recent q1 /\ dq_core q2 = Some core1) as [Eq2 Ec2]
    by (unfold q2; by destruct q1). clearbody q2.
  destruct (if changed then _ else _) as [[success3 q3] e3] eqn:E3.
  destruct (checkpointCountersUnlocked false q3 e3) as [q4 e4] eqn:Ec.
  pose proof (checkpoint_lasts P _ _ _ _ _ Ec) as K4.
  apply checkpoint_keeps in Ec as (_ & Ecore4 & Er4 & _). injection Eq as <- <- <-.
  assert (dq_recent q3 = dq_recent q2 /\ dq_core q3 = dq_core q2 /\ lasts P e1 e3) as (Er3 & Ecore3 & K3).
  { destruct changed; [|injection E3 as <- <- <-; split_and!; [done..|apply lasts_refl]].
    destruct (persistRecent q2 e1) as [persisted e2] eqn:Ep.
    assert (dq_recent q3 = dq_recent q2 /\ dq_core q3 = dq_core q2 /\ e3 = e2) as (Er3 & Ecore3 & ->)
      by (destruct persisted; cbn [negb] in E3; injection E3 as <- <- <-; by destruct q2).
    split_and!; [done..|].
    assert (ring_wf (dq_recent q2)) as W2 by (rewrite <- Er3, <- Er4; apply K').
    apply (persistRecent_lasts P) in Ep; [done|by apply survives_essential|done|].
    intros d [Hs Hd]. split; [by rewrite record_files_ring|right].
    rewrite Er4, Er3. apply ring_file_new; [done|]. by rewrite lookup_insert_eq. }
  destruct K' as [(core' & Hr' & C') _]. apply ready_core in Hr'.
  rewrite Ecore4, Ecore3, Ec2 in Hr'. injection Hr' as <-.
  pose proof (holds_ids _ _ _ (co_holds _ _ _ C')) as Eids.
  eapply (finishActions_lasts P) in Ef; [|done|by apply sorted_NoDup, C|].
  - destruct (lasts_trans _ _ _ _ (lasts_trans _ _ _ _ Ef K3) K4) as [A _]; [|exact A].
    split; [|by left]. rewrite Forall_forall in Hst |- *. intros r Hin. by apply Hst, Hsub.
  - intros id Hid Hout. apply survives_takes; [done..|]. by rewrite Eids.
Qed.

Lemma left_over_subset removed rs : left_over removed rs ⊆ rs.
Proof. intros r [_ Hin]%list_elem_of_filter. done. Qed.

(** C17: finishing loses nothing when the power goes: the records that no carried-out
    action names are stored in every state the flash passes through, and the ring's
    file holds the keys from before or all the new ones.  In the end the queue holds
    these records, and the file the new keys whenever the answer is true and file and
    ring agreed before. *)
Theorem finish_power_safe actions q (e : E) rs keys ok q' e' :
  queue_ok q e rs -> Forall (fun a => key_wf (qa_key a)) actions ->
  ring_file (disk e) keys -> finish actions q e = (ok, q', e') ->
  exists removed, removed `sublist_of` actions /\ (ok = true -> removed = actions) /\
    passes (fun d => Forall (stored (record_files d)) (left_over removed rs) /\
                     (ring_file d keys \/ ring_file d (recent (dq_recent q')))) e e' /\
    queue_ok q' e' (left_over removed rs) /\
    (ok = true -> keys = recent (dq_recent q) -> ring_file (disk e') (recent (dq_recent q'))).
Proof.
  intros K Ha Hk Eq. destruct (finish_spec _ _ _ _ _ _ _ K Ha Eq) as (removed & Hsub & K' & _ & Hok).
  destruct (finish_ring _ _ _ _ _ _ _ _ K Ha Hk Eq) as [_ Hring].
  exists removed. split_and!; [done..| |done|done].
  eapply finish_survives; [exact K|done|done|done|exact K'|apply left_over_subset].
Qed.
End Lasts.

(** Without a record of the states nothing is claimed of them. *)
Section NoHistory.
Context {E : Type} `{EnvironmentLaws E}.

Definition no_history : FlashHistory E := {| history _ := [] |}.

Lemma no_history_laws : @HistoryLaws E _ _ _ _ _ no_history.
Proof. split; intros; by exists []. Qed.
End NoHistory.

(** ** A flash with a history

    [Logged] (FlashPower) lasts every state it passes through. *)

Section LoggedHistory.
Context {F : Type} `{EnvironmentLaws F}.

#[export] Instance logged_preferences : Preferences (@Logged F) := {
  prefs_begin n b s := logged (prefs_begin n b s.1) s.2;
  prefs_getBool k d s := logged (prefs_getBool k d s.1) s.2;
  prefs_putBool k v s := logged (prefs_putBool k v s.1) s.2;
  prefs_getULong64 k d s := logged (prefs_getULong64 k d s.1) s.2;
  prefs_putULong64 k v s := logged (prefs_putULong64 k v s.1) s.2;
}.

#[export] Instance logged_millis : Millis (@Logged F) := { millis s := logged (millis s.1) s.2 }.

Lemma logged_eq {A} (r : A * F) log a s' :
  logged r log = (a, s') -> r = (a, s'.1) /\ s'.2 = log ++ [s'.1].
Proof. destruct r. by intros [= <- <-]. Qed.

#[export] Instance logged_laws : FileSystemLaws (@Logged F).
Proof.
  refine {| disk (s : @Logged F) := disk s.1 |}; intros [s log].
  - apply disk_bytes.
  - intros b s' [E _]%logged_eq. by eapply mount_keeps.
  - intros p r s' [E _]%logged_eq. by eapply stat_keeps.
  - intros p s' [E _]%logged_eq. by eapply stat_absent.
  - intros p r s' [E _]%logged_eq. by eapply unlink_law.
  - intros p b s' [E _]%logged_eq. by eapply mkdir_keeps.
  - intros p o s' [E _]%logged_eq. by eapply list_keeps.
  - intros p entries s' [E _]%logged_eq. by eapply list_law.
  - intros p o s' [E _]%logged_eq. by eapply open_keeps.
  - intros p n s' [E _]%logged_eq. by eapply open_law.
  - intros p dir n s' [E _]%logged_eq. by eapply open_file.
  - intros p n bs s' [E _]%logged_eq. by eapply read_keeps_disk.
  - intros p n bs s' bytes [E _]%logged_eq. by eapply read_law.
  - intros p n bs s' [E _]%logged_eq. by eapply read_absent.
  - intros p bytes o s' Hb [E _]%logged_eq. by eapply write_law.
  - intros a b r s' [E _]%logged_eq. by eapply rename_law.
  - intros p r s' [E _]%logged_eq. by eapply remove_law.
Defined.

#[export] Instance logged_environment : EnvironmentLaws (@Logged F).
Proof.
  split.
  - intros n b [s log] r s' [E _]%logged_eq. exact (begin_disk _ _ _ _ _ E).
  - intros k d [s log] v s' [E _]%logged_eq. exact (getBool_disk _ _ _ _ _ E).
  - intros k v [s log] n s' [E _]%logged_eq. exact (putBool_disk _ _ _ _ _ E).
  - intros k d [s log] v s' [E _]%logged_eq. exact (getULong64_disk _ _ _ _ _ E).
  - intros k v [s log] n s' [E _]%logged_eq. exact (putULong64_disk _ _ _ _ _ E).
  - intros [s log] t s' [E _]%logged_eq. exact (millis_disk _ _ _ E).
Qed.

#[export] Instance logged_history : FlashHistory (@Logged F) := { history s := disk <$> s.2 }.

Lemma logged_passes (P : Disk -> Prop) (s : F) log (s' : @Logged F) :
  s'.2 = log ++ [s'.1] -> P (disk s'.1) -> passes P (s, log) s'.
Proof.
  intros E HP. exists [disk s'.1]. cbn. rewrite E, fmap_app. split; [done|]. by constructor.
Qed.

Lemma logged_same {A} (r : A * F) s log v (s' : @Logged F) :
  (forall s1, r = (v, s1) -> disk s1 = disk s) -> logged r log = (v, s') ->
  passes (eq (disk s)) (s, log) s'.
Proof. intros Hd [E L]%logged_eq. apply logged_passes; [done|]. by rewrite (Hd _ E). Qed.

#[export] Instance logged_history_laws : HistoryLaws (@Logged F).
Proof.
  split;
    [intros [s log]|intros p [s log]|intros p [s log]|intros p [s log]|intros p [s log]
    |intros p n [s log]|intros n b [s log]|intros k d [s log]|intros k d [s log]|intros k v [s log]
    |intros [s log]|..];
    try (intros r s' E; eapply logged_same; [|exact E]; cbn [fst]; intros s1 E1;
      eauto using mount_keeps, stat_keeps, mkdir_keeps, list_keeps, open_keeps, read_keeps_disk,
        begin_disk, getBool_disk, getULong64_disk, putULong64_disk, millis_disk; fail).
  - intros p [s log] r s' [E L]%logged_eq. apply logged_passes; [done|by right].
  - intros a b [s log] r s' [E L]%logged_eq. apply logged_passes; [done|by right].
  - intros p [s log] r s' [E L]%logged_eq. apply logged_passes; [done|by right].
  - intros p bytes [s log] o s' Hb [E L]%logged_eq. apply logged_passes; [done|].
    apply write_law in E; [|done]. destruct o as [n|]; [|exact E].
    destruct E as [_ E]. intros q Hq. cbn [fst] in *. rewrite E. by apply lookup_insert_ne.
Qed.

#[export] Instance logged_reliable `{!ReliableFiles F} : ReliableFiles (@Logged F).
Proof.
  split.
  - intros name [s log]. exact (stat_reliable name s).
  - intros p [s log] bytes Hf. exact (open_reliable p s bytes Hf).
  - intros p n [s log] bytes Hf. exact (file_reliable p n s bytes Hf).
Qed.
End LoggedHistory.

(** ** A full queue of one record *)

Import StartedFlash.

Definition keptLog : @Logged MemoryFlash := (keptFlash, []).

Lemma keptLog_ok : queue_ok keptQueue keptLog sampleContents.
Proof. destruct keptQueue_ok as [Hr Hg]. split; [exact Hr|exact Hg]. Qed.

(** The new record displaces the old one: five calls are made, and the new record is
    stored before the old one goes. *)
Lemma enqueue_power_safe_witness :
  exists o r q' e', queueEnqueue (sampleQueued 8) keptQueue keptLog = (o, r, q', e') /\
    stored (files e') r /\ (5 <= length (history e'))%nat /\
    Forall (fun d => ring_file d [keptKey]) (history e').
Proof.
  destruct (queueEnqueue (sampleQueued 8) keptQueue keptLog) as [[[o r] q'] e'] eqn:E.
  assert (eo_persisted o = true) as Ho
    by (change o with (o, r, q', e').1.1.1; rewrite <- E; vm_compute; reflexivity).
  exists o, r, q', e'. split; [reflexivity|].
  destruct (enqueue_power_safe (sampleQueued 8) keptQueue keptLog sampleContents [keptKey] o r q' e'
    keptLog_ok (proj1 sampleQueued_8) (proj2 sampleQueued_8) keptFlash_ring E)
    as (kept & _ & (l & El & Hl) & K').
  rewrite Ho in K'. apply queue_ok_stored, Forall_app in K' as [_ Hst].
  split; [exact (Forall_inv Hst)|]. rewrite El. split.
  - rewrite <- El. change e' with (o, r, q', e').2. rewrite <- E. vm_compute. lia.
  - eapply Forall_impl; [exact Hl|]. intros d [_ Hd]. exact Hd.
Defined.

(** The record is answered for, and the ring's file cannot be renamed. *)
Definition answered : list QueueTerminalAction :=
  [mkQueueTerminalAction 1 (keyOf (sampleTelemetry <| tp_sequence := 7 |>)) false].

Definition unrenamedLog : @Logged MemoryFlash :=
  (mkMemoryFlash (mf_disk keptFlash) [true; true; true; false], []).

Lemma unrenamedLog_ok : queue_ok keptQueue unrenamedLog sampleContents.
Proof. destruct keptQueue_ok as [Hr Hg]. split; [exact Hr|exact Hg]. Qed.

Lemma finish_power_safe_witness :
  exists ok q' e', finish answered keptQueue unrenamedLog = (ok, q', e') /\ ok = false /\
    length (recent (dq_recent q')) = 2%nat /\ (4 <= length (history e'))%nat /\
    Forall (fun d => ring_file d [keptKey] \/ ring_file d (recent (dq_recent q'))) (history e').
Proof.
  destruct (finish answered keptQueue unrenamedLog) as [[ok q'] e'] eqn:E.
  exists ok, q', e'. split; [reflexivity|].
  destruct (finish_power_safe answered keptQueue unrenamedLog sampleContents [keptKey] ok q' e'
    unrenamedLog_ok) as (removed & _ & _ & (l & El & Hl) & _); [|exact keptFlash_ring|exact E|].
  - constructor; [|constructor]. unfold answered, keyOf. cbn [qa_key].
    rewrite makeTelemetryKey_node by apply sampleNode_ok.
    split; [apply sampleNode_ok|vm_compute; split; congruence..].
  - split; [change ok with (ok, q', e').1.1; rewrite <- E; vm_compute; reflexivity|].
    split; [change q' with (ok, q', e').1.2; rewrite <- E; vm_compute; reflexivity|]. split.
    + change e' with (ok, q', e').2. rewrite <- E. vm_compute. lia.
    + rewrite El. eapply Forall_impl; [exact Hl|]. intros d [_ Hd]. exact Hd.
Defined.
