(* ===== verification/QueueStart.v ===== *)
(** * Losing power while the queue starts (lib/queue/durable_queue, [DurableQueue::begin])

    [begin] removes files: what was left of unfinished writes, what is no record, and
    the oldest records when there are more than the queue may hold.  A record that is
    stored stays so in every state the flash passes through, unless as many newer ones
    are stored as the queue may hold, or its file cannot be read when recovery comes to
    it ([start_unread]): [begin] then takes it for corrupt and removes it. *)

From Stdlib Require Import ZArith Lia String.
From stdpp Require Import gmap list sorting.
From S2P Require Import Prelude BuildConfig CString ByteIO Platform Protocol ProtocolSpec.
From S2P Require Import QueueRecord QueueRecordSpec QueueRecordCodec Dedup QueueStorage.
From S2P Require Import DurableQueueCore DurableQueueSpec DurableQueueRecovery.
From S2P Require Import DurableQueueTheorems FlashStorage FlashStorageLaws MemoryFlash FlashPower.
From S2P Require Import ProtocolTheorems PacketProcessor DurableQueue DurableQueueWorld.
From S2P Require Import RecentCodec QueueRestart QueuePower.
Open Scope Z_scope.

(** [n] newer records than [r] are stored. *)
Definition outnumbered (n : nat) (m : FileMap) (r : QueueRecord) : Prop :=
  exists newer, length newer = n /\ StronglySorted Z.lt (qr_recordId <$> newer) /\
    Forall (fun x => stored m x /\ qr_recordId r < qr_recordId x) newer.

(** What is not among the newest is outnumbered by them. *)
Lemma newest_or_outnumbered m all n r :
  Forall (stored m) all -> StronglySorted Z.lt (qr_recordId <$> all) -> r ∈ all ->
  r ∈ newest n all \/ outnumbered n m r.
Proof.
  unfold newest. set (k := (length all - n)%nat). intros Hst Hs Hr.
  rewrite <- (take_drop k all) in Hr, Hs. apply elem_of_app in Hr as [Hr|?]; [right|by left].
  exists (drop k all). assert (0 < k)%nat as Hk by (destruct k; [by apply elem_of_nil in Hr|lia]).
  rewrite fmap_app in Hs. apply StronglySorted_app in Hs as (Hlt & _ & Hs).
  split; [rewrite length_drop; lia|]. split; [exact Hs|].
  rewrite Forall_forall in Hst |- *. intros x Hx. split.
  - apply Hst. by eapply elem_of_sublist, sublist_drop.
  - apply Hlt; by apply list_elem_of_fmap_2.
Qed.

Section Start.
Context {E : Type} `{HistoryLaws E}.

(** ** Files that are neither records nor the ring's *)

Lemma plain_aside p : 47 ∉ p -> aside p.
Proof.
  intros Hp. split; [intros id ->|intros ->]; apply Hp; vm_compute; left.
Qed.

Lemma remove_aside_lasts P p (e : E) b e' :
  essential P -> aside p -> fs_remove p e = (b, e') -> lasts P e e'.
Proof.
  intros HP Hp Er. apply lasts_either; [|by eapply remove_passes]. apply remove_law in Er.
  apply (essential_elsewhere P p); [done..|]. intros q Hq. rewrite Er.
  destruct b; [|done]. by apply lookup_delete_ne.
Qed.

Lemma removeAll_lasts P paths (e : E) : essential P -> plain paths -> lasts P e (removeAll paths e).
Proof.
  intros HP Hp. revert e. induction Hp as [|p paths Hp Hps IH]; intros e; cbn [removeAll];
    [apply lasts_refl|].
  destruct (fs_remove p e) as [b e1] eqn:Er.
  eapply remove_aside_lasts in Er; [|exact HP|by apply plain_aside]. by eapply lasts_trans.
Qed.

Lemma removeInvalid_lasts P paths n (e : E) :
  essential P -> plain paths -> lasts P e (removeInvalid paths n e).2.
Proof.
  intros HP Hp. revert n e. induction Hp as [|p paths Hp Hps IH]; intros n e; cbn [removeInvalid];
    [apply lasts_refl|].
  destruct (fs_remove p e) as [b e1] eqn:Er.
  eapply remove_aside_lasts in Er; [|exact HP|by apply plain_aside].
  destruct b; [|done]. by eapply lasts_trans.
Qed.

Lemma cleanup_lasts P (e : E) : essential P -> lasts P e (cleanupTemporaryFiles e).
Proof.
  intros HP. cbn. unfold flash_cleanupTemporaryFiles.
  destruct (fs_list _ e) as [[entries|] e1] eqn:El;
    pose proof (still_same _ _ (list_keeps _ _ _ _ El) (list_passes _ _ _ _ El) P) as K; [|done].
  eapply lasts_trans; [exact K|]. apply removeAll_lasts; [done|].
  eapply listed_plain; [exact El|]. by intros x [].
Qed.

Lemma list_lasts P (e : E) o e' : essential P -> listRecordIds e = (o, e') -> lasts P e e'.
Proof.
  intros HP. cbn. unfold flash_listRecordIds.
  destruct (fs_list _ e) as [[entries|] e1] eqn:El;
    pose proof (still_same _ _ (list_keeps _ _ _ _ El) (list_passes _ _ _ _ El) P) as K;
    [|by intros [= <- <-]].
  apply invalid_plain in El. destruct (scanRecords _ _ _) as [recordIds invalid].
  pose proof (removeInvalid_lasts P invalid 0 e1 HP El) as K2.
  destruct (removeInvalid _ _ e1) as [n e2]. intros [= <- <-]. by eapply lasts_trans.
Qed.

(** ** Recovery *)

Lemma recordIn_stored (e : E) r : stored (files e) r -> recordIn (files e) (qr_recordId r) = Some r.
Proof. intros (_ & W & Hf & _). by apply recordIn_spec; [apply files_files_ok|]. Qed.

(** A record that is stored and read is accepted, and its file stays. *)
Lemma recoverOne_lasts ring c (e : E) id L :
  ring_only ring -> valid_id id ->
  (unreadable id e = true -> id ∉ qr_recordId <$> L) ->
  lasts (survives ring L) e (recoverOne (c, e) id).2.
Proof.
  intros Hring Hv Hun HP. pose proof HP as [HL _]. unfold recoverOne.
  destruct (loadRecord_recordIn e id Hv) as (e1 & _ & El). rewrite El.
  pose proof (loadRecord_still _ _ _ _ El (survives ring L)) as K1.
  destruct (decide (id ∈ qr_recordId <$> L)) as [(r & Ei & Hin)%list_elem_of_fmap|Hne].
  - destruct (unreadable id e) eqn:Eu.
    { destruct (Hun eq_refl). rewrite Ei. by apply list_elem_of_fmap_2. }
    rewrite Forall_forall in HL. pose proof (HL r Hin) as Hr.
    pose proof (recordIn_stored e r Hr) as Hrec. destruct Hr as (_ & _ & _ & t & Ht).
    rewrite <- Ei in Hrec. rewrite Hrec, <- Ei, Z.eqb_refl. cbn [negb]. rewrite Ht. by apply K1.
  - destruct (match (if unreadable _ _ then _ else _) with Some _ => _ | None => _ end)
      as [[record t]|]; [by apply K1|].
    destruct (removeRecord _ e1) as [removed e2] eqn:Er.
    apply (removeRecord_lasts (survives ring L)) in Er.
    + by apply (lasts_trans _ _ _ _ K1 Er).
    + intros _. by apply survives_takes.
Qed.

Lemma recoverAll_lasts ring ids c (e : E) L :
  ring_only ring -> Forall valid_id ids ->
  Forall (fun r => qr_recordId r ∉ unread ids e) L ->
  lasts (survives ring L) e (foldl recoverOne (c, e) ids).2.
Proof.
  intros Hring Hids. revert c e. induction Hids as [|id ids Hv Hids IH]; intros c e Hun; cbn [foldl];
    [apply lasts_refl|]. cbn [unread] in Hun.
  assert (unreadable id e = true -> id ∉ qr_recordId <$> L) as Hid.
  { intros Hu (r & -> & Hin)%list_elem_of_fmap. rewrite Forall_forall in Hun.
    apply (Hun r Hin). rewrite Hu. by left. }
  pose proof (recoverOne_lasts ring c e id L Hring Hv Hid) as K.
  pose proof (recoverOne_visit c e id) as Ev.
  destruct (recoverOne (c, e) id) as [c1 e1]. cbn [snd] in Ev. subst e1.
  eapply lasts_trans; [exact K|]. apply IH. eapply Forall_impl; [exact Hun|].
  intros r Hn Hin. apply Hn. apply elem_of_app. by right.
Qed.

(** Trimming takes only what is beyond the capacity. *)
Lemma trimOldest_lasts P es c (e : E) :
  (forall k x, es !! k = Some x -> (k < length es - c_capacity c)%nat -> takes P (e_recordId x)) ->
  lasts P e (trimOldest es c e).2.
Proof.
  revert c e. induction es as [|x es IH]; intros c e Ht; cbn [trimOldest].
  { destruct (_ <=? _)%nat; apply lasts_refl. }
  match goal with |- context [(?a <=? ?b)%nat] => destruct (Nat.leb_spec a b) as [|Hl] end;
    [apply lasts_refl|].
  assert (forall c', c_capacity (c' <| c_entries := x :: es |>) = c_capacity c') as Ecap
    by (by intros []).
  rewrite Ecap in Hl. cbn [length] in Hl, Ht.
  destruct (removeRecord _ e) as [removed e1] eqn:Er.
  apply (removeRecord_lasts P) in Er; [|intros _; apply (Ht 0%nat x); [done|lia]].
  destruct removed; [|done]. eapply lasts_trans; [exact Er|]. apply IH.
  intros k y Hk Hl'. apply (Ht (S k) y Hk). destruct c; cbn in *. lia.
Qed.

Lemma recoverOne_capacity c (e : E) id : c_capacity (recoverOne (c, e) id).1 = c_capacity c.
Proof.
  unfold recoverOne. destruct (loadRecord _ e) as [o e1].
  destruct (match o with Some _ => _ | None => _ end) as [[record t]|]; [by destruct c|].
  destruct (removeRecord _ e1) as [[] e2]; by destruct c.
Qed.

Lemma recoverAll_capacity ids c (e : E) :
  c_capacity (foldl recoverOne (c, e) ids).1 = c_capacity c.
Proof.
  revert c e. induction ids as [|id ids IH]; intros c e; [done|]. cbn [foldl].
  pose proof (recoverOne_capacity c e id) as Ec. destruct (recoverOne (c, e) id). by rewrite IH.
Qed.

Lemma trimOldest_capacity es c (e : E) : c_capacity (trimOldest es c e).1.2 = c_capacity c.
Proof.
  revert c e. induction es as [|x es IH]; intros c e; cbn [trimOldest];
    destruct (_ <=? _)%nat; try by destruct c.
  destruct (removeRecord _ e) as [[] e1]; [rewrite IH|]; by destruct c.
Qed.

Lemma recover_capacity c (e : E) : c_capacity (recover c e).1.2 = c_capacity c.
Proof.
  unfold recover. destruct (listRecordIds _) as [[[recordIds corruptNames]|] e1]; [|by destruct c].
  match goal with |- context [foldl recoverOne (?c1, e1) recordIds] =>
    pose proof (recoverAll_capacity recordIds c1 e1) as E1;
    destruct (foldl recoverOne (c1, e1) recordIds) as [c2 e2] end.
  pose proof (trimOldest_capacity (sortEntries (c_entries c2)) c2 e2) as E2.
  destruct (trimOldest _ c2 e2) as [[[] c3] e3]; cbn in *; rewrite <- E2 in E1; by destruct c, c3.
Qed.

Lemma drop_sorted_out (es : list Entry) rs k n x :
  qr_recordId <$> rs = e_recordId <$> es -> NoDup (e_recordId <$> es) ->
  es !! k = Some x -> (k < n)%nat -> e_recordId x ∉ qr_recordId <$> drop n rs.
Proof.
  intros Eids Hnd Hk Hl. rewrite fmap_drop, Eids, <- fmap_drop. intros Hin.
  rewrite <- (take_drop n es), fmap_app in Hnd. apply NoDup_app in Hnd as (_ & Hnd & _).
  apply (Hnd (e_recordId x)); [|done]. apply list_elem_of_fmap_2, (list_elem_of_lookup_2 _ k).
  by rewrite lookup_take_lt.
Qed.

Lemma Forall_or_Exists {A} (P Q : A -> Prop) l :
  Forall (fun x => P x \/ Q x) l -> Forall P l \/ Exists Q l.
Proof.
  induction 1 as [|x l [Hx|Hx] _ IH]; [by left| |by right; left].
  destruct IH; [left|right]; by constructor.
Qed.

Lemma recover_lasts ring c (e : E) L :
  ring_only ring -> files e !! recordName (2 ^ 64 - 1) = None -> Forall (legible e) L ->
  lasts (survives ring L) e (recover c e).2 \/ Exists (outnumbered (c_capacity c) (files e)) L.
Proof.
  intros Hring Hmax HL. pose proof (survives_essential ring L Hring) as HP.
  unfold recover, legible, unread_at in *. pose proof (cleanup_lasts (survives ring L) e HP) as K0.
  destruct (listRecordIds (cleanupTemporaryFiles e)) as [[[recordIds corruptNames]|] e1] eqn:El;
    pose proof (list_lasts _ _ _ _ HP El) as K1; pose proof (lasts_trans _ _ _ _ K0 K1) as K;
    [|by left].
  apply list_files in El as (Hn & Hl & Hs1).
  assert (forall id, valid_id id -> files e1 !! recordName id = files e !! recordName id) as Hfs
    by (intros id Hv; rewrite Hs1 by done; by apply cleanup_keeps).
  assert (forall id, id ∈ recordIds <-> valid_id id /\ is_Some (files e !! recordName id)) as Hl'.
  { intros id. rewrite Hl. split; intros [Hv Hf]; (split; [done|]);
      rewrite cleanup_keeps in *; done. }
  match goal with |- context [foldl recoverOne (?c0, e1) recordIds] => set (c1 := c0) end.
  assert (c_capacity c1 = c_capacity c /\ c_entries c1 = [] /\ c_nextRecordId c1 = 1)
    as (Ec1 & Ee1 & En1) by (by destruct c).
  pose proof (indexed_fold c1 e e1 recordIds Hl' Hn Hfs Hmax Ee1 En1) as Hix.
  pose proof (recoverAll_lasts ring recordIds c1 e1 L Hring) as K2. clearbody c1.
  set (us := unread recordIds e1) in *.
  destruct (foldl recoverOne (c1, e1) recordIds) as [c2 e2]. destruct Hix as (rs & Hix).
  destruct (indexed_stored _ _ _ _ _ _ _ Hix) as [Hst Hss].
  pose proof (holds_ids _ _ _ (ix_holds _ _ _ _ _ _ _ Hix)) as Eids.
  pose proof (ix_capacity _ _ _ _ _ _ _ Hix) as Ec2. set (es := sortEntries (c_entries c2)) in *.
  assert (Forall (fun r => r ∈ newest (c_capacity c) rs) L \/
          Exists (outnumbered (c_capacity c) (files e)) L) as [Hnew|]; [| |by right].
  { apply Forall_or_Exists. eapply Forall_impl; [exact HL|]. intros r Hr.
    apply newest_or_outnumbered; [|done|by apply Hst].
    apply Forall_forall. intros x Hx. by apply Hst. }
  left. assert (lasts (survives ring L) e2 (trimOldest es c2 e2).2) as K3.
  { apply trimOldest_lasts. intros k x Hk Hlt. apply survives_takes; [done| |].
    - eapply (Forall2_lookup_l _ _ _ _ _ (ix_holds _ _ _ _ _ _ _ Hix)) in Hk as (y & _ & Hy).
      apply Hy.
    - intros (r & Ei & Hr)%list_elem_of_fmap. rewrite Forall_forall in Hnew. rewrite Ec2, Ec1 in Hlt.
      apply (drop_sorted_out es rs k (length es - c_capacity c) x); [done| |done..|].
      + apply sorted_NoDup, Hix.
      + rewrite Ei, (Forall2_length _ _ _ (ix_holds _ _ _ _ _ _ _ Hix)).
        by apply list_elem_of_fmap_2, Hnew. }
  assert (lasts (survives ring L) e (trimOldest es c2 e2).2) as K4.
  { eapply lasts_trans; [exact K|]. eapply lasts_trans; [|exact K3]. apply K2.
    - apply Forall_forall. intros id Hid. by apply Hl.
    - eapply Forall_impl; [exact HL|]. by intros r []. }
  by destruct (trimOldest es c2 e2) as [[[] c3] e3].
Qed.

(** ** The rest of [begin] *)

Lemma get_still k v (e : E) n e' : prefs_getULong64 k v e = (n, e') -> still e e'.
Proof. intros Ep. apply still_same; [by eapply getULong64_disk|by eapply get_passes]. Qed.

Lemma loadCounters_still q (e : E) q' e' : loadCounters q e = (q', e') -> still e e'.
Proof.
  unfold loadCounters. intros Eq.
  repeat match type of Eq with
  | context [prefs_getULong64 ?k ?v ?e0] =>
      let n := fresh "n" in let e1 := fresh "e" in let Ep := fresh "Ep" in
      destruct (prefs_getULong64 k v e0) as [n e1] eqn:Ep;
      apply get_still in Ep
  end.
  injection Eq as _ <-. eauto 10 using still_trans.
Qed.

Lemma presence_still p (e : E) r e' : filePresence p e = (r, e') -> still e e'.
Proof.
  unfold filePresence. destruct (vfs_stat _ e) as [x e1] eqn:Es. intros [= <- <-].
  apply still_same; [by eapply stat_keeps|by eapply stat_passes].
Qed.

Lemma loadRecent_still q (e : E) ok q' e' : loadRecent q e = (ok, q', e') -> still e e'.
Proof.
  unfold loadRecent. destruct (filePresence _ e) as [presence e1] eqn:Ep. apply presence_still in Ep.
  destruct (_ =? 0); [by intros [= <- <- <-]|]. destruct (_ <? 0); [by intros [= <- <- <-]|].
  destruct (fs_open _ e1) as [file e2] eqn:Eo.
  pose proof (still_same _ _ (open_keeps _ _ _ _ Eo) (open_passes _ _ _ _ Eo)) as K2.
  pose proof (still_trans _ _ _ Ep K2) as K. destruct file as [[dir size]|]; [|by intros [= <- <- <-]].
  destruct (_ || _); [by intros [= <- <- <-]|].
  destruct (fs_read _ size e2) as [bytes e3] eqn:Er.
  pose proof (still_same _ _ (read_keeps_disk _ _ _ _ _ Er) (read_passes _ _ _ _ _ Er)) as K3.
  pose proof (still_trans _ _ _ K K3) as K4. destruct (negb _); [by intros [= <- <- <-]|].
  destruct (decodeRecent bytes _). by intros [= <- <- <-].
Qed.

Lemma storageBegin_still (e : E) b e' : storageBegin false e = (b, e') -> still e e'.
Proof.
  unfold storageBegin. destruct (fs_mount false e) as [mounted e1] eqn:Em.
  pose proof (still_same _ _ (mount_keeps _ _ _ Em) (mount_passes _ _ _ Em)) as K1.
  destruct (negb mounted); [by intros [= <- <-]|].
  destruct (filePresence _ e1) as [presence e2] eqn:Ep. apply presence_still in Ep.
  pose proof (still_trans _ _ _ K1 Ep) as K2. destruct (_ <? 0); [by intros [= <- <-]|].
  destruct (_ =? 0); [|by intros [= <- <-]]. intros Ek. eapply still_trans; [exact K2|].
  apply still_same; [by eapply mkdir_keeps|by eapply mkdir_passes].
Qed.

(** The ring's file holds these keys; or it could not be loaded, and is gone. *)
Definition ring_or_gone (loaded : bool) (keys : list TelemetryKey) (d : Disk) : Prop :=
  ring_file d keys \/ (loaded = false /\ d !! kRecentPath = None).

Lemma ring_or_gone_only loaded keys : ring_only (ring_or_gone loaded keys).
Proof.
  intros d d' Ed [Hk|[? Hk]]; [left; by apply (ring_file_only keys d)|right]. by rewrite Ed.
Qed.

Lemma unlink_ring_lasts keys L (e : E) b e' :
  silentlyUnlink kRecentPath e = (b, e') ->
  lasts (survives (ring_or_gone false keys) L) e e'.
Proof.
  unfold silentlyUnlink. destruct (vfs_unlink _ e) as [r e1] eqn:Eu. intros [= _ <-].
  apply lasts_either; [|by eapply unlink_passes]. apply unlink_law in Eu. intros [Hst Hr].
  assert (record_files (disk e1) = record_files (disk e)) as Ef.
  { apply record_files_keep. intros id _. rewrite Eu. destruct r; [|done..].
    apply lookup_delete_ne, ring_path. }
  split; [by rewrite Ef|]. rewrite Eu. destruct r; [|done..]. right.
  split; [done|apply lookup_delete_eq].
Qed.

(** Nothing more happens to the flash, but that a ring's file that could not be loaded
    is removed. *)
Lemma finishBegin_lasts core q (e : E) keys L ok q' e' :
  dq_recent q = dq_recent DurableQueue_init -> ring_file (disk e) keys ->
  finishBegin core q e = (ok, q', e') ->
  lasts (survives (ring_or_gone (ring_ready e) keys) L) e e' /\ dq_core q' = dq_core q.
Proof.
  intros Hr Hk. unfold finishBegin.
  set (q0 := q <| dq_observedCoreDropped := _ |> <| dq_observedCoreErrors := _ |>).
  assert (dq_recent q0 = dq_recent q /\ dq_core q0 = dq_core q) as [Hr0 Hc0]
    by (unfold q0; by destruct q).
  clearbody q0. pose proof (loadCounters_state q0 e) as Es.
  destruct (loadCounters q0 e) as [q1 e1] eqn:E1. cbn [snd] in Es.
  pose proof (loadCounters_still _ _ _ _ E1) as K1. apply loadCounters_carried in E1 as [A1 R1].
  set (q2 := addErrors _ _).
  assert (dq_recent q2 = dq_recent q1 /\ dq_core q2 = dq_core q1) as [R2 Hc2]
    by (unfold q2; by destruct q1).
  clearbody q2. destruct (loadRecent q2 e1) as [[ready3 q3] e3] eqn:E3.
  pose proof (loadRecent_still _ _ _ _ _ E3) as K3. pose proof (loadRecent_carried _ _ _ _ _ E3) as A3.
  assert (dq_recent q2 = dq_recent DurableQueue_init) as Hr2 by congruence.
  apply (loadRecent_spec _ _ keys) in E3 as [Eready _]; [|done|by rewrite (ca_disk _ _ _ _ A1)].
  rewrite Es in Eready. fold (ring_ready e) in Eready. rewrite <- Eready.
  destruct (if negb ready3 then _ else _) as [q4 e4] eqn:E4.
  assert (lasts (survives (ring_or_gone ready3 keys) L) e3 e4 /\ dq_core q4 = dq_core q3)
    as [K4 C4].
  { destruct ready3; cbn [negb] in E4; [injection E4 as <- <-; split; [apply lasts_refl|done]|].
    destruct (silentlyUnlink kRecentPath e3) as [unlinked e5] eqn:E5. injection E4 as <- <-.
    split; [by eapply unlink_ring_lasts|]. by destruct q3, unlinked. }
  destruct (if _ || _ || _ then _ else _) as [q5 e5] eqn:E5.
  assert (still e4 e5) as K5.
  { destruct (_ || _ || _); [|injection E5 as <- <-; apply still_refl].
    destruct (persistCounters q4 e4) as [[b q6] e6] eqn:Ep. injection E5 as <- <-.
    intros P. by eapply persistCounters_lasts. }
  apply persist_carried in E5 as [[_ C5 _] _]. intros [= <- <- <-].
  split; [|destruct A1 as [_ C1 _], A3 as [_ C3 _];
    assert (dq_core q5 = dq_core q) as <- by congruence; by destruct q5].
  eapply lasts_trans; [exact (still_trans _ _ _ K1 K3 _)|].
  eapply lasts_trans; [exact K4|apply K5].
Qed.

(** As many newer records than [r] are stored as the queue [q] may hold. *)
Definition displaced (q : DurableQueue) (m : FileMap) (r : QueueRecord) : Prop :=
  exists core, dq_core q = Some core /\ outnumbered (c_capacity core) m r.

(** Stored records that can be read last through [begin], unless one is displaced. *)
Lemma begin_lasts keys (e : E) ok q' e' L :
  ring_file (disk e) keys -> set_up e -> files e !! recordName (2 ^ 64 - 1) = None ->
  queueBegin true DurableQueue_init e = (ok, q', e') ->
  Forall (fun r => stored (files e) r /\ qr_recordId r ∉ start_unread e) L ->
  lasts (survives (ring_or_gone (start_ring e) keys) L) e e' \/
  Exists (displaced q' (files e)) L.
Proof.
  pose proof (mounted_disk e) as Ed. set (ring := ring_or_gone _ keys).
  unfold start_unread, start_ring, recovered_at, start_capacity, mounted_at, set_up, queueBegin in *.
  intros Hk Hset Hmax. cbn [negb].
  destruct (prefs_begin _ _ e) as [opened e1] eqn:E1.
  pose proof (still_same _ _ (begin_disk _ _ _ _ _ E1) (begin_passes _ _ _ _ _ E1)) as K1.
  destruct opened; cbn [negb]; [|intros [= <- <- <-] _; left; apply K1].
  cbn [snd] in *. destruct (prefs_getBool _ _ e1) as [flag e2] eqn:E2.
  pose proof (still_same _ _ (getBool_disk _ _ _ _ _ E2) (getBool_passes _ _ _ _ _ E2)) as K2.
  cbn [fst snd] in *. subst flag. cbn [negb]. destruct (storageBegin false e2) as [mounted e3] eqn:E3.
  apply storageBegin_still in E3. cbn [snd] in *.
  pose proof (still_trans _ _ _ (still_trans _ _ _ K1 K2) E3) as K3.
  destruct mounted; cbn [negb]; [|intros [= <- <- <-] _; left; apply K3].
  set (c := DurableQueueCore_new _) in *. clearbody c. intros Eq HL.
  assert (files e3 = files e) as Ef by (by apply disk_files). rewrite <- Ef in Hmax, HL |- *.
  pose proof (recover_lasts ring c e3 L (ring_or_gone_only _ keys) Hmax HL) as Hl.
  pose proof (recover_capacity c e3) as Ecap. pose proof (recover_ring (disk e) c e3) as Hring.
  destruct (recover c e3) as [[recovered core] e4]. cbn [fst snd] in *.
  unfold same_ring in Hring. rewrite Ed in Hring. specialize (Hring eq_refl).
  assert (dq_core q' = Some core /\ lasts (survives ring L) e4 e') as [Hc K5].
  { destruct recovered; cbn [negb] in Eq; [|injection Eq as <- <- <-; split; [done|apply lasts_refl]].
    apply (finishBegin_lasts _ _ _ keys L) in Eq as [K5 Hc]; [done|done|].
    by apply (ring_file_same (disk e)). }
  destruct Hl as [Hl|Ho]; [left|right; eapply Exists_impl; [exact Ho|]; intros r; exists core; by rewrite Ecap].
  eapply lasts_trans; [apply K3|]. by eapply lasts_trans, K5.
Qed.

Section Begin.
Context (keys : list TelemetryKey) (e : E) (ok : bool) (q' : DurableQueue) (e' : E).
Hypothesis ring_kept : ring_file (disk e) keys.
Hypothesis set_up_before : set_up e.
Hypothesis ids_left : files e !! recordName (2 ^ 64 - 1) = None.
Hypothesis begun : queueBegin true DurableQueue_init e = (ok, q', e').

Lemma begin_keeps_ring : lasts (ring_or_gone (start_ring e) keys) e e'.
Proof.
  intros Hr. edestruct (begin_lasts keys e ok q' e' []) as [K|Hx]; [done..| |by apply Exists_nil in Hx].
  destruct K as [A [_ B]]; [by split|]. split; [|done]. eapply passes_mono; [|exact A]. by intros d [].
Qed.

Lemma begin_keeps_record r :
  stored (files e) r ->
  lasts (fun d => stored (record_files d) r) e e' \/ displaced q' (files e) r \/
  qr_recordId r ∈ start_unread e.
Proof.
  intros Hr. destruct (decide (qr_recordId r ∈ start_unread e)) as [|Hu]; [by right; right|].
  edestruct (begin_lasts keys e ok q' e' [r]) as [K|Hx]; [done..|by constructor|left|right; left].
  - intros _. destruct K as [A [B _]]; [split; [by constructor|by left]|].
    split; [|by apply Forall_inv in B].
    eapply passes_mono; [|exact A]. intros d [Hd _]. by apply Forall_inv in Hd.
  - apply Exists_cons in Hx as [Hx|Hx]; [done|by apply Exists_nil in Hx].
Qed.
End Begin.

(** What [begin] leaves in every state of the flash. *)
Definition kept_at_start (keys : list TelemetryKey) (e : E) (q' : DurableQueue) (d : Disk) : Prop :=
  ring_or_gone (start_ring e) keys d /\
  forall r, stored (files e) r ->
    stored (record_files d) r \/ displaced q' (files e) r \/ qr_recordId r ∈ start_unread e.

(** C15: starting loses nothing that it can read when the power goes: when the queue has
    been set up in an earlier start and the identifier 2^64 - 1 is not in use, in every
    state the flash passes through while [begin] works, and in the one it leaves, the
    ring's file holds the keys from before, and every record that was stored still is,
    unless as many newer ones were stored as the queue may hold. What cannot be read at
    its turn may go: a record whose read fails in recovery ([start_unread]), and the
    ring's file when loading it fails ([start_ring]). On files that can be looked up and
    read nothing goes for that reason. *)
Theorem begin_power_safe keys (e : E) ok q' e' :
  ring_file (disk e) keys -> set_up e -> files e !! recordName (2 ^ 64 - 1) = None ->
  queueBegin true DurableQueue_init e = (ok, q', e') ->
  passes (kept_at_start keys e q') e e' /\ kept_at_start keys e q' (disk e') /\
  (ReliableFiles E -> start_ring e = true /\
    forall r, stored (files e) r -> qr_recordId r ∉ start_unread e).
Proof.
  intros Hk Hset Hmax Eq.
  destruct (begin_keeps_ring _ _ _ _ _ Hk Hset Hmax Eq (or_introl Hk)) as [(l & El & Hl) Hd].
  pose proof (begin_keeps_record _ _ _ _ _ Hk Hset Hmax Eq) as Hr. split_and!.
  - exists l. split; [done|]. rewrite Forall_forall in Hl |- *. intros d Hin. split; [by apply Hl|].
    intros r Hst. destruct (Hr r Hst) as [K|?]; [left|by right].
    destruct (K Hst) as [(l' & El' & Hl') _]. rewrite El in El'. apply app_inv_head in El' as <-.
    rewrite Forall_forall in Hl'. by apply Hl'.
  - split; [done|]. intros r Hst. destruct (Hr r Hst) as [K|?]; [left; by apply K|by right].
  - intros Hrel. by apply (start_reads keys).
Qed.
End Start.

(** ** A start to compute *)

Import StartedFlash.

Lemma keptFlash_only r : stored (files keptLog) r -> r ∈ sampleContents.
Proof.
  intros Hr. apply sampleStorage_only. rewrite <- keptFlash_files. exact Hr.
Qed.

Lemma begin_power_safe_witness :
  exists q' e', queueBegin true DurableQueue_init keptLog = (true, q', e') /\
    (10 <= length (history e'))%nat /\
    Forall (fun d => ring_file d [keptKey] /\ Forall (stored (record_files d)) sampleContents)
      (history e').
Proof.
  destruct (queueBegin true DurableQueue_init keptLog) as [[ok q'] e'] eqn:E.
  assert (ok = true) as -> by (change ok with (ok, q', e').1.1; rewrite <- E; vm_compute; reflexivity).
  exists q', e'. split; [reflexivity|]. split.
  { change e' with (true, q', e').2. rewrite <- E. vm_compute. lia. }
  destruct (begin_power_safe [keptKey] keptLog true q' e') as ((l & El & Hl) & _ & Hread);
    [exact keptFlash_ring|vm_compute; reflexivity| |exact E|].
  { change (files keptLog) with (files keptFlash). rewrite keptFlash_files. vm_compute. reflexivity. }
  destruct (Hread _) as [Hring Hun]. rewrite El. eapply Forall_impl; [exact Hl|].
  intros d [[Hk|[Hk _]] Hd]; [|by rewrite Hring in Hk]. split; [exact Hk|].
  pose proof (queue_ok_stored _ _ _ keptLog_ok) as Hst. rewrite Forall_forall in Hst.
  apply Forall_forall. intros r Hr.
  destruct (Hd r (Hst r Hr)) as [Hs|[(core & Hc & newer & Hlen & _ & Hnew)|Hu]];
    [exact Hs|exfalso|by destruct (Hun r (Hst r Hr) Hu)].
  - assert (0 < c_capacity core)%nat as Hcap.
    { assert (dq_core (true, q', e').1.2 = Some core) as Hc' by exact Hc. rewrite <- E in Hc'.
      revert Hc'. vm_compute. intros [= <-]. lia. }
    destruct newer as [|x newer]; [cbn in Hlen; lia|]. apply Forall_inv in Hnew as [Hx Hlt].
    apply keptFlash_only, list_elem_of_singleton in Hx as ->.
    apply list_elem_of_singleton in Hr as ->. lia.
Defined.
