(* ===== verification/QueueAccount.v ===== *)
(** * The account of the durable queue

    What may happen to the contents of the queue, as a list of changes, and the
    operations of [DurableQueue] as such changes: a record is stored at the end, the
    oldest record goes when the queue is full, or a record goes because the backend
    has answered for it. *)

From Stdlib Require Import ZArith Lia String.
From stdpp Require Import gmap list sorting.
From S2P Require Import Prelude BuildConfig CString Platform Protocol ProtocolSpec QueueRecord.
From S2P Require Import QueueRecordSpec QueueRecordCodec Dedup QueueStorage DurableQueueCore.
From S2P Require Import DurableQueueSpec DurableQueueTheorems FlashStorage FlashStorageLaws.
From S2P Require Import CommandStore Metrics PacketProcessor DurableQueue RecentCodec.
From S2P Require Import DurableQueueWorld.
Open Scope Z_scope.

(** ** Changes *)

Inductive change :=
  | Stored (r : QueueRecord)
  | DroppedOldest (r : QueueRecord)
  | Answered (r : QueueRecord).

(** [changes capacity l tr l']: the changes [tr] make [l'] of [l]. *)
Inductive changes (capacity : nat) : list QueueRecord -> list change -> list QueueRecord -> Prop :=
  | changes_nil l : changes capacity l [] l
  | changes_stored l r tr l' :
      changes capacity (l ++ [r]) tr l' -> changes capacity l (Stored r :: tr) l'
  | changes_dropped r l tr l' :
      length (r :: l) = capacity -> changes capacity l tr l' ->
      changes capacity (r :: l) (DroppedOldest r :: tr) l'
  | changes_answered l1 r l2 tr l' :
      changes capacity (l1 ++ l2) tr l' -> changes capacity (l1 ++ r :: l2) (Answered r :: tr) l'.

Fixpoint stored (tr : list change) : list QueueRecord :=
  match tr with
  | [] => []
  | Stored r :: tr => r :: stored tr
  | _ :: tr => stored tr
  end.

Definition is_answered (c : change) : Prop := match c with Answered _ => True | _ => False end.

Lemma stored_app tr tr' : stored (tr ++ tr') = stored tr ++ stored tr'.
Proof. induction tr as [|[] tr IH]; cbn; by rewrite ?IH. Qed.

Lemma changes_app capacity l tr l' tr' l'' :
  changes capacity l tr l' -> changes capacity l' tr' l'' -> changes capacity l (tr ++ tr') l''.
Proof. induction 1; cbn; intros; [done|constructor; auto..]. Qed.

(** Whatever is in the end was there in the beginning or was stored. *)
Lemma changes_origin capacity l tr l' r :
  changes capacity l tr l' -> r ∈ l' -> r ∈ l ++ stored tr.
Proof.
  induction 1 as [l|l r' tr l' _ IH|r' l tr l' _ _ IH|l1 r' l2 tr l' _ IH]; cbn; intros Hr.
  - by rewrite app_nil_r.
  - specialize (IH Hr). by rewrite <- app_assoc in IH.
  - right. auto.
  - specialize (IH Hr). rewrite !elem_of_app, elem_of_cons in *. tauto.
Qed.

(** The end of a record that was in the queue or has been stored. *)
Lemma changes_fate capacity l tr l' r :
  changes capacity l tr l' -> r ∈ l ++ stored tr ->
  r ∈ l' \/ DroppedOldest r ∈ tr \/ Answered r ∈ tr.
Proof.
  induction 1 as [l|l x tr l' _ IH|x l tr l' _ _ IH|l1 x l2 tr l' _ IH]; cbn [stored];
    rewrite ?elem_of_cons.
  - rewrite app_nil_r. auto.
  - intros Hr. rewrite <- app_assoc in IH. specialize (IH Hr). tauto.
  - intros [->|Hr]%elem_of_cons; [auto|]. specialize (IH Hr). tauto.
  - rewrite <- app_assoc, <- app_comm_cons. rewrite elem_of_app, elem_of_cons. intros Hr.
    assert (x = r \/ r ∈ (l1 ++ l2) ++ stored tr) as [->|Hr'] by (rewrite !elem_of_app in *; intuition).
    + auto.
    + specialize (IH Hr'). tauto.
Qed.

(** While nothing is answered, the queue is a suffix of all it ever held. *)
Lemma changes_suffix capacity l tr l' :
  changes capacity l tr l' -> Forall (fun c => ~ is_answered c) tr ->
  exists gone, l ++ stored tr = gone ++ l'.
Proof.
  induction 1 as [l|l r tr l' _ IH|r l tr l' _ _ IH|l1 r l2 tr l' _ IH]; intros Hn;
    [exists []; by rewrite app_nil_r|apply Forall_cons in Hn as [Hc Hn]..]; cbn [stored].
  - destruct (IH Hn) as [gone E]. exists gone. rewrite <- E, <- app_assoc. done.
  - destruct (IH Hn) as [gone E]. exists (r :: gone). cbn. by rewrite E.
  - by destruct Hc.
Qed.

(** Answers take out the records they name, one after the other. *)
Lemma changes_filter capacity (P : QueueRecord -> Prop) `{!forall r, Decision (P r)} kept l :
  changes capacity (kept ++ l) (Answered <$> filter (fun r => ~ P r) l) (kept ++ filter P l).
Proof.
  revert kept. induction l as [|r l IH]; intros kept; [constructor|].
  destruct (decide (P r)) as [Hr|Hr].
  - rewrite (filter_cons_True P), (filter_cons_False (fun r => ~ P r)) by tauto.
    specialize (IH (kept ++ [r])). by rewrite <- !app_assoc in IH.
  - rewrite (filter_cons_False P), (filter_cons_True (fun r => ~ P r)) by done.
    apply changes_answered. apply IH.
Qed.

(** The telemetry a record carries. *)
Definition carries (r : QueueRecord) (key : TelemetryKey) : Prop :=
  exists t, telemetryOf r = Some t /\ telemetryKeyEqual (keyOf t) key = true.

(** ** The core queue: capacity and identifiers *)

Definition core_frame (c c' : DurableQueueCore) : Prop :=
  c_capacity c' = c_capacity c /\ c_nextRecordId c' = c_nextRecordId c.

Section Core.
Context {St : Type} `{QueueStorage St}.

Lemma dropFront_frame c (s : St) ok c' s' : dropFront c s = (ok, c', s') -> core_frame c c'.
Proof.
  unfold dropFront. destruct (c_entries c); [by intros [= <- <- <-]|].
  destruct (removeRecord _ s) as [[] s1]; intros [= <- <- <-]; [by destruct c|done].
Qed.

Lemma frame_bumpErrors c c' : core_frame c c' -> core_frame c (bumpErrors c').
Proof. by destruct c'. Qed.

Lemma writeOrDrop_frame id bytes c (s : St) ok c' s' :
  writeOrDrop id bytes c s = (ok, c', s') -> core_frame c c'.
Proof.
  unfold writeOrDrop. destruct (writeRecordAtomic _ _ s) as [[] s1]; [by intros [= <- <- <-]|].
  destruct (_ <=? _)%nat; [|intros [= <- <- <-]; by apply frame_bumpErrors].
  destruct (dropFront c s1) as [[dropped c1] s2] eqn:E. apply dropFront_frame in E.
  destruct dropped; cbn [negb]; [|intros [= <- <- <-]; by apply frame_bumpErrors].
  destruct (writeRecordAtomic _ _ s2) as [[] s3]; intros [= <- <- <-]; [done|].
  by apply frame_bumpErrors.
Qed.

Lemma makeRoom_frame id c (s : St) ok c' s' : makeRoom id c s = (ok, c', s') -> core_frame c c'.
Proof.
  unfold makeRoom. destruct (_ <=? _)%nat; [|by intros [= <- <- <-]].
  destruct (dropFront c s) as [[dropped c1] s1] eqn:E. apply dropFront_frame in E.
  destruct dropped; [by intros [= <- <- <-]|].
  destruct (removeRecord _ s1) as [x s2]. intros [= <- <- <-]. by apply frame_bumpErrors.
Qed.

(** [enqueue] gives out the next identifier exactly when it succeeds. *)
Lemma enqueue_next c (s : St) record ok record' c' s' :
  enqueue c s record = (ok, record', c', s') ->
  c_capacity c' = c_capacity c /\
  if ok then c_nextRecordId c <> 0 /\ c_nextRecordId c' = wrap 64 (c_nextRecordId c + 1)
  else c_nextRecordId c' = c_nextRecordId c.
Proof.
  unfold enqueue. destruct (Z.eqb_spec (c_nextRecordId c) 0) as [|Hn];
    [intros [= <- <- <- <-]; by destruct c|].
  destruct (telemetryOf record) as [t|]; [|by intros [= <- <- <- <-]].
  destruct (queueEncode _) as [encoded bytes]. destruct encoded; cbn [negb];
    [|by intros [= <- <- <- <-]].
  destruct (writeOrDrop _ _ c s) as [[wrote c1] s1] eqn:Ew. apply writeOrDrop_frame in Ew as [E1 E2].
  destruct wrote; cbn [negb]; [|by intros [= <- <- <- <-]].
  destruct (makeRoom _ c1 s1) as [[fits c2] s2] eqn:Em. apply makeRoom_frame in Em as [E3 E4].
  destruct fits; cbn [negb]; intros [= <- <- <- <-]; [|split; congruence].
  destruct c2; cbn in *. split_and!; [congruence|done|congruence].
Qed.

Lemma containsLoop_frame es key hash c (s : St) b c' s' :
  containsLoop es key hash c s = (b, c', s') -> core_frame c c'.
Proof.
  revert c s. induction es as [|e es IH]; intros c s; cbn [containsLoop];
    [by intros [= <- <- <-]|].
  destruct (negb _); [apply IH|]. destruct (loadRecord _ s) as [loaded s1].
  destruct (loaded ≫= telemetryOf) as [t|].
  - destruct (telemetryKeyEqual _ _); [by intros [= <- <- <-]|apply IH].
  - intros [E1 E2]%IH. by destruct c.
Qed.

Lemma queueRemove_frame id c (s : St) ok c' s' : queueRemove id c s = (ok, c', s') -> core_frame c c'.
Proof.
  unfold queueRemove. destruct (list_find _ _) as [[i found]|]; [|by intros [= <- <- <-]].
  destruct (removeRecord _ s) as [[] s1]; intros [= <- <- <-]; by destruct c.
Qed.

Lemma peek_frame limit c (s : St) ok out c' s' : peek limit c s = (ok, out, c', s') -> core_frame c c'.
Proof.
  unfold peek. destruct (peekLoop _ s) as [[records|] s1]; intros [= <- <- <- <-]; [done|].
  by destruct c.
Qed.
End Core.

(** ** The queue of the firmware *)

(** Capacity, identifiers and remembered keys stay. *)
Record unmoved (q q' : DurableQueue) : Prop := {
  um_capacity : durableCapacity q' = durableCapacity q;
  um_next : queue_next q' = queue_next q;
  um_recent : dq_recent q' = dq_recent q;
}.

Lemma unmoved_core q q' :
  dq_core q' = dq_core q -> dq_mutex q' = dq_mutex q -> dq_recent q' = dq_recent q -> unmoved q q'.
Proof.
  intros Ec Em Er. split; [unfold durableCapacity|unfold queue_next|done]; by rewrite ?Ec, ?Em.
Qed.

Lemma unmoved_trans q1 q2 q3 : unmoved q1 q2 -> unmoved q2 q3 -> unmoved q1 q3.
Proof. intros [] []. split; congruence. Qed.

(** Another core with the same capacity and next identifier. *)
Lemma unmoved_set q core core' :
  ready q = Some core -> core_frame core core' -> unmoved q (q <| dq_core := Some core' |>).
Proof.
  intros Hr [Ec En]. pose proof (ready_capacity _ _ Hr) as Hc. apply ready_core in Hr as Hd.
  destruct q as [c r m s mu l od oe h]. cbn in *. subst c. split; [|done|done].
  unfold durableCapacity in *. cbn in *. by destruct m.
Qed.

Lemma addErrors_unmoved n q : unmoved q (addErrors n q).
Proof. by destruct q. Qed.

Lemma addDropped_unmoved n q : unmoved q (addDropped n q).
Proof. by destruct q. Qed.

Section Queue.
Context {E : Type} `{EnvironmentLaws E}.

Lemma queueContainsKey_unmoved key q (e : E) b q' e' :
  queueContainsKey key q e = (b, q', e') -> unmoved q q'.
Proof.
  unfold queueContainsKey. destruct (ready q) as [core|] eqn:Hr; [|by intros [= <- <- <-]].
  destruct (if dedupContains (dq_recent q) key then _ else _) as [[contained core1] e1] eqn:Ec.
  assert (core_frame core core1) as F.
  { destruct (dedupContains _ _); [by injection Ec as <- <- <-|]. by apply containsLoop_frame in Ec. }
  intros [= <- <- <-]. eapply unmoved_trans; [by apply (unmoved_set _ _ _ Hr F)|].
  apply addErrors_unmoved.
Qed.

Lemma recordDuplicate_unmoved q : unmoved q (recordDuplicate q).
Proof. destruct (recordDuplicate_keeps q) as (? & ? & ? & ?). by apply unmoved_core. Qed.

(** Capacity stays; an identifier is used up exactly when the record is stored. *)
Lemma queueEnqueue_next record q (e : E) o record' q' e' :
  queueEnqueue record q e = (o, record', q', e') ->
  durableCapacity q' = durableCapacity q /\ dq_recent q' = dq_recent q /\
  if eo_persisted o then queue_next q <> 0 /\ queue_next q' = wrap 64 (queue_next q + 1)
  else queue_next q' = queue_next q.
Proof.
  unfold queueEnqueue. destruct (ready q) as [core|] eqn:Hr; [|by intros [= <- <- <- <-]].
  destruct (enqueue core e record) as [[[result r1] core1] e1] eqn:Ee.
  apply enqueue_next in Ee as [Ec En].
  set (q1 := q <| dq_core := Some core1 |>). set (q2 := addDropped _ q1). set (q3 := addErrors _ q2).
  assert (unmoved q1 q3) as U
    by (apply unmoved_trans with q2; [apply addDropped_unmoved|apply addErrors_unmoved]).
  assert (durableCapacity q1 = durableCapacity q /\ dq_recent q1 = dq_recent q /\
          queue_next q1 = c_nextRecordId core1 /\ queue_next q = c_nextRecordId core)
    as (Ec1 & Er1 & En1 & En0).
  { pose proof (ready_capacity _ _ Hr) as Hc. apply ready_core in Hr.
    subst q1. destruct q as [c r m s mu l od oe h]. unfold durableCapacity, queue_next in *. cbn in *.
    subst c. by destruct m; [rewrite Ec|]. }
  assert (forall q4, unmoved q3 q4 -> durableCapacity q4 = durableCapacity q /\
    dq_recent q4 = dq_recent q /\
    if result then queue_next q <> 0 /\ queue_next q4 = wrap 64 (queue_next q + 1)
    else queue_next q4 = queue_next q) as Hend.
  { intros q4 U4. destruct (unmoved_trans _ _ _ U U4) as [U1 U2 U3].
    rewrite U1, U2, U3, Ec1, Er1, En1, En0. by destruct result; [destruct En|]. }
  destruct (negb _).
  - destruct (persistCounters q3 e1) as [[b q4] e2] eqn:Ep.
    apply persistCounters_keeps in Ep as (_ & ? & ? & ? & ? & _). intros [= <- <- <- <-].
    by apply Hend, unmoved_core.
  - intros [= <- <- <- <-]. by apply Hend.
Qed.

Lemma queuePeek_spec n q (e : E) rs ok out q' e' :
  queue_ok q e rs -> queuePeek n q e = (ok, out, q', e') ->
  queue_ok q' e' rs /\ out = (if ok then take n rs else []) /\ unmoved q q'.
Proof.
  intros [(core & Hr & C) R] Eq. unfold queuePeek in Eq. rewrite Hr in Eq.
  destruct (peek n core e) as [[[ok1 out1] core1] e1] eqn:Ep. injection Eq as <- <- <- <-.
  pose proof (peek_frame _ _ _ _ _ _ _ Ep) as F.
  apply (peek_spec _ _ rs) in Ep as (Eo & C1 & _); [|done].
  split_and!; [|done|by eapply unmoved_set]. apply queue_ok_core; [done|by rewrite Hr|done].
Qed.

Lemma recordUploadRetry_ok q (e : E) rs q' e' :
  queue_ok q e rs -> recordUploadRetry q e = (q', e') -> queue_ok q' e' rs /\ unmoved q q'.
Proof.
  intros K Eq. unfold recordUploadRetry in Eq.
  destruct (dq_mutex q) eqn:Em; cbn [negb] in Eq; [|by injection Eq as <- <-].
  match type of Eq with context [checkpointCountersUnlocked false ?q ?e] => set (q1 := q) in Eq end.
  apply checkpoint_keeps in Eq as (Ed & Ecore & Er & Emu & Eh & _).
  assert (dq_core q1 = dq_core q /\ dq_recent q1 = dq_recent q /\ dq_mutex q1 = dq_mutex q /\
          dq_healthy q1 = dq_healthy q) as (A1 & A2 & A3 & A4) by (unfold q1; by destruct q).
  split; [|apply unmoved_core; congruence].
  eapply queue_ok_keep; [exact K|by apply disk_files|congruence..|]. rewrite Er, A2. apply K.
Qed.

Lemma recordFilesystemError_ok q (e : E) rs :
  queue_ok q e rs -> queue_ok (recordFilesystemError q) e rs.
Proof.
  intros K. unfold recordFilesystemError. destruct (dq_mutex q); cbn [negb]; [|done].
  eapply queue_ok_keep; [exact K|done|by destruct q..|]. destruct q. apply K.
Qed.

Lemma recordFilesystemError_unmoved q : unmoved q (recordFilesystemError q).
Proof.
  unfold recordFilesystemError. destruct (dq_mutex q); cbn [negb]; [|done]. by destruct q.
Qed.

(** ** Finishing *)

Lemma finishActions_frame actions core success changed q (e : E) success' changed' core' q' e' :
  finishActions actions core success changed q e = (success', changed', core', q', e') ->
  core_frame core core' /\ dq_core q' = dq_core q /\ dq_mutex q' = dq_mutex q.
Proof.
  revert core success changed q e. induction actions as [|action actions IH];
    intros core success changed q e; cbn [finishActions]; [by intros [= <- <- <- <- <-]|].
  destruct (queueRemove _ core e) as [[ok core1] e1] eqn:Er. apply queueRemove_frame in Er as [E1 E2].
  destruct ok; cbn [negb].
  - destruct (remember _ _) as [remembered ring]. intros ([F1 F2] & Hc & Hm)%IH.
    split; [split; congruence|]. destruct q; by destruct (qa_permanentlyRejected action).
  - destruct (addErrors_keeps 1 q) as (? & ? & ? & ?). intros ([F1 F2] & Hc & Hm)%IH.
    split; [split|split]; congruence.
Qed.

Lemma finish_frame actions q (e : E) ok q' e' :
  finish actions q e = (ok, q', e') ->
  durableCapacity q' = durableCapacity q /\ queue_next q' = queue_next q.
Proof.
  unfold finish. destruct (ready q) as [core|] eqn:Hr; [|by intros [= <- <- <-]].
  destruct (finishActions actions core true false q e) as [[[[success changed] core1] q1] e1] eqn:Ef.
  apply finishActions_frame in Ef as (F & Hc & Hm).
  set (q2 := q1 <| dq_core := Some core1 |>).
  destruct (unmoved_set _ _ _ Hr F) as [U1 U2 _].
  assert (durableCapacity q2 = durableCapacity q /\ queue_next q2 = queue_next q) as [Ec2 En2].
  { rewrite <- U1, <- U2. unfold q2, durableCapacity, queue_next. by destruct q1, q; cbn in *; subst. }
  clearbody q2. destruct (if changed then _ else _) as [[success2 q3] e2] eqn:Ep.
  assert (unmoved q2 q3) as U3.
  { destruct changed; [|by injection Ep as <- <- <-].
    destruct (persistRecent q2 e1) as [persisted e3].
    destruct persisted; injection Ep as <- <- <-; [done|apply addErrors_unmoved]. }
  destruct (checkpointCountersUnlocked false q3 e2) as [q4 e4] eqn:Ec.
  apply checkpoint_keeps in Ec as (_ & ? & ? & ? & ? & _). intros [= <- <- <-].
  destruct (unmoved_trans _ _ _ U3 (unmoved_core q3 q4 ltac:(done) ltac:(done) ltac:(done))).
  split; congruence.
Qed.
(** ** The contents of the queue

    The records the index of the queue points to. *)
Definition recordAt (m : FileMap) (e : Entry) : option QueueRecord :=
  bytes ← m !! recordName (e_recordId e);
  let '(ok, record) := queueDecode (Some bytes) (length bytes) in
  if ok then Some record else None.

Definition contentsOf (q : DurableQueue) (f : E) : list QueueRecord :=
  match ready q with
  | None => []
  | Some core =>
      omap (recordAt (files f)) (c_entries core)
  end.

Lemma contentsOf_ok q f rs : queue_ok q f rs -> contentsOf q f = rs.
Proof.
  intros [(core & Hr & [_ _ _ _ _ Hh]) _]. unfold contentsOf. rewrite Hr.
  induction Hh as [|e r es rs He Hh IH]; [done|].
  assert (recordAt (files f) e = Some r) as Er.
  { destruct He as [_ Hf Hw _ _]. unfold recordAt. rewrite Hf. cbn [mbind option_bind].
    rewrite (queueDecode_wire (recordWire r) (length (recordWire r)) r);
      [done|done|apply recordWire_bytes, Hw|done|by rewrite firstn_all]. }
  change (omap (recordAt (files f)) (e :: es)) with
    (match recordAt (files f) e with
     | Some r => r :: omap (recordAt (files f)) es
     | None => omap (recordAt (files f)) es
     end).
  by rewrite Er, IH.
Qed.

End Queue.
