(* ===== verification/GatewayConfig.v ===== *)
(** * The gateway's configuration (lib/config/gateway_config)

    The configuration, its validation and the migration of schema 1.  A pair of
    pointers [begin], [end] is the list of the characters between them (none
    when a pointer is null or [begin >= end]).  A [float] is the value it
    stands for. *)

From Stdlib Require Import ZArith Lia String SpecFloat.
From S2P Require Import Prelude BuildConfig CString Protocol.
Open Scope Z_scope.

(** ** Single-precision numbers *)

Abbreviation single := spec_float.

Definition single_prec : Z := 24.
Definition single_emax : Z := 128.

(** The literal [n/d F]: the float nearest to the quotient. *)
Definition single_of (n d : Z) : single :=
  let v := binary_normalize single_prec single_emax n 0 false in
  if d =? 1 then v
  else SFdiv single_prec single_emax v (binary_normalize single_prec single_emax d 0 false).

Definition single_sub : single -> single -> single := SFsub single_prec single_emax.

Definition isfinite (f : single) : bool :=
  match f with S754_zero _ | S754_finite _ _ _ => true | _ => false end.

(** ** Data *)

Record RadioConfig := mkRadioConfig {
  rc_frequencyMhz : single;
  rc_bandwidthKhz : single;
  rc_spreadingFactor : Z;
  rc_codingRateDenominator : Z;
  rc_txPowerDbm : Z;
  rc_syncWord : Z;
}.

Definition RadioConfig_init : RadioConfig :=
  mkRadioConfig (single_of 433 1) (single_of 125 1) 10 6 17 0x12.

Record GatewayConfig := mkGatewayConfig {
  cf_schemaVersion : Z;
  cf_gatewayId : list Z;
  cf_wifiSsid : list Z;
  cf_wifiPassword : list Z;
  cf_pairedNodeId : list Z;
  cf_backendBaseUrl : list Z;
  cf_backendBearerToken : list Z;
  cf_radio : RadioConfig;
  cf_backendBatchSize : Z;
  cf_backendHttpTimeoutMs : Z;
  cf_backendInitialBackoffMs : Z;
  cf_backendMaximumBackoffMs : Z;
  cf_wifiReconnectIntervalMs : Z;
  cf_wifiFallbackAfterMs : Z;
  cf_wifiApGraceMs : Z;
  cf_heartbeatIntervalSeconds : Z;
}.

Definition GatewayConfig_init : GatewayConfig :=
  mkGatewayConfig kConfigSchemaVersion (zeros kGatewayIdCapacity) (zeros kWifiSsidCapacity)
    (zeros kWifiPasswordCapacity) (zeros kNodeIdCapacity) (zeros kBackendUrlCapacity)
    (zeros kBearerTokenCapacity) RadioConfig_init 20 10000 2000 300000 15000 60000 30000
    kDefaultHeartbeatIntervalSeconds.

Record GatewayConfigV1 := mkGatewayConfigV1 {
  v1_schemaVersion : Z;
  v1_gatewayId : list Z;
  v1_wifiSsid : list Z;
  v1_wifiPassword : list Z;
  v1_pairedNodeId : list Z;
  v1_backendBaseUrl : list Z;
  v1_backendBearerToken : list Z;
  v1_radio : RadioConfig;
  v1_backendBatchSize : Z;
  v1_backendHttpTimeoutMs : Z;
  v1_backendInitialBackoffMs : Z;
  v1_backendMaximumBackoffMs : Z;
  v1_wifiReconnectIntervalMs : Z;
  v1_wifiFallbackAfterMs : Z;
  v1_wifiApGraceMs : Z;
}.

Definition GatewayConfigV1_init : GatewayConfigV1 :=
  mkGatewayConfigV1 1 (zeros kGatewayIdCapacity) (zeros kWifiSsidCapacity)
    (zeros kWifiPasswordCapacity) (zeros kNodeIdCapacity) (zeros kBackendUrlCapacity)
    (zeros kBearerTokenCapacity) RadioConfig_init 20 10000 2000 300000 15000 60000 30000.

Module ConfigValidationCode.
Inductive t :=
  | kOk | kSchema | kGatewayId | kWifi | kNodeId | kBackendUrl | kBearerToken | kRadio
  | kBackendPolicy | kWifiPolicy | kHeartbeatPolicy.
#[export] Instance t_eq_dec : EqDecision t.
Proof. solve_decision. Defined.
End ConfigValidationCode.
Export (hints) ConfigValidationCode.

Record ConfigValidationResult := mkConfigValidationResult {
  cv_code : ConfigValidationCode.t;
  cv_message : string;
}.

Definition ConfigValidationResult_init : ConfigValidationResult :=
  mkConfigValidationResult ConfigValidationCode.kOk "ok".

(** [operator bool]. *)
Definition configOk (r : ConfigValidationResult) : bool :=
  bool_decide (cv_code r = ConfigValidationCode.kOk).

(** ** Characters and strings *)

Definition asciiAlphanumeric (c : Z) : bool :=
  ((65 <=? c) && (c <=? 90)) || ((97 <=? c) && (c <=? 122)) || ((48 <=? c) && (c <=? 57)).

(** <ctype.h>, in the C locale. *)
Definition iscntrl (c : Z) : bool := (c <? 32) || (c =? 127).
Definition isspace (c : Z) : bool := (c =? 32) || ((9 <=? c) && (c <=? 13)).

(** The position [memchr] finds. *)
Definition memchr (s : list Z) (c : Z) : option nat := fst <$> list_find (fun x => x = c) s.
Definition strchr (s : list Z) (c : Z) : option nat := memchr (take (strlen s) s) c.

Definition identifierValid (value : ptr (list Z)) (capacity : nat) : bool :=
  match value with
  | None => false
  | Some value =>
      let length := strnlen value capacity in
      if (length =? 0)%nat || (capacity <=? length)%nat then false
      else forallb (fun c => asciiAlphanumeric c || (c =? 45) || (c =? 95))
             (take length value)
  end.

Definition boundedCString (value : ptr (list Z)) (capacity : nat) : bool :=
  match value with
  | None => false
  | Some value => (strnlen value capacity <? capacity)%nat
  end.

Definition containsControlOrSpace (value : ptr (list Z)) : bool :=
  match value with
  | None => true
  | Some value => existsb (fun c => iscntrl c || isspace c) (take (strlen value) value)
  end.

(** ** The parts of a URL *)

Fixpoint portLoop (port : Z) (cursor : list Z) : option Z :=
  match cursor with
  | [] => Some port
  | c :: cursor =>
      if (c <? 48) || (57 <? c) then None
      else
        let port := wrap 32 (wrap 32 (port * 10) + wrap 32 (c - 48)) in
        if 65535 <? port then None else portLoop port cursor
  end.

Definition decimalPortValid (digits : list Z) : bool :=
  match digits with
  | [] => false
  | _ => match portLoop 0 digits with
         | None => false
         | Some port => 0 <? port
         end
  end.

(** [previous] is [cursor[-1]], and [end[-1]] at the end. *)
Fixpoint hostLoop (previous : Z) (labelStart : bool) (cursor : list Z) : bool :=
  match cursor with
  | [] => negb labelStart && negb (previous =? 45)
  | c :: rest =>
      if asciiAlphanumeric c then hostLoop c false rest
      else if (c =? 45) && negb labelStart &&
              match rest with [] => false | next :: _ => negb (next =? 46) end
      then hostLoop c labelStart rest
      else if (c =? 46) && negb labelStart && negb (previous =? 45)
      then hostLoop c true rest
      else false
  end.

Definition dnsHostValid (host : list Z) : bool :=
  match host with
  | [] => false
  | _ => hostLoop 0 true host
  end.

Definition hexadecimal (c : Z) : bool :=
  ((65 <=? c) && (c <=? 70)) || ((97 <=? c) && (c <=? 102)) || ((48 <=? c) && (c <=? 57)).

Definition authorityValid (authority : list Z) : bool :=
  match authority with
  | [] => false
  | first :: rest =>
      if first =? 91 then
        match memchr rest 93 with
        | None => false
        | Some closing =>
            if (closing =? 0)%nat then false
            else if negb (forallb (fun c => hexadecimal c || (c =? 58) || (c =? 46))
                            (take closing rest))
            then false
            else
              match drop (S closing) rest with
              | [] => true
              | next :: port => (next =? 58) && decimalPortValid port
              end
        end
      else
        match memchr authority 58 with
        | None => dnsHostValid authority
        | Some portSeparator =>
            dnsHostValid (take portSeparator authority) &&
            decimalPortValid (drop (S portSeparator) authority)
        end
  end.

Definition gatewayIdValid (gatewayId : ptr (list Z)) : bool :=
  identifierValid gatewayId kGatewayIdCapacity.

(** [backendUrlValid] from the authority on, [skipped] characters into the URL. *)
Definition urlRestValid (url : list Z) (length skipped : nat) : bool :=
  let authority := drop skipped url in
  let absent c := bool_decide (strchr authority c = None) in
  if (default 0 (head authority) =? 0) || negb (absent 64) || negb (absent 63) ||
     negb (absent 35)
  then false
  else
    let authorityEnd :=
      match strchr authority 47 with
      | None => (length - skipped)%nat
      | Some path => path
      end in
    if negb (authorityValid (take authorityEnd authority)) || negb (absent 92)
    then false
    else if existsb (fun c => iscntrl c || isspace c) (take length url) then false
    else negb (default 0 (url !! (length - 1)%nat) =? 47).

Definition backendUrlValid (url : ptr (list Z)) : bool :=
  if negb (boundedCString url kBackendUrlCapacity) then false
  else
    let url := default [] url in
    let length := strlen url in
    if (length <? 10)%nat then false
    else
      let http := strncmp url (chars "http://") 7 =? 0 in
      let https := strncmp url (chars "https://") 8 =? 0 in
      if negb http && negb https then false
      else urlRestValid url length (if https then 8%nat else 7%nat).

(** ** Radio *)

Definition bandwidths : list single :=
  [single_of 78 10; single_of 104 10; single_of 156 10; single_of 208 10; single_of 3125 100;
   single_of 417 10; single_of 625 10; single_of 125 1; single_of 250 1].

(** [fabsf(a - b) < limit]. *)
Definition within (limit a b : single) : bool := SFltb (SFabs (single_sub a b)) limit.

Definition validBandwidth (value : single) : bool :=
  existsb (fun candidate => within (single_of 6 100) value candidate) bandwidths.

Definition radioConfigEqual (a b : RadioConfig) : bool :=
  within (single_of 1 1000) (rc_frequencyMhz a) (rc_frequencyMhz b) &&
  within (single_of 1 100) (rc_bandwidthKhz a) (rc_bandwidthKhz b) &&
  (rc_spreadingFactor a =? rc_spreadingFactor b) &&
  (rc_codingRateDenominator a =? rc_codingRateDenominator b) &&
  (rc_txPowerDbm a =? rc_txPowerDbm b) && (rc_syncWord a =? rc_syncWord b).

(** ** Configurations *)

Definition setDefaults (derivedGatewayId : ptr (list Z)) : GatewayConfig :=
  let c := GatewayConfig_init in
  mkGatewayConfig (cf_schemaVersion c)
    (strncpy (cf_gatewayId c)
       (match derivedGatewayId with None => chars "GTH-GW-UNKNOWN" | Some id => id end)
       (kGatewayIdCapacity - 1))
    (cf_wifiSsid c) (cf_wifiPassword c) (cf_pairedNodeId c)
    (strncpy (cf_backendBaseUrl c) kDefaultBackendUrl
       (kBackendUrlCapacity - 1))
    (cf_backendBearerToken c) (cf_radio c) (cf_backendBatchSize c)
    (cf_backendHttpTimeoutMs c) (cf_backendInitialBackoffMs c)
    (cf_backendMaximumBackoffMs c) (cf_wifiReconnectIntervalMs c)
    (cf_wifiFallbackAfterMs c) (cf_wifiApGraceMs c) (cf_heartbeatIntervalSeconds c).

(** The conditions under which [validateConfig] refuses, one per code. *)
Definition wifiRefused (c : GatewayConfig) : bool :=
  negb (boundedCString (Some (cf_wifiSsid c)) kWifiSsidCapacity) ||
  negb (boundedCString (Some (cf_wifiPassword c)) kWifiPasswordCapacity) ||
  (default 0 (head (cf_wifiSsid c)) =? 0) && negb (default 0 (head (cf_wifiPassword c)) =? 0) ||
  negb (default 0 (head (cf_wifiPassword c)) =? 0) && (strlen (cf_wifiPassword c) <? 8)%nat.

Definition radioRefused (r : RadioConfig) : bool :=
  negb (isfinite (rc_frequencyMhz r)) || SFltb (rc_frequencyMhz r) (single_of 410 1) ||
  SFltb (single_of 525 1) (rc_frequencyMhz r) || negb (validBandwidth (rc_bandwidthKhz r)) ||
  (rc_spreadingFactor r <? 7) || (12 <? rc_spreadingFactor r) ||
  (rc_codingRateDenominator r <? 5) || (8 <? rc_codingRateDenominator r) ||
  (rc_txPowerDbm r <? 2) || (20 <? rc_txPowerDbm r).

Definition backendPolicyRefused (c : GatewayConfig) : bool :=
  (cf_backendBatchSize c =? 0) || (kBackendMaximumBatchSize <? cf_backendBatchSize c) ||
  (cf_backendHttpTimeoutMs c <? 1000) || (30000 <? cf_backendHttpTimeoutMs c) ||
  (cf_backendInitialBackoffMs c <? 1000) || (60000 <? cf_backendInitialBackoffMs c) ||
  (cf_backendMaximumBackoffMs c <? cf_backendInitialBackoffMs c) ||
  (300000 <? cf_backendMaximumBackoffMs c).

Definition wifiPolicyRefused (c : GatewayConfig) : bool :=
  (cf_wifiReconnectIntervalMs c <? 5000) || (300000 <? cf_wifiReconnectIntervalMs c) ||
  (cf_wifiFallbackAfterMs c <? 15000) || (3600000 <? cf_wifiFallbackAfterMs c) ||
  (300000 <? cf_wifiApGraceMs c).

Definition validateConfig (c : GatewayConfig) : ConfigValidationResult :=
  if negb (cf_schemaVersion c =? kConfigSchemaVersion)
  then mkConfigValidationResult ConfigValidationCode.kSchema "unsupported configuration schema"
  else if negb (gatewayIdValid (Some (cf_gatewayId c)))
  then mkConfigValidationResult ConfigValidationCode.kGatewayId
         "gatewayId must be 1-48 ASCII letters, digits, '-' or '_'"
  else if wifiRefused c
  then mkConfigValidationResult ConfigValidationCode.kWifi "invalid Wi-Fi credentials"
  else if negb (default 0 (head (cf_pairedNodeId c)) =? 0) &&
          negb (nodeIdValid (Some (cf_pairedNodeId c)))
  then mkConfigValidationResult ConfigValidationCode.kNodeId
         "pairedNodeId must be empty or 1-24 ASCII letters, digits, '-' or '_'"
  else if negb (backendUrlValid (Some (cf_backendBaseUrl c)))
  then mkConfigValidationResult ConfigValidationCode.kBackendUrl
         "backend URL must be an http:// or https:// base URL without credentials or trailing slash"
  else if negb (boundedCString (Some (cf_backendBearerToken c)) kBearerTokenCapacity) ||
          containsControlOrSpace (Some (cf_backendBearerToken c))
  then mkConfigValidationResult ConfigValidationCode.kBearerToken
         "backend token must be bounded and contain no whitespace"
  else if radioRefused (cf_radio c)
  then mkConfigValidationResult ConfigValidationCode.kRadio "invalid SX1278 radio setting"
  else if backendPolicyRefused c
  then mkConfigValidationResult ConfigValidationCode.kBackendPolicy
         "invalid backend batching/timeout/backoff policy"
  else if wifiPolicyRefused c
  then mkConfigValidationResult ConfigValidationCode.kWifiPolicy
         "invalid Wi-Fi reconnect/fallback policy"
  else if (cf_heartbeatIntervalSeconds c <? kMinimumHeartbeatIntervalSeconds) ||
          (kMaximumHeartbeatIntervalSeconds <? cf_heartbeatIntervalSeconds c)
  then mkConfigValidationResult ConfigValidationCode.kHeartbeatPolicy
         "heartbeat interval must be 15-3600 seconds"
  else ConfigValidationResult_init.

(** [None]: refused, [migrated] is left alone. *)
Definition migrateConfigV1 (legacy : GatewayConfigV1) : option GatewayConfig :=
  if negb (v1_schemaVersion legacy =? 1) then None
  else
    let candidate := mkGatewayConfig kConfigSchemaVersion (v1_gatewayId legacy)
      (v1_wifiSsid legacy) (v1_wifiPassword legacy) (v1_pairedNodeId legacy)
      (v1_backendBaseUrl legacy) (v1_backendBearerToken legacy) (v1_radio legacy)
      (v1_backendBatchSize legacy) (v1_backendHttpTimeoutMs legacy)
      (v1_backendInitialBackoffMs legacy) (v1_backendMaximumBackoffMs legacy)
      (v1_wifiReconnectIntervalMs legacy) (v1_wifiFallbackAfterMs legacy)
      (v1_wifiApGraceMs legacy) kDefaultHeartbeatIntervalSeconds in
    if negb (configOk (validateConfig candidate)) then None else Some candidate.

Example defaults_valid : configOk (validateConfig (setDefaults None)) = true.
Proof. vm_compute. reflexivity. Qed.
