(* ===== verification/GatewayConfigUrl.v ===== *)
(** * The grammar of backend URLs

    [url_ok] states which texts are base URLs; [backendUrlValid] decides it. *)

From Stdlib Require Import ZArith Lia String.
From S2P Require Import Prelude BuildConfig CString GatewayConfig.
Open Scope Z_scope.

(** ** The grammar *)

Definition label_char (c : Z) : Prop := asciiAlphanumeric c = true \/ c = 45.

Record label_ok (l : list Z) : Prop := {
  lo_some : l <> [];
  lo_chars : Forall label_char l;
  lo_head : head l <> Some 45;
  lo_last : last l <> Some 45;
}.

(** Labels separated by dots. *)
Inductive host_ok : list Z -> Prop :=
  | host_label l : label_ok l -> host_ok l
  | host_dot l h : label_ok l -> host_ok h -> host_ok (l ++ 46 :: h).

Definition digit (c : Z) : Prop := 48 <= c <= 57.
Definition port_value (digits : list Z) : Z := foldl (fun v c => v * 10 + (c - 48)) 0 digits.
Definition port_ok (p : list Z) : Prop := Forall digit p /\ 0 < port_value p <= 65535.

Definition literal_char (c : Z) : Prop := hexadecimal c = true \/ c = 58 \/ c = 46.
Definition literal_ok (v : list Z) : Prop := v <> [] /\ Forall literal_char v.

Inductive authority_ok : list Z -> Prop :=
  | authority_host h : host_ok h -> authority_ok h
  | authority_port h p : host_ok h -> port_ok p -> authority_ok (h ++ 58 :: p)
  | authority_literal v : literal_ok v -> authority_ok (91 :: v ++ [93])
  | authority_literal_port v p :
      literal_ok v -> port_ok p -> authority_ok (91 :: v ++ 93 :: 58 :: p).

(** No blank or control character, no credentials, query, fragment or backslash. *)
Definition url_char (c : Z) : Prop :=
  iscntrl c = false /\ isspace c = false /\ c ∉ [64; 63; 35; 92].

Definition url_ok (t : list Z) : Prop :=
  exists scheme authority path,
    (scheme = chars "http://" \/ scheme = chars "https://") /\
    t = scheme ++ authority ++ path /\ authority_ok authority /\
    (path = [] \/ exists p, path = 47 :: p) /\ Forall url_char path /\
    last path <> Some 47 /\ (10 <= length t < kBackendUrlCapacity)%nat.

(** ** Searching *)

Lemma memchr_none s c : memchr s c = None <-> c ∉ s.
Proof.
  unfold memchr. rewrite fmap_None, list_find_None, Forall_forall.
  split; [intros H Hc; by eapply H|intros H x Hx ->; done].
Qed.

Lemma memchr_some s c i :
  memchr s c = Some i -> s = take i s ++ c :: drop (S i) s /\ c ∉ take i s.
Proof.
  unfold memchr. intros ((j & x) & Hf & ->)%fmap_Some. cbn.
  apply list_find_Some in Hf as (Hl & -> & Hlt). split; [by rewrite take_drop_middle|].
  intros (k & Hk)%list_elem_of_lookup. apply lookup_take_Some in Hk as [Hk Hj].
  by apply (Hlt k c).
Qed.

Lemma memchr_app a c b : c ∉ a -> memchr (a ++ c :: b) c = Some (length a).
Proof.
  intros Ha. unfold memchr. apply fmap_Some. exists (length a, c). split; [|done].
  apply list_find_Some. split_and!; [by rewrite lookup_app_r, Nat.sub_diag by lia|done|].
  intros j y Hj Hlt ->. apply Ha. rewrite lookup_app_l in Hj by done.
  by eapply list_elem_of_lookup_2.
Qed.

(** The first occurrence of a character divides a list in one way only. *)
Lemma first_split (c : Z) l l' h h' :
  c ∉ l -> c ∉ l' -> l ++ c :: h = l' ++ c :: h' -> l = l' /\ h = h'.
Proof.
  intros Hl Hl' E. assert (length l = length l') as El.
  { apply (inj Some). rewrite <- (memchr_app l c h), <- (memchr_app l' c h') by done.
    by rewrite E. }
  apply app_inj_1 in E as [-> [= ->]]; done.
Qed.

(** ** Hosts *)

Lemma alphanumeric_facts c :
  asciiAlphanumeric c = true -> c <> 45 /\ c <> 46 /\ c <> 58 /\ c <> 47 /\ c <> 91 /\ c <> 93.
Proof. unfold asciiAlphanumeric. lia. Qed.

Lemma label_char_facts c : label_char c -> c <> 46 /\ c <> 58 /\ c <> 47 /\ c <> 91 /\ c <> 93.
Proof. intros [H| ->]; [apply alphanumeric_facts in H; tauto|lia]. Qed.

Lemma chars_not_in (P : Z -> Prop) c l : Forall P l -> (forall x, P x -> x <> c) -> c ∉ l.
Proof. rewrite Forall_forall. intros Hl HP Hc. by apply (HP c (Hl c Hc)). Qed.

Lemma label_no_dot l : Forall label_char l -> 46 ∉ l.
Proof. intros H. apply (chars_not_in _ _ _ H). intros x Hx. apply label_char_facts in Hx. tauto. Qed.

Lemma host_plain l : 46 ∉ l -> host_ok l <-> label_ok l.
Proof.
  intros Hl. split; [|by constructor]. intros H. destruct H as [l H|l h H _]; [done|].
  exfalso. apply Hl. apply elem_of_app. right. by left.
Qed.

Lemma host_split l h : 46 ∉ l -> host_ok (l ++ 46 :: h) <-> label_ok l /\ host_ok h.
Proof.
  intros Hl. split; [|by intros []; constructor]. remember (l ++ 46 :: h) as t eqn:E.
  intros H. destruct H as [t H|l' h' H Hh].
  - exfalso. apply (label_no_dot t (lo_chars _ H)). subst. apply elem_of_app. right. by left.
  - apply first_split in E as [-> ->]; [done|by apply label_no_dot, lo_chars|done].
Qed.

Lemma host_chars h : host_ok h -> Forall (fun c => label_char c \/ c = 46) h.
Proof.
  induction 1 as [l H|l h H _ IH].
  - eapply Forall_impl; [apply H|]. tauto.
  - apply Forall_app. split; [eapply Forall_impl; [apply H|]; tauto|].
    constructor; [by right|done].
Qed.

(** A label read so far. *)
Record partial (cur : list Z) (prev : Z) : Prop := {
  pa_chars : Forall label_char cur;
  pa_head : head cur <> Some 45;
  pa_last : last cur = Some prev;
}.

Lemma partial_label cur prev : partial cur prev -> label_ok cur <-> prev <> 45.
Proof.
  intros [Hc Hh Hl]. split.
  - intros [_ _ _ H] ->. by rewrite Hl in H.
  - intros Hp. split; try done; [by destruct cur|]. rewrite Hl. congruence.
Qed.

Lemma partial_snoc cur prev c : partial cur prev -> label_char c -> partial (cur ++ [c]) c.
Proof.
  intros [Hc Hh Hl] H. split; [by apply Forall_app_2, Forall_singleton| |by rewrite last_snoc].
  by destruct cur.
Qed.

(** A host begins with a letter or digit. *)
Lemma host_head c rest : host_ok (c :: rest) -> asciiAlphanumeric c = true.
Proof.
  intros H. remember (c :: rest) as t eqn:E.
  assert (exists l, label_ok l /\ (t = l \/ exists h, t = l ++ 46 :: h)) as (l & [Hs Hc Hh _] & Ht)
    by (destruct H; eauto).
  destruct l as [|x l]; [done|]. assert (x = c) as ->
    by (destruct Ht as [->|[h ->]]; by injection E).
  apply Forall_cons in Hc as [[Hc| ->] _]; done.
Qed.

Lemma hostLoop_spec rest :
  (forall prev, hostLoop prev true rest = true <-> host_ok rest) /\
  (forall cur prev, partial cur prev ->
     hostLoop prev false rest = true <-> host_ok (cur ++ rest)).
Proof.
  induction rest as [|c rest [IHs IHl]]; split.
  - intros prev. cbn. split; [done|]. intros H%host_plain; [|apply not_elem_of_nil].
    by destruct (lo_some _ H).
  - intros cur prev P. rewrite app_nil_r, (host_plain cur) by apply label_no_dot, P.
    rewrite (partial_label _ _ P). cbn. destruct (Z.eqb_spec prev 45); naive_solver.
  - intros prev. cbn. destruct (asciiAlphanumeric c) eqn:Ea.
    + apply (IHl [c]). split; [apply Forall_singleton; by left| |done].
      apply alphanumeric_facts in Ea as [? _]. cbn. congruence.
    + rewrite !andb_false_r. split; [done|]. intros H%host_head. congruence.
  - intros cur prev P. pose proof (partial_label _ _ P) as Pl. cbn.
    assert (forall x, label_char x -> host_ok (cur ++ x :: rest) <->
      hostLoop x false rest = true) as Hx.
    { intros x Hx. rewrite cons_middle, app_assoc. symmetry. apply IHl.
      by apply (partial_snoc _ _ _ P). }
    destruct (asciiAlphanumeric c) eqn:Ea; [by rewrite Hx by (by left)|].
    destruct (Z.eqb_spec c 45) as [->|H45].
    + rewrite Hx by (by right). cbn. destruct rest as [|next rest]; [done|].
      destruct (Z.eqb_spec next 46) as [->|]; done.
    + cbn. destruct (Z.eqb_spec c 46) as [->|H46].
      * rewrite host_split, Pl, <- IHs by apply label_no_dot, P.
        destruct (Z.eqb_spec prev 45); cbn; [naive_solver|]. split; [done|by intros []].
      * split; [done|]. intros H%host_chars. apply Forall_app in H as [_ H].
        apply Forall_cons in H as [[[?|?]|?] _]; congruence.
Qed.

Lemma dnsHostValid_spec host : dnsHostValid host = true <-> host_ok host.
Proof.
  destruct host as [|c host]; [|apply hostLoop_spec]. split; [done|].
  intros H%host_plain; [|apply not_elem_of_nil]. by destruct (lo_some _ H).
Qed.

(** ** Ports *)

Definition port_from (v : Z) (digits : list Z) : Z := foldl (fun v c => v * 10 + (c - 48)) v digits.

Lemma port_from_grows v digits : 0 <= v -> Forall digit digits -> v <= port_from v digits.
Proof.
  intros Hv H. revert v Hv. induction H as [|c l Hc H IH]; intros v Hv; cbn; [lia|].
  unfold digit in Hc. etransitivity; [|apply IH; lia]. lia.
Qed.

(** The loop computes the value without ever wrapping around. *)
Lemma portLoop_spec v digits q :
  0 <= v <= 65535 ->
  portLoop v digits = Some q <-> Forall digit digits /\ q = port_from v digits /\ q <= 65535.
Proof.
  revert v. induction digits as [|c l IH]; intros v Hv; cbn [portLoop].
  - cbn. split; [intros [= <-]; split_and!; [done|done|lia]|intros (_ & -> & _); done].
  - rewrite Forall_cons. unfold digit at 1. destruct (Z.ltb_spec c 48); [split; [done|lia]|].
    destruct (Z.ltb_spec 57 c); [split; [done|lia]|]. cbn [orb].
    assert (wrap 32 (wrap 32 (v * 10) + wrap 32 (c - 48)) = v * 10 + (c - 48)) as ->.
    { rewrite (wrap_id 32 (v * 10)), (wrap_id 32 (c - 48)), wrap_id;
        unfold is_u; change (2 ^ 32) with 4294967296; lia. }
    destruct (Z.ltb_spec 65535 (v * 10 + (c - 48))).
    + split; [done|]. intros ([_ Hl] & -> & Hq). cbn in Hq.
      pose proof (port_from_grows (v * 10 + (c - 48)) l ltac:(lia) Hl).
      unfold port_from in *. lia.
    + rewrite IH by lia. cbn. tauto.
Qed.

Lemma decimalPortValid_spec p : decimalPortValid p = true <-> port_ok p.
Proof.
  destruct p as [|c p]; [split; [done|]; intros [_ H]; cbn in H; lia|].
  unfold decimalPortValid, port_ok. change (port_value (c :: p)) with (port_from 0 (c :: p)).
  destruct (portLoop 0 (c :: p)) as [q|] eqn:E.
  - apply portLoop_spec in E as (Hd & -> & Hq); [|lia]. rewrite Z.ltb_lt. naive_solver.
  - split; [done|]. intros (Hd & H0 & Hq).
    rewrite (proj2 (portLoop_spec 0 (c :: p) (port_from 0 (c :: p)) ltac:(lia))) in E; done.
Qed.

(** ** Authorities *)

Lemma literal_facts c : literal_char c -> c <> 93 /\ c <> 47 /\ c <> 91.
Proof. unfold literal_char, hexadecimal. lia. Qed.

Lemma literal_forallb v :
  forallb (fun c => hexadecimal c || (c =? 58) || (c =? 46)) v = true <-> Forall literal_char v.
Proof.
  rewrite forallb_forall, Forall_forall. apply forall_proper. intros c.
  rewrite list_elem_of_In, !orb_true_iff, !Z.eqb_eq. unfold literal_char. tauto.
Qed.

Lemma host_no_mark h c :
  host_ok h -> c <> 45 -> c <> 46 -> asciiAlphanumeric c = false -> c ∉ h.
Proof.
  intros H%host_chars Hc1 Hc2 Hc3. apply (chars_not_in _ _ _ H). intros x [[?|?]|?]; congruence.
Qed.

(** What an authority in brackets is. *)
Lemma authority_bracket rest :
  authority_ok (91 :: rest) <->
  exists v tl, literal_ok v /\ rest = v ++ 93 :: tl /\
    (tl = [] \/ exists p, tl = 58 :: p /\ port_ok p).
Proof.
  split.
  - intros H. remember (91 :: rest) as t eqn:E. destruct H as [h H|h p H _|v H|v p H Hp].
    + subst. by apply host_head in H.
    + destruct h as [|c h]; [discriminate|]. injection E as -> <-. by apply host_head in H.
    + injection E as <-. exists v, []. auto.
    + injection E as <-. exists v, (58 :: p). split_and!; [done|done|right; by exists p].
  - intros (v & tl & Hv & -> & [->|(p & -> & Hp)]); by constructor.
Qed.

(** What one without brackets is. *)
Lemma authority_plain c rest :
  c <> 91 -> authority_ok (c :: rest) <->
  host_ok (c :: rest) \/
  exists h p, c :: rest = h ++ 58 :: p /\ host_ok h /\ port_ok p.
Proof.
  intros Hc. split.
  - intros H. remember (c :: rest) as t eqn:E.
    destruct H as [h H|h p H Hp|v H|v p H Hp]; [auto|right; by exists h, p|congruence..].
  - intros [H|(h & p & -> & H & Hp)]; by constructor.
Qed.

Lemma authorityValid_spec a : authorityValid a = true <-> authority_ok a.
Proof.
  destruct a as [|c rest].
  { split; [done|]. intros H. remember [] as t eqn:E. destruct H as [h H|h p H _|v H|v p H _];
      try discriminate; [|by destruct h].
    subst. apply host_plain in H; [by destruct (lo_some _ H)|apply not_elem_of_nil]. }
  unfold authorityValid. destruct (Z.eqb_spec c 91) as [->|Hc].
  - rewrite authority_bracket. destruct (memchr rest 93) as [i|] eqn:Em.
    + apply memchr_some in Em as [E Hn]. set (v := take i rest) in *.
      set (tl := drop (S i) rest) in *.
      assert ((i =? 0)%nat = true <-> v = []) as Hi.
      { rewrite Nat.eqb_eq. split; [by intros ->|]. intros Ev.
        apply (f_equal length) in E as El. rewrite Ev in El. cbn in El.
        destruct i; [done|]. unfold v in Ev. destruct rest; [cbn in El; lia|done]. }
      assert ((exists v tl, literal_ok v /\ rest = v ++ 93 :: tl /\
                (tl = [] \/ exists p, tl = 58 :: p /\ port_ok p)) <->
              literal_ok v /\ (tl = [] \/ exists p, tl = 58 :: p /\ port_ok p)) as ->.
      { split; [|by intros [??]; exists v, tl].
        intros (v' & tl' & Hv & E' & Ht). rewrite E in E'.
        apply first_split in E' as [<- <-]; [done|done|].
        apply (chars_not_in _ _ _ (proj2 Hv)). intros x. apply literal_facts. }
      unfold literal_ok. rewrite <- literal_forallb.
      destruct (i =? 0)%nat; [naive_solver|].
      destruct (forallb _ v); cbn [negb]; [|naive_solver].
      destruct tl as [|next p]; [naive_solver|].
      rewrite andb_true_iff, Z.eqb_eq, decimalPortValid_spec.
      assert (v <> []) by naive_solver. naive_solver.
    + split; [done|]. intros (v & tl & _ & -> & _). apply memchr_none in Em.
      exfalso. apply Em, elem_of_app. right. by left.
  - rewrite authority_plain by done. destruct (memchr (c :: rest) 58) as [i|] eqn:Em.
    + apply memchr_some in Em as [E Hn].
      rewrite andb_true_iff, dnsHostValid_spec, decimalPortValid_spec. split.
      * intros [H Hp]. right. eexists _, _. split_and!; [exact E|done|done].
      * intros [H|(h & p & E' & H & Hp)].
        -- exfalso. apply (host_no_mark _ 58 H); [done|done|done|]. rewrite E.
           apply elem_of_app. right. by left.
        -- pose proof (eq_trans (eq_sym E') E) as E2.
           apply first_split in E2 as [-> ->]; [done|by apply (host_no_mark _ 58 H)|done].
    + rewrite dnsHostValid_spec. apply memchr_none in Em. split; [auto|].
      intros [H|(h & p & E & _)]; [done|]. exfalso. apply Em. rewrite E.
      apply elem_of_app. right. by left.
Qed.

(** ** URLs *)

(** A string and what follows it in memory. *)
Lemma strlen_split s : exists tl, s = take (strlen s) s ++ tl /\ default 0 (head tl) = 0.
Proof.
  exists (drop (strlen s) s). split; [by rewrite take_drop|]. unfold strlen.
  induction s as [|c s IH]; [done|]. cbn. destruct (Z.eqb_spec c 0); [done|exact IH].
Qed.

Lemma strnlen_0 s : strnlen s 0 = 0%nat.
Proof. by destruct s. Qed.

Lemma strnlen_nul tl n : default 0 (head tl) = 0 -> strnlen tl n = 0%nat.
Proof.
  intros H. destruct n as [|n], tl as [|x tl]; try done. cbn in *. by rewrite H.
Qed.

Lemma strlen_app t tl :
  Forall (fun c => c <> 0) t -> default 0 (head tl) = 0 -> strlen (t ++ tl) = length t.
Proof.
  intros Ht Htl. unfold strlen. rewrite length_app, strnlen_app_no_nul by (done || lia).
  rewrite strnlen_nul by done. lia.
Qed.

Lemma strchr_app t tl c :
  Forall (fun c => c <> 0) t -> default 0 (head tl) = 0 -> strchr (t ++ tl) c = memchr t c.
Proof.
  intros Ht Htl. unfold strchr. by rewrite strlen_app, take_app_length by done.
Qed.

Lemma strnlen_bounded s n : (strnlen s n < n)%nat -> strlen s = strnlen s n.
Proof.
  unfold strlen. revert s. induction n as [|n IH]; intros s Hn; [lia|].
  destruct s as [|c s]; [done|]. cbn in *. destruct (c =? 0); [done|]. f_equal. apply IH. lia.
Qed.

Lemma bounded_text s n :
  (strnlen s n < n)%nat <-> (strlen s < n)%nat.
Proof.
  split; [intros H; by rewrite (strnlen_bounded _ _ H)|]. intros H.
  unfold strlen in H. destruct (decide (n <= length s)%nat) as [Hl|Hl].
  - destruct (decide (strnlen s n < n)%nat); [done|].
    pose proof (strnlen_le_mono s n (length s) Hl). lia.
  - pose proof (strnlen_le_length s n). lia.
Qed.

(** A comparison with a literal. *)
Lemma strncmp_literal p t tl :
  Forall (fun c => c <> 0) p -> Forall (fun c => c <> 0) t -> default 0 (head tl) = 0 ->
  (strncmp (t ++ tl) p (length p) =? 0) = true <-> exists rest, t = p ++ rest.
Proof.
  intros Hp Ht Htl. rewrite Z.eqb_eq, strncmp_eq. unfold c_text at 2.
  assert (strnlen p (length p) = length p) as ->.
  { rewrite <- (app_nil_r p) at 1. rewrite strnlen_app_no_nul by (done || lia).
    rewrite strnlen_nul by done. lia. }
  rewrite firstn_all. split.
  - intros E. revert t Ht E. clear -Hp Htl. induction Hp as [|c p Hc Hp IH]; intros t Ht E;
      [by exists t|].
    destruct Ht as [|x t Hx Ht].
    + destruct tl as [|y tl]; [discriminate|]. cbn in Htl. subst y. discriminate.
    + unfold c_text in E. cbn in E. destruct (Z.eqb_spec x 0); [done|]. cbn in E.
      injection E as -> E. destruct (IH t Ht E) as [rest ->]. by exists rest.
  - intros [rest ->]. unfold c_text. rewrite <- app_assoc, strnlen_app_no_nul by (done || lia).
    by rewrite Nat.sub_diag, (strnlen_0 (rest ++ tl)), Nat.add_0_r, take_app_length.
Qed.

Lemma url_char_spec t :
  existsb (fun c => iscntrl c || isspace c) t = false /\
    Forall (fun c => c ∉ t) [64; 63; 35; 92] <-> Forall url_char t.
Proof.
  rewrite <- not_true_iff_false, existsb_exists, !Forall_cons, Forall_nil, Forall_forall.
  unfold url_char. split.
  - intros [Hb Hc] c Hin. assert (iscntrl c || isspace c = false) as [H1 H2]%orb_false_iff.
    { apply not_true_iff_false. intros E. apply Hb. exists c. by rewrite <- list_elem_of_In. }
    split_and!; [done|done|]. rewrite !not_elem_of_cons. split_and!; try (intros ->; tauto).
    apply not_elem_of_nil.
  - intros H. split.
    + intros (c & Hin%list_elem_of_In & E). destruct (H c Hin) as (E1 & E2 & _).
      by rewrite E1, E2 in E.
    + split_and!; try done; intros Hin; destruct (H _ Hin) as (_ & _ & Hn); apply Hn; rewrite !elem_of_cons; auto.
Qed.

(** The characters of an authority. *)
Definition authority_char (c : Z) : Prop :=
  label_char c \/ c = 46 \/ literal_char c \/ digit c \/ c = 91 \/ c = 93.

Lemma authority_char_facts c : authority_char c -> url_char c /\ c <> 47.
Proof.
  unfold authority_char, label_char, literal_char, hexadecimal, asciiAlphanumeric, digit,
    url_char, iscntrl, isspace. intros H. rewrite !not_elem_of_cons.
  split_and!; try apply not_elem_of_nil; lia.
Qed.

Lemma authority_chars a : authority_ok a -> Forall authority_char a.
Proof.
  assert (forall h, host_ok h -> Forall authority_char h) as Hh.
  { intros h Hh. eapply Forall_impl; [by apply host_chars|]. unfold authority_char. naive_solver. }
  assert (forall v, literal_ok v -> Forall authority_char v) as Hv.
  { intros v [_ Hv]. eapply Forall_impl; [exact Hv|]. unfold authority_char. auto. }
  assert (forall p, port_ok p -> Forall authority_char p) as Hp.
  { intros p [Hp _]. eapply Forall_impl; [exact Hp|]. unfold authority_char. auto. }
  assert (authority_char 58) by (right; right; left; by right; left).
  assert (authority_char 91 /\ authority_char 93) as [? ?] by (split; unfold authority_char; auto 8).
  intros H'. destruct H'; rewrite ?Forall_cons, ?Forall_app, ?Forall_cons, ?Forall_nil;
    split_and?; auto.
Qed.

(** Where the authority ends. *)
Lemma authority_path s :
  exists a path, s = a ++ path /\ 47 ∉ a /\ (path = [] \/ exists p, path = 47 :: p) /\
    a = take (match memchr s 47 with None => length s | Some i => i end) s.
Proof.
  destruct (memchr s 47) as [i|] eqn:E.
  - apply memchr_some in E as [E Hn]. exists (take i s), (47 :: drop (S i) s).
    split_and!; [done|done|right; by eexists|done].
  - apply memchr_none in E. exists s, []. rewrite app_nil_r, firstn_all. eauto.
Qed.

(** What comes behind the scheme. *)
Definition rest_ok (rest : list Z) : Prop :=
  exists a path, rest = a ++ path /\ authority_ok a /\ (path = [] \/ exists p, path = 47 :: p) /\
    Forall url_char path /\ last path <> Some 47.

Lemma path_unique a a' path path' :
  47 ∉ a -> 47 ∉ a' -> (path = [] \/ exists p, path = 47 :: p) ->
  (path' = [] \/ exists p, path' = 47 :: p) -> a ++ path = a' ++ path' -> a = a' /\ path = path'.
Proof.
  intros Ha Ha' [->|[p ->]] [->|[p' ->]] E.
  - rewrite !app_nil_r in E. by subst.
  - exfalso. apply Ha. rewrite app_nil_r in E. rewrite E. apply elem_of_app. right. by left.
  - exfalso. apply Ha'. rewrite app_nil_r in E. rewrite <- E. apply elem_of_app. right. by left.
  - apply first_split in E as [-> ->]; done.
Qed.

Lemma authority_no_slash a : authority_ok a -> 47 ∉ a.
Proof.
  intros H. apply (chars_not_in _ _ _ (authority_chars _ H)). intros c Hc.
  by apply authority_char_facts.
Qed.

(** The last character of the URL is that of the path, or of the authority. *)
Lemma last_slash scheme a path :
  a <> [] -> 47 ∉ a ->
  last path <> Some 47 <-> negb (default 0 (last (scheme ++ a ++ path)) =? 47) = true.
Proof.
  intros Hne Hn. rewrite negb_true_iff, Z.eqb_neq, app_assoc.
  destruct path as [|c path _] using rev_ind.
  - rewrite app_nil_r. split; [|done]. intros _. rewrite last_app.
    destruct (last a) as [x|] eqn:Ex; [|by apply last_None in Ex].
    cbn. intros ->. apply Hn. apply last_Some in Ex as [l ->].
    apply elem_of_app. right. by left.
  - rewrite app_assoc, !last_snoc. cbn. naive_solver.
Qed.

Lemma absent_spec (rest tl : list Z) c :
  Forall (fun c => c <> 0) rest -> default 0 (head tl) = 0 ->
  bool_decide (strchr (rest ++ tl) c = None) = true <-> c ∉ rest.
Proof. intros Hr Htl. by rewrite strchr_app, bool_decide_eq_true, memchr_none. Qed.

(** Where the code puts the end of the authority. *)
Lemma authority_end scheme rest tl a :
  Forall (fun c => c <> 0) rest -> default 0 (head tl) = 0 ->
  a = take (match memchr rest 47 with None => length rest | Some i => i end) rest ->
  take (match strchr (rest ++ tl) 47 with
        | None => (length (scheme ++ rest) - length scheme)%nat
        | Some i => i end) (rest ++ tl) = a.
Proof.
  intros Hr Htl Ea. rewrite strchr_app by done. destruct (memchr rest 47) as [i|] eqn:Em.
  - rewrite take_app_le; [done|]. apply memchr_some in Em as [Em _].
    apply (f_equal length) in Em. rewrite length_app, length_take in Em. cbn in Em. lia.
  - rewrite length_app, Nat.add_comm, Nat.add_sub, take_app_length. by rewrite Ea, firstn_all.
Qed.

Lemma authority_url_chars a : authority_ok a -> Forall url_char a.
Proof.
  intros Ha. eapply Forall_impl; [by apply authority_chars|].
  intros c Hc. by apply authority_char_facts.
Qed.

(** The checks behind the scheme. *)
Lemma urlRestValid_spec scheme rest tl :
  Forall (fun c => c <> 0) (scheme ++ rest) -> default 0 (head tl) = 0 ->
  existsb (fun c => iscntrl c || isspace c) scheme = false -> last scheme = Some 47 ->
  urlRestValid ((scheme ++ rest) ++ tl) (length (scheme ++ rest)) (length scheme) = true <->
  rest_ok rest.
Proof.
  intros Ht Htl Hs Hl47. apply Forall_app in Ht as Hr. destruct Hr as [_ Hr].
  unfold urlRestValid. rewrite <- app_assoc, drop_app_length.
  pose proof (absent_spec rest tl) as Ha.
  destruct (authority_path rest) as (a & path & E & Hn & Hp & Ea).
  rewrite (authority_end scheme rest tl a) by done.
  rewrite app_assoc, take_app_length, existsb_app, Hs, orb_false_l.
  assert (default 0 ((scheme ++ rest ++ tl) !! (length (scheme ++ rest) - 1)%nat) =
          default 0 (last (scheme ++ rest))) as El.
  { rewrite app_assoc, last_lookup, lookup_app_l; [by rewrite Nat.sub_1_r|].
    rewrite length_app. destruct scheme; [done|cbn; lia]. }
  rewrite app_assoc in El. rewrite El.
  assert (rest_ok rest <-> authority_ok a /\ Forall url_char path /\ last path <> Some 47) as ->.
  { split; [|intros (? & ? & ?); exists a, path; eauto].
    intros (a' & path' & E' & Ha' & Hp' & Hu & Hl). rewrite E in E'.
    apply path_unique in E' as [-> ->]; try done. by apply authority_no_slash. }
  destruct (Z.eqb_spec (default 0 (head (rest ++ tl))) 0) as [H0|H0]; cbn [orb].
  { split; [done|]. intros (Ha' & _). destruct rest as [|c rest].
    - symmetry in E. apply app_eq_nil in E as [-> ->]. by apply authorityValid_spec in Ha'.
    - cbn in H0. by apply Forall_cons in Hr as [? _]. }
  destruct (authorityValid a) eqn:Ev.
  2:{ rewrite <- (authorityValid_spec a), Ev. cbn [negb orb].
      destruct (_ || _); split; try done; by intros [? _]. }
  apply authorityValid_spec in Ev as Hau. cbn [negb orb].
  assert (a <> []) as Hne by (intros ->; by apply authorityValid_spec in Hau).
  assert (Forall url_char path <-> Forall url_char rest) as ->.
  { rewrite E, Forall_app. pose proof (authority_url_chars a Hau). tauto. }
  assert (last path <> Some 47 <-> negb (default 0 (last (scheme ++ rest)) =? 47) = true) as ->
    by (rewrite E; by apply last_slash).
  rewrite <- url_char_spec, !Forall_cons, Forall_nil, <- !Ha by done.
  destruct (bool_decide _), (bool_decide _), (bool_decide _), (bool_decide _); cbn [negb orb];
    try (split; [done|]; naive_solver).
  destruct (existsb _ rest); [split; [done|]; naive_solver|]. split; [|tauto].
  intros H. split_and!; done.
Qed.

Lemma http_chars :
  Forall (fun c => c <> 0) (chars "http://") /\ Forall (fun c => c <> 0) (chars "https://").
Proof. split; apply (bool_decide_unpack _); vm_compute; reflexivity. Qed.

Lemma url_ok_rest t :
  url_ok t <-> (10 <= length t < kBackendUrlCapacity)%nat /\
    exists scheme rest, (scheme = chars "http://" \/ scheme = chars "https://") /\
      t = scheme ++ rest /\ rest_ok rest.
Proof.
  split.
  - intros (scheme & a & path & Hs & -> & Ha & Hp & Hu & Hl & Hn). split; [done|].
    exists scheme, (a ++ path). split_and!; [done|done|]. by exists a, path.
  - intros (Hn & scheme & rest & Hs & -> & a & path & -> & Ha & Hp & Hu & Hl).
    by exists scheme, a, path.
Qed.

(** The two schemes exclude each other. *)
Lemma scheme_exclusive r1 r2 : chars "http://" ++ r1 <> chars "https://" ++ r2.
Proof. discriminate. Qed.

(** C19: the validation of backend URLs decides a grammar: http or https, a host
    of dot-separated labels or an address in brackets, an optional port between
    1 and 65535, an optional path without a trailing slash, no credentials,
    query or fragment, no blanks, and 10 to 160 characters. *)
Theorem url_grammar url :
  backendUrlValid (Some url) = true <-> url_ok (take (strlen url) url).
Proof.
  destruct (strlen_split url) as (tl & E & Htl). pose proof (c_text_no_nul (length url) url) as Ht.
  unfold c_text in Ht. fold (strlen url) in Ht. set (t := take (strlen url) url) in *.
  assert (strlen url = length t) as El.
  { unfold t. rewrite length_take. pose proof (strnlen_le_length url (length url)).
    unfold strlen in *. lia. }
  clearbody t. rewrite url_ok_rest. unfold backendUrlValid, boundedCString.
  change (default [] (Some url)) with url. cbv zeta.
  destruct http_chars as [H7 H8].
  destruct (Nat.ltb_spec (strnlen url kBackendUrlCapacity) kBackendUrlCapacity) as [Hb|Hb]; cbn [negb].
  2:{ split; [done|]. intros [[_ Hn] _]. rewrite <- El in Hn. apply bounded_text in Hn. lia. }
  apply bounded_text in Hb. rewrite El in Hb |- *.
  destruct (Nat.ltb_spec (length t) 10); [split; [done|lia]|].
  rewrite E. pose proof (strncmp_literal _ _ _ H7 Ht Htl) as E7.
  pose proof (strncmp_literal _ _ _ H8 Ht Htl) as E8.
  change (length (chars "http://")) with 7%nat in E7.
  change (length (chars "https://")) with 8%nat in E8.
  destruct (strncmp (t ++ tl) (chars "https://") 8 =? 0).
  - destruct (proj1 E8 eq_refl) as [rest ->]. rewrite andb_false_r.
    rewrite (urlRestValid_spec (chars "https://") rest tl) by done. split; [intros Hrest; split; [lia|eauto 6]|].
    intros (_ & scheme & rest' & [-> | ->] & E' & Hr).
    + by destruct (scheme_exclusive rest' rest).
    + by apply app_inv_head in E' as ->.
  - destruct (strncmp (t ++ tl) (chars "http://") 7 =? 0); cbn [negb andb].
    + destruct (proj1 E7 eq_refl) as [rest ->].
      rewrite (urlRestValid_spec (chars "http://") rest tl) by done. split; [intros Hrest; split; [lia|eauto 6]|].
      intros (_ & scheme & rest' & [-> | ->] & E' & Hr).
      * by apply app_inv_head in E' as ->.
      * by destruct (scheme_exclusive rest rest').
    + split; [done|]. intros (_ & scheme & rest & [-> | ->] & -> & _).
      * by pose proof (proj2 E7 (ex_intro _ rest eq_refl)).
      * by pose proof (proj2 E8 (ex_intro _ rest eq_refl)).
Qed.
