(* ===== verification/ConfigStore.v ===== *)
(** * The store of the configuration (lib/config/config_store, ConfigStore)

    The configuration as raw bytes in NVS.  How the compiler lays a structure
    out is not in the sources: [config_bytes] and [v1_bytes] are the bytes of an
    object, [config_object] and [v1_object] the object with given bytes. *)

From Stdlib Require Import ZArith Lia String SpecFloat.
From stdpp Require Import gmap strings.
From S2P Require Import Prelude BuildConfig CString GatewayConfig.
Open Scope Z_scope.

(** The calls of [Preferences] on blobs and counters; [raw_getBytes] answers the
    bytes read, the writes the number of bytes written. *)
Class RawPreferences (E : Type) := {
  raw_begin : string -> bool -> E -> bool * E;
  raw_end : E -> E;
  raw_getBytesLength : string -> E -> nat * E;
  raw_getBytes : string -> nat -> E -> list Z * E;
  raw_putBytes : string -> list Z -> E -> nat * E;
  raw_getUInt : string -> Z -> E -> Z * E;
  raw_putUInt : string -> Z -> E -> nat * E;
}.

Record ConfigStore := mkConfigStore {
  cg_config : GatewayConfig;
  cg_bootCount : Z;
  cg_healthy : bool;
  cg_bootCountHealthy : bool;
  cg_migratedLegacyConfig : bool;
}.

Definition ConfigStore_init : ConfigStore :=
  mkConfigStore GatewayConfig_init 0 false false false.

Section Operations.
Context (config_bytes : GatewayConfig -> list Z) (config_object : list Z -> GatewayConfig).
Context (v1_object : list Z -> GatewayConfigV1).
Context (sizeof_config sizeof_v1 : nat).
Context {E : Type} `{RawPreferences E}.

Definition configSave (config : GatewayConfig) (s : ConfigStore) (e : E)
  : bool * ConfigStore * E :=
  if negb (configOk (validateConfig config)) then (false, s, e)
  else
    let '(written, e) := raw_putBytes "config" (config_bytes config) e in
    if negb (written =? sizeof_config)%nat then (false, s, e)
    else (true, s <| cg_config := config |>, e).

(** The first part of [begin]: finding a configuration. *)
Definition configLoad (derivedGatewayId : ptr (list Z)) (s : ConfigStore) (e : E)
  : bool * ConfigStore * E :=
  let '(storedSize, e) := raw_getBytesLength "config" e in
  let '(loaded, e) :=
    if (storedSize =? sizeof_config)%nat then
      let '(bytes, e) := raw_getBytes "config" sizeof_config e in
      (if (length bytes =? sizeof_config)%nat &&
          configOk (validateConfig (config_object bytes))
       then Some (config_object bytes) else None, e)
    else (None, e) in
  match loaded with
  | Some config => (true, s <| cg_config := config |>, e)
  | None =>
      if (storedSize =? sizeof_v1)%nat then
        let '(bytes, e) := raw_getBytes "config" sizeof_v1 e in
        if negb (length bytes =? sizeof_v1)%nat then (false, s, e)
        else
          match migrateConfigV1 (v1_object bytes) with
          | None => (false, s, e)
          | Some migrated =>
              let '(saved, s, e) := configSave migrated s e in
              if negb saved then (false, s, e)
              else (true, s <| cg_migratedLegacyConfig := true |>, e)
          end
      else
        let s := s <| cg_config := setDefaults derivedGatewayId |> in
        configSave (cg_config s) s e
  end.

Definition configBegin (derivedGatewayId : ptr (list Z)) (s : ConfigStore) (e : E)
  : bool * ConfigStore * E :=
  let '(opened, e) := raw_begin "gathra-gw" false e in
  if negb opened then (false, s, e)
  else
    let '(found, s, e) := configLoad derivedGatewayId s e in
    if negb found then (false, s, e)
    else
      let '(previousBootCount, e) := raw_getUInt "boot-count" 0 e in
      let bootCount := if previousBootCount =? UINT32_MAX then UINT32_MAX
                       else wrap 32 (previousBootCount + 1) in
      let s := s <| cg_bootCount := bootCount |> in
      let '(counted, e) :=
        if previousBootCount =? UINT32_MAX then (true, e)
        else let '(written, e) := raw_putUInt "boot-count" bootCount e in
             ((written =? 4)%nat, e) in
      (true, s <| cg_bootCountHealthy := counted |> <| cg_healthy := true |>, e).
End Operations.

(** ** What NVS promises *)

Class RawPreferencesLaws (E : Type) `{RawPreferences E} := {
  nvs : E -> gmap string (list Z);
  counters : E -> gmap string Z;
  raw_begin_law n b e r e' :
    raw_begin n b e = (r, e') -> nvs e' = nvs e /\ counters e' = counters e;
  raw_end_law e : nvs (raw_end e) = nvs e /\ counters (raw_end e) = counters e;
  raw_length_law k e n e' :
    raw_getBytesLength k e = (n, e') ->
    n = length (default [] (nvs e !! k)) /\ nvs e' = nvs e /\ counters e' = counters e;
  raw_get_law k n e bytes e' :
    raw_getBytes k n e = (bytes, e') ->
    nvs e' = nvs e /\ counters e' = counters e /\
    (length (default [] (nvs e !! k)) = n -> bytes = default [] (nvs e !! k));
  raw_put_law k bytes e n e' :
    raw_putBytes k bytes e = (n, e') ->
    counters e' = counters e /\
    nvs e' = (if decide (n = length bytes) then <[k := bytes]> (nvs e) else nvs e);
  raw_getUInt_law k d e v e' :
    raw_getUInt k d e = (v, e') ->
    v = default d (counters e !! k) /\ nvs e' = nvs e /\ counters e' = counters e;
  raw_putUInt_law k v e n e' :
    raw_putUInt k v e = (n, e') ->
    nvs e' = nvs e /\
    counters e' = (if decide (n = 4%nat) then <[k := v]> (counters e) else counters e);
}.

(** ** Typed configurations: values a structure can hold *)

Definition array_ok (n : nat) (s : list Z) : Prop := length s = n /\ bytes_ok s.

Definition single_ok (f : single) : Prop := valid_binary single_prec single_emax f = true.

Definition radio_typed (r : RadioConfig) : Prop :=
  single_ok (rc_frequencyMhz r) /\ single_ok (rc_bandwidthKhz r) /\
  is_u 8 (rc_spreadingFactor r) /\ is_u 8 (rc_codingRateDenominator r) /\
  is_s 8 (rc_txPowerDbm r) /\ is_u 8 (rc_syncWord r).

Definition config_typed (c : GatewayConfig) : Prop :=
  is_u 16 (cf_schemaVersion c) /\ array_ok kGatewayIdCapacity (cf_gatewayId c) /\
  array_ok kWifiSsidCapacity (cf_wifiSsid c) /\
  array_ok kWifiPasswordCapacity (cf_wifiPassword c) /\
  array_ok kNodeIdCapacity (cf_pairedNodeId c) /\
  array_ok kBackendUrlCapacity (cf_backendBaseUrl c) /\
  array_ok kBearerTokenCapacity (cf_backendBearerToken c) /\
  radio_typed (cf_radio c) /\ is_u 8 (cf_backendBatchSize c) /\
  is_u 32 (cf_backendHttpTimeoutMs c) /\ is_u 32 (cf_backendInitialBackoffMs c) /\
  is_u 32 (cf_backendMaximumBackoffMs c) /\ is_u 32 (cf_wifiReconnectIntervalMs c) /\
  is_u 32 (cf_wifiFallbackAfterMs c) /\ is_u 32 (cf_wifiApGraceMs c) /\
  is_u 32 (cf_heartbeatIntervalSeconds c).

Definition v1_typed (c : GatewayConfigV1) : Prop :=
  is_u 16 (v1_schemaVersion c) /\ array_ok kGatewayIdCapacity (v1_gatewayId c) /\
  array_ok kWifiSsidCapacity (v1_wifiSsid c) /\
  array_ok kWifiPasswordCapacity (v1_wifiPassword c) /\
  array_ok kNodeIdCapacity (v1_pairedNodeId c) /\
  array_ok kBackendUrlCapacity (v1_backendBaseUrl c) /\
  array_ok kBearerTokenCapacity (v1_backendBearerToken c) /\
  radio_typed (v1_radio c) /\ is_u 8 (v1_backendBatchSize c) /\
  is_u 32 (v1_backendHttpTimeoutMs c) /\ is_u 32 (v1_backendInitialBackoffMs c) /\
  is_u 32 (v1_backendMaximumBackoffMs c) /\ is_u 32 (v1_wifiReconnectIntervalMs c) /\
  is_u 32 (v1_wifiFallbackAfterMs c) /\ is_u 32 (v1_wifiApGraceMs c).

#[export] Instance config_typed_dec c : Decision (config_typed c).
Proof. unfold config_typed, array_ok, radio_typed, single_ok. apply _. Defined.

Lemma strncpy_bytes dst src n : bytes_ok dst -> bytes_ok src -> bytes_ok (strncpy dst src n).
Proof.
  intros Hd Hs. unfold strncpy. apply Forall_app. split; [by apply Forall_take|].
  apply Forall_app. split; [|by apply Forall_drop]. apply Forall_replicate.
  vm_compute. split; congruence.
Qed.

Lemma setDefaults_typed id :
  bytes_ok (default [] id) -> config_typed (setDefaults id).
Proof.
  intros Hid. assert (config_typed GatewayConfig_init) as T
    by (apply (bool_decide_unpack _); vm_compute; reflexivity).
  destruct T as (T1 & [L2 B2] & T3 & T4 & T5 & [L6 B6] & T7).
  unfold config_typed, setDefaults.
  cbn [cf_schemaVersion cf_gatewayId cf_wifiSsid cf_wifiPassword cf_pairedNodeId
       cf_backendBaseUrl cf_backendBearerToken cf_radio cf_backendBatchSize
       cf_backendHttpTimeoutMs cf_backendInitialBackoffMs cf_backendMaximumBackoffMs
       cf_wifiReconnectIntervalMs cf_wifiFallbackAfterMs cf_wifiApGraceMs
       cf_heartbeatIntervalSeconds].
  split; [exact T1|]. split; [|split; [exact T3|split; [exact T4|split; [exact T5|
    split; [|exact T7]]]]]; split.
  - rewrite length_strncpy; [done|]. rewrite L2. lia.
  - apply strncpy_bytes; [done|]. destruct id; [done|].
    apply (bool_decide_unpack _); vm_compute; reflexivity.
  - rewrite length_strncpy; [done|]. rewrite L6. lia.
  - apply strncpy_bytes; [done|]. apply (bool_decide_unpack _); vm_compute; reflexivity.
Qed.

Lemma migrate_typed legacy c :
  v1_typed legacy -> migrateConfigV1 legacy = Some c -> config_typed c.
Proof.
  intros (_ & T). unfold migrateConfigV1. destruct (negb _); [done|].
  destruct (negb _); [done|]. intros [= <-]. unfold config_typed.
  cbn [cf_schemaVersion cf_gatewayId cf_wifiSsid cf_wifiPassword cf_pairedNodeId
       cf_backendBaseUrl cf_backendBearerToken cf_radio cf_backendBatchSize
       cf_backendHttpTimeoutMs cf_backendInitialBackoffMs cf_backendMaximumBackoffMs
       cf_wifiReconnectIntervalMs cf_wifiFallbackAfterMs cf_wifiApGraceMs
       cf_heartbeatIntervalSeconds].
  destruct T as (? & ? & ? & ? & ? & ? & ? & ? & ? & ? & ? & ? & ? & ?).
  split_and!; try assumption; vm_compute; split; congruence.
Qed.

(** ** Theorems *)

Section Theorems.
Context (config_bytes : GatewayConfig -> list Z) (config_object : list Z -> GatewayConfig).
Context (v1_object : list Z -> GatewayConfigV1).
Context (sizeof_config sizeof_v1 : nat).
(** Every object has the bytes of its structure, the two structures differ in
    size, a blob that was stored from an object is read as that object, and
    whatever is read is a value of the structure. *)
Context (config_length : forall c, length (config_bytes c) = sizeof_config).
Context (sizes_differ : sizeof_config <> sizeof_v1).
Context (config_layout : forall c, config_typed c -> config_object (config_bytes c) = c).
Context (object_typed : forall bytes, config_typed (config_object bytes)).
Context (v1_object_typed : forall bytes, v1_typed (v1_object bytes)).
Context {E : Type} `{RawPreferencesLaws E}.

Abbreviation beginStore := (configBegin config_bytes config_object v1_object sizeof_config sizeof_v1).
Abbreviation loadStore := (configLoad config_bytes config_object v1_object sizeof_config sizeof_v1).
Abbreviation saveStore := (configSave config_bytes sizeof_config).

Definition valid_config (c : GatewayConfig) : Prop := configOk (validateConfig c) = true.

Lemma configSave_spec config s (e : E) ok s' e' :
  saveStore config s e = (ok, s', e') ->
  counters e' = counters e /\
  if ok then valid_config config /\ cg_config s' = config /\
    cg_migratedLegacyConfig s' = cg_migratedLegacyConfig s /\
    nvs e' = <["config" := config_bytes config]> (nvs e)
  else s' = s /\ nvs e' = nvs e.
Proof.
  unfold configSave, valid_config. intros Es.
  destruct (configOk (validateConfig config)); cbn [negb] in Es; [|by injection Es as <- <- <-].
  destruct (raw_putBytes _ _ e) as [n e1] eqn:Ep. apply raw_put_law in Ep as [Ec En].
  rewrite config_length in En. destruct (Nat.eqb_spec n sizeof_config) as [->|Hn]; cbn [negb] in Es.
  - injection Es as <- <- <-. rewrite decide_True in En by done. by destruct s.
  - injection Es as <- <- <-. by rewrite decide_False in En.
Qed.

(** The configuration [begin] takes over from the blob it finds. *)
Definition found_config (derivedGatewayId : ptr (list Z)) (blob : list Z) : option GatewayConfig :=
  if decide (length blob = sizeof_config /\ valid_config (config_object blob))
  then Some (config_object blob)
  else if decide (length blob = sizeof_v1) then migrateConfigV1 (v1_object blob)
  else Some (setDefaults derivedGatewayId).

Lemma found_typed id blob c :
  bytes_ok (default [] id) -> found_config id blob = Some c -> config_typed c.
Proof.
  intros Hid. unfold found_config. destruct (decide _); [by intros [= <-]|].
  destruct (decide _); [by apply migrate_typed|]. intros [= <-]. by apply setDefaults_typed.
Qed.

Lemma configLoad_spec derivedGatewayId s (e : E) ok s' e' :
  loadStore derivedGatewayId s e = (ok, s', e') ->
  let blob := default [] (nvs e !! "config") in
  counters e' = counters e /\
  if ok then found_config derivedGatewayId blob = Some (cg_config s') /\
    valid_config (cg_config s') /\
    (nvs e' = nvs e /\ config_object blob = cg_config s' /\ length blob = sizeof_config \/
     nvs e' = <["config" := config_bytes (cg_config s')]> (nvs e))
  else nvs e' = nvs e.
Proof.
  intros Es blob. unfold configLoad in Es.
  destruct (raw_getBytesLength _ e) as [n e1] eqn:El. apply raw_length_law in El as (-> & N1 & C1).
  fold blob in Es. unfold found_config, valid_config.
  destruct (Nat.eqb_spec (length blob) sizeof_config) as [Hl|Hl].
  - destruct (raw_getBytes _ _ e1) as [bytes e2] eqn:Eg.
    apply raw_get_law in Eg as (N2 & C2 & Hb). rewrite N1 in Hb. fold blob in Hb.
    specialize (Hb Hl). subst bytes. rewrite Hl, Nat.eqb_refl in Es. cbn [andb] in Es.
    destruct (configOk (validateConfig (config_object blob))) eqn:Ev.
    + injection Es as <- <- <-. rewrite decide_True by done.
      destruct s; cbn. split; [congruence|]. split_and!; [done|done|left; split_and!; congruence].
    + rewrite decide_False by (intros [_ ?]; congruence).
      rewrite decide_False by congruence.
      destruct (Nat.eqb_spec sizeof_config sizeof_v1); [done|].
      apply configSave_spec in Es as [C3 Es]. split; [congruence|].
      destruct ok; [|destruct Es as [_ ->]; congruence].
      destruct Es as (Hv & Ec & _ & ->). rewrite Ec. destruct s; cbn in *.
      split_and!; [done|done|right; congruence].
  - rewrite decide_False by (intros [? _]; done).
    destruct (Nat.eqb_spec (length blob) sizeof_v1) as [Hl1|Hl1].
    + destruct (raw_getBytes _ _ e1) as [bytes e2] eqn:Eg.
      apply raw_get_law in Eg as (N2 & C2 & Hb). rewrite N1 in Hb. fold blob in Hb.
      specialize (Hb Hl1). subst bytes. rewrite Hl1, Nat.eqb_refl in Es. cbn [negb] in Es.
      rewrite decide_True by done.
      destruct (migrateConfigV1 (v1_object blob)) as [migrated|];
        [|injection Es as <- <- <-; split; congruence].
      destruct (configSave _ _ migrated s e2) as [[saved s3] e3] eqn:Es3.
      apply configSave_spec in Es3 as [C3 Es3]. destruct saved; cbn [negb] in Es.
      * destruct Es3 as (Hv & Ec & _ & N3). injection Es as <- <- <-. destruct s3; cbn in *.
        subst. split; [congruence|]. split_and!; [done|done|right; congruence].
      * destruct Es3 as [_ N3]. injection Es as <- <- <-. split; congruence.
    + rewrite decide_False by done. apply configSave_spec in Es as [C3 Es].
      split; [congruence|]. destruct ok; [|destruct Es as [_ ->]; congruence].
      destruct Es as (Hv & Ec & _ & ->). rewrite Ec. destruct s; cbn in *.
      split_and!; [done|done|right; congruence].
Qed.

(** C36: the gateway starts with a valid configuration or not at all: the stored
    one when it is valid, the migration of a schema-1 blob, and otherwise the
    defaults; from then on NVS holds exactly that configuration, and the boot
    counter goes up by one unless it is exhausted.  A schema-1 blob that cannot
    be migrated is refused and left in NVS. *)
Theorem config_begin derivedGatewayId (e : E) ok s' e' :
  bytes_ok (default [] derivedGatewayId) ->
  beginStore derivedGatewayId ConfigStore_init e = (ok, s', e') ->
  let blob := default [] (nvs e !! "config") in
  let previous := default 0 (counters e !! "boot-count") in
  (ok = true ->
     found_config derivedGatewayId blob = Some (cg_config s') /\ valid_config (cg_config s') /\
     config_object (default [] (nvs e' !! "config")) = cg_config s' /\
     length (default [] (nvs e' !! "config")) = sizeof_config /\ cg_healthy s' = true /\
     cg_bootCount s' =
       (if decide (previous = UINT32_MAX) then UINT32_MAX else wrap 32 (previous + 1)) /\
     (cg_bootCountHealthy s' = true ->
        default 0 (counters e' !! "boot-count") = cg_bootCount s')) /\
  (ok = false -> nvs e' = nvs e /\ counters e' = counters e).
Proof.
  intros Hid Es blob previous. unfold configBegin in Es.
  destruct (raw_begin _ _ e) as [opened e1] eqn:Eb. apply raw_begin_law in Eb as [N1 C1].
  destruct opened; cbn [negb] in Es; [|by injection Es as <- <- <-].
  destruct (configLoad _ _ _ _ _ _ _ e1) as [[found s1] e2] eqn:El.
  apply configLoad_spec in El as [C2 El]. rewrite N1 in El. fold blob in El.
  destruct found; cbn [negb] in Es; [|injection Es as <- <- <-; split; [done|split; congruence]].
  destruct El as (Hf & Hv & HN).
  destruct (raw_getUInt _ _ e2) as [prev e3] eqn:Eg.
  apply raw_getUInt_law in Eg as (-> & N3 & C3). rewrite C2, C1 in Es. fold previous in Es.
  assert (config_object (default [] (nvs e3 !! "config")) = cg_config s1 /\
    length (default [] (nvs e3 !! "config")) = sizeof_config) as [Hc Hn].
  { rewrite N3. destruct HN as [(-> & Hc & Hn)| ->]; [by split|].
    rewrite lookup_insert_eq. cbn. rewrite config_length, config_layout; [done|].
    by eapply found_typed. }
  destruct (Z.eqb_spec previous UINT32_MAX) as [Hp|Hp].
  - injection Es as <- <- <-. split; [intros _|done]. rewrite decide_True by done.
    destruct s1; cbn in *. split_and!; try done. intros _. rewrite C3, C2, C1. exact Hp.
  - destruct (raw_putUInt _ _ e3) as [written e4] eqn:Ep. apply raw_putUInt_law in Ep as [N4 C4].
    injection Es as <- <- <-. split; [intros _|done]. rewrite decide_False by done. rewrite N4.
    destruct s1; cbn in *. split_and!; try done. intros Hw%Nat.eqb_eq.
    rewrite C4, decide_True, lookup_insert_eq by done. done.
Qed.
End Theorems.

(** ** NVS in memory *)

Record MemoryNvs := mkMemoryNvs {
  mn_blobs : gmap string (list Z);
  mn_counters : gmap string Z;
}.

#[export] Instance MemoryNvs_ops : RawPreferences MemoryNvs := {
  raw_begin _ _ e := (true, e);
  raw_end e := e;
  raw_getBytesLength k e := (length (default [] (mn_blobs e !! k)), e);
  raw_getBytes k n e := (take n (default [] (mn_blobs e !! k)), e);
  raw_putBytes k bytes e :=
    (length bytes, mkMemoryNvs (<[k := bytes]> (mn_blobs e)) (mn_counters e));
  raw_getUInt k d e := (default d (mn_counters e !! k), e);
  raw_putUInt k v e := (4%nat, mkMemoryNvs (mn_blobs e) (<[k := v]> (mn_counters e)));
}.

#[export] Instance MemoryNvs_laws : RawPreferencesLaws MemoryNvs.
Proof.
  refine {| nvs := mn_blobs; counters := mn_counters |}; cbn.
  - by intros n b e r e' [= _ <-].
  - done.
  - by intros k e n e' [= <- <-].
  - intros k n e bytes e' [= <- <-]. split_and!; try done. intros <-. by rewrite firstn_all.
  - intros k bytes e n e' [= <- <-]. by rewrite decide_True.
  - by intros k d e v e' [= <- <-].
  - intros k v e n e' [= <- <-]. by rewrite decide_True.
Defined.

(** A layout: the configuration as one number. *)
#[export] Instance single_eq_dec : EqDecision single.
Proof. solve_decision. Defined.

Definition single_code (f : single) : Z * bool * positive * Z :=
  match f with
  | S754_zero s => (0, s, 1%positive, 0)
  | S754_infinity s => (1, s, 1%positive, 0)
  | S754_nan => (2, false, 1%positive, 0)
  | S754_finite s m e => (3, s, m, e)
  end.

Definition single_decode (c : Z * bool * positive * Z) : single :=
  let '(k, s, m, e) := c in
  if k =? 0 then S754_zero s else if k =? 1 then S754_infinity s
  else if k =? 2 then S754_nan else S754_finite s m e.

#[export] Instance single_countable : Countable single.
Proof. apply (inj_countable' single_code single_decode). by intros []. Defined.

Definition radio_code (r : RadioConfig) :=
  (rc_frequencyMhz r, rc_bandwidthKhz r,
   [rc_spreadingFactor r; rc_codingRateDenominator r; rc_txPowerDbm r; rc_syncWord r]).

Definition config_code (c : GatewayConfig) :=
  (radio_code (cf_radio c),
   [cf_gatewayId c; cf_wifiSsid c; cf_wifiPassword c; cf_pairedNodeId c; cf_backendBaseUrl c;
    cf_backendBearerToken c;
    [cf_schemaVersion c; cf_backendBatchSize c; cf_backendHttpTimeoutMs c;
     cf_backendInitialBackoffMs c; cf_backendMaximumBackoffMs c; cf_wifiReconnectIntervalMs c;
     cf_wifiFallbackAfterMs c; cf_wifiApGraceMs c; cf_heartbeatIntervalSeconds c]]).

Definition config_decode (x : single * single * list Z * list (list Z)) : GatewayConfig :=
  match x with
  | (f, b, [sf; cr; tx; sw], [id; ssid; pass; node; url; token; [v; a; t; i; m; r; w; g; h]]) =>
      mkGatewayConfig v id ssid pass node url token (mkRadioConfig f b sf cr tx sw)
        a t i m r w g h
  | _ => GatewayConfig_init
  end.

Definition sampleLayout (c : GatewayConfig) : list Z := [Zpos (encode (config_code c))].

Definition sampleObject (bytes : list Z) : GatewayConfig :=
  match bytes with
  | [Zpos p] =>
      let c := default GatewayConfig_init (config_decode <$> decode p) in
      if decide (config_typed c) then c else GatewayConfig_init
  | _ => GatewayConfig_init
  end.

Lemma sampleLayout_object c : config_typed c -> sampleObject (sampleLayout c) = c.
Proof.
  intros T. unfold sampleObject, sampleLayout. rewrite decode_encode.
  change (config_decode <$> Some (config_code c)) with (Some (config_decode (config_code c))).
  assert (config_decode (config_code c) = c) as -> by (by destruct c as [? ? ? ? ? ? ? []]).
  cbn [from_option id]. by rewrite decide_True.
Qed.

Lemma init_typed : config_typed GatewayConfig_init /\ v1_typed GatewayConfigV1_init.
Proof.
  split; [apply (bool_decide_unpack _); vm_compute; reflexivity|].
  unfold v1_typed, array_ok, radio_typed, single_ok. apply (bool_decide_unpack _).
  vm_compute. reflexivity.
Qed.

Lemma sampleObject_typed bytes : config_typed (sampleObject bytes).
Proof.
  pose proof (proj1 init_typed). unfold sampleObject.
  destruct bytes as [|[|p|p] []]; try done. cbv zeta. by destruct (decide _).
Qed.

Definition firstBoot := configBegin sampleLayout sampleObject (fun _ => GatewayConfigV1_init) 1 2
  None ConfigStore_init (mkMemoryNvs ∅ ∅).

(** A gateway boots for the first time. *)
Lemma config_begin_witness :
  firstBoot.1.1 = true /\ cg_bootCount firstBoot.1.2 = 1 /\ valid_config (cg_config firstBoot.1.2).
Proof.
  assert (firstBoot.1.1 = true) as E by (vm_compute; reflexivity).
  split; [exact E|]. split; [vm_compute; reflexivity|].
  refine (proj1 (proj2 (proj1 (config_begin sampleLayout sampleObject (fun _ => GatewayConfigV1_init)
    1 2 (fun c => eq_refl) ltac:(discriminate) sampleLayout_object sampleObject_typed
    (fun _ => proj2 init_typed) None (mkMemoryNvs ∅ ∅) firstBoot.1.1 firstBoot.1.2 firstBoot.2
    (Forall_nil_2 _) _) E))).
  unfold firstBoot. by destruct (configBegin _ _ _ _ _ _ _ _) as [[? ?] ?].
Defined.
