(* ===== verification/NvsCommandBackend.v ===== *)
(** * Commands in NVS (lib/commands/command_store, NvsCommandBackend)

    The backend of the command store on the device: the record as one blob of the
    preferences.  [record_bytes] and [record_object] are the layout of a record,
    which is the compiler's.  The backend keeps what the command store relies on,
    [CommandBackendLaws], whenever NVS keeps its blobs. *)

From Stdlib Require Import ZArith Lia String.
From stdpp Require Import gmap strings.
From S2P Require Import Prelude CommandStore CommandStoreSpec ConfigStore.
Open Scope Z_scope.

Section Backend.
Context (record_bytes : CommandStoreRecord -> list Z) (record_object : list Z -> CommandStoreRecord).
Context (sizeof_record : nat).
Context {E : Type} `{RawPreferences E}.

Definition nvsLoad (e : E) : option CommandStoreRecord * E :=
  let '(opened, e) := raw_begin "gathra-cmd" true e in
  if negb opened then (None, e)
  else
    let '(storedSize, e) := raw_getBytesLength "state" e in
    let '(bytes, e) :=
      if (storedSize =? sizeof_record)%nat then raw_getBytes "state" sizeof_record e
      else ([], e) in
    let e := raw_end e in
    (if (length bytes =? sizeof_record)%nat then Some (record_object bytes) else None, e).

Definition nvsSave (record : CommandStoreRecord) (e : E) : bool * E :=
  let '(opened, e) := raw_begin "gathra-cmd" false e in
  if negb opened then (false, e)
  else
    let '(written, e) := raw_putBytes "state" (record_bytes record) e in
    let e := raw_end e in
    ((written =? sizeof_record)%nat, e).

#[local] Instance nvs_backend : CommandBackend E := {
  backend_load := nvsLoad;
  backend_save := nvsSave;
}.

Context `{!RawPreferencesLaws E}.
Hypothesis bytes_length : forall r, length (record_bytes r) = sizeof_record.
Hypothesis sizeof_positive : sizeof_record <> 0%nat.
Hypothesis layout : forall r, store_typed r -> record_object (record_bytes r) = r.
Hypothesis object_typed : forall bytes, store_typed (record_object bytes).

(** The record in NVS: the blob, when it has the size of one. *)
Definition nvsRecord (e : E) : option CommandStoreRecord :=
  let bytes := default [] (nvs e !! "state") in
  if (length bytes =? sizeof_record)%nat then Some (record_object bytes) else None.

Lemma nvsRecord_nvs e e' : nvs e' = nvs e -> nvsRecord e' = nvsRecord e.
Proof. unfold nvsRecord. by intros ->. Qed.

Lemma nvsLoad_spec e o e' :
  nvsLoad e = (o, e') ->
  nvs e' = nvs e /\ forall r, o = Some r -> nvsRecord e = Some r /\ store_typed r.
Proof.
  intros E1. unfold nvsLoad in E1.
  destruct (raw_begin _ _ e) as [opened e1] eqn:Eb. apply raw_begin_law in Eb as [N1 _].
  destruct opened; cbn [negb] in E1; [|injection E1 as <- <-; split; [done|by intros r [=]]].
  destruct (raw_getBytesLength _ e1) as [n e2] eqn:El. apply raw_length_law in El as (-> & N2 & _).
  rewrite N1 in E1, N2. fold (nvsRecord e).
  destruct (Nat.eqb_spec (length (default [] (nvs e !! "state"%string))) sizeof_record) as [Hl|Hl].
  - destruct (raw_getBytes _ _ e2) as [bytes e3] eqn:Eg.
    apply raw_get_law in Eg as (N3 & _ & Hb). rewrite N2 in Hb. specialize (Hb Hl). subst bytes.
    injection E1 as <- <-. rewrite (proj1 (raw_end_law e3)). split; [congruence|].
    unfold nvsRecord. rewrite Hl, Nat.eqb_refl. intros r [= <-]. by split.
  - injection E1 as <- <-. rewrite (proj1 (raw_end_law e2)). split; [congruence|].
    clear -sizeof_positive. by destruct sizeof_record.
Qed.

Lemma nvsSave_spec r e ok e' :
  nvsSave r e = (ok, e') ->
  nvs e' = (if ok then <["state"%string := record_bytes r]> (nvs e) else nvs e).
Proof.
  intros E1. unfold nvsSave in E1.
  destruct (raw_begin _ _ e) as [opened e1] eqn:Eb. apply raw_begin_law in Eb as [N1 _].
  destruct opened; cbn [negb] in E1; [|by injection E1 as <- <-].
  destruct (raw_putBytes _ _ e1) as [n e2] eqn:Ep. apply raw_put_law in Ep as [_ N2].
  injection E1 as <- <-. rewrite (proj1 (raw_end_law e2)), N2, N1, bytes_length.
  destruct (Nat.eqb_spec n sizeof_record) as [->|Hn]; [by rewrite decide_True|].
  by rewrite decide_False.
Qed.

(** What the command store relies on. *)
#[local] Instance nvs_backend_laws : CommandBackendLaws E.
Proof.
  refine {| persisted := nvsRecord |}; cbn.
  - intros e o e' [N _]%nvsLoad_spec. by apply nvsRecord_nvs.
  - intros e r e' [_ R]%nvsLoad_spec. by apply R.
  - intros e r e' [_ R]%nvsLoad_spec. by apply R.
  - intros e r e' T N%nvsSave_spec. unfold nvsRecord. rewrite N, lookup_insert_eq. cbn.
    by rewrite bytes_length, Nat.eqb_refl, layout.
  - intros e r e' N%nvsSave_spec. by apply nvsRecord_nvs.
Defined.

End Backend.
