(* ===== verification/Base64.v ===== *)
(** * Base64 (lib/backend/base64)

    Encoding and strict decoding, and that the decoder accepts exactly the
    canonical encodings. *)

From Stdlib Require Import ZArith Lia.
From S2P Require Import Prelude BuildConfig CString.
Open Scope Z_scope.

Definition kAlphabet : list Z :=
  chars "ABCDEFGHIJKLMNOPQRSTUVWXYZabcdefghijklmnopqrstuvwxyz0123456789+/".

Definition decodeValue (c : Z) : Z :=
  if (65 <=? c) && (c <=? 90) then c - 65
  else if (97 <=? c) && (c <=? 122) then c - 97 + 26
  else if (48 <=? c) && (c <=? 57) then c - 48 + 52
  else if c =? 43 then 62
  else if c =? 47 then 63
  else -1.

Definition alphabetAt (i : Z) : Z := default 0 (kAlphabet !! Z.to_nat i).

(** The characters of one group: the byte at [index] and the two behind it,
    where there are such. *)
Definition encodeGroup (a : Z) (b c : option Z) : list Z :=
  let value := Z.lor (Z.lor (Z.shiftl a 16) (Z.shiftl (default 0 b) 8)) (default 0 c) in
  [alphabetAt (Z.land (Z.shiftr value 18) 63); alphabetAt (Z.land (Z.shiftr value 12) 63);
   if b then alphabetAt (Z.land (Z.shiftr value 6) 63) else 61;
   if c then alphabetAt (Z.land value 63) else 61].

(** The loop over the bytes up to [length]. *)
Fixpoint encodeLoop (input : list Z) : list Z :=
  match input with
  | [] => []
  | [a] => encodeGroup a None None
  | [a; b] => encodeGroup a (Some b) None
  | a :: b :: c :: rest => encodeGroup a (Some b) (Some c) ++ encodeLoop rest
  end.

Definition base64Encode (input : ptr (list Z)) (length : nat) : list Z :=
  match input with
  | None => []
  | Some input => encodeLoop (take length input)
  end.

(** The bytes of one group of characters; [None]: refused. *)
Definition decodeGroup (final : bool) (a b c d : Z) : option (list Z) :=
  let a := decodeValue a in
  let b := decodeValue b in
  let c := if c =? 61 then -2 else decodeValue c in
  let d := if d =? 61 then -2 else decodeValue d in
  if (a <? 0) || (b <? 0) || (c =? -1) || (d =? -1) ||
     (negb final && ((c =? -2) || (d =? -2))) || (c =? -2) && negb (d =? -2)
  then None
  else
    let value := Z.lor (Z.lor (Z.lor (Z.shiftl a 18) (Z.shiftl b 12))
                          (Z.shiftl (if c <? 0 then 0 else c) 6)) (if d <? 0 then 0 else d) in
    Some ([wrap 8 (Z.shiftr value 16)] ++
          (if negb (c =? -2) then [wrap 8 (Z.shiftr value 8)] else []) ++
          (if negb (d =? -2) then [wrap 8 value] else [])).

Fixpoint decodeLoop (input : list Z) : option (list Z) :=
  match input with
  | a :: b :: c :: d :: rest =>
      match decodeGroup (match rest with [] => true | _ => false end) a b c d with
      | None => None
      | Some bytes =>
          match decodeLoop rest with
          | None => None
          | Some more => Some (bytes ++ more)
          end
      end
  | _ => Some []
  end.

(** The answer and the vector it leaves. *)
Definition base64Decode (input : ptr (list Z)) : bool * list Z :=
  match input with
  | None => (false, [])
  | Some input =>
      let length := strlen input in
      if (length =? 0)%nat || negb (length mod 4 =? 0)%nat then (false, [])
      else
        match decodeLoop (take length input) with
        | None => (false, [])
        | Some output =>
            (bool_decide (base64Encode (Some output) (List.length output) = take length input),
             output)
        end
  end.

(** ** Values and letters *)

Lemma alphabet_round i : 0 <= i < 64 -> decodeValue (alphabetAt i) = i /\ alphabetAt i <> 61 /\
  alphabetAt i <> 0.
Proof.
  intros Hi.
  assert (forallb (fun n => (decodeValue (alphabetAt (Z.of_nat n)) =? Z.of_nat n) &&
    negb (alphabetAt (Z.of_nat n) =? 61) && negb (alphabetAt (Z.of_nat n) =? 0)) (List.seq 0 64)
    = true) as H by (vm_compute; reflexivity).
  rewrite forallb_forall in H. specialize (H (Z.to_nat i)).
  rewrite Z2Nat.id in H by lia. rewrite in_seq in H. lia.
Qed.

Lemma six_bits v k : 0 <= k -> Z.land (Z.shiftr v k) 63 = (v / 2 ^ k) mod 64.
Proof. intros Hk. rewrite Z.shiftr_div_pow2 by lia. apply (Z.land_ones _ 6). lia. Qed.

Lemma group_value a b c :
  is_byte a -> is_byte b -> is_byte c ->
  Z.lor (Z.lor (Z.shiftl a 16) (Z.shiftl b 8)) c = a * 65536 + b * 256 + c.
Proof.
  intros Ha Hb Hc. unfold is_byte in *.
  assert (forall x y k, 0 <= k -> 0 <= y < 2 ^ k -> Z.lor (Z.shiftl x k) y = x * 2 ^ k + y) as Hl.
  { intros x y k Hk Hy. by rewrite shiftl_lor_add. }
  replace (Z.shiftl a 16) with (Z.shiftl (Z.shiftl a 8) 8) by (by rewrite Z.shiftl_shiftl).
  rewrite <- Z.shiftl_lor, !Hl by lia. lia.
Qed.

(** Four six-bit numbers side by side. *)
Lemma sextets_value i j k l :
  0 <= i < 64 -> 0 <= j < 64 -> 0 <= k < 64 -> 0 <= l < 64 ->
  Z.lor (Z.lor (Z.lor (Z.shiftl i 18) (Z.shiftl j 12)) (Z.shiftl k 6)) l =
    i * 262144 + j * 4096 + k * 64 + l.
Proof.
  intros Hi Hj Hk Hl.
  replace (Z.shiftl i 18) with (Z.shiftl (Z.shiftl (Z.shiftl i 6) 6) 6)
    by (by rewrite !Z.shiftl_shiftl).
  replace (Z.shiftl j 12) with (Z.shiftl (Z.shiftl j 6) 6) by (by rewrite Z.shiftl_shiftl).
  rewrite <- !Z.shiftl_lor, !shiftl_lor_add by (cbn; lia). lia.
Qed.

(** The sextets of three bytes give the bytes back. *)
Lemma sextets_split v :
  0 <= v < 16777216 ->
  (v / 2 ^ 18) mod 64 * 262144 + (v / 2 ^ 12) mod 64 * 4096 + (v / 2 ^ 6) mod 64 * 64 +
    v mod 64 = v.
Proof.
  intros Hv. change (2 ^ 18) with 262144. change (2 ^ 12) with 4096. change (2 ^ 6) with 64.
  Z.div_mod_to_equations. lia.
Qed.

Lemma value_bytes a b c :
  is_byte a -> is_byte b -> is_byte c ->
  let v := a * 65536 + b * 256 + c in
  wrap 8 (Z.shiftr v 16) = a /\ wrap 8 (Z.shiftr v 8) = b /\ wrap 8 v = c.
Proof.
  intros Ha Hb Hc v. unfold is_u, wrap in *. change (2 ^ 8) with 256 in *.
  rewrite !Z.shiftr_div_pow2 by lia. change (2 ^ 16) with 65536. change (2 ^ 8) with 256.
  subst v. split_and!; Z.div_mod_to_equations; lia.
Qed.

Definition letter (v k : Z) : Z := alphabetAt (Z.land (Z.shiftr v k) 63).

Lemma letter_value v k : 0 <= k ->
  decodeValue (letter v k) = (v / 2 ^ k) mod 64 /\ letter v k <> 61 /\ letter v k <> 0.
Proof.
  intros Hk. unfold letter. rewrite six_bits by done.
  apply alphabet_round, Z.mod_pos_bound. lia.
Qed.

Lemma mod64 x : 0 <= x mod 64 < 64.
Proof. apply Z.mod_pos_bound. lia. Qed.

#[local] Arguments Z.shiftl : simpl never.
#[local] Arguments Z.shiftr : simpl never.
#[local] Arguments Z.lor : simpl never.
#[local] Arguments wrap : simpl never.
#[local] Arguments letter : simpl never.

(** Computes with the padding character. *)
Ltac pad :=
  change (61 =? 61) with true; cbv iota; change (-2 =? -1) with false;
  change (-2 =? -2) with true; change (-2 <? 0) with true; cbn.

(** Decoding a group in which the characters of the missing bytes are [=]. *)
Lemma decodeGroup_letters final v (b c : bool) :
  (b = false -> c = false) -> (final = true \/ c = true) ->
  (b = false -> (v / 2 ^ 6) mod 64 = 0) -> (c = false -> v mod 64 = 0) -> 0 <= v < 16777216 ->
  decodeGroup final (letter v 18) (letter v 12) (if b then letter v 6 else 61)
    (if c then letter v 0 else 61) =
  Some ([wrap 8 (Z.shiftr v 16)] ++ (if b then [wrap 8 (Z.shiftr v 8)] else []) ++
        (if c then [wrap 8 v] else [])).
Proof.
  intros Hbc Hf H6 H0 Hv. unfold decodeGroup.
  destruct (letter_value v 18) as (-> & _); [done|]. destruct (letter_value v 12) as (-> & _); [done|].
  destruct (letter_value v 6) as (E6 & N6 & _); [done|].
  destruct (letter_value v 0) as (E0 & N0 & _); [done|].
  rewrite Z.pow_0_r, Z.div_1_r in E0.
  pose proof (mod64 (v / 2 ^ 18)). pose proof (mod64 (v / 2 ^ 12)).
  pose proof (mod64 (v / 2 ^ 6)). pose proof (mod64 v). pose proof (sextets_split v Hv) as Hs.
  set (i := (v / 2 ^ 18) mod 64) in *. set (j := (v / 2 ^ 12) mod 64) in *.
  set (k := (v / 2 ^ 6) mod 64) in *. set (l := v mod 64) in *.
  assert (Z.lor (Z.lor (Z.lor (Z.shiftl i 18) (Z.shiftl j 12)) (Z.shiftl k 6)) l = v) as Ev
    by (by rewrite sextets_value).
  assert (forall x, 0 <= x -> (x <? 0) = false /\ (x =? -1) = false /\ (x =? -2) = false) as Hx
    by (intros x ?; lia).
  destruct (Hx i) as (-> & _); [lia|]. destruct (Hx j) as (-> & _); [lia|].
  destruct (Hx k) as (K1 & K2 & K3); [lia|]. destruct (Hx l) as (L1 & L2 & L3); [lia|].
  destruct b.
  - rewrite (proj2 (Z.eqb_neq _ _) N6), E6, K1, K2, K3. destruct c.
    + rewrite (proj2 (Z.eqb_neq _ _) N0), E0, L1, L2, L3, Ev. cbn. by rewrite andb_false_r.
    + rewrite H0 in Ev by done. destruct Hf as [->|]; [|done]. pad. by rewrite Ev.
  - rewrite Hbc in * by done. rewrite H0, H6 in Ev by done.
    destruct Hf as [->|]; [|done]. pad. by rewrite Ev.
Qed.

(** A list is empty, one, two, or at least three bytes. *)
Lemma three_ind (P : list Z -> Prop) :
  P [] -> (forall a, P [a]) -> (forall a b, P [a; b]) ->
  (forall a b c l, P l -> P (a :: b :: c :: l)) -> forall l, P l.
Proof.
  intros H0 H1 H2 H3. fix IH 1. intros [|a [|b [|c l]]]; [exact H0|apply H1|apply H2|].
  apply H3, IH.
Qed.

Lemma encodeGroup_letters a b c :
  is_byte a -> is_byte (default 0 b) -> is_byte (default 0 c) ->
  let v := a * 65536 + default 0 b * 256 + default 0 c in
  encodeGroup a b c = [letter v 18; letter v 12; if b then letter v 6 else 61;
                       if c then letter v 0 else 61].
Proof.
  intros Ha Hb Hc v. unfold encodeGroup. rewrite group_value by done. fold v.
  unfold letter. by rewrite Z.shiftr_0_r.
Qed.

Lemma decode_encode_loop bytes :
  bytes_ok bytes -> decodeLoop (encodeLoop bytes) = Some bytes /\
  Forall (fun c => c <> 0) (encodeLoop bytes) /\ (length (encodeLoop bytes) mod 4 = 0)%nat.
Proof.
  induction bytes as [|a|a b|a b c bytes IH] using three_ind; intros Hb; [done|..];
    repeat (apply Forall_cons in Hb as [? Hb]); cbn [encodeLoop].
  1-2: assert (is_byte 0) by (vm_compute; split; congruence);
    rewrite encodeGroup_letters by done; cbn [default from_option id decodeLoop];
    set (v := _ + _ + _);
    assert (0 <= v < 16777216) by (unfold is_u in *; lia).
  - pose proof (value_bytes a 0 0 ltac:(done) ltac:(done) ltac:(done)) as (E1 & _). fold v in E1.
    rewrite (decodeGroup_letters true v false false); [|done|by left|..].
    + rewrite E1. split_and!; [done| |done].
      repeat apply Forall_cons_2; try done; by apply letter_value.
    + intros _. subst v. change (2 ^ 6) with 64. Z.div_mod_to_equations. lia.
    + intros _. subst v. Z.div_mod_to_equations. lia.
    + done.
  - pose proof (value_bytes a b 0 ltac:(done) ltac:(done) ltac:(done)) as (E1 & E2 & _).
    fold v in E1, E2.
    rewrite (decodeGroup_letters true v true false); [|done|by left|done| |done].
    + rewrite E1, E2. split_and!; [done| |done].
      repeat apply Forall_cons_2; try done; by apply letter_value.
    + intros _. subst v. Z.div_mod_to_equations. lia.
  - destruct (IH Hb) as (E & Hn & Hm). rewrite encodeGroup_letters by done.
    cbn [default from_option id app decodeLoop]. set (v := _ + _ + _).
    assert (0 <= v < 16777216) by (unfold is_u in *; lia).
    pose proof (value_bytes a b c ltac:(done) ltac:(done) ltac:(done)) as (E1 & E2 & E3).
    fold v in E1, E2, E3.
    rewrite (decodeGroup_letters _ v true true) by (done || by right).
    rewrite E1, E2, E3, E. split_and!; [done| |].
    + repeat apply Forall_cons_2; try done; by apply letter_value.
    + cbn [length]. replace (S (S (S (S (length (encodeLoop bytes))))))
        with (length (encodeLoop bytes) + 1 * 4)%nat by lia. by rewrite Nat.Div0.mod_add.
Qed.

Lemma decodeLoop_bytes s out : decodeLoop s = Some out -> bytes_ok out.
Proof.
  revert s out. fix IH 1. intros [|a [|b [|c [|d rest]]]] out; cbn [decodeLoop];
    try (intros [= <-]; constructor).
  destruct (decodeGroup _ a b c d) as [bytes|] eqn:E; [|done].
  destruct (decodeLoop rest) as [more|] eqn:Em; [|done]. intros [= <-].
  apply Forall_app. split; [|by apply (IH rest)]. clear IH Em.
  unfold decodeGroup in E. destruct (_ || _) in E; [done|]. injection E as <-.
  repeat (apply Forall_cons_2 || apply Forall_app_2 || destruct (negb _));
    try apply Forall_nil_2; apply wrap_range; lia.
Qed.

(** C32: the decoder accepts exactly the canonical Base64 texts: it answers true
    with [out] when the input is the encoding of the non-empty bytes [out], and
    only then; what is encoded is read back. *)
Theorem base64_exact s out :
  base64Decode (Some s) = (true, out) <->
  out <> [] /\ bytes_ok out /\ take (strlen s) s = base64Encode (Some out) (length out).
Proof.
  unfold base64Decode, base64Encode. rewrite firstn_all.
  assert (length (take (strlen s) s) = strlen s) as El.
  { rewrite length_take. unfold strlen. pose proof (strnlen_le_length s (length s)). lia. }
  split.
  - destruct (_ || _) eqn:G; [done|]. destruct (decodeLoop _) as [o|] eqn:Ed; [|done].
    intros [= Eb <-]. apply bool_decide_eq_true in Eb. rewrite firstn_all in Eb.
    split_and!; [|by eapply decodeLoop_bytes|done].
    intros ->. rewrite <- Eb in El. cbn in El. by rewrite <- El in G.
  - intros (Hn & Hb & E). destruct (decode_encode_loop out Hb) as (Ed & _ & Hm).
    rewrite E, Ed. rewrite <- El, E, Hm.
    destruct (Nat.eqb_spec (length (encodeLoop out)) 0) as [H0|H0].
    + apply length_zero_iff_nil in H0. rewrite H0 in Ed. cbn in Ed. congruence.
    + cbn. by rewrite firstn_all, bool_decide_true.
Qed.
