(* ===== verification/UtcTime.v ===== *)
(** * Times of day as text

    [gmtime_r], the [snprintf] formats the firmware prints times with, and [formatUtc],
    which lib/backend/backend_contract, lib/heartbeat/heartbeat_contract and
    lib/dashboard each define.  [time_t] is that of the device: 32 bits, signed. *)

From Stdlib Require Import ZArith Lia.
From S2P Require Import Prelude CString.
Open Scope Z_scope.

(** ** Decimal numbers *)

(** Twenty digits are enough for any 64-bit number. *)
Fixpoint decimalLoop (fuel : nat) (v : Z) (digits : list Z) : list Z :=
  match fuel with
  | O => digits
  | S fuel =>
      let digits := (48 + v mod 10) :: digits in
      if v / 10 =? 0 then digits else decimalLoop fuel (v / 10) digits
  end.

(** [%d] and the like, of a number that is not negative. *)
Definition decimal (v : Z) : list Z := decimalLoop 20 v [].

(** [%0wd]. *)
Definition decimal0 (width : nat) (v : Z) : list Z :=
  replicate (width - length (decimal v)) 48 ++ decimal v.

(** What [snprintf(output, capacity, ...)] leaves in a zeroed buffer, and the
    length it answers. *)
Definition snprintf (text : list Z) (capacity : nat) : nat * list Z :=
  (length text,
   take (capacity - 1) text ++ replicate (capacity - Nat.min (length text) (capacity - 1)) 0).

(** ** gmtime_r *)

Record tm := mkTm {
  tm_year : Z; tm_mon : Z; tm_mday : Z; tm_hour : Z; tm_min : Z; tm_sec : Z;
}.

(** The civil date of a day counted from 1970-01-01: year, month 1 to 12, day 1
    to 31.  Years are counted from March inside an era of 400 years. *)
Definition yoe_of (doe : Z) : Z := (doe - doe / 1460 + doe / 36524 - doe / 146096) / 365.
Definition year_start (yoe : Z) : Z := 365 * yoe + yoe / 4 - yoe / 100.

Definition month_day (doy : Z) : Z * Z :=
  let mp := (5 * doy + 2) / 153 in
  (if mp <? 10 then mp + 3 else mp - 9, doy - (153 * mp + 2) / 5 + 1).

Definition civil_of_days (days : Z) : Z * Z * Z :=
  let z := days + 719468 in
  let era := z / 146097 in
  let doe := z mod 146097 in
  let yoe := yoe_of doe in
  let '(m, d) := month_day (doe - year_start yoe) in
  (yoe + era * 400 + (if m <=? 2 then 1 else 0), m, d).

Definition gmtime (seconds : Z) : tm :=
  let '(y, m, d) := civil_of_days (seconds / 86400) in
  let s := seconds mod 86400 in
  mkTm (y - 1900) (m - 1) d (s / 3600) (s / 60 mod 60) (s mod 60).

(** ** formatUtc *)

(** [time_t] of the toolchain platformio.ini pins (newlib of ESP-IDF 4 for the
    ESP32-C3): a [long] of 32 bits. *)
Definition kTimeBits : Z := 32.

(** [static_cast<time_t>(seconds)]. *)
Definition to_time_t (seconds : Z) : Z := to_signed kTimeBits seconds.

Definition utcText (unixMs : Z) : list Z :=
  let utc := gmtime (to_time_t (Z.quot unixMs 1000)) in
  decimal0 4 (tm_year utc + 1900) ++ chars "-" ++ decimal0 2 (tm_mon utc + 1) ++ chars "-" ++
  decimal0 2 (tm_mday utc) ++ chars "T" ++ decimal0 2 (tm_hour utc) ++ chars ":" ++
  decimal0 2 (tm_min utc) ++ chars ":" ++ decimal0 2 (tm_sec utc) ++ chars "." ++
  decimal0 3 (Z.rem unixMs 1000) ++ chars "Z".

(** The answer and the buffer it leaves; [output] is zeroed and not null. *)
Definition formatUtc (unixMs : Z) (output : list Z) (capacity : nat) : bool * list Z :=
  if (unixMs <? 0) || (capacity <? 25)%nat then (false, output)
  else
    let '(written, output) := snprintf (utcText unixMs) capacity in
    ((0 <? written)%nat && (written <? capacity)%nat, output).

(** ** The calendar *)

(** The rules of the Gregorian calendar. *)
Definition leap (y : Z) : bool :=
  (y mod 4 =? 0) && (negb (y mod 100 =? 0) || (y mod 400 =? 0)).

Definition days_in_month (y m : Z) : Z :=
  if m =? 2 then if leap y then 29 else 28
  else if (m =? 4) || (m =? 6) || (m =? 9) || (m =? 11) then 30 else 31.

Definition next_day (d : Z * Z * Z) : Z * Z * Z :=
  let '(y, m, d) := d in
  if d <? days_in_month y m then (y, m, d + 1)
  else if m <? 12 then (y, m + 1, 1) else (y + 1, 1, 1).

Lemma yoe_spec doe :
  0 <= doe < 146096 ->
  0 <= yoe_of doe <= 399 /\ year_start (yoe_of doe) <= doe < year_start (yoe_of doe + 1).
Proof. intros H. unfold yoe_of, year_start. Z.div_mod_to_equations. lia. Qed.

Lemma year_start_grows y y' : 0 <= y < y' -> year_start y < year_start y'.
Proof. intros H. unfold year_start. Z.div_mod_to_equations. lia. Qed.

Lemma yoe_unique doe y :
  0 <= y <= 399 -> 0 <= doe < 146096 -> year_start y <= doe < year_start (y + 1) ->
  yoe_of doe = y.
Proof.
  intros Hy Hd H. destruct (yoe_spec doe Hd) as [Hr Hs]. set (x := yoe_of doe) in *.
  destruct (decide (x < y)).
  - assert (year_start (x + 1) <= year_start y); [|lia].
    destruct (decide (x + 1 = y)) as [->|]; [lia|].
    pose proof (year_start_grows (x + 1) y). lia.
  - destruct (decide (y < x)); [|lia].
    assert (year_start (y + 1) <= year_start x); [|lia].
    destruct (decide (y + 1 = x)) as [->|]; [lia|].
    pose proof (year_start_grows (y + 1) x). lia.
Qed.

(** The last day of an era. *)
Lemma last_of_era : yoe_of 146096 = 399 /\ year_start 399 = 145731.
Proof. split; reflexivity. Qed.

(** A March-based year is a day longer when the civil year its February lies in
    is a leap year. *)
Lemma year_length y era :
  0 <= y <= 399 ->
  (if y =? 399 then 146097 else year_start (y + 1)) - year_start y =
    365 + (if leap (y + era * 400 + 1) then 1 else 0).
Proof.
  intros Hy. unfold leap, year_start.
  replace ((y + era * 400 + 1) mod 4) with ((y + 1) mod 4)
    by (replace (y + era * 400 + 1) with (y + 1 + era * 100 * 4) by lia; by rewrite Z.mod_add by lia).
  replace ((y + era * 400 + 1) mod 100) with ((y + 1) mod 100)
    by (replace (y + era * 400 + 1) with (y + 1 + era * 4 * 100) by lia; by rewrite Z.mod_add by lia).
  replace ((y + era * 400 + 1) mod 400) with ((y + 1) mod 400)
    by (replace (y + era * 400 + 1) with (y + 1 + era * 400) by lia; by rewrite Z.mod_add by lia).
  destruct (Z.eqb_spec y 399) as [->|]; [reflexivity|].
  destruct (Z.eqb_spec ((y + 1) mod 4) 0), (Z.eqb_spec ((y + 1) mod 100) 0),
    (Z.eqb_spec ((y + 1) mod 400) 0); cbn [negb andb orb];
    Z.div_mod_to_equations; lia.
Qed.

(** The day after, inside a year: by evaluation of the 365 cases. *)
Definition step_ok (doy : Z) : bool :=
  let '(m, d) := month_day doy in
  let '(m', d') := month_day (doy + 1) in
  (1 <=? m) && (m <=? 12) &&
  if doy <? 337 then
    negb (m =? 2) &&
    (if d <? days_in_month 1 m then (m' =? m) && (d' =? d + 1)
     else (d' =? 1) && (if m <? 12 then m' =? m + 1 else m' =? 1))
  else (m =? 2) && (d =? doy - 336) && (m' =? 2) && (d' =? d + 1).

Lemma steps_ok doy : 0 <= doy < 365 -> step_ok doy = true.
Proof.
  intros H. assert (forallb (fun n => step_ok (Z.of_nat n)) (List.seq 0 365) = true) as Hall
    by (vm_compute; reflexivity).
  rewrite forallb_forall in Hall. rewrite <- (Z2Nat.id doy) by lia. apply Hall, in_seq. lia.
Qed.

Definition year_days (y : Z) : Z :=
  (if y =? 399 then 146097 else year_start (y + 1)) - year_start y.

Lemma civil_parts era y doy :
  0 <= y <= 399 -> 0 <= doy < year_days y ->
  civil_of_days (era * 146097 + year_start y + doy - 719468) =
    let '(m, d) := month_day doy in (y + era * 400 + (if m <=? 2 then 1 else 0), m, d).
Proof.
  intros Hy Hd. assert (0 <= year_start y /\ year_start y + doy < 146097) as [H0 H1].
  { unfold year_days, year_start in *. destruct (Z.eqb_spec y 399); Z.div_mod_to_equations; lia. }
  unfold civil_of_days. cbv zeta.
  replace (era * 146097 + year_start y + doy - 719468 + 719468)
    with (year_start y + doy + era * 146097) by lia.
  rewrite Z.mod_add, Z.div_add, Z.mod_small, Z.div_small by lia.
  assert (yoe_of (year_start y + doy) = y) as ->.
  { unfold year_days in Hd. destruct (Z.eqb_spec y 399) as [->|].
    - destruct (decide (year_start 399 + doy = 146096)) as [->|]; [reflexivity|].
      apply yoe_unique; [lia|lia|]. change (year_start (399 + 1)) with 146096. lia.
    - destruct (decide (year_start y + doy < 146096)); [apply yoe_unique; lia|].
      exfalso. pose proof (year_start_grows (y + 1) 400).
      change (year_start 400) with 146096 in *. lia. }
  replace (year_start y + doy - year_start y) with doy by lia. by rewrite Z.add_0_l.
Qed.

Lemma parts_exist days :
  exists era y doy, days = era * 146097 + year_start y + doy - 719468 /\
    0 <= y <= 399 /\ 0 <= doy < year_days y.
Proof.
  set (doe := (days + 719468) mod 146097). set (era := (days + 719468) / 146097).
  assert (0 <= doe < 146097) as Hd by (apply Z.mod_pos_bound; lia).
  assert (days = era * 146097 + doe - 719468) as E
    by (pose proof (Z.div_mod (days + 719468) 146097 ltac:(lia)); unfold era, doe; lia).
  clearbody era doe. subst days.
  exists era, (yoe_of doe), (doe - year_start (yoe_of doe)). split; [lia|].
  destruct (decide (doe = 146096)) as [->|].
  - destruct last_of_era as [-> ->]. unfold year_days. split; [lia|].
    change (399 =? 399) with true. cbv iota. change (year_start 399) with 145731. lia.
  - destruct (yoe_spec doe ltac:(lia)) as [Hy Hs]. split; [done|]. unfold year_days.
    destruct (Z.eqb_spec (yoe_of doe) 399); lia.
Qed.

(** Inside a March-based year. *)
Lemma next_in_year era y doy :
  0 <= y <= 399 -> 0 <= doy -> doy + 1 < year_days y ->
  (let '(m, d) := month_day (doy + 1) in (y + era * 400 + (if m <=? 2 then 1 else 0), m, d)) =
  next_day (let '(m, d) := month_day doy in (y + era * 400 + (if m <=? 2 then 1 else 0), m, d)).
Proof.
  intros Hy H0 H1. pose proof (year_length y era Hy) as Hl. fold (year_days y) in Hl.
  assert (0 <= doy < 365) as Hd by (destruct (leap _); lia).
  pose proof (steps_ok doy Hd) as Hs. unfold step_ok in Hs.
  destruct (month_day doy) as [m d], (month_day (doy + 1)) as [m' d'].
  apply andb_true_iff in Hs as [Hm Hs]. unfold next_day.
  destruct (Z.ltb_spec doy 337).
  - unfold days_in_month in *. destruct (Z.eqb_spec m 2); [done|]. cbn [negb andb] in Hs.
    destruct (d <? _).
    + assert (m' = m /\ d' = d + 1) as [-> ->] by lia. done.
    + destruct (Z.ltb_spec m 12).
      * assert (m' = m + 1 /\ d' = 1) as [-> ->] by lia. f_equal. f_equal.
        destruct (Z.leb_spec m 2), (Z.leb_spec (m + 1) 2); lia.
      * assert (m = 12 /\ m' = 1 /\ d' = 1) as (-> & -> & ->) by lia.
        change (12 <=? 2) with false. change (1 <=? 2) with true. f_equal. f_equal. lia.
  - assert (m = 2 /\ d = doy - 336 /\ m' = 2 /\ d' = d + 1) as (-> & -> & -> & ->) by lia.
    unfold days_in_month. change (2 =? 2) with true. change (2 <=? 2) with true. cbv iota.
    destruct (leap (y + era * 400 + 1));
      (destruct (Z.ltb_spec (doy - 336) 29), (Z.ltb_spec (doy - 336) 28)); try lia; done.
Qed.

(** Across the end of February. *)
Lemma next_year era y doy :
  0 <= y <= 399 -> doy + 1 = year_days y ->
  (y + 1 + era * 400, 3, 1) =
  next_day (let '(m, d) := month_day doy in (y + era * 400 + (if m <=? 2 then 1 else 0), m, d)).
Proof.
  intros Hy H1. pose proof (year_length y era Hy) as Hl. fold (year_days y) in Hl.
  unfold next_day, days_in_month.
  destruct (leap (y + era * 400 + 1)) eqn:El.
  - replace doy with 365 by lia. change (month_day 365) with (2, 29). cbv beta iota.
    change (2 <=? 2) with true. change (2 =? 2) with true. cbv iota. rewrite El.
    change (29 <? 29) with false. change (2 <? 12) with true. f_equal. f_equal. lia.
  - replace doy with 364 by lia. change (month_day 364) with (2, 28). cbv beta iota.
    change (2 <=? 2) with true. change (2 =? 2) with true. cbv iota. rewrite El.
    change (28 <? 28) with false. change (2 <? 12) with true. f_equal. f_equal. lia.
Qed.

Ltac first_of_march :=
  change (month_day 0) with (3, 1); cbv beta iota; change (3 <=? 2) with false; cbv iota;
  f_equal; f_equal; lia.

(** The dates are those of the Gregorian calendar: day 0 is 1970-01-01 and every
    day is followed by the next one of the calendar. *)
Lemma civil_calendar :
  civil_of_days 0 = (1970, 1, 1) /\
  forall days, civil_of_days (days + 1) = next_day (civil_of_days days).
Proof.
  split; [reflexivity|]. intros days.
  destruct (parts_exist days) as (era & y & doy & -> & Hy & Hd).
  rewrite (civil_parts era y doy) by done.
  destruct (decide (doy + 1 < year_days y)) as [Hn|Hn].
  - rewrite <- next_in_year by (done || lia).
    rewrite <- civil_parts by lia. f_equal. lia.
  - rewrite <- next_year by lia. assert (doy + 1 = year_days y) as He by lia.
    unfold year_days in He. destruct (Z.eqb_spec y 399) as [->|].
    + replace (era * 146097 + year_start 399 + doy - 719468 + 1)
        with ((era + 1) * 146097 + year_start 0 + 0 - 719468)
        by (change (year_start 0) with 0; lia).
      rewrite civil_parts by (vm_compute; split; congruence). first_of_march.
    + replace (era * 146097 + year_start y + doy - 719468 + 1)
        with (era * 146097 + year_start (y + 1) + 0 - 719468) by lia.
      rewrite civil_parts; [first_of_march|lia|].
      pose proof (year_length (y + 1) 0). fold (year_days (y + 1)) in *.
      destruct (leap _); lia.
Qed.

(** The dates on the calendar, counted from the first one a [time_t] can name:
    -2^31 s is in day -24856, 1901-12-13. *)
Definition kFirstDay : Z := -24856.

Definition date_on (day : Z) : Z * Z * Z :=
  Nat.iter (Z.to_nat (day - kFirstDay)) next_day (1901, 12, 13).

(** The count passes 1970-01-01 on day 0. *)
Lemma date_on_epoch : date_on 0 = (1970, 1, 1).
Proof. vm_compute. reflexivity. Qed.

Lemma date_on_next day : kFirstDay <= day -> date_on (day + 1) = next_day (date_on day).
Proof.
  intros Hd. unfold date_on. replace (day + 1 - kFirstDay) with (Z.succ (day - kFirstDay)) by lia.
  rewrite Z2Nat.inj_succ by lia. reflexivity.
Qed.

Lemma civil_date_on day : kFirstDay <= day -> civil_of_days day = date_on day.
Proof.
  destruct civil_calendar as [_ HS]. revert day. apply Zlt_lower_bound_ind. intros day IH Hd.
  destruct (decide (day = kFirstDay)) as [->|Hne]; [reflexivity|].
  replace day with (day - 1 + 1) by lia. rewrite HS, date_on_next by lia. f_equal. apply IH. lia.
Qed.

Definition date_ok (d : Z * Z * Z) : Prop :=
  let '(y, m, d) := d in 1901 <= y /\ 1 <= m <= 12 /\ 1 <= d <= days_in_month y m.

Lemma days_in_month_28 y m : 28 <= days_in_month y m.
Proof. unfold days_in_month. repeat case_match; lia. Qed.

Lemma date_on_ok day : kFirstDay <= day -> date_ok (date_on day).
Proof.
  revert day. apply Zlt_lower_bound_ind. intros day IH Hd.
  destruct (decide (day = kFirstDay)) as [->|Hne]; [vm_compute; repeat split; congruence|].
  replace day with (day - 1 + 1) by lia. rewrite date_on_next by lia.
  specialize (IH (day - 1) ltac:(lia)).
  destruct (date_on (day - 1)) as [[y m] d]. unfold date_ok, next_day in *.
  destruct IH as (Hy & Hm & Hd'). pose proof (days_in_month_28 y (m + 1)).
  pose proof (days_in_month_28 (y + 1) 1).
  destruct (Z.ltb_spec d (days_in_month y m)); [lia|]. destruct (Z.ltb_spec m 12); lia.
Qed.

(** Four digits are enough for the years a [time_t] can name. *)
Lemma civil_year_bound day :
  kFirstDay <= day < 24856 -> (civil_of_days day).1.1 <= 2100.
Proof.
  intros H. unfold civil_of_days, month_day, kFirstDay in *.
  set (z := day + 719468). set (doe := z mod 146097). set (yoe := yoe_of doe).
  assert (z / 146097 <= 5) as He by (unfold z; Z.div_mod_to_equations; lia).
  assert (0 <= doe < 146097) as Hd by (unfold doe; apply Z.mod_pos_bound; lia).
  cbn [fst snd]. destruct (decide (z / 146097 <= 4)) as [E|E].
  - assert (yoe <= 399) as Hy.
    { destruct (decide (doe = 146096)) as [->|]; [unfold yoe; by rewrite (proj1 last_of_era)|].
      apply (yoe_spec doe). lia. }
    destruct (_ <=? 2); lia.
  - assert (doe <= 13839) by (unfold doe, z in *; Z.div_mod_to_equations; lia).
    assert (yoe <= 40) by (unfold yoe, yoe_of; Z.div_mod_to_equations; lia).
    destruct (_ <=? 2); lia.
Qed.

(** [w] decimal digits. *)
Fixpoint digits (w : nat) (v : Z) : list Z :=
  match w with
  | O => []
  | S w => digits w (v / 10) ++ [48 + v mod 10]
  end.

Lemma digits_S w v : digits (S w) v = digits w (v / 10) ++ [48 + v mod 10].
Proof. done. Qed.

Lemma digits_zero w : digits w 0 = replicate w 48.
Proof.
  induction w as [|w IH]; [done|]. cbn [digits].
  change (0 / 10) with 0. rewrite IH. change (48 + 0 mod 10) with 48.
  by rewrite <- replicate_cons_app.
Qed.

Lemma length_digits w v : length (digits w v) = w.
Proof.
  revert v. induction w as [|w IH]; intros v; [done|].
  cbn [digits]. rewrite length_app, IH. cbn. lia.
Qed.

Lemma decimalLoop_digits k fuel v ds :
  (k < fuel)%nat -> 0 <= v < 10 ^ Z.of_nat (S k) ->
  exists lead, decimalLoop fuel v ds = lead ++ ds /\
    replicate (S k - length lead) 48 ++ lead = digits (S k) v.
Proof.
  revert fuel v ds. induction k as [|k IH]; intros [|fuel] v ds Hf Hv; try lia;
    cbn [decimalLoop]; destruct (Z.eqb_spec (v / 10) 0) as [Ez|Ez].
  1, 3: eexists [_]; split; [reflexivity|]; rewrite digits_S, Ez, digits_zero; reflexivity.
  - change (10 ^ Z.of_nat 1) with 10 in Hv. Z.div_mod_to_equations. lia.
  - destruct (IH fuel (v / 10) ((48 + v mod 10) :: ds)) as (lead & E & D); [lia| |].
    + rewrite Nat2Z.inj_succ, Z.pow_succ_r in Hv by lia.
      split; [apply Z.div_pos; lia|]. apply Z.div_lt_upper_bound; lia.
    + exists (lead ++ [48 + v mod 10]). split; [by rewrite E, <- app_assoc|].
      rewrite digits_S, <- D, length_app, app_assoc. cbn [length]. do 3 f_equal. lia.
Qed.

Lemma decimal0_digits w v :
  (0 < w <= 20)%nat -> 0 <= v < 10 ^ Z.of_nat w -> decimal0 w v = digits w v.
Proof.
  intros Hw Hv. destruct w as [|k]; [lia|].
  destruct (decimalLoop_digits k 20 v []) as (lead & E & D); [lia|done|].
  unfold decimal0, decimal. rewrite E, app_nil_r. exact D.
Qed.

(** An instant of a day as ISO 8601 text. *)
Definition isoText (date : Z * Z * Z) (ms : Z) : list Z :=
  let '(y, m, d) := date in
  digits 4 y ++ chars "-" ++ digits 2 m ++ chars "-" ++ digits 2 d ++ chars "T" ++
  digits 2 (ms / 3600000) ++ chars ":" ++ digits 2 (ms / 60000 mod 60) ++ chars ":" ++
  digits 2 (ms / 1000 mod 60) ++ chars "." ++ digits 3 (ms mod 1000) ++ chars "Z".

(** What is left of an instant in a [time_t]: from 2^31 s on it goes round every 2^32 s. *)
Definition shownMs (unixMs : Z) : Z := to_time_t (unixMs / 1000) * 1000 + unixMs mod 1000.

Lemma shownMs_range unixMs : - 2 ^ 31 * 1000 <= shownMs unixMs < 2 ^ 31 * 1000.
Proof.
  unfold shownMs, to_time_t. pose proof (to_signed_range 32 (unixMs / 1000) ltac:(lia)) as Hr.
  unfold is_s in Hr. change kTimeBits with 32. change (32 - 1) with 31 in Hr.
  Z.div_mod_to_equations. lia.
Qed.

Lemma shownMs_small unixMs : 0 <= unixMs < 2 ^ 31 * 1000 -> shownMs unixMs = unixMs.
Proof.
  intros H. unfold shownMs, to_time_t, to_signed. change kTimeBits with 32.
  assert (0 <= unixMs / 1000 < 2 ^ 31) as Hs
    by (change (2 ^ 31) with 2147483648 in *; Z.div_mod_to_equations; lia).
  rewrite wrap_id by (unfold is_u; change (2 ^ 32) with (2 * 2 ^ 31); lia).
  destruct (Z.ltb_spec (unixMs / 1000) (2 ^ (32 - 1))) as [|Hg];
    [|change (32 - 1) with 31 in Hg; lia].
  Z.div_mod_to_equations. lia.
Qed.

Lemma shownMs_wraps unixMs : exists k, shownMs unixMs = unixMs - k * 2 ^ 32 * 1000.
Proof.
  unfold shownMs, to_time_t, to_signed, wrap. change kTimeBits with 32.
  pose proof (Z.div_mod (unixMs / 1000) (2 ^ 32) ltac:(lia)) as E1.
  pose proof (Z.div_mod unixMs 1000 ltac:(lia)) as E2. destruct (_ <? _).
  - exists (unixMs / 1000 / 2 ^ 32). lia.
  - exists (unixMs / 1000 / 2 ^ 32 + 1). lia.
Qed.

(** The parts of an instant in seconds are those of the instant in milliseconds. *)
Lemma instant_parts t r :
  0 <= r < 1000 ->
  let ms := (t * 1000 + r) mod 86400000 in
  t / 86400 = (t * 1000 + r) / 86400000 /\ t mod 86400 / 3600 = ms / 3600000 /\
  t mod 86400 / 60 mod 60 = ms / 60000 mod 60 /\ t mod 86400 mod 60 = ms / 1000 mod 60 /\
  r = ms mod 1000 /\ 0 <= ms < 86400000.
Proof. intros Hr ms. unfold ms. Z.div_mod_to_equations. lia. Qed.

Lemma utcText_iso unixMs :
  0 <= unixMs ->
  utcText unixMs = isoText (date_on (shownMs unixMs / 86400000)) (shownMs unixMs mod 86400000).
Proof.
  intros H. unfold utcText, gmtime, isoText. rewrite Z.quot_div_nonneg, Z.rem_mod_nonneg by lia.
  pose proof (shownMs_range unixMs) as Hr. unfold shownMs in *.
  set (t := to_time_t (unixMs / 1000)) in *. set (r := unixMs mod 1000) in *.
  assert (0 <= r < 1000) as Hm by (apply Z.mod_pos_bound; lia). clearbody t r.
  destruct (instant_parts t r Hm) as (Ed & Eh & Emi & Es & Er & Hms).
  assert (kFirstDay <= (t * 1000 + r) / 86400000 < 24856) as Hd
    by (unfold kFirstDay; change (2 ^ 31) with 2147483648 in Hr; Z.div_mod_to_equations; lia).
  rewrite Ed. pose proof (civil_year_bound _ Hd) as Hy. revert Hy.
  rewrite civil_date_on by lia.
  pose proof (date_on_ok ((t * 1000 + r) / 86400000) ltac:(lia)) as Ho.
  destruct (date_on _) as [[y m] d]. cbn [fst]. intros Hy. destruct Ho as (Hy' & Hm' & Hd').
  assert (d <= 31) by (unfold days_in_month in Hd'; repeat case_match; lia).
  cbn [tm_year tm_mon tm_mday tm_hour tm_min tm_sec]. rewrite Eh, Emi, Es.
  set (ms := (t * 1000 + r) mod 86400000) in *. clearbody ms. rewrite Er.
  clear Ed Eh Emi Es Er Hd Hr Hm.
  replace (y - 1900 + 1900) with y by lia. replace (m - 1 + 1) with m by lia.
  rewrite !decimal0_digits; try reflexivity; try lia;
    match goal with |- _ <= _ < 10 ^ Z.of_nat ?w =>
      let v := eval vm_compute in (10 ^ Z.of_nat w) in
      change (10 ^ Z.of_nat w) with v; Z.div_mod_to_equations; lia end.
Qed.

(** C33: times are printed exactly as far as the device's [time_t] of 32 bits goes: for
    every instant from 1970 on and every buffer of at least 25 characters the answer is
    true and the buffer holds the 24 characters of an ISO 8601 text, terminated, with
    the date the Gregorian calendar counts to: the text of the instant itself up to
    2038-01-19T03:14:07.999Z, and from 2^31 s on that of the instant as many times 2^32 s
    earlier as bring it into the range of a [time_t], so that the next millisecond is
    printed as one in 1901.  A time before 1970 or a shorter buffer is refused and
    nothing is written. *)
Theorem format_utc_exact unixMs output capacity :
  formatUtc unixMs output capacity =
    (if (0 <=? unixMs) && (25 <=? capacity)%nat
     then (true, isoText (date_on (shownMs unixMs / 86400000)) (shownMs unixMs mod 86400000) ++
                 zeros (capacity - 24))
     else (false, output)) /\
  length (isoText (date_on (shownMs unixMs / 86400000)) (shownMs unixMs mod 86400000)) = 24%nat /\
  (0 <= unixMs < 2 ^ 31 * 1000 -> shownMs unixMs = unixMs) /\
  (exists k, shownMs unixMs = unixMs - k * 2 ^ 32 * 1000) /\
  - 2 ^ 31 * 1000 <= shownMs unixMs < 2 ^ 31 * 1000.
Proof.
  assert (length (isoText (date_on (shownMs unixMs / 86400000)) (shownMs unixMs mod 86400000))
          = 24%nat) as El.
  { unfold isoText. destruct (date_on _) as [[y m] d].
    by rewrite !length_app, !length_digits. }
  split; [|split_and!; [done|apply shownMs_small|apply shownMs_wraps|apply shownMs_range..]].
  unfold formatUtc, snprintf.
  destruct (Z.ltb_spec unixMs 0), (Z.leb_spec 0 unixMs); try lia; [done|]. cbn [orb andb].
  destruct (Nat.ltb_spec capacity 25), (Nat.leb_spec 25 capacity); try lia; [done|].
  rewrite utcText_iso by lia. rewrite El. cbv iota beta. f_equal.
  - destruct (Nat.ltb_spec 24 capacity); [done|lia].
  - rewrite take_ge by lia. unfold zeros. f_equal. f_equal. lia.
Qed.

(** The last millisecond that is printed right, and the next one. *)
Lemma format_utc_exact_witness :
  formatUtc 2147483647999 (zeros 32) 32 =
    (true, chars "2038-01-19T03:14:07.999Z" ++ replicate 8 0) /\
  formatUtc 2147483648000 (zeros 32) 32 =
    (true, chars "1901-12-13T20:45:52.000Z" ++ replicate 8 0).
Proof.
  destruct (format_utc_exact 2147483647999 (zeros 32) 32) as (E1 & _ & Hs & _).
  destruct (format_utc_exact 2147483648000 (zeros 32) 32) as (E2 & _).
  rewrite E1, E2. split; [|vm_compute; reflexivity].
  rewrite Hs by (vm_compute; split; congruence). vm_compute. reflexivity.
Defined.
