(* ===== verification/StrTo.v ===== *)
(** * Numbers in text

    [strtoul] and [strtol] of <stdlib.h> in base 10, with the 32-bit [long] of the
    target, and the functions lib/dashboard/dashboard.cpp reads form values with.
    How [strtof] rounds and what it reports of tiny numbers is left to the C
    library: it is a parameter. *)

From Stdlib Require Import ZArith Lia String.
From stdpp Require Import list.
From S2P Require Import Prelude CString GatewayConfig UtcTime.
Open Scope Z_scope.

Definition isdigit (c : Z) : bool := (48 <=? c) && (c <=? 57).

(** The characters at the beginning of [s] that satisfy [f], and the rest. *)
Fixpoint span (f : Z -> bool) (s : list Z) : list Z * list Z :=
  match s with
  | c :: s' => if f c then let '(a, b) := span f s' in (c :: a, b) else ([], s)
  | [] => ([], [])
  end.

Definition digits_value (digits : list Z) : Z := foldl (fun v c => v * 10 + (c - 48)) 0 digits.

(** White space, sign and digits: whether the sign is a minus, the digits, and what
    follows them; none when there are no digits. *)
Definition number_text (s : list Z) : option (bool * list Z * list Z) :=
  let '(_, s) := span isspace s in
  let '(negative, s) :=
    match s with
    | 43 :: s' => (false, s')
    | 45 :: s' => (true, s')
    | _ => (false, s)
    end in
  let '(digits, rest) := span isdigit s in
  match digits with [] => None | _ => Some (negative, digits, rest) end.

(** The value, where it ends ([None]: nothing was converted), and whether [errno]
    is set to [ERANGE]. *)
Definition strtoul (s : list Z) : Z * option (list Z) * bool :=
  match number_text s with
  | None => (0, None, false)
  | Some (negative, digits, rest) =>
      let n := digits_value digits in
      if UINT32_MAX <? n then (UINT32_MAX, Some rest, true)
      else (if negative then wrap 32 (- n) else n, Some rest, false)
  end.

Definition strtol (s : list Z) : Z * option (list Z) * bool :=
  match number_text s with
  | None => (0, None, false)
  | Some (negative, digits, rest) =>
      let n := digits_value digits in
      if negative then
        if 2 ^ 31 <? n then (- 2 ^ 31, Some rest, true) else (- n, Some rest, false)
      else if 2 ^ 31 - 1 <? n then (2 ^ 31 - 1, Some rest, true) else (n, Some rest, false)
  end.

(** A conversion that used the whole text. *)
Definition whole (ending : option (list Z)) : bool :=
  match ending with
  | None => false
  | Some rest => default 0 (head rest) =? 0
  end.

(** The answer and [output], which keeps its value when the answer is no. *)
Definition parseUnsigned (value : list Z) (output : Z) : bool * Z :=
  match value with
  | [] => (false, output)
  | _ =>
      let '(parsed, ending, range) := strtoul value in
      if range || negb (whole ending) || (UINT32_MAX <? parsed) then (false, output)
      else (true, wrap 32 parsed)
  end.

Definition parseSigned (value : list Z) (output : Z) : bool * Z :=
  match value with
  | [] => (false, output)
  | _ =>
      let '(parsed, ending, range) := strtol value in
      if range || negb (whole ending) || (parsed <? - 2 ^ 31) || (2 ^ 31 - 1 <? parsed)
      then (false, output)
      else (true, parsed)
  end.

(** [strtof]: the value, where it ends, and whether [errno] was set. *)
Definition parseFloat (strtof : list Z -> single * option (list Z) * bool) (value : list Z)
    (output : single) : bool * single :=
  match value with
  | [] => (false, output)
  | _ =>
      let '(parsed, ending, range) := strtof value in
      if range || negb (whole ending) || negb (isfinite parsed) then (false, output)
      else (true, parsed)
  end.

(** [%d] and the like, of any number. *)
Definition decimalSigned (v : Z) : list Z := if v <? 0 then 45 :: decimal (- v) else decimal v.

(** ** What is accepted *)

Lemma span_spec f s : let '(a, b) := span f s in s = a ++ b /\ Forall (fun c => f c = true) a /\
  default false (f <$> head b) = false.
Proof.
  induction s as [|c s IH]; cbn [span]; [by split_and!|].
  destruct (f c) eqn:E; [|split_and!; [done|done|by cbn]].
  destruct (span f s) as [a b]. destruct IH as (-> & Ha & Hb). split_and!; [done|by constructor|done].
Qed.

Lemma span_app f a b :
  Forall (fun c => f c = true) a -> default false (f <$> head b) = false -> span f (a ++ b) = (a, b).
Proof.
  intros Ha Hb. induction Ha as [|c a Hc _ IH]; cbn [app span].
  - destruct b as [|c b]; [done|]. cbn in Hb. cbn [span]. by rewrite Hb.
  - by rewrite Hc, IH.
Qed.

(** White space, an optional sign, digits. *)
Definition number_grammar (s : list Z) (negative : bool) (digits rest : list Z) : Prop :=
  exists blanks sign, s = blanks ++ sign ++ digits ++ rest /\
    Forall (fun c => isspace c = true) blanks /\
    (if negative then sign = [45] else sign = [] \/ sign = [43]) /\
    digits <> [] /\ Forall (fun c => isdigit c = true) digits /\
    default false (isdigit <$> head rest) = false.

Lemma digit_no_space c : isdigit c = true -> isspace c = false /\ c <> 43 /\ c <> 45.
Proof. unfold isdigit, isspace. lia. Qed.

Lemma number_text_spec s negative digits rest :
  number_text s = Some (negative, digits, rest) <-> number_grammar s negative digits rest.
Proof.
  unfold number_text, number_grammar. split.
  - pose proof (span_spec isspace s) as Hs. destruct (span isspace s) as [blanks s1].
    destruct Hs as (-> & Hb & _).
    set (p := match s1 with 43 :: s' => (false, s') | 45 :: s' => (true, s') | _ => (false, s1) end).
    assert (exists sign, s1 = sign ++ p.2 /\
      (if p.1 then sign = [45] else sign = [] \/ sign = [43])) as (sign & Es & Hsign).
    { unfold p. destruct s1 as [|c s1]; [by exists []; split; [|left]|].
      destruct (Z.eq_dec c 43) as [->|]; [by exists [43]; split; [|right]|].
      destruct (Z.eq_dec c 45) as [->|]; [by exists [45]|].
      exists []. assert (forall A (x y z : A), match c with 43 => x | 45 => y | _ => z end = z) as E.
      { intros. destruct c as [|c|c]; try done.
        do 6 (destruct c as [c|c|]; try done). }
      rewrite (E (bool * list Z)%type). by split; [|left]. }
    destruct p as [negative' s2]. cbn [fst snd] in *.
    pose proof (span_spec isdigit s2) as Hd. destruct (span isdigit s2) as [digits' rest'].
    destruct Hd as (-> & Hd & Hr). destruct digits' as [|d ds] eqn:Ed; [done|].
    intros [= <- <- <-]. exists blanks, sign. split_and!; [by rewrite Es|done..].
  - intros (blanks & sign & -> & Hb & Hs & Hn & Hd & Hr).
    destruct digits as [|d ds]; [done|]. apply Forall_cons in Hd as [Hd1 Hd2].
    pose proof (digit_no_space d Hd1) as (Hds & Hd43 & Hd45).
    rewrite (span_app isspace blanks).
    + assert (forall A (x y z : A), match d with 43 => x | 45 => y | _ => z end = z) as E.
      { intros. destruct d as [|d|d]; try done. do 6 (destruct d as [d|d|]; try done). }
      assert (span isdigit ((d :: ds) ++ rest) = (d :: ds, rest)) as Es
        by (apply span_app; [by constructor|done]).
      destruct negative; [subst sign|destruct Hs as [-> | ->]]; cbn [app] in *; rewrite ?Es; try done.
      rewrite (E (bool * list Z)%type). by rewrite Es.
    + done.
    + destruct negative; [subst sign; done|destruct Hs as [-> | ->]; [|done]]. cbn. done.
Qed.

(** The form value [s] stands for [n]; a number below zero is taken modulo 2^32. *)
Lemma parseUnsigned_spec s output v :
  parseUnsigned s output = (true, v) <->
  exists negative digits rest, number_grammar s negative digits rest /\
    default 0 (head rest) = 0 /\ digits_value digits <= UINT32_MAX /\
    v = wrap 32 (if negative then - digits_value digits else digits_value digits).
Proof.
  assert (forall negative digits rest, number_grammar s negative digits rest -> s <> []) as Hne.
  { intros negative digits rest (b & g & -> & _ & _ & Hd & _).
    destruct b, g, digits; done. }
  unfold parseUnsigned, strtoul. split.
  - destruct s as [|c s]; [done|]. intros E.
    destruct (number_text (c :: s)) as [[[negative digits] rest]|] eqn:En; [|done].
    apply number_text_spec in En. exists negative, digits, rest.
    destruct (Z.ltb_spec UINT32_MAX (digits_value digits)); [done|]. cbn [orb whole] in E.
    destruct (Z.eqb_spec (default 0 (head rest)) 0); [|done]. cbn [negb orb] in E.
    destruct (UINT32_MAX <? _); [done|]. injection E as <-. split_and!; [done..|].
    destruct negative; [|done]. unfold wrap. apply Z.mod_mod. lia.
  - intros (negative & digits & rest & G & Hr & Hv & ->).
    assert (number_text s = Some (negative, digits, rest)) as En by by apply number_text_spec.
    specialize (Hne _ _ _ G). destruct s as [|c s]; [done|]. rewrite En.
    destruct (Z.ltb_spec UINT32_MAX (digits_value digits)); [lia|]. cbn [orb whole].
    rewrite Hr, Z.eqb_refl. cbn [negb orb].
    pose proof (wrap_range 32 (- digits_value digits) ltac:(lia)) as Hw. unfold is_u in Hw.
    change (2 ^ 32) with 4294967296 in Hw. unfold UINT32_MAX in *.
    destruct negative.
    + destruct (Z.ltb_spec 4294967295 (wrap 32 (- digits_value digits))); [lia|].
      unfold wrap. f_equal. apply Z.mod_mod. lia.
    + destruct (Z.ltb_spec 4294967295 (digits_value digits)); [lia|done].
Qed.

(** A minus sign is accepted where an unsigned number is expected. *)
Lemma parseUnsigned_negative : parseUnsigned (chars "-1") 0 = (true, 4294967295).
Proof. vm_compute. reflexivity. Qed.
