(* ===== verification/Json.v ===== *)
(** * JSON documents

    The values the firmware puts into a [JsonDocument].  Printing and parsing
    text and the questions asked of a parsed value are ArduinoJson's: the
    operations of [JsonText]. *)

From Stdlib Require Import ZArith SpecFloat String.
From S2P Require Import Prelude BuildConfig CString.
Open Scope Z_scope.

(** A measured [float] is its bits; a [float] or [double] the firmware computes is the
    number it stands for. *)
Inductive json :=
  | JNull
  | JBool (b : bool)
  | JInt (v : Z)
  | JFloat (bits : Z)
  | JSingle (f : spec_float)
  | JDouble (d : spec_float)
  | JString (s : list Z)
  | JArray (items : list json)
  | JObject (fields : list (string * json)).

(** A [char[N]], or the C string it is read as. *)
Definition JText (s : list Z) : json := JString (take (strlen s) s).

Class JsonText := {
  serializeJson : json -> list Z;
  deserializeJson : list Z -> option json;
  (** [value[field]]: null when there is no such field. *)
  member : string -> json -> json;
  (** [as<JsonArrayConst>]: the elements, unless it is null. *)
  elements : json -> option (list json);
  (** [is<size_t>() ? as<size_t>() : none] *)
  as_size : json -> option Z;
  (** [is<const char*>() ? as<const char*>() : none] *)
  as_text : json -> option (list Z);
}.

(** What the parsers rely on: a [size_t] is a 32-bit number. *)
Class JsonLaws `{JsonText} := {
  as_size_range j v : as_size j = Some v -> is_u 32 v;
}.

(** ** Questions answered by the tree

    The instance the witnesses use, with any printer and parser. *)

Definition tree_member (field : string) (j : json) : json :=
  match j with
  | JObject fields => match List.find (fun f => String.eqb (fst f) field) fields with
                      | Some (_, v) => v
                      | None => JNull
                      end
  | _ => JNull
  end.

Definition tree_json (print : json -> list Z) (parse : list Z -> option json) : JsonText := {|
  serializeJson := print;
  deserializeJson := parse;
  member := tree_member;
  elements j := match j with JArray items => Some items | _ => None end;
  as_size j := match j with JInt v => if decide (is_u 32 v) then Some v else None | _ => None end;
  as_text j := match j with JString s => Some s | _ => None end;
|}.

Lemma tree_json_laws print parse : @JsonLaws (tree_json print parse).
Proof.
  split. intros j v. cbn. destruct j; try done. by destruct (decide _); [intros [= <-]|].
Qed.
