(* ===== verification/BackendContract.v ===== *)
(** * What the gateway and the backend say to each other (lib/backend/backend_contract)

    The body of a batch upload and the reading of its answer. *)

From Stdlib Require Import ZArith Lia String.
From stdpp Require Import list.
From S2P Require Import Prelude BuildConfig CString QueueRecord Base64 UtcTime Json.
Open Scope Z_scope.

Record GatewayIdentity := mkGatewayIdentity {
  gi_gatewayId : list Z;
  gi_hardwareMac : list Z;
  gi_firmwareVersion : list Z;
  gi_bootSessionId : Z;
}.

Definition GatewayIdentity_init : GatewayIdentity :=
  mkGatewayIdentity (zeros kGatewayIdCapacity) (zeros 18) (zeros 17) 0.

Module BackendRecordStatus.
Inductive t := kInserted | kDuplicate | kRejectedInvalid.
#[export] Instance t_eq_dec : EqDecision t.
Proof. solve_decision. Defined.
End BackendRecordStatus.
Export (hints) BackendRecordStatus.

Record BackendRecordResult := mkBackendRecordResult {
  br_index : Z;
  br_status : BackendRecordStatus.t;
  br_reason : list Z;
}.

Definition BackendRecordResult_init : BackendRecordResult :=
  mkBackendRecordResult 0 BackendRecordStatus.kRejectedInvalid (zeros 97).

Definition backendHttpResponseMayDequeue (httpStatus : Z) : bool := httpStatus =? 200.

Definition backendBatchResponseComplete (expectedRecordCount : nat)
    (results : list BackendRecordResult) : bool :=
  (0 <? expectedRecordCount)%nat && (length results =? expectedRecordCount)%nat.

Definition backendRecordStatusName (status : BackendRecordStatus.t) : string :=
  match status with
  | BackendRecordStatus.kInserted => "INSERTED"
  | BackendRecordStatus.kDuplicate => "DUPLICATE"
  | BackendRecordStatus.kRejectedInvalid => "REJECTED_INVALID"
  end.

(** The object of one record; [None]: the batch is refused. *)
Definition readingOf (record : QueueRecord) : option json :=
  if (qr_payloadLength record =? 0) ||
     (Z.of_nat kRadioPacketCapacity <? qr_payloadLength record)
  then None
  else
    let r := qr_reception record in
    let gatewayReceivedAt :=
      if rm_gatewayTimeTrusted r then
        let '(okay, timestamp) := formatUtc (rm_gatewayReceivedUnixMs r) (zeros 32) 32 in
        if okay then Some (JText timestamp) else None
      else Some JNull in
    match gatewayReceivedAt with
    | None => None
    | Some gatewayReceivedAt =>
        Some (JObject
          [("gatewayReceivedAt", gatewayReceivedAt);
           ("gatewayTimeTrusted", JBool (rm_gatewayTimeTrusted r));
           ("gatewayUptimeMs", JInt (rm_gatewayUptimeMs r));
           ("gatewayBootSessionId", JInt (rm_gatewayBootSessionId r));
           ("rssiDbm", JFloat (rm_rssiDbm r));
           ("snrDb", JFloat (rm_snrDb r));
           ("frequencyErrorHz", JInt (rm_frequencyErrorHz r));
           ("packetLength", JInt (rm_packetLength r));
           ("rawPayloadBase64",
              JString (base64Encode (Some (qr_rawPayload record))
                         (Z.to_nat (qr_payloadLength record))))])
    end%string.

(** The document of a batch. *)
Definition batchDocument (identity : GatewayIdentity) (records : list QueueRecord)
  : option json :=
  if (length records =? 0)%nat || (kBackendMaximumBatchSize <? Z.of_nat (length records))
  then None
  else
    match mapM readingOf records with
    | None => None
    | Some readings =>
        Some (JObject
          [("schemaVersion", JInt 1);
           ("gateway", JObject
              [("gatewayId", JText (gi_gatewayId identity));
               ("hardwareMac", JText (gi_hardwareMac identity));
               ("firmwareVersion", JText (gi_firmwareVersion identity));
               ("bootSessionId", JInt (gi_bootSessionId identity))]);
           ("readings", JArray readings)])
    end%string.

Section Text.
Context `{JsonText}.

(** The answer and the text. *)
Definition serializeBackendBatch (identity : GatewayIdentity) (records : list QueueRecord)
  : bool * list Z :=
  match batchDocument identity records with
  | None => (false, [])
  | Some document =>
      let json := serializeJson document in
      (negb (length json =? 0)%nat, json)
  end.

Definition parseStatus (value : list Z) : option BackendRecordStatus.t :=
  let text := take (strlen value) value in
  if bool_decide (text = chars "INSERTED") then Some BackendRecordStatus.kInserted
  else if bool_decide (text = chars "DUPLICATE") then Some BackendRecordStatus.kDuplicate
  else if bool_decide (text = chars "REJECTED_INVALID")
  then Some BackendRecordStatus.kRejectedInvalid
  else None.

(** The loop over the results; [seen] has an entry per index of the batch. *)
Fixpoint parseResults (items : list json) (expectedRecordCount : nat) (seen : list bool)
    (results : list BackendRecordResult) : bool * list BackendRecordResult :=
  match items with
  | [] => (true, results)
  | item :: items =>
      match as_size (member "index" item), as_text (member "status" item) with
      | Some index, Some value =>
          if (Z.of_nat expectedRecordCount <=? index) ||
             default false (seen !! Z.to_nat index)
          then (false, results)
          else
            match parseStatus value with
            | None => (false, results)
            | Some status =>
                let reason := default [] (as_text (member "reason" item)) in
                parseResults items expectedRecordCount (<[Z.to_nat index := true]> seen)
                  (results ++
                   [mkBackendRecordResult index status
                      (strncpy (br_reason BackendRecordResult_init) reason 96)])
            end
      | _, _ => (false, results)
      end
  end.

(** [json] is the pointer the answer was read from. *)
Definition parseBackendBatchResponse (json : ptr (list Z)) (expectedRecordCount : nat)
  : bool * list BackendRecordResult :=
  match json with
  | None => (false, [])
  | Some json =>
      if (expectedRecordCount =? 0)%nat then (false, [])
      else
        match deserializeJson (take (strlen json) json) with
        | None => (false, [])
        | Some document =>
            match elements (member "results" document) with
            | None => (false, [])
            | Some array =>
                if (expectedRecordCount <? length array)%nat then (false, [])
                else
                  parseResults array expectedRecordCount
                    (replicate (Z.to_nat kBackendMaximumBatchSize) false) []
            end
        end
  end.

(** ** Answers *)

(** An item of the answer that says what became of record [br_index r]. *)
Definition says (item : json) (r : BackendRecordResult) : Prop :=
  as_size (member "index" item) = Some (br_index r) /\
  exists value, as_text (member "status" item) = Some value /\
    take (strlen value) value = chars (backendRecordStatusName (br_status r)).

Lemma parseStatus_spec value status :
  parseStatus value = Some status ->
  take (strlen value) value = chars (backendRecordStatusName status).
Proof.
  unfold parseStatus. case_bool_decide; [by intros [= <-]|].
  case_bool_decide; [by intros [= <-]|]. case_bool_decide; [by intros [= <-]|done].
Qed.

Context `{!JsonLaws}.

Lemma parseResults_spec items n seen results results' :
  (n <= length seen)%nat ->
  Forall (fun r => 0 <= br_index r < Z.of_nat n /\ seen !! Z.to_nat (br_index r) = Some true)
    results ->
  NoDup (br_index <$> results) ->
  parseResults items n seen results = (true, results') ->
  exists new, results' = results ++ new /\ Forall2 says items new /\
    NoDup (br_index <$> results') /\ Forall (fun r => 0 <= br_index r < Z.of_nat n) results'.
Proof.
  revert seen results. induction items as [|item items IH]; intros seen results Hn Hs Hd E;
    cbn [parseResults] in E.
  - injection E as <-. exists []. rewrite app_nil_r. split_and!; [done|constructor|done|].
    eapply Forall_impl; [exact Hs|]. by intros r [? _].
  - destruct (as_size _) as [index|] eqn:Ei; [|done].
    destruct (as_text _) as [value|] eqn:Ev; [|done].
    destruct (_ || _) eqn:G; [done|]. apply orb_false_iff in G as [Hi%Z.leb_gt Hseen].
    destruct (parseStatus value) as [status|] eqn:Est; [|done].
    pose proof (as_size_range _ _ Ei) as [Hi0 _]. apply IH in E.
    + destruct E as (new & -> & Hf & Hd' & Hr). rewrite <- app_assoc in Hd', Hr |- *.
      eexists (_ :: new). split_and!; [done| |done|done]. constructor; [|done].
      split; [done|]. exists value. split; [done|]. by apply parseStatus_spec.
    + by rewrite length_insert.
    + apply Forall_app. split.
      * eapply Forall_impl; [exact Hs|]. intros r [Hr Hl]. split; [done|].
        destruct (decide (Z.to_nat (br_index r) = Z.to_nat index)) as [->|];
          [rewrite list_lookup_insert_eq; [done|lia]|by rewrite list_lookup_insert_ne].
      * apply Forall_singleton. split; [cbn; lia|]. cbn. rewrite list_lookup_insert_eq; [done|lia].
    + rewrite fmap_app. apply NoDup_app. split_and!; [done| |apply NoDup_singleton].
      intros x Hx Hx'. cbn in Hx'. apply list_elem_of_singleton in Hx' as ->.
      apply list_elem_of_fmap in Hx as (r & -> & Hr). rewrite Forall_forall in Hs.
      destruct (Hs r Hr) as [_ Hl]. by rewrite Hl in Hseen.
Qed.

Lemma parse_spec text n results :
  (n <= Z.to_nat kBackendMaximumBatchSize)%nat ->
  parseBackendBatchResponse (Some text) n = (true, results) ->
  exists document items,
    deserializeJson (take (strlen text) text) = Some document /\
    elements (member "results" document) = Some items /\ Forall2 says items results /\
    NoDup (br_index <$> results) /\ Forall (fun r => 0 <= br_index r < Z.of_nat n) results /\
    (length results <= n)%nat.
Proof.
  intros Hn. unfold parseBackendBatchResponse. destruct (_ =? 0)%nat; [done|].
  destruct (deserializeJson _) as [document|]; [|done].
  destruct (elements _) as [items|] eqn:Ee; [|done].
  destruct (Nat.ltb_spec n (length items)); [done|]. intros E.
  apply parseResults_spec in E as (new & -> & Hf & Hd & Hr);
    [|by rewrite length_replicate|constructor|constructor].
  cbn [app] in *. exists document, items. split_and!; try done.
  by rewrite <- (Forall2_length _ _ _ Hf).
Qed.

(** C34: an answer is taken only as a whole and only when it is unambiguous: each
    result is an item of the answer with one of the three statuses, in order,
    for a record of the batch, and no record is named twice. *)
Theorem parse_unambiguous text n results :
  (n <= Z.to_nat kBackendMaximumBatchSize)%nat ->
  parseBackendBatchResponse (Some text) n = (true, results) ->
  exists document items,
    deserializeJson (take (strlen text) text) = Some document /\
    elements (member "results" document) = Some items /\ Forall2 says items results /\
    NoDup (br_index <$> results) /\ Forall (fun r => 0 <= br_index r < Z.of_nat n) results /\
    (length results <= n)%nat.
Proof. apply parse_spec. Qed.
End Text.

(** An answer to a batch of three, for two of its records. *)
Definition sampleAnswer : json :=
  JObject [("results", JArray
    [JObject [("index", JInt 2); ("status", JString (chars "INSERTED"))];
     JObject [("index", JInt 0); ("status", JString (chars "REJECTED_INVALID"));
              ("reason", JString (chars "bad checksum"))]])]%string.

Definition answerJson : JsonText :=
  tree_json (fun _ => chars "{}")
    (fun text => if decide (text = chars "answer") then Some sampleAnswer else None).

Lemma parse_unambiguous_witness :
  exists results, parseBackendBatchResponse (H := answerJson) (Some (chars "answer")) 3 =
    (true, results) /\ br_index <$> results = [2; 0] /\ NoDup (br_index <$> results).
Proof.
  destruct (parseBackendBatchResponse (H := answerJson) (Some (chars "answer")) 3)
    as [b results] eqn:E.
  assert (b = true /\ br_index <$> results = [2; 0]) as [-> Hi].
  { split; [change b with (b, results).1|change results with (b, results).2];
      rewrite <- E; vm_compute; reflexivity. }
  exists results. split; [reflexivity|]. split; [exact Hi|].
  destruct (@parse_unambiguous answerJson (tree_json_laws _ _) (chars "answer") 3 results)
    as (document & items & _ & _ & _ & Hd & _); [|exact E|exact Hd].
  apply Nat.leb_le. vm_compute. reflexivity.
Defined.
