(* ===== verification/WifiManager.v ===== *)
(** * The Wi-Fi manager (lib/wifi/wifi_manager)

    Station reconnects, and the fallback access point. The task of [run] is
    modelled one round at a time; the manager's mutex, once created, is always
    obtained. *)

From Stdlib Require Import ZArith Lia String.
From stdpp Require Import list.
From S2P Require Import Prelude BuildConfig CString GatewayConfig Platform.
Open Scope Z_scope.

Record WifiStatus := mkWifiStatus {
  wf_configured : bool;
  wf_connected : bool;
  wf_ssid : list Z;
  wf_localIp : list Z;
  wf_rssiDbm : Z;
  wf_reconnecting : bool;
  wf_fallbackApActive : bool;
  wf_fallbackApSsid : list Z;
}.

Definition WifiStatus_init : WifiStatus :=
  mkWifiStatus false false (zeros kWifiSsidCapacity) (zeros 16) 0 false false (zeros 33).

(** [wm_mutex]: the mutex exists. *)
Record WifiManager := mkWifiManager {
  wm_mutex : bool;
  wm_ssid : list Z;
  wm_password : list Z;
  wm_fallbackApSsid : list Z;
  wm_reconnectIntervalMs : Z;
  wm_fallbackAfterMs : Z;
  wm_apGraceMs : Z;
  wm_reconnectRequested : bool;
  wm_apActive : bool;
  wm_reconnecting : bool;
  wm_disconnectedSinceMs : Z;
  wm_connectedSinceMs : Z;
  wm_lastReconnectMs : Z;
}.

Definition WifiManager_init : WifiManager :=
  mkWifiManager false (zeros kWifiSsidCapacity) (zeros kWifiPasswordCapacity) (zeros 33)
    15000 60000 30000 false false false 0 0 0.

(** The text a character array holds. *)
Definition text (s : list Z) : list Z := take (strlen s) s.

Definition wifiApplyConfig (config : GatewayConfig) (m : WifiManager) : WifiManager :=
  if negb (wm_mutex m) then m
  else
    m <| wm_ssid := copyText (wm_ssid m) (Some (cf_wifiSsid config)) |>
      <| wm_password := copyText (wm_password m) (Some (cf_wifiPassword config)) |>
      <| wm_reconnectIntervalMs := cf_wifiReconnectIntervalMs config |>
      <| wm_fallbackAfterMs := cf_wifiFallbackAfterMs config |>
      <| wm_apGraceMs := cf_wifiApGraceMs config |>
      <| wm_reconnectRequested := true |>.

Definition requestReconnect (m : WifiManager) : WifiManager :=
  if wm_mutex m then m <| wm_reconnectRequested := true |> else m.

Section Operations.
Context {W : Type} `{Millis W, WifiReadings W, WifiControl W}.

(** A command whose answer is ignored. *)
Definition wifi_call (c : WifiCall) (w : W) : W := snd (wifi_do c w).

Definition wifiStatus (m : WifiManager) (w : W) : WifiStatus * W :=
  if negb (wm_mutex m) then (WifiStatus_init, w)
  else
    let '(connected, w) := wifi_connected w in
    let '(localIp, rssiDbm, w) :=
      if connected then
        let '(ip, w) := wifi_localIP w in
        let '(rssi, w) := wifi_RSSI w in
        (strncpyz (wf_localIp WifiStatus_init) ip, rssi, w)
      else (wf_localIp WifiStatus_init, wf_rssiDbm WifiStatus_init, w) in
    (mkWifiStatus (negb (default 0 (head (wm_ssid m)) =? 0)) connected
       (strncpyz (wf_ssid WifiStatus_init) (wm_ssid m)) localIp rssiDbm (wm_reconnecting m)
       (wm_apActive m) (strncpyz (wf_fallbackApSsid WifiStatus_init) (wm_fallbackApSsid m)), w).

Definition startFallbackAp (m : WifiManager) (w : W) : WifiManager * W :=
  if negb (wm_mutex m) || wm_apActive m then (m, w)
  else
    let w := wifi_call (WifiMode WIFI_AP_STA) w in
    let '(started, w) := wifi_do (WifiSoftAP (text (wm_fallbackApSsid m)) kFallbackApPassword) w in
    (if (started : bool) then m <| wm_apActive := true |> else m, w).

Definition stopFallbackAp (m : WifiManager) (w : W) : WifiManager * W :=
  if negb (wm_mutex m) || negb (wm_apActive m) then (m, w)
  else
    let w := wifi_call (WifiSoftAPdisconnect true) w in
    let w := wifi_call (WifiMode WIFI_STA) w in
    (m <| wm_apActive := false |>, w).

Definition beginSta (ssid password : ptr (list Z)) (m : WifiManager) (w : W)
  : WifiManager * W :=
  let '(now, w) := millis w in
  let m := m <| wm_lastReconnectMs := now |> in
  if default 0 (head (default [] ssid)) =? 0 then
    let w := wifi_call (WifiDisconnect false false) w in
    let m := if wm_mutex m then m <| wm_reconnecting := false |> else m in
    startFallbackAp m w
  else
    let apActive := wm_mutex m && wm_apActive m in
    let w := wifi_call (WifiMode (if apActive then WIFI_AP_STA else WIFI_STA)) w in
    let w := wifi_call (WifiDisconnect false false) w in
    let w := wifi_call (WifiBegin (text (default [] ssid)) (text (default [] password))) w in
    let m := if wm_mutex m then m <| wm_reconnecting := true |> else m in
    if wm_disconnectedSinceMs m =? 0 then
      let '(now, w) := millis w in (m <| wm_disconnectedSinceMs := now |>, w)
    else (m, w).

(** [mutexCreated], [taskCreated]: the outcomes of [xSemaphoreCreateMutex] and
    [xTaskCreate]. *)
Definition wifiBegin (mutexCreated taskCreated : bool) (config : GatewayConfig)
    (hardwareMacCompact : ptr (list Z)) (m : WifiManager) (w : W) : bool * WifiManager * W :=
  let m := m <| wm_mutex := mutexCreated |> in
  if negb mutexCreated then (false, m, w)
  else
    let suffix := match hardwareMacCompact with
                  | None => chars "UNKNOWN"
                  | Some mac => text (drop 6 mac)
                  end in
    let m := m <| wm_fallbackApSsid :=
                    putText (wm_fallbackApSsid m) (chars "GATHRA-GW-" ++ suffix) |> in
    let m := wifiApplyConfig config m in
    let w := wifi_call (WifiPersistent false) w in
    let w := wifi_call (WifiAutoReconnect false) w in
    let w := wifi_call (WifiSleep false) w in
    let w := wifi_call (WifiHostname kMdnsHost) w in
    let '(now, w) := millis w in
    let m := m <| wm_disconnectedSinceMs := now |> in
    let '(m, w) :=
      if default 0 (head (wm_ssid m)) =? 0 then startFallbackAp m w
      else beginSta (Some (wm_ssid m)) (Some (wm_password m)) m w in
    (taskCreated, m, w).

(** What [run] notes when the connection has come up or gone down. *)
Definition noteConnection (connected wasConnected : bool) (now : Z) (m : WifiManager) (w : W)
  : WifiManager * W :=
  if connected && negb wasConnected then
    let m := m <| wm_connectedSinceMs := now |> in
    let m := if wm_mutex m then m <| wm_reconnecting := false |> else m in
    let '(started, w) := wifi_do (MdnsBegin kMdnsHost) w in
    (m, if (started : bool) then wifi_call (MdnsAddService (chars "http") (chars "tcp") 80) w
        else w)
  else if negb connected && wasConnected then
    (m <| wm_disconnectedSinceMs := now |>, wifi_call MdnsEnd w)
  else (m, w).

(** The rest of the round, with the copies taken at its beginning. *)
Definition followConnection (connected : bool) (now : Z) (ssid password : list Z)
    (reconnectIntervalMs fallbackAfterMs apGraceMs : Z) (m : WifiManager) (w : W)
  : WifiManager * W :=
  if negb connected then
    let m := if wm_disconnectedSinceMs m =? 0 then m <| wm_disconnectedSinceMs := now |> else m in
    let configured := negb (default 0 (head ssid) =? 0) in
    let '(m, w) :=
      if configured && (reconnectIntervalMs <=? wrap 32 (now - wm_lastReconnectMs m))
      then beginSta (Some ssid) (Some password) m w else (m, w) in
    if negb configured || (fallbackAfterMs <=? wrap 32 (now - wm_disconnectedSinceMs m))
    then startFallbackAp m w else (m, w)
  else
    let m := m <| wm_disconnectedSinceMs := 0 |> in
    let apActive := wm_mutex m && wm_apActive m in
    if apActive && (apGraceMs <=? wrap 32 (now - wm_connectedSinceMs m))
    then stopFallbackAp m w else (m, w).

(** One round of [run]; [wasConnected] is the local of the task. *)
Definition wifiRound (wasConnected : bool) (m : WifiManager) (w : W)
  : bool * WifiManager * W :=
  let locked := wm_mutex m in
  let ssid := if locked then wm_ssid m else zeros kWifiSsidCapacity in
  let password := if locked then wm_password m else zeros kWifiPasswordCapacity in
  let reconnectIntervalMs := if locked then wm_reconnectIntervalMs m else 0 in
  let fallbackAfterMs := if locked then wm_fallbackAfterMs m else 0 in
  let apGraceMs := if locked then wm_apGraceMs m else 0 in
  let reconnectRequested := locked && wm_reconnectRequested m in
  let m := if locked then m <| wm_reconnectRequested := false |> else m in
  let '(now, w) := millis w in
  let '(connected, w) := wifi_connected w in
  let '(m, w) := noteConnection connected wasConnected now m w in
  let '(m, w) := if reconnectRequested then beginSta (Some ssid) (Some password) m w
                 else (m, w) in
  let '(m, w) :=
    followConnection connected now ssid password reconnectIntervalMs fallbackAfterMs apGraceMs
      m w in
  (connected, m, w).

End Operations.
