(* ===== verification/WifiManagerTheorems.v ===== *)
(** * What the Wi-Fi manager does

    [WifiWorld]: what the manager relies on: every command to the driver is carried
    out in order, and [millis] shows a clock that only goes forward, modulo 2^32.
    The fallback access point the driver runs is the one the manager believes in,
    and each round of the task takes exactly the steps its timers call for. *)

From Stdlib Require Import ZArith Lia String.
From stdpp Require Import list.
From S2P Require Import Prelude BuildConfig CString GatewayConfig Platform WifiManager.
Open Scope Z_scope.

(** [wifi_history]: the commands given to the driver with their answers, oldest
    first; [wifi_clock]: milliseconds since boot, which do not wrap. *)
Class WifiWorld (W : Type) `{Millis W, WifiReadings W, WifiControl W} := {
  wifi_history : W -> list (WifiCall * bool);
  wifi_clock : W -> Z;
  wifi_do_law c w b w' :
    wifi_do c w = (b, w') ->
    wifi_history w' = wifi_history w ++ [(c, b)] /\ wifi_clock w <= wifi_clock w';
  wifi_millis_law w t w' :
    millis w = (t, w') ->
    wifi_history w' = wifi_history w /\
    exists T, wifi_clock w <= T <= wifi_clock w' /\ t = wrap 32 T;
  wifi_connected_law w b w' :
    wifi_connected w = (b, w') ->
    wifi_history w' = wifi_history w /\ wifi_clock w <= wifi_clock w';
}.

(** The access point after a command: a successful [softAP] starts it; leaving the
    access-point mode stops it. *)
Definition ap_after (running : bool) (call : WifiCall * bool) : bool :=
  match call with
  | (WifiSoftAP _ _, true) => true
  | (WifiSoftAPdisconnect _, _) => false
  | (WifiMode (WIFI_STA | WIFI_OFF), _) => false
  | _ => running
  end.

Definition ap_running (history : list (WifiCall * bool)) : bool := foldl ap_after false history.

(** The commands that matter: an attempt to connect, a start of the access point with
    the driver's answer, and its end. *)
Inductive WifiStep :=
  | Attempt (ssid password : list Z)
  | StartAp (ssid password : list Z) (started : bool)
  | StopAp.

Definition step_of (call : WifiCall * bool) : option WifiStep :=
  match call with
  | (WifiBegin ssid password, _) => Some (Attempt ssid password)
  | (WifiSoftAP ssid password, started) => Some (StartAp ssid password started)
  | (WifiSoftAPdisconnect _, _) => Some StopAp
  | _ => None
  end.

Definition steps_of (calls : list (WifiCall * bool)) : list WifiStep := omap step_of calls.

Lemma steps_app a b : steps_of (a ++ b) = steps_of a ++ steps_of b.
Proof. apply omap_app. Qed.

(** A start of the access point, which is not repeated while it runs. *)
Definition start_steps (m : WifiManager) (active started : bool) : list WifiStep :=
  if active then []
  else [StartAp (text (wm_fallbackApSsid m)) kFallbackApPassword started].

(** A station is configured. *)
Definition configured (ssid : list Z) : bool := negb (default 0 (head ssid) =? 0).

(** An attempt to connect; without a configured station, a start of the access point. *)
Definition attempt_steps (m : WifiManager) (ssid password : list Z) (active started : bool)
    : list WifiStep :=
  if configured ssid then [Attempt (text ssid) (text password)] else start_steps m active started.

Section Theorems.
Context {W : Type} `{WifiWorld W}.

(** From [m], [w] to [m'], [w'] with the commands [new], which the flag of the
    access point follows. *)
Record moved (m : WifiManager) (w : W) (new : list (WifiCall * bool))
    (m' : WifiManager) (w' : W) : Prop := {
  mv_history : wifi_history w' = wifi_history w ++ new;
  mv_clock : wifi_clock w <= wifi_clock w';
  mv_ap : wm_apActive m' = foldl ap_after (wm_apActive m) new;
  mv_mutex : wm_mutex m' = wm_mutex m;
}.

Lemma moved_refl m w : moved m w [] m w.
Proof. split; [by rewrite app_nil_r|lia|done|done]. Qed.

Lemma moved_trans m1 w1 a m2 w2 b m3 w3 :
  moved m1 w1 a m2 w2 -> moved m2 w2 b m3 w3 -> moved m1 w1 (a ++ b) m3 w3.
Proof.
  intros [E1 C1 A1 M1] [E2 C2 A2 M2].
  split; [by rewrite E2, E1, app_assoc|lia|by rewrite A2, A1, foldl_app|congruence].
Qed.

(** Setting fields other than the flag moves nothing. *)
Lemma moved_fields m0 m w new m' w' m'' :
  moved m w new m' w' -> wm_apActive m = wm_apActive m0 -> wm_mutex m = wm_mutex m0 ->
  wm_apActive m'' = wm_apActive m' -> wm_mutex m'' = wm_mutex m' -> moved m0 w new m'' w'.
Proof. intros [] ????. split; congruence. Qed.

Lemma moved_call c m w :
  let '(b, w') := wifi_do c w in
  forall m', wm_apActive m' = ap_after (wm_apActive m) (c, b) -> wm_mutex m' = wm_mutex m ->
    moved m w [(c, b)] m' w'.
Proof.
  destruct (wifi_do c w) as [b w'] eqn:E. apply wifi_do_law in E as [E C].
  intros m' A M. by split.
Qed.

(** A command that leaves the access point alone. *)
Lemma moved_quiet c m w :
  (forall b, ap_after (wm_apActive m) (c, b) = wm_apActive m) ->
  exists b, moved m w [(c, b)] m (wifi_call c w).
Proof.
  intros Hq. unfold wifi_call. pose proof (moved_call c m w) as M.
  destruct (wifi_do c w) as [b w']. exists b. by apply M; rewrite ?Hq.
Qed.

Lemma moved_time m w t w' : millis w = (t, w') -> moved m w [] m w'.
Proof.
  intros [Hh (T & ? & _)]%wifi_millis_law.
  split; [by rewrite app_nil_r|lia|done|done].
Qed.

(** ** The operations *)

Lemma startFallbackAp_spec m w m' w' :
  wm_mutex m = true -> startFallbackAp m w = (m', w') ->
  exists new started, moved m w new m' w' /\
    steps_of new = start_steps m (wm_apActive m) started /\
    wm_apActive m' = wm_apActive m || started.
Proof.
  intros Hm E. unfold startFallbackAp in E. rewrite Hm in E. cbn [negb orb] in E.
  unfold start_steps. destruct (wm_apActive m) eqn:Ha.
  - injection E as <- <-. exists [], false. split; [apply moved_refl|]. by rewrite Ha.
  - destruct (moved_quiet (WifiMode WIFI_AP_STA) m w (fun _ => eq_refl)) as [b1 M1].
    pose proof (moved_call (WifiSoftAP (text (wm_fallbackApSsid m)) kFallbackApPassword) m
                  (wifi_call (WifiMode WIFI_AP_STA) w)) as M2.
    destruct (wifi_do _ _) as [started w2]. injection E as <- <-.
    eexists _, started. split; [eapply moved_trans; [exact M1|apply M2]|].
    + destruct started, m; cbn in *; by subst.
    + by destruct started, m.
    + split; [done|]. by destruct started, m.
Qed.

Lemma stopFallbackAp_spec m w m' w' :
  wm_mutex m = true -> stopFallbackAp m w = (m', w') ->
  exists new, moved m w new m' w' /\ steps_of new = (if wm_apActive m then [StopAp] else []) /\
    wm_apActive m' = false.
Proof.
  intros Hm E. unfold stopFallbackAp in E. rewrite Hm in E. cbn [negb orb] in E.
  destruct (wm_apActive m) eqn:Ha; cbn [negb] in E.
  - unfold wifi_call in E.
    pose proof (moved_call (WifiSoftAPdisconnect true) m w) as M1.
    destruct (wifi_do _ w) as [b1 w1]. cbn [snd] in E.
    specialize (M1 (m <| wm_apActive := false |>)).
    pose proof (moved_call (WifiMode WIFI_STA) (m <| wm_apActive := false |>) w1) as M2.
    destruct (wifi_do _ w1) as [b2 w2]. cbn [snd] in E. injection E as <- <-.
    eexists. split; [eapply moved_trans; [apply M1|apply M2]|]; by destruct m.
  - injection E as <- <-. exists []. split; [apply moved_refl|done].
Qed.

(** What no operation of a round touches.  The time of the disconnection, once set,
    stays; else it may be set to the time of an attempt. *)
Record same_timers (m : WifiManager) (w : W) (m' : WifiManager) (w' : W) : Prop := {
  st_connected : wm_connectedSinceMs m' = wm_connectedSinceMs m;
  st_apSsid : wm_fallbackApSsid m' = wm_fallbackApSsid m;
  st_set : wm_disconnectedSinceMs m <> 0 ->
    wm_disconnectedSinceMs m' = wm_disconnectedSinceMs m;
  st_unset : wm_disconnectedSinceMs m = 0 ->
    wm_disconnectedSinceMs m' = 0 \/
    exists T, wifi_clock w <= T <= wifi_clock w' /\ wm_disconnectedSinceMs m' = wrap 32 T;
}.

Lemma startFallbackAp_timers m w :
  wm_connectedSinceMs (startFallbackAp m w).1 = wm_connectedSinceMs m /\
  wm_fallbackApSsid (startFallbackAp m w).1 = wm_fallbackApSsid m /\
  wm_lastReconnectMs (startFallbackAp m w).1 = wm_lastReconnectMs m /\
  wm_disconnectedSinceMs (startFallbackAp m w).1 = wm_disconnectedSinceMs m.
Proof.
  unfold startFallbackAp. destruct (_ || _); [done|].
  destruct (wifi_do (WifiSoftAP _ _) _) as [[] ?]; by destruct m.
Qed.

(** What an attempt to connect does to driver and manager. *)
Definition attempted (ssid password : list Z) (m : WifiManager) (w : W) (m' : WifiManager) (w' : W)
    : Prop :=
  exists new started, moved m w new m' w' /\
    steps_of new = attempt_steps m ssid password (wm_apActive m) started /\
    wm_apActive m' = wm_apActive m || (negb (configured ssid) && started) /\
    same_timers m w m' w' /\
    exists T, wifi_clock w <= T <= wifi_clock w' /\ wm_lastReconnectMs m' = wrap 32 T.

(** Without an SSID the access point is started. *)
Lemma beginSta_blank ssid password m w m' w' :
  wm_mutex m = true -> configured ssid = false ->
  beginSta (Some ssid) (Some password) m w = (m', w') -> attempted ssid password m w m' w'.
Proof.
  intros Hm Hcfg E. unfold beginSta in E. destruct (millis w) as [now w1] eqn:Et.
  pose proof (moved_time m _ _ _ Et) as M0.
  apply wifi_millis_law in Et as (_ & T & HT & ->). unfold attempted, attempt_steps. rewrite Hcfg.
  set (m1 := m <| wm_lastReconnectMs := wrap 32 T |>) in E.
  assert (wm_mutex m1 = true) as Hm1 by (by destruct m).
  apply negb_false_iff in Hcfg. cbn [default from_option id] in E. rewrite Hcfg in E.
  rewrite Hm1 in E. set (m2 := m1 <| wm_reconnecting := false |>) in E.
  destruct (moved_quiet (WifiDisconnect false false) m w1 (fun _ => eq_refl)) as [b M1].
  pose proof (startFallbackAp_timers m2 (wifi_call (WifiDisconnect false false) w1))
    as (T1 & T2 & Tl & T3).
  rewrite E in T1, T2, T3, Tl. cbn [fst] in T1, T2, T3, Tl.
  assert (wm_apActive m2 = wm_apActive m /\ wm_fallbackApSsid m2 = wm_fallbackApSsid m /\
    wm_mutex m2 = wm_mutex m /\ wm_connectedSinceMs m2 = wm_connectedSinceMs m /\
    wm_disconnectedSinceMs m2 = wm_disconnectedSinceMs m /\ wm_lastReconnectMs m2 = wrap 32 T)
    as (Ea2 & Es2 & Em2 & Ec2 & Ed2 & El2) by (by destruct m).
  apply startFallbackAp_spec in E as (new & started & M2 & Hs & He); [|congruence].
  exists ([] ++ [(WifiDisconnect false false, b)] ++ new), started.
  assert (moved m w ([] ++ [(WifiDisconnect false false, b)] ++ new) m' w') as M.
  { eapply moved_trans; [exact M0|]. eapply moved_trans; [exact M1|].
    eapply moved_fields; [exact M2|..]; congruence. }
  split; [exact M|]. split.
  { rewrite !steps_app, Hs. unfold start_steps. by rewrite Ea2, Es2. }
  split; [by rewrite He, Ea2|]. split.
  - split; [congruence..|]. intros E0. left. congruence.
  - exists T. split; [|congruence]. destruct M as [_ C _ _], M1 as [_ C1 _ _], M2 as [_ C2 _ _]. lia.
Qed.

(** With one, the driver is told to connect. *)
Lemma beginSta_named ssid password m w m' w' :
  wm_mutex m = true -> configured ssid = true ->
  beginSta (Some ssid) (Some password) m w = (m', w') -> attempted ssid password m w m' w'.
Proof.
  intros Hm Hcfg E. unfold beginSta in E. destruct (millis w) as [now w1] eqn:Et.
  pose proof (moved_time m _ _ _ Et) as M0.
  apply wifi_millis_law in Et as (_ & T & HT & ->). unfold attempted, attempt_steps. rewrite Hcfg.
  set (m1 := m <| wm_lastReconnectMs := wrap 32 T |>) in E.
  assert (wm_mutex m1 = true) as Hm1 by (by destruct m).
  apply negb_true_iff in Hcfg. cbn [default from_option id] in E. rewrite Hcfg in E.
  set (mode := if wm_mutex m1 && wm_apActive m1 then WIFI_AP_STA else WIFI_STA) in E.
  assert (forall b, ap_after (wm_apActive m) (WifiMode mode, b) = wm_apActive m) as Hq.
  { intros b. unfold mode. rewrite Hm1. cbn [andb]. by destruct m as [? ? ? ? ? ? ? ? []]. }
  destruct (moved_quiet (WifiMode mode) m w1 Hq) as [b1 M1].
  set (w2 := wifi_call (WifiMode mode) w1) in *.
  destruct (moved_quiet (WifiDisconnect false false) m w2 (fun _ => eq_refl)) as [b2 M2].
  set (w3 := wifi_call (WifiDisconnect false false) w2) in *.
  destruct (moved_quiet (WifiBegin (text ssid) (text password)) m w3 (fun _ => eq_refl))
    as [b3 M3].
  cbn [default from_option id] in E.
  set (w4 := wifi_call (WifiBegin (text ssid) (text password)) w3) in *.
  pose proof (moved_trans _ _ _ _ _ _ _ _ M0 (moved_trans _ _ _ _ _ _ _ _ M1
    (moved_trans _ _ _ _ _ _ _ _ M2 M3))) as M.
  rewrite Hm1 in E. set (m2 := m1 <| wm_reconnecting := true |>) in E.
  assert (wm_disconnectedSinceMs m2 = wm_disconnectedSinceMs m) as Ed2 by (by destruct m).
  eexists _, false. assert (wifi_clock w1 <= wifi_clock w4) as C
    by (destruct M1 as [_ C1 _ _], M2 as [_ C2 _ _], M3 as [_ C3 _ _]; lia).
  rewrite Ed2 in E. destruct (Z.eqb_spec (wm_disconnectedSinceMs m) 0) as [Hd|Hd].
  - destruct (millis w4) as [now2 w5] eqn:Et. pose proof (moved_time m _ _ _ Et) as M4.
    apply wifi_millis_law in Et as (_ & T2 & HT2 & ->). injection E as <- <-.
    pose proof (moved_trans _ _ _ _ _ _ _ _ M M4) as M'.
    split; [eapply moved_fields; [exact M'|..]; by destruct m|].
    split; [done|]. split; [rewrite orb_false_r; by destruct m|].
    split; [|exists T; split; [destruct M4; lia|by destruct m]].
    split; [by destruct m..|done|]. intros _. right. exists T2. split; [|by destruct m].
    destruct M0; lia.
  - injection E as <- <-. split; [eapply moved_fields; [exact M|..]; by destruct m|].
    split; [done|]. split; [rewrite orb_false_r; by destruct m|].
    split; [split; by destruct m|]. exists T. split; [lia|by destruct m].
Qed.

Lemma beginSta_spec ssid password m w m' w' :
  wm_mutex m = true -> beginSta (Some ssid) (Some password) m w = (m', w') ->
  attempted ssid password m w m' w'.
Proof.
  intros Hm E. destruct (configured ssid) eqn:Hcfg; [by apply beginSta_named|by apply beginSta_blank].
Qed.

(** ** A round *)

Lemma noteConnection_spec conn was now m w m' w' :
  wm_mutex m = true -> noteConnection conn was now m w = (m', w') ->
  exists new, moved m w new m' w' /\ steps_of new = [] /\
    wm_apActive m' = wm_apActive m /\ wm_fallbackApSsid m' = wm_fallbackApSsid m /\
    wm_lastReconnectMs m' = wm_lastReconnectMs m /\
    wm_connectedSinceMs m' = (if conn && negb was then now else wm_connectedSinceMs m) /\
    wm_disconnectedSinceMs m' = (if negb conn && was then now else wm_disconnectedSinceMs m).
Proof.
  intros Hm E. unfold noteConnection in E.
  assert (wm_mutex (m <| wm_connectedSinceMs := now |>) = true) as Hm1 by (by destruct m).
  rewrite Hm1 in E.
  destruct (conn && negb was) eqn:G1.
  - apply andb_true_iff in G1 as [-> G1%negb_true_iff]. subst.
    pose proof (moved_call (MdnsBegin kMdnsHost) m w) as M1.
    destruct (wifi_do _ w) as [started w1]. specialize (M1 m ltac:(by destruct started) eq_refl).
    destruct started.
    + destruct (moved_quiet (MdnsAddService (chars "http") (chars "tcp") 80) m w1
        (fun _ => eq_refl)) as [b M2].
      injection E as <- <-. eexists.
      split; [eapply moved_fields; [exact (moved_trans _ _ _ _ _ _ _ _ M1 M2)|..]; by destruct m|].
      by destruct m.
    + injection E as <- <-. eexists. split; [eapply moved_fields; [exact M1|..]; by destruct m|].
      by destruct m.
  - destruct (negb conn && was) eqn:G2.
    + destruct (moved_quiet MdnsEnd m w (fun _ => eq_refl)) as [b M].
      injection E as <- <-. eexists. split; [eapply moved_fields; [exact M|..]; by destruct m|].
      by destruct m.
    + injection E as <- <-. exists []. split; [apply moved_refl|done].
Qed.

(** Connected: the access point goes when its grace time is over. *)
Lemma followConnected now ssid password interval after grace m w m' w' :
  wm_mutex m = true ->
  followConnection true now ssid password interval after grace m w = (m', w') ->
  let over := grace <=? wrap 32 (now - wm_connectedSinceMs m) in
  exists new, moved m w new m' w' /\
    steps_of new = (if wm_apActive m && over then [StopAp] else []) /\
    wm_apActive m' = wm_apActive m && negb over.
Proof.
  intros Hm E over. unfold followConnection in E. cbn [negb andb] in E.
  set (m1 := m <| wm_disconnectedSinceMs := 0 |>) in E.
  assert (wm_mutex m1 = true) as Hm1 by (by destruct m). rewrite Hm1 in E. cbn [andb] in E.
  assert (wm_apActive m1 = wm_apActive m) as Ea by (by destruct m).
  assert (wm_connectedSinceMs m1 = wm_connectedSinceMs m) as Ec by (by destruct m).
  rewrite Ea, Ec in E. fold over in E. destruct (wm_apActive m && over) eqn:G.
  - apply stopFallbackAp_spec in E as (new & M & Hs & Hf); [|done].
    exists new. apply andb_true_iff in G as [G1 G2].
    split; [eapply moved_fields; [exact M|..]; by destruct m|].
    split; [by rewrite Hs, Ea, G1|]. by rewrite Hf, G1, G2.
  - injection E as <- <-. exists [].
    split; [eapply moved_fields; [apply moved_refl|..]; by destruct m|].
    split; [done|]. rewrite Ea. destruct (wm_apActive m); [|done]. cbn in G |- *. by rewrite G.
Qed.

(** The time from which a manager counts as disconnected, when it is told so at [now]. *)
Definition down_since (m : WifiManager) (w : W) (now : Z) (w' : W) (since : Z) : Prop :=
  (wm_disconnectedSinceMs m <> 0 -> since = wm_disconnectedSinceMs m) /\
  (wm_disconnectedSinceMs m = 0 -> since = now \/
     exists T, wifi_clock w <= T <= wifi_clock w' /\ since = wrap 32 T).

(** The attempt when its interval has passed. *)
Lemma retry_spec (again : bool) ssid password m w m' w' :
  wm_mutex m = true -> (again = true -> configured ssid = true) ->
  (if again then beginSta (Some ssid) (Some password) m w else (m, w)) = (m', w') ->
  exists new, moved m w new m' w' /\
    steps_of new = (if again then [Attempt (text ssid) (text password)] else []) /\
    wm_apActive m' = wm_apActive m /\ same_timers m w m' w'.
Proof.
  intros Hm Hc E. destruct again.
  - apply beginSta_spec in E as (new & started & M & Hs & Ha & Ts & _); [|done].
    exists new. unfold attempt_steps in Hs. rewrite Hc in Hs, Ha by done.
    cbn [negb andb] in Ha. rewrite orb_false_r in Ha. done.
  - injection E as <- <-. exists []. split; [apply moved_refl|]. split_and!; [done..|].
    split; [done..|]. by left.
Qed.

(** Disconnected: an attempt when its interval has passed, the access point after its
    delay. *)
Lemma followDisconnected now ssid password interval after grace m w m' w' :
  wm_mutex m = true ->
  followConnection false now ssid password interval after grace m w = (m', w') ->
  exists new since started, moved m w new m' w' /\ down_since m w now w' since /\
    let late := negb (configured ssid) || (after <=? wrap 32 (now - since)) in
    steps_of new =
      (if configured ssid && (interval <=? wrap 32 (now - wm_lastReconnectMs m))
       then [Attempt (text ssid) (text password)] else []) ++
      (if late then start_steps m (wm_apActive m) started else []) /\
    wm_apActive m' = wm_apActive m || (late && started).
Proof.
  intros Hm E. unfold followConnection in E. fold (configured ssid) in E. cbn [negb andb] in E.
  set (m1 := if wm_disconnectedSinceMs m =? 0 then _ else m) in E.
  assert (wm_mutex m1 = true /\ wm_apActive m1 = wm_apActive m /\
          wm_fallbackApSsid m1 = wm_fallbackApSsid m /\
          wm_lastReconnectMs m1 = wm_lastReconnectMs m /\
          wm_disconnectedSinceMs m1 = (if wm_disconnectedSinceMs m =? 0 then now
                                       else wm_disconnectedSinceMs m))
    as (Hm1 & Ea & Es & El & Ed).
  { unfold m1. destruct (Z.eqb_spec (wm_disconnectedSinceMs m) 0); by destruct m. }
  rewrite El in E.
  set (again := configured ssid && (interval <=? wrap 32 (now - wm_lastReconnectMs m))) in *.
  destruct (if again then _ else _) as [m2 w2] eqn:E2.
  apply retry_spec in E2 as (a & M1 & Ha & Ka & Ts); [|done|by intros [? _]%andb_true_iff].
  assert (wm_mutex m2 = true) as Hm2 by (by rewrite (mv_mutex _ _ _ _ _ M1)).
  set (since := wm_disconnectedSinceMs m2) in E.
  set (late := negb (configured ssid) || (after <=? wrap 32 (now - since))) in E.
  assert (exists b started, moved m2 w2 b m' w' /\
    steps_of b = (if late then start_steps m (wm_apActive m) started else []) /\
    wm_apActive m' = wm_apActive m || (late && started)) as (b & started & M2 & Hb & Kb).
  { destruct late.
    - apply startFallbackAp_spec in E as (b & started & M & Hb & Kb); [|done].
      exists b, started. split; [done|]. unfold start_steps in *.
      rewrite (st_apSsid _ _ _ _ Ts), Es, Ka, Ea in Hb. rewrite Ka, Ea in Kb. done.
    - injection E as <- <-. exists [], false. split; [apply moved_refl|]. split; [done|].
      cbn. rewrite orb_false_r. congruence. }
  exists (a ++ b), since, started.
  split; [eapply moved_fields; [exact (moved_trans _ _ _ _ _ _ _ _ M1 M2)|..]; congruence|].
  split; [|by rewrite steps_app, Ha, Hb].
  destruct M1 as [_ C1 _ _], M2 as [_ C2 _ _]. unfold since. split; intros E0.
  - rewrite (st_set _ _ _ _ Ts), Ed; rewrite ?Ed; by destruct (Z.eqb_spec (wm_disconnectedSinceMs m) 0).
  - rewrite E0 in Ed. change (0 =? 0) with true in Ed. cbv iota in Ed.
    destruct (decide (now = 0)) as [Hn|Hn].
    + destruct (st_unset _ _ _ _ Ts) as [E3|(T & HT & E3)]; [congruence|left; congruence|].
      right. exists T. split; [lia|done].
    + left. rewrite (st_set _ _ _ _ Ts); congruence.
Qed.

(** The attempt that was asked for. *)
Lemma reconnect_spec (asked : bool) ssid password m w m' w' :
  wm_mutex m = true ->
  (if asked then beginSta (Some ssid) (Some password) m w else (m, w)) = (m', w') ->
  exists new started, moved m w new m' w' /\
    steps_of new =
      (if asked then attempt_steps m ssid password (wm_apActive m) started else []) /\
    wm_apActive m' = wm_apActive m || (asked && negb (configured ssid) && started) /\
    same_timers m w m' w' /\
    (if asked
     then exists T', wifi_clock w <= T' <= wifi_clock w' /\ wm_lastReconnectMs m' = wrap 32 T'
     else wm_lastReconnectMs m' = wm_lastReconnectMs m).
Proof.
  intros Hm Er. destruct asked.
  - apply beginSta_spec in Er as (b & started & M & Hb & Kb & Ts & T' & HT' & El); [|done].
    exists b, started. split_and!; [done..|]. by exists T'.
  - injection Er as <- <-. exists [], false. split; [apply moved_refl|].
    split_and!; [done|by rewrite orb_false_r| |done]. split; [done..|]. by left.
Qed.

(** What follows an attempt that was asked for: [now] is the time the round reads first,
    [last] that of the last attempt so far, [since] that from which the connection is
    down, [active] whether the access point runs, and [started] the driver's answer to a
    start of it. *)
Definition follow_steps (was conn : bool) (m : WifiManager) (now last since : Z)
    (active started : bool) : list WifiStep :=
  if conn then
    if active && (wm_apGraceMs m <=? wrap 32 (now - (if was then wm_connectedSinceMs m else now)))
    then [StopAp] else []
  else
    (if configured (wm_ssid m) && (wm_reconnectIntervalMs m <=? wrap 32 (now - last))
     then [Attempt (text (wm_ssid m)) (text (wm_password m))] else []) ++
    (if negb (configured (wm_ssid m)) || (wm_fallbackAfterMs m <=? wrap 32 (now - since))
     then start_steps m active started else []).

(** The steps of a round; [first], [second]: the driver's answers. *)
Definition round_steps (was conn : bool) (m : WifiManager) (now last since : Z)
    (first second : bool) : list WifiStep :=
  let asked := wm_reconnectRequested m in
  (if asked then attempt_steps m (wm_ssid m) (wm_password m) (wm_apActive m) first else []) ++
  follow_steps was conn m now last since
    (wm_apActive m || (asked && negb (configured (wm_ssid m)) && first)) second.

(** The access point after some steps. *)
Definition ap_step (active : bool) (step : WifiStep) : bool :=
  match step with
  | Attempt _ _ => active
  | StartAp _ _ started => active || started
  | StopAp => false
  end.

(** The times of a round between the worlds [w] and [w']. *)
Definition round_times (was conn : bool) (m : WifiManager) (w w' : W) (now last since : Z) : Prop :=
  exists T, wifi_clock w <= T <= wifi_clock w' /\ now = wrap 32 T /\
    (if wm_reconnectRequested m
     then exists T', T <= T' <= wifi_clock w' /\ last = wrap 32 T'
     else last = wm_lastReconnectMs m) /\
    (conn = false ->
     let down := if was then now else wm_disconnectedSinceMs m in
     (down <> 0 -> since = down) /\
     (down = 0 -> exists T', T <= T' <= wifi_clock w' /\ since = wrap 32 T')).

Lemma foldl_attempt_steps m ssid password active started :
  foldl ap_step active (attempt_steps m ssid password active started) =
    active || (negb (configured ssid) && started).
Proof.
  unfold attempt_steps, start_steps. by destruct (configured ssid), active, started.
Qed.

Lemma foldl_start_steps m active started :
  foldl ap_step active (start_steps m active started) = active || started.
Proof. unfold start_steps. by destruct active. Qed.

Lemma foldl_follow_steps was conn m now last since active started :
  foldl ap_step active (follow_steps was conn m now last since active started) =
    if conn
    then active && negb (wm_apGraceMs m <=?
           wrap 32 (now - (if was then wm_connectedSinceMs m else now)))
    else active || ((negb (configured (wm_ssid m)) ||
                     (wm_fallbackAfterMs m <=? wrap 32 (now - since))) && started).
Proof.
  unfold follow_steps, start_steps. destruct conn.
  - destruct active; [|done]. cbn [andb]. by destruct (wm_apGraceMs m <=? _).
  - rewrite foldl_app. destruct (configured _ && _); cbn [foldl ap_step];
      destruct (negb _ || _), active; try done; cbn; by rewrite ?orb_false_r.
Qed.

Lemma foldl_round_steps was conn m now last since first second :
  foldl ap_step (wm_apActive m) (round_steps was conn m now last since first second) =
    let active := wm_apActive m ||
      (wm_reconnectRequested m && negb (configured (wm_ssid m)) && first) in
    foldl ap_step active (follow_steps was conn m now last since active second).
Proof.
  unfold round_steps. rewrite foldl_app. cbv zeta. f_equal.
  destruct (wm_reconnectRequested m); [apply foldl_attempt_steps|by rewrite orb_false_r].
Qed.

(** What follows, in terms of the manager the round began with. *)
Lemma follow_spec (was conn : bool) m now m4 w4 m' w' :
  wm_mutex m4 = true -> wm_fallbackApSsid m4 = wm_fallbackApSsid m ->
  (conn = true -> wm_connectedSinceMs m4 = if was then wm_connectedSinceMs m else now) ->
  followConnection conn now (wm_ssid m) (wm_password m) (wm_reconnectIntervalMs m)
    (wm_fallbackAfterMs m) (wm_apGraceMs m) m4 w4 = (m', w') ->
  exists new since started, moved m4 w4 new m' w' /\ down_since m4 w4 now w' since /\
    let steps := follow_steps was conn m now (wm_lastReconnectMs m4) since (wm_apActive m4) started in
    steps_of new = steps /\ wm_apActive m' = foldl ap_step (wm_apActive m4) steps.
Proof.
  intros Hm Es Hc E. destruct conn.
  - apply followConnected in E as (new & M & Hs & Ha); [|done].
    set (since := if wm_disconnectedSinceMs m4 =? 0 then now else wm_disconnectedSinceMs m4).
    exists new, since, false. cbv zeta. rewrite foldl_follow_steps. unfold follow_steps.
    rewrite <- (Hc eq_refl). split; [done|]. split; [|done].
    unfold since, down_since. destruct (Z.eqb_spec (wm_disconnectedSinceMs m4) 0);
      (split; intros ?; [done|by left]).
  - apply followDisconnected in E as (new & since & started & M & Hd & Hs & Ha); [|done].
    exists new, since, started. cbv zeta. rewrite foldl_follow_steps. split; [done|]. split; [done|].
    split; [|done]. rewrite Hs. unfold follow_steps, start_steps. by rewrite Es.
Qed.

Lemma round_spec was m w conn m' w' :
  wm_mutex m = true -> wifiRound was m w = (conn, m', w') ->
  exists new now last since first second, moved m w new m' w' /\
    round_times was conn m w w' now last since /\
    steps_of new = round_steps was conn m now last since first second /\
    wm_apActive m' =
      foldl ap_step (wm_apActive m) (round_steps was conn m now last since first second).
Proof.
  intros Hm E. unfold wifiRound in E. rewrite Hm in E. cbn [andb] in E.
  set (m0 := m <| wm_reconnectRequested := false |>) in E.
  destruct (millis w) as [now w1] eqn:Et. pose proof (moved_time m _ _ _ Et) as M1.
  apply wifi_millis_law in Et as (_ & T & HT & ->).
  destruct (wifi_connected w1) as [c w2] eqn:Ec.
  assert (moved m w1 [] m w2) as M2.
  { apply wifi_connected_law in Ec as [Ec C]. split; [by rewrite app_nil_r|done..]. }
  destruct (noteConnection c was (wrap 32 T) m0 w2) as [m3 w3] eqn:En.
  apply noteConnection_spec in En as (a & M3 & Ha & Ka & Kf & Kl & Kc & Kd); [|by destruct m].
  assert (wm_mutex m3 = true) as Hm3 by (rewrite (mv_mutex _ _ _ _ _ M3); by destruct m).
  destruct (if wm_reconnectRequested m then _ else (m3, w3)) as [m4 w4] eqn:Er.
  apply reconnect_spec in Er as (b & first & M4 & Hb & Kb & Ts & Tl); [|done].
  assert (wm_mutex m4 = true) as Hm4 by (by rewrite (mv_mutex _ _ _ _ _ M4)).
  destruct (followConnection _ _ _ _ _ _ _ m4 w4) as [m5 w5] eqn:Ef. injection E as <- <- <-.
  assert (wm_apActive m3 = wm_apActive m /\ wm_fallbackApSsid m3 = wm_fallbackApSsid m)
    as [Ea3 Es3] by (rewrite Ka, Kf; by destruct m).
  apply (follow_spec was c m) in Ef as (d & since & second & M5 & Hd & Hs & Ka5);
    [|done|by rewrite (st_apSsid _ _ _ _ Ts), Es3|].
  2:{ intros ->. rewrite (st_connected _ _ _ _ Ts), Kc. destruct was; [by destruct m|done]. }
  rewrite Ea3 in Kb. rewrite Kb in Hs, Ka5.
  exists ([] ++ [] ++ a ++ b ++ d), (wrap 32 T), (wm_lastReconnectMs m4), since, first, second.
  pose proof (moved_trans _ _ _ _ _ _ _ _ M3 (moved_trans _ _ _ _ _ _ _ _ M4 M5)) as M.
  split; [|split; [|split]].
  - eapply moved_trans; [exact M1|]. eapply moved_trans; [exact M2|].
    eapply moved_fields; [exact M|..]; by destruct m.
  - pose proof (mv_clock _ _ _ _ _ M2). pose proof (mv_clock _ _ _ _ _ M3).
    pose proof (mv_clock _ _ _ _ _ M4). pose proof (mv_clock _ _ _ _ _ M5).
    exists T. split; [lia|]. split; [done|]. split.
    { destruct (wm_reconnectRequested m).
      - destruct Tl as (T' & HT' & El). exists T'. split; [lia|done].
      - rewrite Tl, Kl. by destruct m. }
    intros ->. assert (wm_disconnectedSinceMs m3 =
      if was then wrap 32 T else wm_disconnectedSinceMs m) as E3
      by (rewrite Kd; destruct was; [done|by destruct m]).
    rewrite <- E3. destruct Hd as [Hd1 Hd2]. split.
    + intros Hn. rewrite Hd1; rewrite (st_set _ _ _ _ Ts); done.
    + intros Hz. destruct (st_unset _ _ _ _ Ts Hz) as [E4|(T4 & HT4 & E4)].
      * destruct (Hd2 E4) as [->|(T5 & HT5 & ->)]; [exists T|exists T5]; (split; [lia|done]).
      * destruct (decide (wm_disconnectedSinceMs m4 = 0)) as [E0|E0].
        -- destruct (Hd2 E0) as [->|(T5 & HT5 & ->)]; [exists T|exists T5]; (split; [lia|done]).
        -- exists T4. split; [lia|]. rewrite Hd1; done.
  - cbn [app]. rewrite !steps_app, Ha, Hb, Hs, Ea3. cbn [app]. unfold round_steps, attempt_steps, start_steps.
    by rewrite Es3.
  - by rewrite foldl_round_steps.
Qed.

(** C27: the commands a round of the Wi-Fi task (of a manager whose mutex exists) gives the
    driver to connect, to start the access point and to stop it are exactly those its state and its timers call for, in
    this order ([round_steps]): an attempt with the stored credentials when a reconnect
    was requested, whatever the timers say (or a start of the access point when no
    network is configured); then, while disconnected, an attempt if a network is
    configured and the reconnect interval is over, and a start of the access point if it
    does not run yet and either no network is configured or the connection has been down
    for the fallback time; while connected, the end of a running access point once the
    connection has lasted for the grace time.  The manager's flag follows these steps.
    The times compared are those of the manager's fields and of the clock in the round
    ([round_times]); differences are taken modulo 2^32. *)
Theorem wifi_round_decisions was m w conn m' w' :
  wm_mutex m = true -> wifiRound was m w = (conn, m', w') ->
  exists new now last since first second, wifi_history w' = wifi_history w ++ new /\
    round_times was conn m w w' now last since /\
    steps_of new = round_steps was conn m now last since first second /\
    wm_apActive m' =
      foldl ap_step (wm_apActive m) (round_steps was conn m now last since first second).
Proof.
  intros Hm E. destruct (round_spec _ _ _ _ _ _ Hm E)
    as (new & now & last & since & first & second & M & R).
  exists new, now, last, since, first, second. split; [by destruct M|exact R].
Qed.

(** ** Runs *)

(** The manager after [begin], with the last answer of the driver about the
    connection; between rounds the dashboard changes the configuration or requests a
    reconnect, and the rest of the gateway moves the world on without commands to
    the driver. *)
Inductive wifi_run : bool -> WifiManager -> W -> Prop :=
  | run_begin taskCreated config mac w ok m w' :
      ap_running (wifi_history w) = false ->
      wifiBegin true taskCreated config mac WifiManager_init w = (ok, m, w') ->
      wifi_run false m w'
  | run_round was m w conn m' w' :
      wifi_run was m w -> wifiRound was m w = (conn, m', w') -> wifi_run conn m' w'
  | run_apply config was m w : wifi_run was m w -> wifi_run was (wifiApplyConfig config m) w
  | run_request was m w : wifi_run was m w -> wifi_run was (requestReconnect m) w
  | run_elsewhere was m w w' :
      wifi_run was m w -> wifi_history w' = wifi_history w -> wifi_run was m w'.

Lemma applyConfig_keeps config m :
  wm_mutex (wifiApplyConfig config m) = wm_mutex m /\
  wm_apActive (wifiApplyConfig config m) = wm_apActive m.
Proof. unfold wifiApplyConfig. destruct (negb _); by destruct m. Qed.

Lemma begin_moved taskCreated config mac w ok m w' :
  wifiBegin true taskCreated config mac WifiManager_init w = (ok, m, w') ->
  exists new, moved (WifiManager_init <| wm_mutex := true |>) w new m w'.
Proof.
  intros E. unfold wifiBegin in E. cbn [negb] in E.
  set (m0 := WifiManager_init <| wm_mutex := true |>) in *.
  set (m1 := wifiApplyConfig config _) in E.
  assert (wm_mutex m1 = true /\ wm_apActive m1 = false) as [Hm1 Ha1].
  { unfold m1. by rewrite !(proj1 (applyConfig_keeps _ _)), !(proj2 (applyConfig_keeps _ _)). }
  destruct (moved_quiet (WifiPersistent false) m0 w (fun _ => eq_refl)) as [b1 M1].
  set (w1 := wifi_call _ w) in *.
  destruct (moved_quiet (WifiAutoReconnect false) m0 w1 (fun _ => eq_refl)) as [b2 M2].
  set (w2 := wifi_call _ w1) in *.
  destruct (moved_quiet (WifiSleep false) m0 w2 (fun _ => eq_refl)) as [b3 M3].
  set (w3 := wifi_call _ w2) in *.
  destruct (moved_quiet (WifiHostname kMdnsHost) m0 w3 (fun _ => eq_refl)) as [b4 M4].
  set (w4 := wifi_call _ w3) in *.
  destruct (millis w4) as [now w5] eqn:Et. apply (moved_time m0) in Et as M5.
  set (m2 := m1 <| wm_disconnectedSinceMs := now |>) in E.
  assert (wm_mutex m2 = true /\ wm_apActive m2 = false) as [Hm2 Ha2] by (by destruct m1).
  destruct (if default 0 _ =? 0 then _ else _) as [m3 w6] eqn:E6. injection E as _ <- <-.
  assert (exists new, moved m2 w5 new m3 w6) as [new M6].
  { destruct (_ =? 0).
    - apply startFallbackAp_spec in E6 as (new & _ & M & _); [by exists new|done].
    - apply beginSta_spec in E6 as (new & _ & M & _); [by exists new|done]. }
  eexists. eapply moved_trans; [exact M1|]. eapply moved_trans; [exact M2|].
  eapply moved_trans; [exact M3|]. eapply moved_trans; [exact M4|].
  eapply moved_trans; [exact M5|]. eapply moved_fields; [exact M6|done..].
Qed.

(** C28: the access point the manager reports is the one that runs: after [begin]
    and any sequence of rounds, changes of the configuration and requests, the flag
    is set exactly when the commands given to the driver, with the answers it gave,
    have left the access point running. *)
Theorem fallback_ap_tracked was m w :
  wifi_run was m w ->
  wm_mutex m = true /\ wm_apActive m = ap_running (wifi_history w) /\
  wf_fallbackApActive (wifiStatus m w).1 = ap_running (wifi_history w).
Proof.
  intros R. assert (wm_mutex m = true /\ wm_apActive m = ap_running (wifi_history w)) as [Hm Ha].
  { induction R as [task config mac w ok m w' Hw E|was m w conn m' w' _ [Hm IH] E
      |config was m w _ [Hm IH]|was m w _ [Hm IH]|was m w w' _ [Hm IH] E].
    - apply begin_moved in E as (new & [Eh _ Ea Em]). unfold ap_running in *.
      by rewrite Eh, foldl_app, Hw, Ea, Em.
    - destruct (round_spec _ _ _ _ _ _ Hm E) as (new & ? & ? & ? & ? & ? & [Eh _ Ea Em] & _).
      unfold ap_running in *. by rewrite Eh, foldl_app, Ea, Em, IH.
    - by rewrite !(proj1 (applyConfig_keeps _ _)), !(proj2 (applyConfig_keeps _ _)).
    - unfold requestReconnect. rewrite Hm. by destruct m.
    - by rewrite E. }
  split_and!; [done..|]. unfold wifiStatus. rewrite Hm. cbn [negb].
  destruct (wifi_connected w) as [conn w1]. rewrite <- Ha. destruct conn; [|done].
  destruct (wifi_localIP w1) as [ip w2]. by destruct (wifi_RSSI w2).
Qed.

End Theorems.

(** ** A driver in memory

    The connection is up or down throughout; every reading of the clock takes
    [tick] milliseconds. *)

Record SimulatedWifi := mkSimulatedWifi {
  sw_clock : Z;
  sw_tick : N;
  sw_connected : bool;
  sw_softAP : bool;
  sw_history : list (WifiCall * bool);
}.

#[export] Instance simulated_millis : Millis SimulatedWifi := {
  millis w := (wrap 32 (sw_clock w),
               mkSimulatedWifi (sw_clock w + Z.of_N (sw_tick w)) (sw_tick w) (sw_connected w)
                 (sw_softAP w) (sw_history w));
}.

#[export] Instance simulated_readings : WifiReadings SimulatedWifi := {
  wifi_connected w := (sw_connected w, w);
  wifi_getMode w := (WIFI_STA, w);
  wifi_stationNum w := (0, w);
  wifi_localIP w := (chars "192.168.1.20", w);
  wifi_RSSI w := (-60, w);
}.

#[export] Instance simulated_control : WifiControl SimulatedWifi := {
  wifi_do c w :=
    let answer := match c with WifiSoftAP _ _ => sw_softAP w | _ => true end in
    (answer, mkSimulatedWifi (sw_clock w) (sw_tick w) (sw_connected w) (sw_softAP w)
               (sw_history w ++ [(c, answer)]));
}.

#[export] Instance simulated_wifi : WifiWorld SimulatedWifi.
Proof.
  refine {| wifi_history := sw_history; wifi_clock := sw_clock |}; cbn.
  - intros c w b w' [= <- <-]. cbn. split; [done|lia].
  - intros w t w' [= <- <-]. cbn. split; [done|]. exists (sw_clock w). split; [lia|done].
  - intros w b w' [= <- <-]. split; [done|lia].
Defined.

Definition sampleCredentials : GatewayConfig :=
  GatewayConfig_init <| cf_wifiSsid := chars "field" ++ [0] |>
                     <| cf_wifiPassword := chars "12345678" ++ [0] |>.

(** The gateway has begun at the given time; one round has answered the request
    [begin] leaves behind. *)
Definition begunWifi (tick : N) (connected : bool) :=
  wifiBegin true true sampleCredentials (Some (chars "AABBCCDDEEFF")) WifiManager_init
    (mkSimulatedWifi 5 tick connected true []).

Definition firstRound (tick : N) (connected : bool) :=
  let '(_, m, w) := begunWifi tick connected in wifiRound false m w.

(** A minute later the fallback access point comes up and a new attempt is made. *)
Definition laterWorld : SimulatedWifi :=
  mkSimulatedWifi 60005 0 false true (sw_history (firstRound 0 false).2).

Definition laterRound := wifiRound false (firstRound 0 false).1.2 laterWorld.

Definition steps_since (before after : SimulatedWifi) : list WifiStep :=
  steps_of (drop (length (sw_history before)) (sw_history after)).

(** Half a minute later there is an attempt and no access point yet. *)
Definition soonerWorld : SimulatedWifi :=
  mkSimulatedWifi 30005 0 false true (sw_history (firstRound 0 false).2).

Lemma wifi_round_decisions_witness :
  let attempt := Attempt (chars "field") (chars "12345678") in
  let m := (firstRound 0 false).1.2 in
  (exists new, wifi_history laterRound.2 = wifi_history laterWorld ++ new /\
     steps_of new = [attempt; StartAp (chars "GATHRA-GW-DDEEFF") kFallbackApPassword true]) /\
  (exists new, wifi_history (wifiRound false m soonerWorld).2 = wifi_history soonerWorld ++ new /\
     steps_of new = [attempt]).
Proof.
  cbv zeta. assert (wm_mutex (firstRound 0 false).1.2 = true) as Hm by (vm_compute; reflexivity).
  split.
  - assert (wifiRound false (firstRound 0 false).1.2
      laterWorld = (laterRound.1.1, laterRound.1.2, laterRound.2)) as E by (vm_compute; reflexivity).
    destruct (wifi_round_decisions _ _ _ _ _ _ Hm E) as (new & _ & _ & _ & _ & _ & Eh & _).
    exists new. split; [exact Eh|]. assert (steps_since laterWorld laterRound.2 = steps_of new) as <-
      by (unfold steps_since; change sw_history with wifi_history;
          by rewrite Eh, drop_app_length).
    vm_compute. reflexivity.
  - destruct (wifiRound false (firstRound 0 false).1.2 soonerWorld) as [[conn m'] w'] eqn:E.
    destruct (wifi_round_decisions _ _ _ _ _ _ Hm E) as (new & _ & _ & _ & _ & _ & Eh & _).
    exists new. split; [exact Eh|]. assert (steps_since soonerWorld w' = steps_of new) as <-
      by (unfold steps_since; change sw_history with wifi_history;
          by rewrite Eh, drop_app_length).
    change w' with (conn, m', w').2. rewrite <- E. vm_compute. reflexivity.
Defined.

Lemma fallback_ap_tracked_witness :
  wm_apActive laterRound.1.2 = true /\ ap_running (wifi_history laterRound.2) = true.
Proof.
  assert (wm_apActive laterRound.1.2 = true) as Ha by (vm_compute; reflexivity).
  assert (wifi_run laterRound.1.1 laterRound.1.2 laterRound.2) as R.
  { eapply (run_round (firstRound 0 false).1.1 (firstRound 0 false).1.2
      laterWorld); [|vm_compute; reflexivity].
    eapply (run_elsewhere _ _ (firstRound 0 false).2); [|vm_compute; reflexivity].
    eapply (run_round false (begunWifi 0 false).1.2 (begunWifi 0 false).2);
      [|vm_compute; reflexivity].
    eapply (run_begin true sampleCredentials (Some (chars "AABBCCDDEEFF"))
      (mkSimulatedWifi 5 0 false true []) (begunWifi 0 false).1.1); vm_compute; reflexivity. }
  pose proof (proj1 (proj2 (fallback_ap_tracked _ _ _ R))) as Ht.
  split; [exact Ha|]. exact (eq_trans (eq_sym Ht) Ha).
Defined.

(** When the clock moves on by a millisecond within the round, a requested
    reconnect is made twice: [now - lastReconnectMs_] has wrapped below zero. *)
Lemma requested_reconnect_twice :
  steps_since (begunWifi 1 false).2 (firstRound 1 false).2 =
    [Attempt (chars "field") (chars "12345678"); Attempt (chars "field") (chars "12345678")] /\
  steps_since (begunWifi 0 false).2 (firstRound 0 false).2 =
    [Attempt (chars "field") (chars "12345678")].
Proof. split; vm_compute; reflexivity. Qed.
