(* ===== verification/Logger.v ===== *)
(** * The log ring (lib/logging/logger)

    The last [kLogCapacity] messages, kept in RAM for the dashboard.  Formatting is
    the C library's; the text that is logged is given. *)

From Stdlib Require Import ZArith Lia String.
From stdpp Require Import list.
From S2P Require Import Prelude BuildConfig CString Platform.
Open Scope Z_scope.

Module LogLevel.
Inductive t := kDebug | kInfo | kWarn | kError.
#[export] Instance t_eq_dec : EqDecision t.
Proof. solve_decision. Defined.
End LogLevel.
Export (hints) LogLevel.

Definition levelName (level : LogLevel.t) : string :=
  match level with
  | LogLevel.kDebug => "DEBUG"
  | LogLevel.kInfo => "INFO"
  | LogLevel.kWarn => "WARN"
  | LogLevel.kError => "ERROR"
  end.

Record LogEntry := mkLogEntry {
  le_uptimeMs : Z;
  le_level : LogLevel.t;
  le_subsystem : list Z;
  le_message : list Z;
}.

Definition LogEntry_init : LogEntry :=
  mkLogEntry 0 LogLevel.kInfo (zeros 9) (zeros kLogMessageCapacity).

(** [lg_mutex]: the mutex exists. *)
Record Logger := mkLogger {
  lg_mutex : bool;
  lg_entries : list LogEntry;
  lg_size : nat;
  lg_next : nat;
}.

Definition Logger_init : Logger :=
  mkLogger false (replicate kLogCapacity LogEntry_init) 0 0.

Definition loggerBegin (mutexCreated : bool) (l : Logger) : bool * Logger :=
  (mutexCreated, l <| lg_mutex := mutexCreated |>).

(** The entry of a message. *)
Definition logEntry (uptimeUs : Z) (level : LogLevel.t) (subsystem : ptr (list Z))
    (message : list Z) : LogEntry :=
  mkLogEntry (uptimeUs / 1000) level
    (strncpyz (le_subsystem LogEntry_init) (default (chars "APP") subsystem))
    (putText (le_message LogEntry_init) message).

(** [taken]: the mutex was obtained within its 10 milliseconds. *)
Definition log (taken : bool) (entry : LogEntry) (l : Logger) : Logger :=
  if negb (lg_mutex l) || negb taken then l
  else
    mkLogger (lg_mutex l) (<[lg_next l := entry]> (lg_entries l))
      (if (lg_size l <? kLogCapacity)%nat then S (lg_size l) else lg_size l)
      (Nat.modulo (lg_next l + 1) kLogCapacity).

(** The loop of [snapshot] from [index] on, [count] entries to go. *)
Fixpoint copyEntries (oldest skip index count : nat) (l : Logger) (output : list LogEntry)
  : list LogEntry :=
  match count with
  | O => output
  | S count =>
      let entry := default LogEntry_init
        (lg_entries l !! Nat.modulo (oldest + skip + index) kLogCapacity) in
      copyEntries oldest skip (S index) count l (<[index := entry]> output)
  end.

(** [taken]: the mutex was obtained within its 50 milliseconds. *)
Definition logSnapshot (taken : bool) (output : ptr (list LogEntry)) (capacity : nat)
    (l : Logger) : nat * ptr (list LogEntry) :=
  match output with
  | None => (0%nat, output)
  | Some buffer =>
      if (capacity =? 0)%nat || negb (lg_mutex l) || negb taken then (0%nat, output)
      else
        let count := if (lg_size l <? capacity)%nat then lg_size l else capacity in
        let oldest := if (lg_size l <? kLogCapacity)%nat then 0%nat else lg_next l in
        let skip := (lg_size l - count)%nat in
        (count, Some (copyEntries oldest skip 0 count l buffer))
  end.

(** ** The ring *)

(** The logger after the messages [kept] have been stored. *)
Record ring_ok (kept : list LogEntry) (l : Logger) : Prop := {
  ring_length : length (lg_entries l) = kLogCapacity;
  ring_size : lg_size l = Nat.min (length kept) kLogCapacity;
  ring_next : lg_next l = Nat.modulo (length kept) kLogCapacity;
  ring_entries : forall j, (length kept < j + kLogCapacity + 1)%nat -> (j < length kept)%nat ->
    lg_entries l !! Nat.modulo j kLogCapacity = kept !! j;
}.

Lemma capacity_pos : kLogCapacity <> 0%nat.
Proof. done. Qed.

(** Positions less than a capacity apart have different places. *)
Lemma places_differ (n i j : nat) :
  n <> 0%nat -> (i < j)%nat -> (j < i + n)%nat -> Nat.modulo i n <> Nat.modulo j n.
Proof.
  intros Hn Hij Hj E. pose proof (Nat.div_mod_eq i n). pose proof (Nat.div_mod_eq j n).
  pose proof (Nat.mod_upper_bound i n Hn). pose proof (Nat.mod_upper_bound j n Hn).
  assert (j / n = i / n \/ i / n + 1 <= j / n)%nat as [?|?]; [|nia..].
  pose proof (Nat.Div0.div_le_mono i j n). lia.
Qed.

Lemma log_ring entry kept l :
  ring_ok kept l -> lg_mutex l = true -> ring_ok (kept ++ [entry]) (log true entry l).
Proof.
  intros [L S N R] M. unfold log. rewrite M. cbn [negb orb].
  pose proof capacity_pos as Hc.
  pose proof (Nat.mod_upper_bound (length kept) kLogCapacity Hc).
  split; cbn [lg_entries lg_size lg_next]; rewrite ?length_app; change (length [entry]) with 1%nat.
  - by rewrite length_insert.
  - rewrite S. destruct (Nat.ltb_spec (Nat.min (length kept) kLogCapacity) kLogCapacity); lia.
  - rewrite N. by rewrite Nat.Div0.add_mod_idemp_l.
  - intros j Hj1 Hj2. rewrite N. destruct (decide (j = length kept)) as [->|Hne].
    + rewrite list_lookup_insert_eq by lia. by rewrite lookup_app_r, Nat.sub_diag.
    + rewrite list_lookup_insert_ne, lookup_app_l by
        (try lia; intros E; symmetry in E; revert E; apply places_differ; lia).
      apply R; lia.
Qed.

(** ** Snapshots *)

Lemma copyEntries_spec l oldest skip count index output :
  (index + count <= length output)%nat -> length (lg_entries l) = kLogCapacity ->
  copyEntries oldest skip index count l output =
  take index output ++
  map (fun i => default LogEntry_init
                  (lg_entries l !! Nat.modulo (oldest + skip + (index + i)) kLogCapacity))
    (seq 0 count) ++ drop (index + count) output.
Proof.
  intros Ho L. revert index output Ho.
  induction count as [|count IH]; intros index output Ho; cbn [copyEntries].
  - by rewrite Nat.add_0_r, app_nil_l, take_drop.
  - rewrite IH by (rewrite length_insert; lia).
    rewrite (take_S_r _ _ _ (list_lookup_insert_eq output index _ ltac:(lia))).
    rewrite take_insert_ge, drop_insert_lt by lia. rewrite <- app_assoc. f_equal.
    rewrite <- cons_seq. cbn [map app]. rewrite Nat.add_0_r. f_equal.
    rewrite <- seq_shift, map_map. replace (index + S count)%nat with (S index + count)%nat by lia.
    f_equal. apply map_ext. intros i. by rewrite Nat.add_succ_comm.
Qed.

(** The last [n] of some messages. *)
Definition last_of {A} (n : nat) (l : list A) : list A := drop (length l - n) l.

Lemma snapshot_ring kept l output capacity :
  ring_ok kept l -> lg_mutex l = true -> (0 < capacity <= length output)%nat ->
  let count := Nat.min (Nat.min (length kept) kLogCapacity) capacity in
  logSnapshot true (Some output) capacity l =
  (count, Some (last_of count kept ++ drop count output)).
Proof.
  intros [L S N R] M Hc count. unfold logSnapshot. rewrite M.
  destruct (Nat.eqb_spec capacity 0); [lia|]. cbn [negb orb].
  assert ((if (lg_size l <? capacity)%nat then lg_size l else capacity) = count) as ->
    by (unfold count; rewrite S; destruct (Nat.ltb_spec (Nat.min (length kept) kLogCapacity) capacity); lia).
  do 2 f_equal. rewrite copyEntries_spec by (unfold count; lia || done).
  rewrite take_0, app_nil_l, Nat.add_0_l. f_equal.
  apply list_eq. intros i. unfold last_of. rewrite lookup_drop.
  pose proof capacity_pos as Hp.
  assert (count <= length kept)%nat as Hk by (unfold count; lia).
  destruct (decide (i < count)%nat) as [Hi|Hi].
  - rewrite list_lookup_fmap, lookup_seq_lt by done. cbn [fmap option_fmap option_map].
    rewrite !Nat.add_0_l.
    assert (Nat.modulo ((if (lg_size l <? kLogCapacity)%nat then 0 else lg_next l) +
              (lg_size l - count) + i) kLogCapacity =
            Nat.modulo (length kept - count + i) kLogCapacity) as ->.
    { rewrite S, N. destruct (Nat.ltb_spec (Nat.min (length kept) kLogCapacity) kLogCapacity).
      - f_equal. lia.
      - assert (Nat.min (length kept) kLogCapacity = kLogCapacity) as -> by lia.
        rewrite <- !Nat.add_assoc, Nat.Div0.add_mod_idemp_l.
        replace (length kept + (kLogCapacity - count + i))%nat
          with (length kept - count + i + 1 * kLogCapacity)%nat by (unfold count in *; lia).
        apply Nat.Div0.mod_add. }
    rewrite R by (unfold count in *; lia).
    destruct (lookup_lt_is_Some_2 kept (length kept - count + i) ltac:(lia)) as [e ->]. done.
  - rewrite lookup_ge_None_2, lookup_ge_None_2; [done|..]; [lia|].
    rewrite length_fmap, length_seq. lia.
Qed.

(** ** Runs *)

(** The messages are logged in order; those whose mutex was not obtained in time
    are lost. *)
Fixpoint log_all (calls : list (bool * LogEntry)) (l : Logger) : Logger :=
  match calls with
  | [] => l
  | (taken, entry) :: calls => log_all calls (log taken entry l)
  end.

Definition taken_of (calls : list (bool * LogEntry)) : list LogEntry :=
  omap (fun c : bool * LogEntry => if fst c then Some (snd c) else None) calls.

Lemma log_all_ring calls kept l :
  ring_ok kept l -> lg_mutex l = true ->
  ring_ok (kept ++ taken_of calls) (log_all calls l) /\ lg_mutex (log_all calls l) = true.
Proof.
  revert kept l. induction calls as [|[taken entry] calls IH]; intros kept l R M; cbn [log_all].
  - by rewrite app_nil_r.
  - destruct taken; cbn [taken_of omap list_omap fst snd].
    + change (omap _ calls) with (taken_of calls). rewrite cons_middle, app_assoc. apply IH; [by apply log_ring|]. unfold log. by rewrite M.
    + apply IH; unfold log; by rewrite M.
Qed.

Lemma logger_ring : ring_ok [] (loggerBegin true Logger_init).2.
Proof. split; [apply length_replicate|done|done|cbn [length]; lia]. Qed.

(** C26: the log is the last [kLogCapacity] messages: after [begin] and any sequence
    of messages, a snapshot gives the newest ones whose mutex was obtained, as many
    as there are and fit, oldest first, and leaves the rest of the output alone;
    when the mutex is not obtained it gives none. *)
Theorem log_keeps_newest calls output capacity :
  (0 < capacity <= length output)%nat ->
  let l := log_all calls (loggerBegin true Logger_init).2 in
  let kept := taken_of calls in
  let count := Nat.min (Nat.min (length kept) kLogCapacity) capacity in
  logSnapshot true (Some output) capacity l =
    (count, Some (last_of count kept ++ drop count output)) /\
  logSnapshot false (Some output) capacity l = (0%nat, Some output).
Proof.
  intros Hc l kept count.
  destruct (log_all_ring calls [] _ logger_ring eq_refl) as [R M]. split.
  - by apply snapshot_ring.
  - unfold logSnapshot. by rewrite !orb_true_r.
Qed.

Definition sampleEntry (i : nat) : LogEntry :=
  logEntry (Z.of_nat i * 1000000) LogLevel.kWarn (Some (chars "QUEUE")) (chars "full").

Definition sampleCalls : list (bool * LogEntry) :=
  map (fun i => (negb (i =? 3)%nat, sampleEntry i)) (seq 0 100).

(** A hundred messages, of which the fourth is lost. *)
Lemma log_keeps_newest_witness :
  let l := log_all sampleCalls (loggerBegin true Logger_init).2 in
  lg_size l = 96%nat /\
  logSnapshot true (Some (replicate 2 LogEntry_init)) 2 l =
    (2%nat, Some (map sampleEntry [98; 99]%nat)).
Proof.
  split; [vm_compute; reflexivity|].
  etransitivity; [exact (proj1 (log_keeps_newest sampleCalls (replicate 2 LogEntry_init) 2
    ltac:(vm_compute; lia)))|].
  vm_compute. reflexivity.
Defined.
