(* ===== verification/OtaManager.v ===== *)
(** * Over-the-air updates (lib/ota/ota_manager)

    Which image runs, whether it still has to prove itself, and the decision at the
    end of the boot: keep it or roll back.  The production build is modelled (no
    [GATHRA_ROLLBACK_TEST_FAIL]); esp_ota and esp_partition act on a world [W]. *)

From Stdlib Require Import ZArith Lia String.
From stdpp Require Import list.
From S2P Require Import Prelude CString Platform.
Open Scope Z_scope.

(** ** What the manager calls *)

Inductive esp_ota_img_states_t :=
  | ESP_OTA_IMG_NEW | ESP_OTA_IMG_PENDING_VERIFY | ESP_OTA_IMG_VALID | ESP_OTA_IMG_INVALID
  | ESP_OTA_IMG_ABORTED | ESP_OTA_IMG_UNDEFINED | ESP_OTA_IMG_unnamed (v : Z).

#[export] Instance img_state_eq_dec : EqDecision esp_ota_img_states_t.
Proof. solve_decision. Defined.

(** The partitions looked for. *)
Inductive PartitionQuery := Ota0 | Ota1 | OtaData | SpiffsNamed (label : list Z).

Record esp_partition_t := mkPartition {
  pt_address : Z;
  pt_size : Z;
  pt_label : list Z;
}.

(** [esp_ota_mark_app_valid_cancel_rollback] and
    [esp_ota_mark_app_invalid_rollback_and_reboot]. *)
Inductive OtaCall := MarkValid | RollbackAndReboot.

(** [ota_state]: the state of a partition, when it can be read; [ota_do]: whether
    the call answered [ESP_OK]. *)
Class OtaPlatform (W : Type) := {
  ota_running : W -> ptr esp_partition_t * W;
  ota_state : esp_partition_t -> W -> option esp_ota_img_states_t * W;
  partition_find_first : PartitionQuery -> W -> ptr esp_partition_t * W;
  ota_do : OtaCall -> W -> bool * W;
}.

(** ** The manager *)

Definition stateName (state : esp_ota_img_states_t) : string :=
  match state with
  | ESP_OTA_IMG_NEW => "NEW"
  | ESP_OTA_IMG_PENDING_VERIFY => "PENDING_VERIFY"
  | ESP_OTA_IMG_VALID => "VALID"
  | ESP_OTA_IMG_INVALID => "INVALID"
  | ESP_OTA_IMG_ABORTED => "ABORTED"
  | ESP_OTA_IMG_UNDEFINED => "UNDEFINED"
  | ESP_OTA_IMG_unnamed _ => "UNKNOWN"
  end.

Record OtaManager := mkOtaManager {
  ot_pendingVerification : bool;
  ot_uploadInProgress : bool;
  ot_runningPartition : list Z;
  ot_imageStateName : string;
  ot_lastStatus : string;
}.

Definition OtaManager_init : OtaManager :=
  mkOtaManager false false (chars "unknown" ++ zeros 10) "UNDEFINED" "not checked".

Definition setUploadInProgress (value : bool) (o : OtaManager) : OtaManager :=
  o <| ot_uploadInProgress := value |>.

Section Operations.
Context {W : Type} `{OtaPlatform W}.

Definition otaBegin (o : OtaManager) (w : W) : OtaManager * W :=
  let '(running, w) := ota_running w in
  match running with
  | None => (o, w)
  | Some running =>
      let o := o <| ot_runningPartition :=
                      strncpyz (ot_runningPartition o) (pt_label running) |> in
      let '(state, w) := ota_state running w in
      match state with
      | None => (o, w)
      | Some state =>
          (o <| ot_imageStateName := stateName state |>
             <| ot_pendingVerification := bool_decide (state = ESP_OTA_IMG_PENDING_VERIFY) |>, w)
      end
  end.

Definition partitionLayoutSane (w : W) : bool * W :=
  let '(ota0, w) := partition_find_first Ota0 w in
  let '(ota1, w) := partition_find_first Ota1 w in
  let '(otaData, w) := partition_find_first OtaData w in
  let '(filesystem, w) := partition_find_first (SpiffsNamed (chars "littlefs")) w in
  (match ota0, ota1, otaData, filesystem with
   | Some ota0, Some ota1, Some _, Some filesystem =>
       (pt_size ota0 =? pt_size ota1) && (pt_size ota0 =? 0x160000) &&
       (pt_size filesystem =? 0x120000) &&
       (wrap 32 (pt_address filesystem + pt_size filesystem) <=? 0x400000)
   | _, _, _, _ => false
   end, w).

Definition completeBootValidation (configurationSane queueSane nvsSane : bool) (o : OtaManager)
    (w : W) : bool * OtaManager * W :=
  let '(layout, w) :=
    if configurationSane && queueSane && nvsSane then partitionLayoutSane w else (false, w) in
  let sane := configurationSane && queueSane && nvsSane && layout in
  if negb (ot_pendingVerification o) then
    (sane, o <| ot_lastStatus := (if sane then "boot checks passed; image was not pending"
                                  else "boot checks failed; image was not pending")%string |>, w)
  else if negb sane then
    let o := o <| ot_lastStatus := "boot validation failed; requesting rollback"%string |> in
    let '(_, w) := ota_do RollbackAndReboot w in
    (false, o, w)
  else
    let '(marked, w) := ota_do MarkValid w in
    if (marked : bool) then
      (true, o <| ot_pendingVerification := false |>
               <| ot_imageStateName := "VALID"%string |>
               <| ot_lastStatus := "pending image marked valid after internal boot checks"%string |>,
       w)
    else (false, o <| ot_lastStatus := "failed to mark pending image valid"%string |>, w).

End Operations.

(** ** What esp_ota promises *)

(** [ota_calls]: the calls made with their answers, oldest first; [partition]: the
    partition table, which nothing changes. *)
Class OtaLaws (W : Type) `{OtaPlatform W} := {
  ota_calls : W -> list (OtaCall * bool);
  partition : PartitionQuery -> W -> ptr esp_partition_t;
  find_first_law q w p w' :
    partition_find_first q w = (p, w') -> p = partition q w /\ ota_calls w' = ota_calls w /\
    forall q', partition q' w' = partition q' w;
  ota_do_law c w b w' :
    ota_do c w = (b, w') -> ota_calls w' = ota_calls w ++ [(c, b)];
}.

Section Laws.
Context {W : Type} `{OtaLaws W}.

(** The layout of partitions.csv: two application slots of 1,408 KiB, the OTA data,
    and a file system of 1,152 KiB within the 4 MiB of flash. *)
Definition layout_sane (w : W) : Prop :=
  exists a0 a1 d f, partition Ota0 w = Some a0 /\ partition Ota1 w = Some a1 /\
    partition OtaData w = Some d /\ partition (SpiffsNamed (chars "littlefs")) w = Some f /\
    pt_size a0 = 1408 * 1024 /\ pt_size a1 = 1408 * 1024 /\ pt_size f = 1152 * 1024 /\
    wrap 32 (pt_address f + pt_size f) <= 4 * 1024 * 1024.

Lemma partitionLayoutSane_spec w b w' :
  partitionLayoutSane w = (b, w') ->
  ota_calls w' = ota_calls w /\ (b = true <-> layout_sane w).
Proof.
  intros E. unfold partitionLayoutSane in E.
  destruct (partition_find_first Ota0 w) as [a0 w1] eqn:E1.
  destruct (partition_find_first Ota1 w1) as [a1 w2] eqn:E2.
  destruct (partition_find_first OtaData w2) as [d w3] eqn:E3.
  destruct (partition_find_first _ w3) as [f w4] eqn:E4.
  apply find_first_law in E1 as (P1 & C1 & T1), E2 as (P2 & C2 & T2), E3 as (P3 & C3 & T3),
    E4 as (P4 & C4 & _).
  rewrite T1 in P2. rewrite T2, T1 in P3. rewrite T3, T2, T1 in P4.
  injection E as <- <-. split; [congruence|]. unfold layout_sane. rewrite <- P1, <- P2, <- P3, <- P4.
  destruct a0 as [a0|], a1 as [a1|], d as [d|], f as [f|];
    try (split; [done|]; intros (? & ? & ? & ? & ? & ? & ? & ? & _); discriminate).
  rewrite !andb_true_iff, !Z.eqb_eq, Z.leb_le. split.
  - intros [[[Es Ea] Ef] Hl]. exists a0, a1, d, f. split_and!; try done; lia.
  - intros (? & ? & ? & ? & [= <-] & [= <-] & [= <-] & [= <-] & ? & ? & ? & ?).
    split_and!; lia.
Qed.

Lemma bootValidation_pending c q n o (w : W) ok o' w' :
  completeBootValidation c q n o w = (ok, o', w') ->
  ot_pendingVerification o = false -> ot_pendingVerification o' = false.
Proof.
  unfold completeBootValidation. destruct (if c && q && n then _ else _) as [layout w1].
  intros E Hp. rewrite Hp in E. injection E as <- <- <-. by destruct o.
Qed.

(** The checks of the boot. *)
Definition boot_sane (configurationSane queueSane nvsSane : bool) (w : W) : Prop :=
  configurationSane = true /\ queueSane = true /\ nvsSane = true /\ layout_sane w.

(** The decision, with the calls it makes. *)
Lemma bootValidation_spec c q n o w ok o' w' :
  completeBootValidation c q n o w = (ok, o', w') ->
  (ok = true -> boot_sane c q n w /\ ot_pendingVerification o' = false) /\
  (ot_pendingVerification o = false ->
     ota_calls w' = ota_calls w /\ (ok = true <-> boot_sane c q n w)) /\
  (ot_pendingVerification o = true ->
     exists call answer, ota_calls w' = ota_calls w ++ [(call, answer)] /\
       (call = MarkValid <-> boot_sane c q n w) /\
       (ok = true <-> call = MarkValid /\ answer = true) /\
       ot_pendingVerification o' = negb ok).
Proof.
  intros E. unfold completeBootValidation in E. unfold boot_sane.
  destruct (if c && q && n then _ else _) as [layout w1] eqn:El.
  assert (ota_calls w1 = ota_calls w /\
    (c && q && n && layout = true <-> c = true /\ q = true /\ n = true /\ layout_sane w))
    as [C1 Hs].
  { destruct (c && q && n) eqn:G.
    - apply partitionLayoutSane_spec in El as [C1 Hl]. split; [done|].
      rewrite !andb_true_iff in G. cbn [andb]. rewrite Hl. tauto.
    - injection El as <- <-. split; [done|]. split; [done|]. by intros (-> & -> & -> & _). }
  destruct (ot_pendingVerification o) eqn:Hp; cbn [negb] in E.
  - destruct (c && q && n && layout) eqn:Hsane; cbn [negb] in E.
    + destruct (ota_do MarkValid w1) as [b w2] eqn:Ed. apply ota_do_law in Ed.
      destruct b; injection E as <- <- <-.
      * split; [intros _; split; [by apply Hs|by destruct o]|]. split; [done|]. intros _.
        exists MarkValid, true. split_and!; [congruence|by rewrite <- Hs|done|by destruct o].
      * split; [done|]. split; [done|]. intros _. exists MarkValid, false.
        split_and!; [congruence|by rewrite <- Hs|split; [done|by intros [_ ?]]|by destruct o].
    + destruct (ota_do RollbackAndReboot w1) as [b w2] eqn:Ed. apply ota_do_law in Ed.
      injection E as <- <- <-. split; [done|]. split; [done|]. intros _.
      exists RollbackAndReboot, b.
      split_and!; [congruence|by rewrite <- Hs|split; [done|by intros [? _]]|by destruct o].
  - injection E as <- <- <-. split; [intros Hok; split; [by apply Hs|by destruct o]|].
    split; [|done]. intros _. split; [congruence|exact Hs].
Qed.

End Laws.
