(* ===== verification/TimeManager.v ===== *)
(** * Trusted time (lib/time/time_manager)

    The clock is trusted once SNTP has set it to a plausible date.  The SNTP
    callback, the worker of [TimeManager] and the readers of the clock run in
    different tasks; each critical section is one step. *)

From Stdlib Require Import ZArith Lia.
From S2P Require Import Prelude.
Open Scope Z_scope.

Record TrustedTimeSnapshot := mkTrustedTimeSnapshot {
  ts_trusted : bool;
  ts_unixMs : Z;
}.

Definition TrustedTimeSnapshot_init : TrustedTimeSnapshot := mkTrustedTimeSnapshot false (-1).

Record TimeStatus := mkTimeStatus {
  tst_trusted : bool;
  tst_currentUnixMs : Z;
  tst_lastSyncUnixMs : Z;
}.

(** [tmg_lastSntpSync] is the file's [gLastSntpSyncUnixMs], [tmg_observed] the
    worker's [observedSync]. *)
Record TimeManager := mkTimeManager {
  tmg_trusted : bool;
  tmg_lastSyncUnixMs : Z;
  tmg_lastSntpSync : Z;
  tmg_observed : Z;
}.

Definition TimeManager_init : TimeManager := mkTimeManager false (-1) (-1) (-1).

(** A [timeval]: seconds and microseconds. *)
Abbreviation timeval := (Z * Z)%type.

Definition kPlausibleSeconds : Z := 1700000000.

Definition timevalMs (value : timeval) : Z := fst value * 1000 + Z.quot (snd value) 1000.

Definition onSntpTimeSync (value : ptr timeval) (m : TimeManager) : TimeManager :=
  match value with
  | None => m
  | Some value =>
      if fst value <? kPlausibleSeconds then m
      else mkTimeManager (tmg_trusted m) (tmg_lastSyncUnixMs m) (timevalMs value)
             (tmg_observed m)
  end.

(** One round of [run]. *)
Definition timeRound (m : TimeManager) : TimeManager :=
  let sync := tmg_lastSntpSync m in
  if (0 <=? sync) && negb (sync =? tmg_observed m)
  then mkTimeManager true sync (tmg_lastSntpSync m) sync
  else m.

(** [clock]: the answer of [gettimeofday], [None] when it fails. *)
Definition timeNow (clock : option timeval) (m : TimeManager) : TrustedTimeSnapshot :=
  if negb (tmg_trusted m) then TrustedTimeSnapshot_init
  else
    match clock with
    | None => TrustedTimeSnapshot_init
    | Some value =>
        if fst value <? kPlausibleSeconds then TrustedTimeSnapshot_init
        else mkTrustedTimeSnapshot true (timevalMs value)
    end.

Definition timeStatus (clock : option timeval) (m : TimeManager) : TimeStatus :=
  let current := timeNow clock m in
  mkTimeStatus (ts_trusted current) (ts_unixMs current) (tmg_lastSyncUnixMs m).

(** What the other parts need: reading the time, in the world they act on. *)
Class TrustedTime (W : Type) := {
  time_now : W -> TrustedTimeSnapshot * W;
}.

(** ** Steps *)

(** The states reachable by callbacks and rounds, with the times SNTP has set. *)
Inductive time_reachable : list Z -> TimeManager -> Prop :=
  | reachable_init : time_reachable [] TimeManager_init
  | reachable_sync synced value m :
      time_reachable synced m ->
      time_reachable
        (match value with
         | Some v => if fst v <? kPlausibleSeconds then synced else timevalMs v :: synced
         | None => synced
         end) (onSntpTimeSync value m)
  | reachable_round synced m : time_reachable synced m -> time_reachable synced (timeRound m).

Record time_inv (synced : list Z) (m : TimeManager) : Prop := {
  ti_last : tmg_lastSntpSync m = -1 \/ tmg_lastSntpSync m ∈ synced;
  ti_trusted : if tmg_trusted m then tmg_lastSyncUnixMs m ∈ synced
               else tmg_lastSyncUnixMs m = -1;
}.

Lemma reachable_inv synced m : time_reachable synced m -> time_inv synced m.
Proof.
  induction 1 as [|synced value m _ [Hl Ht]|synced m _ [Hl Ht]].
  - split; [by left|done].
  - unfold onSntpTimeSync. destruct value as [v|]; [|by split].
    destruct (fst v <? kPlausibleSeconds); [by split|]. split; cbn; [right; by left|].
    destruct (tmg_trusted m); [by right|done].
  - unfold timeRound. destruct (_ && _) eqn:G; [|by split].
    apply andb_true_iff in G as [G%Z.leb_le _]. split; cbn; [done|].
    destruct Hl as [Hl|Hl]; [lia|done].
Qed.

(** C29: no time is trusted on faith: whatever the interleaving of SNTP callbacks
    and worker rounds, a trusted snapshot needs a past synchronisation to a
    plausible date, which is the one reported as the last, and a clock that shows
    a plausible date, which is the time reported; otherwise the time is -1. *)
Theorem trusted_time synced m clock :
  time_reachable synced m ->
  (ts_trusted (timeNow clock m) = true ->
     tmg_lastSyncUnixMs m ∈ synced /\ tst_lastSyncUnixMs (timeStatus clock m) ∈ synced /\
     exists value, clock = Some value /\ kPlausibleSeconds <= fst value /\
       ts_unixMs (timeNow clock m) = timevalMs value) /\
  (ts_trusted (timeNow clock m) = false -> timeNow clock m = TrustedTimeSnapshot_init).
Proof.
  intros [_ Ht]%reachable_inv. unfold timeStatus, timeNow in *.
  destruct (tmg_trusted m); cbn [negb]; [|done].
  destruct clock as [value|]; [|done].
  destruct (Z.ltb_spec (fst value) kPlausibleSeconds); [done|].
  split; [|done]. intros _. split_and!; [done|done|]. by exists value.
Qed.

Lemma trusted_time_witness :
  let m := timeRound (onSntpTimeSync (Some (1750000000, 500000)) TimeManager_init) in
  timeNow (Some (1750000007, 250000)) m = mkTrustedTimeSnapshot true 1750000007250 /\
  tmg_lastSyncUnixMs m ∈ [1750000000500].
Proof.
  split; [vm_compute; reflexivity|].
  refine (proj1 (proj1 (trusted_time [1750000000500]
    (timeRound (onSntpTimeSync (Some (1750000000, 500000)) TimeManager_init))
    (Some (1750000007, 250000)) _) _)).
  - apply reachable_round. exact (reachable_sync [] (Some (1750000000, 500000)) _ reachable_init).
  - vm_compute. reflexivity.
Defined.
