(* ===== verification/Heartbeat.v ===== *)
(** * Heartbeats (lib/heartbeat/heartbeat_contract)

    When a heartbeat is due, what it says, and how its outcome is read. *)

From Stdlib Require Import ZArith Lia String SpecFloat.
From stdpp Require Import list.
From S2P Require Import Prelude BuildConfig CString Metrics UtcTime Json.
Open Scope Z_scope.

Definition kHeartbeatSchemaVersion : Z := 1.
Definition kHeartbeatEndpoint : list Z := chars "/api/v1/iot/gateway/heartbeat".

Definition heartbeatIntervalValid (seconds : Z) : bool :=
  (kMinimumHeartbeatIntervalSeconds <=? seconds) && (seconds <=? kMaximumHeartbeatIntervalSeconds).

Definition heartbeatHttpSucceeded (httpStatus : Z) : bool :=
  (200 <=? httpStatus) && (httpStatus <? 300).

Module BackendConnectivityState.
Inductive t := kUnknown | kHealthy | kDegraded | kOffline.
#[export] Instance t_eq_dec : EqDecision t.
Proof. solve_decision. Defined.
End BackendConnectivityState.
Export (hints) BackendConnectivityState.

Definition classifyBackendConnectivity (successfulOperations consecutiveFailures : Z)
  : BackendConnectivityState.t :=
  if (successfulOperations =? 0) && (consecutiveFailures =? 0)
  then BackendConnectivityState.kUnknown
  else if consecutiveFailures =? 0 then BackendConnectivityState.kHealthy
  else if consecutiveFailures <? 3 then BackendConnectivityState.kDegraded
  else BackendConnectivityState.kOffline.

Definition backendConnectivityStateName (state : BackendConnectivityState.t) : string :=
  match state with
  | BackendConnectivityState.kUnknown => "UNKNOWN"
  | BackendConnectivityState.kHealthy => "HEALTHY"
  | BackendConnectivityState.kDegraded => "DEGRADED"
  | BackendConnectivityState.kOffline => "OFFLINE"
  end.

(** ** The scheduler *)

Record HeartbeatScheduler := mkHeartbeatScheduler {
  hs_intervalSeconds : Z;
  hs_nextDueUs : Z;
}.

Definition HeartbeatScheduler_init : HeartbeatScheduler :=
  mkHeartbeatScheduler kDefaultHeartbeatIntervalSeconds 0.

Definition heartbeatConfigure (intervalSeconds nowUs : Z) (h : HeartbeatScheduler)
  : bool * HeartbeatScheduler :=
  if negb (heartbeatIntervalValid intervalSeconds) then (false, h)
  else
    (true, mkHeartbeatScheduler intervalSeconds
             (wrap 64 (nowUs + wrap 64 (intervalSeconds * 1000000)))).

Definition heartbeatDue (nowUs : Z) (h : HeartbeatScheduler) : bool :=
  negb (hs_nextDueUs h =? 0) && (hs_nextDueUs h <=? nowUs).

Definition heartbeatMarkAttempt (nowUs : Z) (h : HeartbeatScheduler) : HeartbeatScheduler :=
  mkHeartbeatScheduler (hs_intervalSeconds h)
    (wrap 64 (nowUs + wrap 64 (hs_intervalSeconds h * 1000000))).

(** ** The snapshot *)

Record HeartbeatGateway := mkHeartbeatGateway {
  hg_gatewayId : list Z;
  hg_mac : list Z;
  hg_firmwareVersion : list Z;
  hg_protocolVersion : Z;
  hg_buildFlavor : list Z;
}.

Record HeartbeatRuntime := mkHeartbeatRuntime {
  hr_uptimeSeconds : Z;
  hr_resetReason : list Z;
  hr_bootCount : Z;
  hr_freeHeapBytes : Z;
  hr_minFreeHeapBytes : Z;
  hr_largestFreeHeapBlockBytes : Z;
  hr_sketchSizeBytes : Z;
  hr_freeSketchSpaceBytes : Z;
  hr_flashSizeBytes : Z;
}.

Record HeartbeatNetwork := mkHeartbeatNetwork {
  hn_wifiConnected : bool;
  hn_ssid : list Z;
  hn_wifiRssiDbm : Z;
  hn_localIp : list Z;
  hn_backendConnectivityState : BackendConnectivityState.t;
  hn_lastBackendSuccessUnixMs : Z;
  hn_lastBackendErrorUnixMs : Z;
  hn_consecutiveBackendFailures : Z;
}.

Record HeartbeatTime := mkHeartbeatTime {
  ht_valid : bool;
  ht_currentUnixMs : Z;
  ht_lastNtpSyncUnixMs : Z;
}.

Record HeartbeatLora := mkHeartbeatLora {
  hl_paired : bool;
  hl_pairedNodeId : list Z;
  hl_latestReceptionAvailable : bool;
  hl_lastRxUnixMs : Z;
  hl_latestRssiDbm : Z;
  hl_latestSnrDb : Z;
  hl_latestFrequencyErrorHz : Z;
  hl_receivedPacketCount : Z;
  hl_validTelemetryCount : Z;
  hl_invalidPacketCount : Z;
  hl_crcErrorCount : Z;
  hl_protocolRejectedPacketCount : Z;
  hl_unpairedRejectedPacketCount : Z;
}.

Record HeartbeatAck := mkHeartbeatAck {
  ha_count : Z;
  ha_successCount : Z;
  ha_failureCount : Z;
  ha_latestAvailable : bool;
  ha_latestRxToStartUs : Z;
  ha_latestRxToCompleteUs : Z;
  ha_rxToStart : RunningStatisticsSnapshot;
  ha_rxToComplete : RunningStatisticsSnapshot;
  ha_txDuration : RunningStatisticsSnapshot;
}.

Record HeartbeatQueue := mkHeartbeatQueue {
  hq_depth : Z;
  hq_capacity : Z;
  hq_oldestAgeAvailable : bool;
  hq_oldestRecordAgeSeconds : Z;
  hq_telemetryUploadSuccessCount : Z;
  hq_telemetryUploadFailureCount : Z;
}.

Record HeartbeatCommands := mkHeartbeatCommands {
  hc_pending : bool;
  hc_pendingCommandId : Z;
  hc_pendingCommandType : list Z;
  hc_pendingCommandState : list Z;
  hc_lastAvailable : bool;
  hc_lastCommandId : Z;
  hc_lastCommandResult : list Z;
  hc_commandsSentCount : Z;
  hc_commandResultsReceivedCount : Z;
}.

Record HeartbeatSnapshot := mkHeartbeatSnapshot {
  hb_heartbeatIntervalSeconds : Z;
  hb_gateway : HeartbeatGateway;
  hb_runtime : HeartbeatRuntime;
  hb_network : HeartbeatNetwork;
  hb_time : HeartbeatTime;
  hb_lora : HeartbeatLora;
  hb_ack : HeartbeatAck;
  hb_queue : HeartbeatQueue;
  hb_commands : HeartbeatCommands;
}.

(** ** The document *)

(** The value of a field set by [setTimestamp]. *)
Definition timestampValue (unixMs : Z) : json :=
  let '(okay, timestamp) := formatUtc unixMs (zeros 32) 32 in
  if okay then JText timestamp else JNull.

(** [x / 1000.0]. *)
Definition thousandth (x : double) : json := JDouble (double_div x (double_of_u64 1000)).

Definition millisecondsValue (available : bool) (microseconds : Z) : json :=
  if available then thousandth (double_of_u64 microseconds) else JNull.

Definition statisticsFields (minimumField maximumField averageField : string)
    (statistics : RunningStatisticsSnapshot) : list (string * json) :=
  if sn_count statistics =? 0
  then [(minimumField, JNull); (maximumField, JNull); (averageField, JNull)]
  else [(minimumField, thousandth (double_of_u64 (sn_minimum statistics)));
        (maximumField, thousandth (double_of_u64 (sn_maximum statistics)));
        (averageField, thousandth (sn_average statistics))].

Definition when (b : bool) (value : json) : json := if b then value else JNull.

Definition gatewayDocument (g : HeartbeatGateway) : json :=
  JObject [("gatewayId", JText (hg_gatewayId g)); ("mac", JText (hg_mac g));
           ("firmwareVersion", JText (hg_firmwareVersion g));
           ("protocolVersion", JInt (hg_protocolVersion g));
           ("buildFlavor", JText (hg_buildFlavor g))]%string.

Definition runtimeDocument (r : HeartbeatRuntime) : json :=
  JObject [("uptimeSeconds", JInt (hr_uptimeSeconds r));
           ("resetReason", JText (hr_resetReason r)); ("bootCount", JInt (hr_bootCount r));
           ("freeHeapBytes", JInt (hr_freeHeapBytes r));
           ("minFreeHeapBytes", JInt (hr_minFreeHeapBytes r));
           ("largestFreeHeapBlockBytes", JInt (hr_largestFreeHeapBlockBytes r));
           ("sketchSizeBytes", JInt (hr_sketchSizeBytes r));
           ("freeSketchSpaceBytes", JInt (hr_freeSketchSpaceBytes r));
           ("flashSizeBytes", JInt (hr_flashSizeBytes r))]%string.

Definition networkDocument (n : HeartbeatNetwork) : json :=
  JObject [("wifiConnected", JBool (hn_wifiConnected n)); ("ssid", JText (hn_ssid n));
           ("wifiRssiDbm", when (hn_wifiConnected n) (JInt (hn_wifiRssiDbm n)));
           ("localIp", when (hn_wifiConnected n) (JText (hn_localIp n)));
           ("backendConnectivityState",
              JString (chars (backendConnectivityStateName (hn_backendConnectivityState n))));
           ("lastBackendSuccessAt", timestampValue (hn_lastBackendSuccessUnixMs n));
           ("lastBackendErrorAt", timestampValue (hn_lastBackendErrorUnixMs n));
           ("consecutiveBackendFailures", JInt (hn_consecutiveBackendFailures n))]%string.

Definition timeDocument (t : HeartbeatTime) : json :=
  JObject [("timeValid", JBool (ht_valid t));
           ("currentUtc", when (ht_valid t) (timestampValue (ht_currentUnixMs t)));
           ("lastNtpSyncAt", when (ht_valid t) (timestampValue (ht_lastNtpSyncUnixMs t)));
           ("ntpAgeSeconds",
              when (ht_valid t && (0 <=? ht_lastNtpSyncUnixMs t)%Z &&
                    (ht_lastNtpSyncUnixMs t <=? ht_currentUnixMs t)%Z)
                (JInt (wrap 64%Z (Z.quot (ht_currentUnixMs t - ht_lastNtpSyncUnixMs t)%Z 1000%Z))))]%string.

Definition loraDocument (l : HeartbeatLora) : json :=
  JObject [("pairedNodeId", when (hl_paired l) (JText (hl_pairedNodeId l)));
           ("lastLoRaRxAt", timestampValue (hl_lastRxUnixMs l));
           ("latestRssiDbm", when (hl_latestReceptionAvailable l) (JFloat (hl_latestRssiDbm l)));
           ("latestSnrDb", when (hl_latestReceptionAvailable l) (JFloat (hl_latestSnrDb l)));
           ("latestFrequencyErrorHz",
              when (hl_latestReceptionAvailable l) (JInt (hl_latestFrequencyErrorHz l)));
           ("receivedPacketCount", JInt (hl_receivedPacketCount l));
           ("validTelemetryCount", JInt (hl_validTelemetryCount l));
           ("invalidPacketCount", JInt (hl_invalidPacketCount l));
           ("crcErrorCount", JInt (hl_crcErrorCount l));
           ("protocolRejectedPacketCount", JInt (hl_protocolRejectedPacketCount l));
           ("unpairedRejectedPacketCount", JInt (hl_unpairedRejectedPacketCount l))]%string.

Definition ackDocument (a : HeartbeatAck) : json :=
  JObject (List.concat [[("ackCount", JInt (ha_count a)); ("ackSuccessCount", JInt (ha_successCount a));
            ("ackFailureCount", JInt (ha_failureCount a));
            ("latencySampleCount", JInt (sn_count (ha_rxToStart a)));
            ("latestRxToAckStartMs",
               millisecondsValue (ha_latestAvailable a) (ha_latestRxToStartUs a));
            ("latestRxToAckCompleteMs",
               millisecondsValue (ha_latestAvailable a) (ha_latestRxToCompleteUs a));
            ("latestAckTxDurationMs",
               millisecondsValue (ha_latestAvailable a)
                 (if ha_latestAvailable a
                  then wrap 64%Z (ha_latestRxToCompleteUs a - ha_latestRxToStartUs a)%Z else 0%Z))];
           statisticsFields "minRxToAckStartMs" "maxRxToAckStartMs" "avgRxToAckStartMs"
             (ha_rxToStart a);
           statisticsFields "minRxToAckCompleteMs" "maxRxToAckCompleteMs"
             "avgRxToAckCompleteMs" (ha_rxToComplete a);
           statisticsFields "minAckTxDurationMs" "maxAckTxDurationMs" "avgAckTxDurationMs"
             (ha_txDuration a)])%string.

Definition queueDocument (q : HeartbeatQueue) : json :=
  JObject [("depth", JInt (hq_depth q)); ("capacity", JInt (hq_capacity q));
           ("oldestRecordAgeSeconds",
              when (hq_oldestAgeAvailable q) (JInt (hq_oldestRecordAgeSeconds q)));
           ("telemetryUploadSuccessCount", JInt (hq_telemetryUploadSuccessCount q));
           ("telemetryUploadFailureCount", JInt (hq_telemetryUploadFailureCount q))]%string.

Definition commandsDocument (c : HeartbeatCommands) : json :=
  JObject [("pendingCommandId", when (hc_pending c) (JInt (hc_pendingCommandId c)));
           ("pendingCommandType", when (hc_pending c) (JText (hc_pendingCommandType c)));
           ("pendingCommandState", when (hc_pending c) (JText (hc_pendingCommandState c)));
           ("lastCommandId", when (hc_lastAvailable c) (JInt (hc_lastCommandId c)));
           ("lastCommandResult", when (hc_lastAvailable c) (JText (hc_lastCommandResult c)));
           ("commandsSentCount", JInt (hc_commandsSentCount c));
           ("commandResultsReceivedCount", JInt (hc_commandResultsReceivedCount c))]%string.

Definition heartbeatDocument (s : HeartbeatSnapshot) : json :=
  JObject [("schemaVersion", JInt kHeartbeatSchemaVersion);
           ("heartbeatIntervalSeconds", JInt (hb_heartbeatIntervalSeconds s));
           ("gateway", gatewayDocument (hb_gateway s));
           ("runtime", runtimeDocument (hb_runtime s));
           ("network", networkDocument (hb_network s)); ("time", timeDocument (hb_time s));
           ("lora", loraDocument (hb_lora s)); ("ack", ackDocument (hb_ack s));
           ("queue", queueDocument (hb_queue s));
           ("commands", commandsDocument (hb_commands s))]%string.

Definition serializeHeartbeat `{JsonText} (s : HeartbeatSnapshot) : bool * list Z :=
  let json := serializeJson (heartbeatDocument s) in
  (negb (length json =? 0)%nat, json).

(** ** When heartbeats are sent

    The worker asks at the times [ticks] whether a heartbeat is due and marks the
    attempt; [attempts] are the times at which it does. *)

Fixpoint attempts (ticks : list Z) (h : HeartbeatScheduler) : list Z :=
  match ticks with
  | [] => []
  | t :: ticks =>
      if heartbeatDue t h then t :: attempts ticks (heartbeatMarkAttempt t h)
      else attempts ticks h
  end.

(** Microseconds of the uptime; they do not reach 2^63. *)
Definition uptime (t : Z) : Prop := 0 <= t < 2 ^ 63.

(** Consecutive times at least [gap] apart, the first one not before [from]. *)
Fixpoint spaced (gap from : Z) (times : list Z) : Prop :=
  match times with
  | [] => True
  | t :: times => from <= t /\ spaced gap (t + gap) times
  end.

Lemma next_due seconds t :
  uptime t -> heartbeatIntervalValid seconds = true ->
  wrap 64 (t + wrap 64 (seconds * 1000000)) = t + seconds * 1000000.
Proof.
  unfold uptime, heartbeatIntervalValid, kMinimumHeartbeatIntervalSeconds,
    kMaximumHeartbeatIntervalSeconds. intros Ht Hi.
  change (2 ^ 63) with 9223372036854775808 in Ht.
  rewrite !wrap_id; [done|..]; unfold is_u; change (2 ^ 64) with 18446744073709551616;
    try rewrite wrap_id; unfold is_u; change (2 ^ 64) with 18446744073709551616; lia.
Qed.

Lemma mark_next t h :
  uptime t -> heartbeatIntervalValid (hs_intervalSeconds h) = true ->
  hs_nextDueUs (heartbeatMarkAttempt t h) = t + hs_intervalSeconds h * 1000000.
Proof. apply next_due. Qed.

(** A scheduler whose next heartbeat is due at [due]. *)
Lemma due_from due t h :
  hs_nextDueUs h = due -> due <> 0 -> heartbeatDue t h = (due <=? t).
Proof. intros <- Hd. unfold heartbeatDue. by destruct (Z.eqb_spec (hs_nextDueUs h) 0). Qed.

Lemma last_after (y z : Z) l : List.last (y :: l) z = List.last l y.
Proof.
  revert y z. induction l as [|a l IH]; intros y z; [done|].
  change (List.last (a :: l) z = List.last (a :: l) y). by rewrite !IH.
Qed.

(** Each time the worker asks there is an attempt exactly when the interval has passed
    since the last one, or since [from] if there has been none. *)
Lemma attempts_exact ticks t h from :
  Forall uptime ticks -> heartbeatIntervalValid (hs_intervalSeconds h) = true -> uptime from ->
  hs_nextDueUs h = from + hs_intervalSeconds h * 1000000 ->
  attempts (ticks ++ [t]) h =
    attempts ticks h ++
    if List.last (attempts ticks h) from + hs_intervalSeconds h * 1000000 <=? t then [t] else [].
Proof.
  intros Ht. revert h from. induction Ht as [|x ticks Hx _ IH]; intros h from Hi Hf Hd;
    cbn [attempts app];
    (rewrite (due_from _ _ h Hd)
       by (unfold uptime, heartbeatIntervalValid, kMinimumHeartbeatIntervalSeconds in *; lia)).
  - cbn [List.last]. by destruct (_ <=? t).
  - destruct (_ <=? x); [|by apply IH]. pose proof (mark_next x h Hx Hi) as Em.
    pose proof (IH (heartbeatMarkAttempt x h) x Hi Hx Em) as E. cbn [hs_intervalSeconds heartbeatMarkAttempt] in E.
    rewrite E. cbn [app]. f_equal. f_equal.
    by rewrite last_after.
Qed.

(** What is attempted so is spaced. *)
Lemma attempts_spaced ticks h :
  Forall uptime ticks -> heartbeatIntervalValid (hs_intervalSeconds h) = true ->
  hs_nextDueUs h <> 0 ->
  spaced (hs_intervalSeconds h * 1000000) (hs_nextDueUs h) (attempts ticks h).
Proof.
  intros Ht. revert h. induction Ht as [|t ticks Ht _ IH]; intros h Hi Hn; [done|].
  cbn [attempts]. destruct (heartbeatDue t h) eqn:E; [|by apply IH].
  unfold heartbeatDue in E. apply andb_true_iff in E as [_ E%Z.leb_le].
  cbn [spaced]. split; [done|]. rewrite <- (mark_next t h) by done.
  apply (IH (heartbeatMarkAttempt t h)); [done|]. rewrite mark_next by done.
  unfold uptime, heartbeatIntervalValid, kMinimumHeartbeatIntervalSeconds in *. lia.
Qed.

(** C30: heartbeats keep their interval: after the interval has been configured,
    whenever the worker asks, a heartbeat is attempted exactly when the interval has
    passed since the last attempt, or since the configuration if there has been none;
    so the attempts are at least the interval apart, and each is made at the first time
    the worker asks after it.  An interval outside 15 to 3600 seconds is refused and
    changes nothing.  Times are those of an uptime below 2^63 microseconds. *)
Theorem heartbeat_spacing seconds now h ticks :
  uptime now -> Forall uptime ticks ->
  let '(ok, h') := heartbeatConfigure seconds now h in
  (ok = true <-> 15 <= seconds <= 3600) /\
  (ok = false -> h' = h) /\
  (ok = true ->
     (forall t, attempts (ticks ++ [t]) h' =
        attempts ticks h' ++
        if List.last (attempts ticks h') now + seconds * 1000000 <=? t then [t] else []) /\
     spaced (seconds * 1000000) (now + seconds * 1000000) (attempts ticks h')).
Proof.
  intros Hn Ht. unfold heartbeatConfigure.
  destruct (heartbeatIntervalValid seconds) eqn:Ei; cbn [negb].
  - rewrite (next_due seconds now Hn Ei). pose proof Ei as Hb.
    unfold heartbeatIntervalValid, kMinimumHeartbeatIntervalSeconds,
      kMaximumHeartbeatIntervalSeconds in Hb.
    split; [split; [lia|done]|]. split; [done|]. intros _.
    set (h' := mkHeartbeatScheduler seconds (now + seconds * 1000000)). split.
    + intros t. by apply (attempts_exact ticks t h' now).
    + apply (attempts_spaced ticks h'); [done|done|]. unfold uptime in Hn. cbn. lia.
  - unfold heartbeatIntervalValid, kMinimumHeartbeatIntervalSeconds,
      kMaximumHeartbeatIntervalSeconds in Ei.
    split; [split; [done|lia]|]. done.
Qed.

Lemma heartbeat_spacing_witness :
  let h := (heartbeatConfigure 60 1000000 HeartbeatScheduler_init).2 in
  let ticks := [2000000; 61000000; 62000000] in
  attempts ticks h = [61000000] /\ attempts (ticks ++ [121000000]) h = [61000000; 121000000] /\
  spaced 60000000 61000000 (attempts ticks h).
Proof.
  destruct (heartbeat_spacing 60 1000000 HeartbeatScheduler_init [2000000; 61000000; 62000000])
    as (_ & _ & Hok).
  - vm_compute. split; congruence.
  - repeat apply Forall_cons_2; try apply Forall_nil_2; vm_compute; split; congruence.
  - destruct (Hok eq_refl) as [Hexact Hsp]. split_and!; [vm_compute; reflexivity| |exact Hsp].
    cbv zeta. rewrite Hexact. vm_compute. reflexivity.
Defined.
