(* ===== verification/RadioService.v ===== *)
(** * The radio service (lib/radio/radio_service)

    The SX1278 driver loop: configuration, reception, and the acknowledgement the
    packet processor sends through it.  What the bench build ([GATHRA_HIL_SYNTHETIC])
    adds is in RadioSynthetic; here is only its flag [rx_suppressNextAck], which no
    operation of the production build sets.  The driver (RadioLib), the task notification its
    interrupt gives, the clocks and the command backend act on a world [W]; the
    mutex, once created, is always obtained. *)

From Stdlib Require Import ZArith Lia String SpecFloat.
From stdpp Require Import list.
From S2P Require Import Prelude BuildConfig CString Platform Protocol QueueRecord Dedup.
From S2P Require Import Pairing CommandStore Metrics PacketProcessor GatewayConfig TimeManager.
Open Scope Z_scope.

(** ** The driver *)

(** RadioLib's [SX1278] and its status codes, and [ulTaskNotifyTake] with a
    timeout in milliseconds, which answers the notifications taken.  A [float] the
    driver measures is its bit pattern, the frequency error a [single]. *)
Class Sx1278 (W : Type) := {
  RADIOLIB_ERR_NONE : Z;
  RADIOLIB_ERR_CRC_MISMATCH : Z;
  RADIOLIB_ERR_TX_TIMEOUT : Z;
  radio_begin : RadioConfig -> W -> Z * W;
  radio_setCRC : bool -> W -> Z * W;
  radio_standby : W -> Z * W;
  radio_sleep : W -> Z * W;
  radio_startReceive : W -> Z * W;
  radio_startTransmit : list Z -> W -> Z * W;
  radio_finishTransmit : W -> Z * W;
  radio_getTimeOnAir : nat -> W -> Z * W;
  radio_getPacketLength : W -> nat * W;
  radio_readData : nat -> W -> Z * list Z * W;
  radio_getRSSI : W -> Z * W;
  radio_getSNR : W -> Z * W;
  radio_getFrequencyError : W -> single * W;
  radio_setPacketReceivedAction : W -> W;
  radio_clearPacketReceivedAction : W -> W;
  radio_setPacketSentAction : W -> W;
  radio_clearPacketSentAction : W -> W;
  spi_begin : W -> W;
  notifyTake : Z -> W -> Z * W;
}.

(** [static_cast<int32_t>] of a [float]: toward zero.  C++ leaves a value outside
    the range undefined; here it wraps, and infinities and NaN give 0. *)
Definition int32_of_single (f : single) : Z :=
  match f with
  | S754_finite s m e =>
      let magnitude := if 0 <=? e then Z.pos m * 2 ^ e else Z.pos m / 2 ^ (- e) in
      to_signed 32 (if s then - magnitude else magnitude)
  | _ => 0
  end.

(** ** State *)

Module Dio0Action.
Inductive t := kNone | kReceive | kTransmit.
#[export] Instance t_eq_dec : EqDecision t.
Proof. solve_decision. Defined.
End Dio0Action.
Export (hints) Dio0Action.

Record RadioDiagnostics := mkRadioDiagnostics {
  rd_ready : bool;
  rd_state : list Z;
  rd_lastCode : Z;
  rd_config : RadioConfig;
  rd_receivedPackets : Z;
  rd_crcErrors : Z;
  rd_invalidLengthPackets : Z;
  rd_readErrors : Z;
  rd_processing : PacketProcessingStats;
  rd_lastRssiDbm : Z;
  rd_lastSnrDb : Z;
  rd_lastFrequencyErrorHz : Z;
  rd_lastPacketLength : Z;
  rd_lastRxUptimeUs : Z;
  rd_lastRxUnixMs : Z;
  rd_commandsSentCount : Z;
}.

(** What [transmitAck] works on: the service without its processor. *)
Record RadioState := mkRadioState {
  rx_diagnostics : RadioDiagnostics;
  rx_gatewayBootSessionId : Z;
  rx_spiStarted : bool;
  rx_dio0Action : Dio0Action.t;
  rx_suppressNextAck : bool;
}.

(** [rv_mutex], [rv_task]: mutex and task exist.  [rv_processor] holds, with the
    processor, the pairing manager and the command store the service refers to. *)
Record RadioService := mkRadioService {
  rv_mutex : bool;
  rv_task : bool;
  rv_processor : option PacketProcessor;
  rv_radio : RadioState;
}.

Definition setDiagnostics (f : RadioDiagnostics -> RadioDiagnostics) (r : RadioState)
  : RadioState := r <| rx_diagnostics := f (rx_diagnostics r) |>.

Definition setLastCode (code : Z) : RadioState -> RadioState :=
  setDiagnostics (fun d => d <| rd_lastCode := code |>).

Definition setState (name : string) : RadioState -> RadioState :=
  setDiagnostics (fun d => d <| rd_state := strncpyz (rd_state d) (chars name) |>).

Definition setReady (ready : bool) : RadioState -> RadioState :=
  setDiagnostics (fun d => d <| rd_ready := ready |>).

Section Service.
Context (object_bytes : CommandStoreRecord -> list Z).
Context {W : Type} `{Sx1278 W, MonotonicClock W, TrustedTime W, CommandBackend W}.

Definition RadioDiagnostics_init : RadioDiagnostics :=
  mkRadioDiagnostics false (zeros 20) RADIOLIB_ERR_NONE RadioConfig_init 0 0 0 0
    PacketProcessingStats_init 0 0 0 0 0 (-1) 0.

Definition RadioService_init : RadioService :=
  mkRadioService false false None
    (mkRadioState RadioDiagnostics_init 0 false Dio0Action.kNone false).

(** ** Configuration and reception *)

Definition configureUnlocked (config : RadioConfig) (r : RadioState) (w : W)
  : bool * RadioState * W :=
  let r := setState "CONFIGURING" r in
  let '(code, w) := radio_begin config w in
  let r := setReady (code =? RADIOLIB_ERR_NONE) (setLastCode code r) in
  let '(r, w) :=
    if rd_ready (rx_diagnostics r) then
      let '(code, w) := radio_setCRC true w in
      (setReady (code =? RADIOLIB_ERR_NONE) (setLastCode code r), w)
    else (r, w) in
  let ready := rd_ready (rx_diagnostics r) in
  (ready,
   if ready then setDiagnostics (fun d => d <| rd_config := config |>) r
   else setState "ERROR" r, w).

Definition startReceiveUnlocked (r : RadioState) (w : W) : bool * RadioState * W :=
  let '(r, w) :=
    if bool_decide (rx_dio0Action r = Dio0Action.kTransmit)
    then (r <| rx_dio0Action := Dio0Action.kNone |>, radio_clearPacketSentAction w)
    else (r, w) in
  let '(r, w) :=
    if bool_decide (rx_dio0Action r = Dio0Action.kNone)
    then (r <| rx_dio0Action := Dio0Action.kReceive |>, radio_setPacketReceivedAction w)
    else (r, w) in
  let '(_, w) := notifyTake 0 w in
  let '(code, w) := radio_startReceive w in
  let okay := code =? RADIOLIB_ERR_NONE in
  (okay, setState (if okay then "RECEIVING" else "RX_ERROR")
           (setReady okay (setLastCode code r)), w).

(** [configureUnlocked(c) && startReceiveUnlocked()] *)
Definition configureAndReceive (config : RadioConfig) (r : RadioState) (w : W)
  : bool * RadioState * W :=
  let '(configured, r, w) := configureUnlocked config r w in
  if (configured : bool) then startReceiveUnlocked r w else (false, r, w).

(** ** Acknowledging *)

(** The acknowledgement with the pending command, if any. *)
Definition ackWithCommand (packet : TelemetryPacket) (timestamp : TrustedTimeSnapshot)
    (commands : CommandStore) : AckCommandPacket :=
  let trusted := ts_trusted timestamp && (0 <=? ts_unixMs timestamp) &&
                 (Z.quot (ts_unixMs timestamp) 1000 <=? UINT32_MAX) in
  let ack := makeAck packet
    (if trusted then wrap 32 (Z.quot (ts_unixMs timestamp) 1000) else 0) trusted in
  match pendingForAck commands with
  | None => ack
  | Some pending =>
      ack <| ack_commandId := gc_commandId pending |>
          <| ack_commandType := gc_type pending |>
          <| ack_pollIntervalMinutes := gc_pollIntervalMinutes pending |>
          <| ack_scheduledMaintenanceUnix := gc_scheduledMaintenanceUnix pending |>
  end.

(** The transmission itself: whether it was finished in time. *)
Definition transmitBytes (bytes : list Z) (r : RadioState) (w : W) : bool * RadioState * W :=
  let r := setState "ACK_TX" r in
  let '(code, w) := radio_startTransmit bytes w in
  let r := setLastCode code r in
  if negb (code =? RADIOLIB_ERR_NONE) then (false, r, w)
  else
    let '(timeOnAir, w) := radio_getTimeOnAir (length bytes) w in
    let timeoutMs := wrap 32 (timeOnAir / 1000 + 1000) in
    let timeoutMs := if timeoutMs <? 1500 then 1500 else timeoutMs in
    let '(taken, w) := notifyTake timeoutMs w in
    if 0 <? taken then
      let '(code, w) := radio_finishTransmit w in
      (code =? RADIOLIB_ERR_NONE, setLastCode code r, w)
    else
      let '(_, w) := radio_standby w in
      (false, setLastCode RADIOLIB_ERR_TX_TIMEOUT r, w).

Definition radioTransmitAck (packet : TelemetryPacket) (commands : CommandStore)
    (r : RadioState) (w : W) : AckTransmission * CommandStore * RadioState * W :=
  let '(timestamp, w) := time_now w in
  let ack := ackWithCommand packet timestamp commands in
  let '(encoded, bytes, length) :=
    encodeAckCommand ack (Some (zeros kRadioPacketCapacity)) kRadioPacketCapacity in
  if negb encoded then
    let '(restored, r, w) := startReceiveUnlocked r w in
    (mkAckTransmission false false restored 0 0, commands, r, w)
  else if rx_suppressNextAck r then
    let '(startUs, w) := nowUs w in
    let '(restored, r, w) := startReceiveUnlocked (r <| rx_suppressNextAck := false |>) w in
    (mkAckTransmission true false restored startUs startUs, commands, r, w)
  else
    let '(_, w) := notifyTake 0 w in
    let w := if bool_decide (rx_dio0Action r = Dio0Action.kNone) then w
             else radio_clearPacketReceivedAction w in
    let w := radio_setPacketSentAction w in
    let r := r <| rx_dio0Action := Dio0Action.kTransmit |> in
    let '(startUs, w) := nowUs w in
    let '(success, r, w) := transmitBytes (take length (default [] bytes)) r w in
    let '(completedUs, w) := nowUs w in
    let '(restored, r, w) := startReceiveUnlocked r w in
    let report := mkAckTransmission true success restored startUs completedUs in
    if success && restored && negb (ack_commandId ack =? 0) then
      let r := setDiagnostics (fun d => d <| rd_commandsSentCount :=
                                          bump64 (rd_commandsSentCount d) |>) r in
      let '(sentAt, w) := time_now w in
      let '(_, commands, w) :=
        markSent object_bytes (ack_commandId ack)
          (if ts_trusted sentAt then ts_unixMs sentAt else -1) commands w in
      (report, commands, r, w)
    else (report, commands, r, w).

(** ** The worlds of the processor: the service and what it acts on *)

#[local] Instance radio_ack_sink : AckSink (RadioState * W) := {
  transmitAck packet commands s :=
    let '(report, commands, r, w) := radioTransmitAck packet commands (fst s) (snd s) in
    (report, commands, (r, w));
}.

#[local] Instance radio_clock : MonotonicClock (RadioState * W) := {
  nowUs s := let '(t, w) := nowUs (snd s) in (t, (fst s, w));
}.

#[local] Instance radio_backend : CommandBackend (RadioState * W) := {
  backend_load s := let '(o, w) := backend_load (snd s) in (o, (fst s, w));
  backend_save record s := let '(b, w) := backend_save record (snd s) in (b, (fst s, w));
}.

#[local] Instance radio_queue `{!PacketQueueSink W} : PacketQueueSink (RadioState * W) := {
  containsKey key s := let '(b, w) := containsKey key (snd s) in (b, (fst s, w));
  durablyEnqueue record s :=
    let '(o, w) := durablyEnqueue record (snd s) in (o, (fst s, w));
  noteDuplicate s := (fst s, noteDuplicate (snd s));
}.

(** ** Receiving *)

Context `{!PacketQueueSink W}.

Definition handleFrame (frame : ReceivedFrame) (processor : option PacketProcessor)
    (r : RadioState) (w : W) : option PacketProcessor * RadioState * W :=
  match processor with
  | None => let '(_, r, w) := startReceiveUnlocked r w in (None, r, w)
  | Some p =>
      let '(result, p, (r, w)) := process object_bytes frame p (r, w) in
      if negb (at_receiveRestored (pr_ack result)) then
        let '(_, r, w) := startReceiveUnlocked r w in (Some p, r, w)
      else (Some p, r, w)
  end.

(** What is noted of a packet that could not be read. *)
Definition countReceived (length : Z) (d : RadioDiagnostics) : RadioDiagnostics :=
  d <| rd_receivedPackets := bump64 (rd_receivedPackets d) |>
    <| rd_lastPacketLength := wrap 16 length |>.

Definition countInvalidLength (d : RadioDiagnostics) : RadioDiagnostics :=
  d <| rd_invalidLengthPackets := bump64 (rd_invalidLengthPackets d) |>.

Definition countCrcError (d : RadioDiagnostics) : RadioDiagnostics :=
  d <| rd_crcErrors := bump64 (rd_crcErrors d) |>.

Definition countReadError (d : RadioDiagnostics) : RadioDiagnostics :=
  d <| rd_readErrors := bump64 (rd_readErrors d) |>.

Definition noteReception (frame : ReceivedFrame) (d : RadioDiagnostics) : RadioDiagnostics :=
  let reception := rf_reception frame in
  d <| rd_lastRssiDbm := rm_rssiDbm reception |>
    <| rd_lastSnrDb := rm_snrDb reception |>
    <| rd_lastFrequencyErrorHz := rm_frequencyErrorHz reception |>
    <| rd_lastRxUptimeUs := rf_observedUs frame |>
    <| rd_lastRxUnixMs := rm_gatewayReceivedUnixMs reception |>.

(** The frame of a packet that was read, with its reception. *)
Definition readFrame (observedUs : Z) (length : nat) (data : list Z) (r : RadioState) (w : W)
  : ReceivedFrame * W :=
  let '(rssiDbm, w) := radio_getRSSI w in
  let '(snrDb, w) := radio_getSNR w in
  let '(frequencyError, w) := radio_getFrequencyError w in
  let '(timestamp, w) := time_now w in
  (mkReceivedFrame (take length data ++ drop length (zeros kRadioPacketCapacity)) length
     (mkReceptionMetadata (if ts_trusted timestamp then ts_unixMs timestamp else -1)
        (ts_trusted timestamp) (observedUs / 1000) (rx_gatewayBootSessionId r) rssiDbm snrDb
        (int32_of_single frequencyError) (wrap 16 (Z.of_nat length)))
     observedUs, w).

Definition handlePhysicalReceive (processor : option PacketProcessor) (r : RadioState) (w : W)
  : option PacketProcessor * RadioState * W :=
  if negb (rd_ready (rx_diagnostics r)) then (processor, r, w)
  else
    let '(observedUs, w) := nowUs w in
    let '(length, w) := radio_getPacketLength w in
    let r := setDiagnostics (countReceived (Z.of_nat length)) r in
    if (length =? 0)%nat || (kRadioPacketCapacity <? length)%nat then
      let r := setDiagnostics countInvalidLength r in
      let '(_, w) := radio_standby w in
      let '(_, r, w) := startReceiveUnlocked r w in
      (processor, r, w)
    else
      let '(code, data, w) := radio_readData length w in
      let r := setLastCode code r in
      if code =? RADIOLIB_ERR_CRC_MISMATCH then
        let '(_, r, w) := startReceiveUnlocked (setDiagnostics countCrcError r) w in
        (processor, r, w)
      else if negb (code =? RADIOLIB_ERR_NONE) then
        let '(_, r, w) := startReceiveUnlocked (setDiagnostics countReadError r) w in
        (processor, r, w)
      else
        let '(frame, w) := readFrame observedUs length data r w in
        handleFrame frame processor (setDiagnostics (noteReception frame) r) w.

(** One round of [run], after a notification. *)
Definition radioRound (s : RadioService) (w : W) : RadioService * W :=
  if negb (rv_mutex s) then (s, w)
  else
    let '(processor, r, w) := handlePhysicalReceive (rv_processor s) (rv_radio s) w in
    (s <| rv_processor := processor |> <| rv_radio := r |>, w).

(** ** Operations *)

(** [mutexCreated], [taskCreated]: the outcomes of [xSemaphoreCreateMutex] and
    [xTaskCreate]. *)
Definition radioBegin (mutexCreated taskCreated : bool) (config : RadioConfig)
    (pairing : PairingManager) (commands : CommandStore) (gatewayBootSessionId : Z)
    (s : RadioService) (w : W) : bool * RadioService * W :=
  let s := s <| rv_mutex := mutexCreated |> in
  if negb mutexCreated then (false, s, w)
  else
    let p := mkPacketProcessor pairing commands PacketProcessingStats_init
               LatestTelemetry_init in
    let w := if rx_spiStarted (rv_radio s) then w else spi_begin w in
    let r := setDiagnostics (fun d => d <| rd_config := config |>)
      ((rv_radio s) <| rx_gatewayBootSessionId := gatewayBootSessionId |>
                    <| rx_spiStarted := true |>) in
    let s := s <| rv_processor := Some p |> <| rv_radio := r |> in
    if negb taskCreated then (false, s, w)
    else
      let '(radioReady, r, w) := configureAndReceive config r w in
      (radioReady, s <| rv_task := true |> <| rv_radio := r |>, w).

Definition radioApplyConfig (candidate : RadioConfig) (s : RadioService) (w : W)
  : bool * RadioService * W :=
  if negb (rv_mutex s) then (false, s, w)
  else
    let previous := rd_config (rx_diagnostics (rv_radio s)) in
    let '(_, w) := radio_standby w in
    let '(applied, r, w) := configureAndReceive candidate (rv_radio s) w in
    if (applied : bool) then (true, s <| rv_radio := r |>, w)
    else
      let '(_, r, w) := configureAndReceive previous r w in
      (false, s <| rv_radio := r |>, w).

Definition radioRestart (s : RadioService) (w : W) : bool * RadioService * W :=
  if negb (rv_mutex s) then (false, s, w)
  else
    let current := rd_config (rx_diagnostics (rv_radio s)) in
    let '(_, w) := radio_standby w in
    let '(okay, r, w) := configureAndReceive current (rv_radio s) w in
    (okay, s <| rv_radio := r |>, w).

End Service.

(** The processor, when the lock is obtained. *)
Definition lockedProcessor (s : RadioService) : option PacketProcessor :=
  if rv_mutex s then rv_processor s else None.

Definition diagnostics (s : RadioService) : RadioDiagnostics :=
  let copy := rx_diagnostics (rv_radio s) in
  match lockedProcessor s with
  | Some p => copy <| rd_processing := pp_stats p |>
  | None => copy
  end.

Definition latestTelemetry (s : RadioService) : LatestTelemetry :=
  match lockedProcessor s with
  | Some p => pp_latest p
  | None => LatestTelemetry_init
  end.

(** ** Pairing under the lock *)

(** [f] on the pairing manager, when it can be reached. *)
Definition onPairing {A} (refused : A) (f : PairingManager -> A * PairingManager)
    (s : RadioService) : A * RadioService :=
  match lockedProcessor s with
  | Some p =>
      let '(a, m) := f (pp_pairing p) in
      (a, s <| rv_processor :=
                 Some (mkPacketProcessor m (pp_commands p) (pp_stats p) (pp_latest p)) |>)
  | None => (refused, s)
  end.

Definition startPairing : RadioService -> bool * RadioService := onPairing false pairingStart.

Definition cancelPairing : RadioService -> bool * RadioService :=
  onPairing false (fun m => (true, pairingCancel m)).

(** The answer and the caller's buffer, [None] when it is null. *)
Definition confirmPairing (pairedNodeId : ptr (list Z)) (s : RadioService)
  : bool * ptr (list Z) * RadioService :=
  let '(okay, s) := onPairing false confirmCandidate s in
  if negb okay then (false, pairedNodeId, s)
  else
    (true,
     match pairedNodeId, lockedProcessor s with
     | Some ((_ :: _) as buffer), Some p =>
         Some (copyText buffer (Some (pm_pairedNodeId (pp_pairing p))))
     | _, _ => pairedNodeId
     end, s).

Definition radioPairManual (nodeId : ptr (list Z)) : RadioService -> bool * RadioService :=
  onPairing false (pairManual nodeId).

Definition radioUnpair (s : RadioService) : RadioService :=
  snd (onPairing tt (fun m => (tt, unpair m)) s).

Definition pairingCandidate (s : RadioService) : PairingCandidate :=
  match lockedProcessor s with
  | Some p => pm_candidate (pp_pairing p)
  | None => PairingCandidate_init
  end.

Definition pairingMode (s : RadioService) : bool :=
  match lockedProcessor s with
  | Some p => pm_pairingMode (pp_pairing p)
  | None => false
  end.

Definition radioPaired (s : RadioService) : bool :=
  match lockedProcessor s with
  | Some p => paired (pp_pairing p)
  | None => false
  end.

Definition pairedNodeId (output : ptr (list Z)) (s : RadioService) : ptr (list Z) :=
  match output with
  | Some ((_ :: _) as output) =>
      match lockedProcessor s with
      | Some p => Some (copyText output (Some (pm_pairedNodeId (pp_pairing p))))
      | None => Some (<[0%nat := 0]> output)
      end
  | _ => output
  end.

Definition dispositionName (disposition : PacketDisposition.t) : string :=
  match disposition with
  | PacketDisposition.kDecodeRejected => "DECODE_REJECTED"
  | PacketDisposition.kPairingCandidate => "PAIRING_CANDIDATE"
  | PacketDisposition.kUnpairedIgnored => "UNPAIRED_IGNORED"
  | PacketDisposition.kUnknownNodeIgnored => "UNKNOWN_NODE_IGNORED"
  | PacketDisposition.kDurableEnqueueFailed => "ENQUEUE_FAILED"
  | PacketDisposition.kNewAcknowledged => "NEW_ACKNOWLEDGED"
  | PacketDisposition.kDuplicateAcknowledged => "DUPLICATE_REACK"
  | PacketDisposition.kAckFailed => "ACK_FAILED"
  | PacketDisposition.kCommandResultConfirmed => "COMMAND_CONFIRMED"
  | PacketDisposition.kCommandResultDuplicate => "COMMAND_RESULT_DUPLICATE"
  | PacketDisposition.kCommandResultIgnored => "COMMAND_RESULT_IGNORED"
  end.
