(* ===== verification/RadioServiceTheorems.v ===== *)
(** * The radio service implements what the packet processor relies on

    [RadioWorld] states what the service needs of the queue and of the driver
    below it; [radio_world] shows that the service above such a world is a
    [GatewayWorld]: only [transmitAck] puts anything on the air, and what it
    sends acknowledges the telemetry it was given, whatever command it carries. *)

From Stdlib Require Import ZArith Lia.
From stdpp Require Import list.
From S2P Require Import Prelude BuildConfig CString Platform Protocol ProtocolSpec.
From S2P Require Import ProtocolCommands ProtocolTheorems QueueRecord QueueRecordCodec Dedup.
From S2P Require Import DurableQueueCore Pairing CommandStore CommandStoreSpec Metrics.
From S2P Require Import PacketProcessor PacketProcessorTheorems GatewayConfig TimeManager.
From S2P Require Import RadioService.
Open Scope Z_scope.

(** ** The acknowledgement that is sent *)

(** [ack] without the arguments its command does not use. *)
Definition plainAck (p : AckCommandPacket) : AckCommandPacket :=
  p <| ack_pollIntervalMinutes :=
         (if enum_eqb (ack_commandType p) CommandType.kSetPollIntervalMinutes
          then ack_pollIntervalMinutes p else 0) |>
    <| ack_scheduledMaintenanceUnix :=
         (if enum_eqb (ack_commandType p) CommandType.kScheduleMaintenanceAt
          then ack_scheduledMaintenanceUnix p else 0) |>.

Lemma plainAck_wf p :
  node_ok (ack_nodeId p) -> is_u 32 (ack_persistentSessionId p) ->
  is_u 32 (ack_sequence p) -> is_u 32 (ack_gatewayUnixTime p) ->
  is_u 32 (ack_commandId p) -> is_u 8 (ack_pollIntervalMinutes p) ->
  is_u 32 (ack_scheduledMaintenanceUnix p) -> enum_ok (ack_commandType p) ->
  ackValid p = true -> ack_wf (plainAck p) /\ ackWire (plainAck p) = ackWire p.
Proof.
  intros Hn Hs Hq Ht Hc Hp Hm He Hv. pose proof Hv as Hv'.
  apply ackValid_spec in Hv as [Hclk Hv]; [|done].
  assert (is_u 8 0 /\ is_u 32 0) as [H8 H32] by computed.
  destruct p as [node session sequence unix valid id [| | | |v] poll scheduled];
    cbn in Hv, He |- *; try done;
    (split; [apply ack_wf_intro; try done|reflexivity]).
Qed.

Lemma ackWithCommand_fields t ts commands :
  telemetry_wf t -> commands_typed commands ->
  let ack := ackWithCommand t ts commands in
  ack_nodeId ack = tp_nodeId t /\ ack_persistentSessionId ack = tp_persistentSessionId t /\
  ack_sequence ack = tp_sequence t /\ is_u 32 (ack_gatewayUnixTime ack) /\
  is_u 32 (ack_commandId ack) /\ is_u 8 (ack_pollIntervalMinutes ack) /\
  is_u 32 (ack_scheduledMaintenanceUnix ack) /\ enum_ok (ack_commandType ack).
Proof.
  intros Wt [_ Tc]. unfold ackWithCommand. set (trusted := _ && _ && _).
  pose proof (makeAck_node t (if trusted then wrap 32 (Z.quot (ts_unixMs ts) 1000) else 0)
    trusted (wf_node _ Wt)) as En.
  assert (is_u 8 0 /\ is_u 32 0) as [H8 H32] by computed.
  assert (is_u 32 (wrap 32 (Z.quot (ts_unixMs ts) 1000))) as Hw by (apply wrap_range; lia).
  destruct (pendingForAck commands) as [pending|] eqn:Ep.
  - unfold pendingForAck in Ep. destruct (cs_mutex commands); [|done].
    cbn [negb] in Ep. destruct (outstanding _); [|done]. injection Ep as <-.
    destruct Tc. cbn. split_and!; try done. by destruct trusted.
  - cbn. split_and!; try done. by destruct trusted.
Qed.

Lemma encodes_true data capacity ok wire bytes n :
  encodes (true, bytes, n) data capacity ok wire ->
  ok = true /\ bytes = Some (wire ++ drop (length wire) data) /\ n = length wire.
Proof.
  unfold encodes. destruct ok; cbn [andb]; [|by intros (? & [=] & _)].
  destruct (_ <=? _)%nat; [by intros [= -> ->]|by intros (? & [=] & _)].
Qed.

Lemma ackWithCommand_acknowledges t ts commands bytes n :
  telemetry_wf t -> commands_typed commands ->
  encodeAckCommand (ackWithCommand t ts commands) (Some (zeros kRadioPacketCapacity))
    kRadioPacketCapacity = (true, bytes, n) ->
  acknowledges t (take n (default [] bytes)).
Proof.
  intros Wt T E.
  destruct (ackWithCommand_fields t ts commands Wt T)
    as (En & Es & Eq & Hu & Hc & Hp & Hm & He).
  set (ack := ackWithCommand t ts commands) in *. clearbody ack.
  pose proof (wf_typed _ Wt) as Tt.
  assert (kRadioPacketCapacity <= length (zeros kRadioPacketCapacity))%nat as Hl
    by (unfold zeros; rewrite length_replicate; lia).
  pose proof (encodeAck_encodes ack (zeros kRadioPacketCapacity) kRadioPacketCapacity Hl He)
    as Henc.
  rewrite E in Henc. apply encodes_true in Henc as (Hv & -> & ->).
  change (default [] (Some ?l)) with l. rewrite take_app_length.
  apply andb_true_iff in Hv as [_ Hv].
  destruct (plainAck_wf ack) as [W Ew]; try done;
    [by rewrite En; apply Wt|by rewrite Es; apply Tt|by rewrite Eq; apply Tt|].
  exists (plainAck ack). split.
  - rewrite (decodeAck_image (ackWire ack) _ _ (plainAck ack) []); [done|lia|done|].
    by rewrite firstn_all, app_nil_r.
  - rewrite ackMatches_spec.
    assert (ack_nodeId (plainAck ack) = ack_nodeId ack /\
      ack_persistentSessionId (plainAck ack) = ack_persistentSessionId ack /\
      ack_sequence (plainAck ack) = ack_sequence ack) as (-> & -> & ->) by (by destruct ack).
    by rewrite En, Es, Eq.
Qed.

(** ** The world below the service *)

Class GatewayObservations (W : Type) := {
  rw_ok : W -> Prop;
  rw_accepted : W -> TelemetryKey -> Prop;
  rw_on_air : W -> list (list Z);
}.

(** A step that sends nothing and keeps what is durable. *)
Definition keeps {W} `{GatewayObservations W} (w w' : W) : Prop :=
  rw_ok w -> rw_ok w' /\ rw_on_air w' = rw_on_air w /\
    (forall key, rw_accepted w key -> rw_accepted w' key).

Class RadioWorld (W : Type)
    `{Sx1278 W, MonotonicClock W, TrustedTime W, CommandBackend W, PacketQueueSink W,
      GatewayObservations W} := {
  queue_contains_law key w b w' :
    rw_ok w -> containsKey key w = (b, w') ->
    rw_ok w' /\ rw_on_air w' = rw_on_air w /\ (b = true -> rw_accepted w' key);
  queue_enqueue_law r w o w' :
    rw_ok w -> record_typed r -> record_padded r -> durablyEnqueue r w = (o, w') ->
    rw_ok w' /\ rw_on_air w' = rw_on_air w /\
    (forall t, eo_persisted o = true -> telemetryOf r = Some t -> rw_accepted w' (keyOf t));
  queue_duplicate_law w : keeps w (noteDuplicate w);
  begin_law c w : keeps w (radio_begin c w).2;
  setCRC_law b w : keeps w (radio_setCRC b w).2;
  standby_law w : keeps w (radio_standby w).2;
  sleep_law w : keeps w (radio_sleep w).2;
  startReceive_law w : keeps w (radio_startReceive w).2;
  finishTransmit_law w : keeps w (radio_finishTransmit w).2;
  timeOnAir_law n w : keeps w (radio_getTimeOnAir n w).2;
  packetLength_law w : keeps w (radio_getPacketLength w).2;
  readData_law n w : keeps w (radio_readData n w).2;
  rssi_law w : keeps w (radio_getRSSI w).2;
  snr_law w : keeps w (radio_getSNR w).2;
  frequencyError_law w : keeps w (radio_getFrequencyError w).2;
  setReceived_law w : keeps w (radio_setPacketReceivedAction w);
  clearReceived_law w : keeps w (radio_clearPacketReceivedAction w);
  setSent_law w : keeps w (radio_setPacketSentAction w);
  clearSent_law w : keeps w (radio_clearPacketSentAction w);
  spi_law w : keeps w (spi_begin w);
  notify_law t w : keeps w (notifyTake t w).2;
  clock_law w : keeps w (nowUs w).2;
  time_law w : keeps w (time_now w).2;
  command_save_law r w : keeps w (backend_save r w).2;
  (** What is handed to the transmitter goes out, whole, if it starts. *)
  startTransmit_law bytes w code w' :
    rw_ok w -> radio_startTransmit bytes w = (code, w') ->
    rw_ok w' /\ (forall key, rw_accepted w key -> rw_accepted w' key) /\
    (rw_on_air w' = rw_on_air w ++ [bytes] \/
     rw_on_air w' = rw_on_air w /\ code <> RADIOLIB_ERR_NONE);
  (** The values the driver and the clocks measure fit their types. *)
  clock_typed w : is_u 64 (nowUs w).1;
  time_typed w : is_s 64 (ts_unixMs (time_now w).1);
  rssi_typed w : is_u 32 (radio_getRSSI w).1;
  snr_typed w : is_u 32 (radio_getSNR w).1;
  readData_typed n w code data w' :
    radio_readData n w = (code, data, w') -> bytes_ok data /\ (n <= length data)%nat;
}.

Create HintDb calm.
#[export] Hint Resolve queue_duplicate_law begin_law setCRC_law standby_law sleep_law startReceive_law
  finishTransmit_law timeOnAir_law packetLength_law readData_law rssi_law snr_law
  frequencyError_law setReceived_law clearReceived_law setSent_law clearSent_law spi_law
  notify_law clock_law time_law command_save_law : calm.

Abbreviation session := rx_gatewayBootSessionId.
Abbreviation processor_typed processor :=
  (forall p, processor = Some p -> commands_typed (pp_commands p)).

Section Service.
Context (object_bytes : CommandStoreRecord -> list Z).
Context {W : Type} `{RadioWorld W}.

Lemma keeps_refl w : keeps w w.
Proof. by intros Hw. Qed.

Lemma keeps_trans w1 w2 w3 : keeps w1 w2 -> keeps w2 w3 -> keeps w1 w3.
Proof.
  intros K1 K2 Hw. destruct (K1 Hw) as (G1 & E1 & A1). destruct (K2 G1) as (G2 & E2 & A2).
  split_and!; [done|congruence|auto].
Qed.

(** A result that is the pair of its parts. *)
Lemma keeps_of {A} (f : A * W) a w w' : keeps w f.2 -> f = (a, w') -> keeps w w'.
Proof. by intros K ->. Qed.

Lemma configure_keeps config r w ok r' w' :
  configureUnlocked config r w = (ok, r', w') -> keeps w w'.
Proof.
  unfold configureUnlocked. intros E.
  destruct (radio_begin config w) as [code w1] eqn:E1.
  apply (keeps_of _ _ _ _ (begin_law config w)) in E1.
  destruct (rd_ready _) in E at 1.
  - destruct (radio_setCRC true w1) as [code2 w2] eqn:E2.
    apply (keeps_of _ _ _ _ (setCRC_law true w1)) in E2. injection E as _ _ <-.
    by eapply keeps_trans.
  - by injection E as _ _ <-.
Qed.

Lemma startReceive_keeps r w ok r' w' :
  startReceiveUnlocked r w = (ok, r', w') -> keeps w w'.
Proof.
  unfold startReceiveUnlocked. intros E.
  set (p1 := if bool_decide (rx_dio0Action r = Dio0Action.kTransmit) then _ else (r, w)) in E.
  assert (keeps w p1.2) as K1
    by (unfold p1; case_bool_decide; [apply clearSent_law|apply keeps_refl]).
  destruct p1 as [r1 w1]. cbn [snd] in K1.
  set (p2 := if bool_decide (rx_dio0Action r1 = Dio0Action.kNone) then _ else (r1, w1)) in E.
  assert (keeps w1 p2.2) as K2
    by (unfold p2; case_bool_decide; [apply setReceived_law|apply keeps_refl]).
  destruct p2 as [r2 w2]. cbn [snd] in K2.
  destruct (notifyTake 0 w2) as [n w3] eqn:E3. apply (keeps_of _ _ _ _ (notify_law 0 w2)) in E3.
  destruct (radio_startReceive w3) as [code w4] eqn:E4.
  apply (keeps_of _ _ _ _ (startReceive_law w3)) in E4. injection E as _ _ <-.
  eapply keeps_trans; [exact K1|]. eapply keeps_trans; [exact K2|]. by eapply keeps_trans.
Qed.

Lemma configureAndReceive_keeps config r w ok r' w' :
  configureAndReceive config r w = (ok, r', w') -> keeps w w'.
Proof.
  unfold configureAndReceive. intros E.
  destruct (configureUnlocked config r w) as [[b r1] w1] eqn:Ec.
  apply configure_keeps in Ec. destruct b; [|by injection E as _ _ <-].
  apply startReceive_keeps in E. by eapply keeps_trans.
Qed.

Lemma markSent_keeps id unix cs w ok cs' w' :
  markSent object_bytes id unix cs w = (ok, cs', w') -> keeps w w'.
Proof.
  unfold markSent, commitNoting, commit. intros E.
  destruct (cs_mutex cs); cbn [negb] in E; [|injection E as _ _ <-; apply keeps_refl].
  destruct (_ || _); [injection E as _ _ <-; apply keeps_refl|].
  destruct (cs_backend cs); cbn [negb] in E; [|injection E as _ _ <-; apply keeps_refl].
  destruct (backend_save _ w) as [saved w1] eqn:Es.
  eapply keeps_of in Es; [|apply command_save_law].
  destruct saved; cbn [negb] in E; by injection E as _ _ <-.
Qed.

(** The transmission puts exactly [bytes] on the air, or nothing and fails. *)
Lemma transmitBytes_spec bytes r w ok r' w' :
  rw_ok w -> transmitBytes bytes r w = (ok, r', w') ->
  rw_ok w' /\ (forall key, rw_accepted w key -> rw_accepted w' key) /\
  (rw_on_air w' = rw_on_air w /\ ok = false \/ rw_on_air w' = rw_on_air w ++ [bytes]).
Proof.
  unfold transmitBytes. intros Hw E.
  destruct (radio_startTransmit bytes w) as [code w1] eqn:Es.
  apply startTransmit_law in Es as (G1 & A1 & Hair); [|done].
  destruct (code =? RADIOLIB_ERR_NONE) eqn:Ec; cbn [negb] in E.
  - apply Z.eqb_eq in Ec. destruct Hair as [Hair|[_ ?]]; [|done].
    assert (keeps w1 w') as K.
    { destruct (radio_getTimeOnAir _ w1) as [t w2] eqn:E2.
      eapply keeps_of in E2; [|apply timeOnAir_law].
      destruct (notifyTake _ w2) as [n w3] eqn:E3.
      eapply keeps_of in E3; [|apply notify_law].
      eapply keeps_trans; [exact E2|]. eapply keeps_trans; [exact E3|].
      destruct (0 <? n).
      - destruct (radio_finishTransmit w3) as [c w4] eqn:E4.
        eapply keeps_of in E4; [|apply finishTransmit_law]. by injection E as _ _ <-.
      - destruct (radio_standby w3) as [c w4] eqn:E4.
        eapply keeps_of in E4; [|apply standby_law]. by injection E as _ _ <-. }
    destruct (K G1) as (G' & Ea & A'). split_and!; [done|auto|]. right. congruence.
  - injection E as <- _ <-. split_and!; [done|done|]. destruct Hair as [|[]]; auto.
Qed.

Lemma radioTransmitAck_spec t cs r w report cs' r' w' :
  rw_ok w -> telemetry_wf t -> commands_typed cs ->
  radioTransmitAck object_bytes t cs r w = (report, cs', r', w') ->
  rw_ok w' /\ commands_typed cs' /\
  (rw_on_air w' = rw_on_air w /\ at_success report = false \/
   exists bytes, rw_on_air w' = rw_on_air w ++ [bytes] /\ acknowledges t bytes) /\
  (forall key, rw_accepted w key -> rw_accepted w' key).
Proof.
  unfold radioTransmitAck. intros Hw Wt T E.
  destruct (time_now w) as [ts w1] eqn:E1. eapply keeps_of in E1; [|apply time_law].
  destruct (E1 Hw) as (G1 & A1 & K1).
  destruct (encodeAckCommand _ _ _) as [[encoded bytes] n] eqn:Een.
  destruct encoded; cbn [negb] in E.
  2: { destruct (startReceiveUnlocked r w1) as [[ok r2] w2] eqn:E2. injection E as <- <- <- <-.
       apply startReceive_keeps in E2. destruct (E2 G1) as (? & ? & ?).
       split_and!; [done|done|left; split; [congruence|done]|auto]. }
  destruct (rx_suppressNextAck r).
  { destruct (nowUs w1) as [startUs w2] eqn:E2. eapply keeps_of in E2; [|apply clock_law].
    destruct (startReceiveUnlocked _ w2) as [[ok r3] w3] eqn:E3. injection E as <- <- <- <-.
    apply startReceive_keeps in E3. destruct (keeps_trans _ _ _ E2 E3 G1) as (? & ? & ?).
    split_and!; [done|done|left; split; [congruence|done]|auto]. }
  pose proof (ackWithCommand_acknowledges _ _ _ _ _ Wt T Een) as Hack.
  set (ack := ackWithCommand t ts cs) in *. clearbody ack.
  set (payload := take n (default [] bytes)) in *. clearbody payload.
  destruct (notifyTake 0 w1) as [k w2] eqn:E2. eapply keeps_of in E2; [|apply notify_law].
  set (w3 := if bool_decide _ then w2 else _) in E.
  assert (keeps w2 w3) as E3
    by (unfold w3; case_bool_decide; [apply keeps_refl|apply clearReceived_law]).
  clearbody w3.
  pose proof (setSent_law w3) as E4. set (w4 := radio_setPacketSentAction w3) in *.
  clearbody w4.
  destruct (nowUs w4) as [startUs w5] eqn:E5. eapply keeps_of in E5; [|apply clock_law].
  assert (keeps w1 w5) as K5
    by (eapply keeps_trans; [exact E2|]; eapply keeps_trans; [exact E3|];
        by eapply keeps_trans).
  destruct (K5 G1) as (G5 & A5 & K5').
  destruct (transmitBytes payload _ w5) as [[success r6] w6] eqn:E6.
  apply transmitBytes_spec in E6 as (G6 & K6 & Hair); [|done].
  destruct (nowUs w6) as [completedUs w7] eqn:E7. eapply keeps_of in E7; [|apply clock_law].
  destruct (startReceiveUnlocked r6 w7) as [[restored r8] w8] eqn:E8.
  apply startReceive_keeps in E8.
  assert (keeps w6 w' /\ commands_typed cs' /\ at_success report = success) as (K9 & T' & Es).
  { destruct (success && restored && _).
    - destruct (time_now w8) as [sentAt w9] eqn:E9. eapply keeps_of in E9; [|apply time_law].
      destruct (markSent _ _ _ cs w9) as [[marked cs2] w10] eqn:E10.
      injection E as <- <- _ <-. split_and!; [|by eapply markSent_typed|done].
      apply markSent_keeps in E10. eapply keeps_trans; [exact E7|].
      eapply keeps_trans; [exact E8|]. by eapply keeps_trans.
    - injection E as <- <- _ <-. split_and!; [by eapply keeps_trans|done|done]. }
  destruct (K9 G6) as (G9 & A9 & K9'). split_and!; [done|done| |auto 7].
  rewrite Es, A9. destruct Hair as [[Ha Hs]|Ha].
  - left. split; [congruence|done].
  - right. exists payload. split; [congruence|done].
Qed.

(** ** The boot session of the radio stays *)

Lemma startReceive_session r w : session (startReceiveUnlocked r w).1.2 = session r.
Proof.
  unfold startReceiveUnlocked. do 2 case_bool_decide;
    destruct (notifyTake 0 _) as [n w1], (radio_startReceive w1) as [code w2]; by destruct r.
Qed.

Lemma transmitBytes_session bytes r w : session (transmitBytes bytes r w).1.2 = session r.
Proof.
  unfold transmitBytes. destruct (radio_startTransmit bytes w) as [code w1].
  destruct (negb _); [by destruct r|]. destruct (radio_getTimeOnAir _ w1) as [t w2].
  destruct (notifyTake _ w2) as [n w3]. destruct (0 <? n).
  - destruct (radio_finishTransmit w3). by destruct r.
  - destruct (radio_standby w3). by destruct r.
Qed.

Lemma radioTransmitAck_session t cs r w :
  session (radioTransmitAck object_bytes t cs r w).1.2 = session r.
Proof.
  unfold radioTransmitAck. destruct (time_now w) as [ts w1].
  destruct (encodeAckCommand _ _ _) as [[encoded bytes] n]. destruct encoded; cbn [negb].
  2: { pose proof (startReceive_session r w1) as Es.
       destruct (startReceiveUnlocked r w1) as [[ok r2] w2]. exact Es. }
  destruct (rx_suppressNextAck r).
  { destruct (nowUs w1) as [startUs w2].
    pose proof (startReceive_session (r <| rx_suppressNextAck := false |>) w2) as Es.
    destruct (startReceiveUnlocked _ w2) as [[ok r3] w3]. etransitivity; [exact Es|by destruct r]. }
  destruct (notifyTake 0 w1) as [k w2]. destruct (nowUs _) as [startUs w5].
  pose proof (transmitBytes_session (take n (default [] bytes))
    (r <| rx_dio0Action := Dio0Action.kTransmit |>) w5) as E6.
  destruct (transmitBytes _ _ w5) as [[success r6] w6]. cbn [fst snd] in E6.
  destruct (nowUs w6) as [completedUs w7]. pose proof (startReceive_session r6 w7) as E8.
  destruct (startReceiveUnlocked r6 w7) as [[restored r8] w8]. cbn [fst snd] in E8.
  assert (session r8 = session r) as Er by (rewrite E8, E6; by destruct r).
  destruct (_ && _); [|exact Er]. destruct (time_now w8) as [sentAt w9].
  destruct (markSent _ _ _ cs w9) as [[marked cs2] w10]. rewrite <- Er. by destruct r8.
Qed.

(** The service is the world the processor relies on. *)
#[local] Existing Instances radio_ack_sink radio_clock radio_backend radio_queue.

Definition radio_world :
  @GatewayWorld (RadioState * W) radio_queue (radio_ack_sink object_bytes) radio_clock
    radio_backend.
Proof.
  refine (@Build_GatewayWorld (RadioState * W) radio_queue (radio_ack_sink object_bytes)
    radio_clock radio_backend (fun s => rw_ok (snd s) /\ is_u 32 (session (fst s)))
    (fun s => rw_accepted (snd s)) (fun s => rw_on_air (snd s)) _ _ _ _ _ _).
  - intros key [r w] b [r' w'] [Hw Hr] E. cbn in E.
    destruct (containsKey key w) as [b1 w1] eqn:Ec. injection E as <- <- <-.
    destruct (queue_contains_law key w b1 w1 Hw Ec). done.
  - intros record [r w] o [r' w'] [Hw Hr] Ht Hp E. cbn in E.
    destruct (durablyEnqueue record w) as [o1 w1] eqn:Ec. injection E as <- <- <-.
    destruct (queue_enqueue_law record w o1 w1 Hw Ht Hp Ec). done.
  - intros [r w] [Hw Hr]. destruct (queue_duplicate_law w Hw). done.
  - intros t cs [r w] a cs' [r' w'] [Hw Hr] Wt T E. cbn in E.
    pose proof (radioTransmitAck_session t cs r w) as Es.
    destruct (radioTransmitAck _ t cs r w) as [[[report cs1] r1] w1] eqn:Et.
    injection E as <- <- <- <-. cbn [fst snd] in *.
    destruct (radioTransmitAck_spec t cs r w _ _ r1 _ Hw Wt T Et) as (G1 & ?).
    split; [by rewrite Es|done].
  - intros [r w] t [r' w'] [Hw Hr] E. cbn in E. destruct (nowUs w) as [t1 w1] eqn:Ec.
    eapply keeps_of in Ec; [|apply clock_law]. injection E as <- <- <-.
    destruct (Ec Hw). done.
  - intros record [r w] b [r' w'] [Hw Hr] E. cbn in E.
    destruct (backend_save record w) as [b1 w1] eqn:Ec.
    eapply keeps_of in Ec; [|apply command_save_law]. injection E as <- <- <-.
    destruct (Ec Hw) as (? & ? & ?). done.
Defined.

#[local] Existing Instance radio_world.

(** ** A round of the receiver *)

Lemma readFrame_ok observedUs n data r w frame w' :
  is_u 64 observedUs -> (n <= kRadioPacketCapacity)%nat -> (n <= length data)%nat ->
  bytes_ok data -> is_u 32 (rx_gatewayBootSessionId r) ->
  readFrame observedUs n data r w = (frame, w') ->
  frame_ok frame /\ keeps w w' /\ rf_length frame = n /\ take n (rf_bytes frame) = take n data.
Proof.
  unfold readFrame. intros Ho Hn Hd Hb Hr E.
  pose proof (rssi_typed w) as T1. destruct (radio_getRSSI w) as [rssi w1] eqn:E1.
  eapply keeps_of in E1; [|apply rssi_law].
  pose proof (snr_typed w1) as T2. destruct (radio_getSNR w1) as [snr w2] eqn:E2.
  eapply keeps_of in E2; [|apply snr_law].
  destruct (radio_getFrequencyError w2) as [fe w3] eqn:E3.
  eapply keeps_of in E3; [|apply frequencyError_law].
  pose proof (time_typed w3) as T4. destruct (time_now w3) as [ts w4] eqn:E4.
  eapply keeps_of in E4; [|apply time_law].
  injection E as <- <-. cbn [fst] in *.
  assert (length (take n data) = n) as El by (rewrite length_take; lia).
  split_and!; cbn [rf_bytes rf_length];
    [|eapply keeps_trans; [exact E1|]; eapply keeps_trans; [exact E2|]; by eapply keeps_trans
     |done|by rewrite take_app_le, take_ge by lia].
  constructor; cbn [rf_bytes rf_length rf_reception rm_gatewayReceivedUnixMs
    rm_gatewayUptimeMs rm_gatewayBootSessionId rm_rssiDbm rm_snrDb rm_frequencyErrorHz
    rm_packetLength]; try done.
  - rewrite length_app, El, length_drop. unfold zeros. rewrite length_replicate. lia.
  - apply Forall_app. split; [by apply Forall_take|]. apply Forall_drop, Forall_replicate.
    vm_compute. split; congruence.
  - destruct (ts_trusted ts); [done|vm_compute; split; congruence].
  - unfold is_u in *. pose proof (Z.div_le_upper_bound observedUs 1000 observedUs).
    pose proof (Z.div_pos observedUs 1000). lia.
  - assert (is_s 32 0) by (vm_compute; split; congruence).
    destruct fe; [done..|]. cbn [int32_of_single]. apply to_signed_range. lia.
  - apply wrap_range. lia.
Qed.

(** Only the bytes of the packet count. *)
Lemma decodeTelemetry_take input input' n t :
  (n <= length input)%nat -> (n <= length input')%nat -> bytes_ok input ->
  take n input = take n input' ->
  decodeTelemetry (Some input) n TelemetryPacket_init = (DecodeStatus.kOk, t) ->
  decodeTelemetry (Some input') n TelemetryPacket_init = (DecodeStatus.kOk, t).
Proof.
  intros Hl Hl' Hb Et E. apply decodeTelemetry_inv in E as (Wt & tl & Ew & Ef); [|done|done|by left].
  rewrite (decodeTelemetry_image input' n _ t tl); [by rewrite <- Ef|done|done|congruence].
Qed.

(** What [frame] may have put on the air between [w] and [w']. *)
Definition acknowledged (frame : ReceivedFrame) (processor : option PacketProcessor) (w w' : W)
  : Prop :=
  rw_on_air w' = rw_on_air w \/
  exists p t bytes, processor = Some p /\
    decodeTelemetry (Some (rf_bytes frame)) (rf_length frame) TelemetryPacket_init =
      (DecodeStatus.kOk, t) /\
    pairingMatches (Some (tp_nodeId t)) (pp_pairing p) = true /\
    pm_pairingMode (pp_pairing p) = false /\
    rw_on_air w' = rw_on_air w ++ [bytes] /\ acknowledges t bytes /\ rw_accepted w' (keyOf t).

Lemma handleFrame_acks frame processor r w processor' r' w' :
  rw_ok w -> is_u 32 (session r) -> frame_ok frame -> processor_typed processor ->
  handleFrame object_bytes frame processor r w = (processor', r', w') ->
  rw_ok w' /\ is_u 32 (session r') /\ processor_typed processor' /\
  acknowledged frame processor w w'.
Proof.
  unfold handleFrame. intros Hw Hr F T E. destruct processor as [p|].
  2: { pose proof (startReceive_session r w) as E1.
       destruct (startReceiveUnlocked r w) as [[ok r1] w1] eqn:Es. injection E as <- <- <-.
       apply startReceive_keeps in Es. destruct (Es Hw) as (? & ? & _).
       cbn in E1. split_and!; [done|by rewrite E1|done|by left]. }
  destruct (process object_bytes frame p (r, w)) as [[result p1] [r1 w1]] eqn:Ep.
  destruct (@ack_only_durable object_bytes (RadioState * W) radio_queue
    (radio_ack_sink object_bytes) radio_clock radio_backend radio_world frame p (r, w) result
    p1 (r1, w1) (conj Hw Hr) F (T _ eq_refl) Ep) as ([G1 Hr1] & T1 & Hair). cbn [fst snd] in *.
  assert (rw_ok w' /\ session r' = session r1 /\ processor' = Some p1 /\ keeps w1 w')
    as (G' & -> & -> & K).
  { destruct (negb _).
    - pose proof (startReceive_session r1 w1) as E1.
      destruct (startReceiveUnlocked r1 w1) as [[ok r2] w2] eqn:Es. injection E as <- <- <-.
      apply startReceive_keeps in Es. destruct (Es G1) as (? & ? & _). done.
    - injection E as <- <- <-. split_and!; [done|done|done|apply keeps_refl]. }
  destruct (K G1) as (_ & Ea & Ka). split_and!; [done|done|by intros ? [= <-]|].
  destruct Hair as [[Ha _]|(t & bytes & Ha & Hack & Hacc & Hd & Hm & Hp)].
  - left. rewrite Ea. exact Ha.
  - right. exists p, t, bytes. split_and!; try done; [rewrite Ea; exact Ha|by apply Ka].
Qed.

(** A branch of [handlePhysicalReceive] that goes back to receiving. *)
Lemma resume_quiet (processor : option PacketProcessor) r w w1 processor' r' w' :
  rw_ok w -> is_u 32 (session r) -> keeps w w1 -> processor_typed processor ->
  (let '(_, r, w) := startReceiveUnlocked r w1 in (processor, r, w)) = (processor', r', w') ->
  rw_ok w' /\ is_u 32 (session r') /\ processor_typed processor' /\
  rw_on_air w' = rw_on_air w.
Proof.
  intros Hw Hr K T E. pose proof (startReceive_session r w1) as E1.
  destruct (startReceiveUnlocked r w1) as [[ok r2] w2] eqn:Es.
  apply startReceive_keeps in Es. injection E as <- <- <-.
  destruct (keeps_trans _ _ _ K Es Hw) as (? & ? & _). cbn in E1. by rewrite E1.
Qed.

(** What a round of the receiver may put on the air: the acknowledgement of the
    packet the driver has just read. *)
Definition round_acknowledged (s : RadioService) (w w' : W) : Prop :=
  rw_on_air w' = rw_on_air w \/
  let w1 := (nowUs w).2 in
  let n := (radio_getPacketLength w1).1 in
  exists p data w2 t bytes,
    rv_processor s = Some p /\
    radio_readData n (radio_getPacketLength w1).2 = (RADIOLIB_ERR_NONE, data, w2) /\
    decodeTelemetry (Some data) n TelemetryPacket_init = (DecodeStatus.kOk, t) /\
    pairingMatches (Some (tp_nodeId t)) (pp_pairing p) = true /\
    pm_pairingMode (pp_pairing p) = false /\
    rw_on_air w' = rw_on_air w ++ [bytes] /\ acknowledges t bytes /\ rw_accepted w' (keyOf t).

Lemma handlePhysicalReceive_acks s w processor' r' w' :
  rw_ok w -> is_u 32 (session (rv_radio s)) -> processor_typed (rv_processor s) ->
  handlePhysicalReceive object_bytes (rv_processor s) (rv_radio s) w = (processor', r', w') ->
  rw_ok w' /\ is_u 32 (session r') /\ processor_typed processor' /\ round_acknowledged s w w'.
Proof.
  unfold handlePhysicalReceive, round_acknowledged. intros Hw Hb T E.
  destruct (rd_ready _); cbn [negb] in E; [|injection E as <- <- <-; split_and!; auto].
  pose proof (clock_typed w) as Hus. cbv zeta.
  destruct (nowUs w) as [observedUs w1] eqn:E1. eapply keeps_of in E1; [|apply clock_law].
  cbn [snd] in *. destruct (radio_getPacketLength w1) as [n w2] eqn:E2. cbn [fst snd].
  eapply keeps_of in E2; [|apply packetLength_law].
  pose proof (keeps_trans _ _ _ E1 E2) as K2. clear E1 E2.
  set (r1 := setDiagnostics (countReceived _) (rv_radio s)) in E.
  assert (is_u 32 (session r1)) as Hb1 by (unfold r1; by destruct (rv_radio s)). clearbody r1.
  assert (forall f, session (setDiagnostics f r1) = session r1) as Hset by (by destruct r1).
  assert (forall f code, session (setDiagnostics f (setLastCode code r1)) = session r1) as Hset2
    by (by destruct r1).
  destruct ((n =? 0)%nat || _) eqn:En.
  { destruct (radio_standby w2) as [c w3] eqn:E3. eapply keeps_of in E3; [|apply standby_law].
    apply (resume_quiet _ _ w) in E as (? & ? & ? & ?);
      [auto|done|by rewrite Hset|by eapply keeps_trans|done]. }
  apply orb_false_iff in En as [_ En%Nat.ltb_ge].
  destruct (radio_readData n w2) as [[code data] w3] eqn:Er.
  pose proof (readData_typed _ _ _ _ _ Er) as [Hdata Hlen].
  pose proof Er as K3. eapply keeps_of in K3; [|apply readData_law].
  destruct (code =? RADIOLIB_ERR_CRC_MISMATCH);
    [apply (resume_quiet _ _ w) in E as (? & ? & ? & ?);
      [auto|done|by rewrite Hset2|by eapply keeps_trans|done]|].
  destruct (Z.eqb_spec code RADIOLIB_ERR_NONE) as [->|]; cbn [negb] in E;
    [|apply (resume_quiet _ _ w) in E as (? & ? & ? & ?);
      [auto|done|by rewrite Hset2|by eapply keeps_trans|done]].
  destruct (readFrame _ _ _ _ _) as [frame w4] eqn:Ef.
  apply readFrame_ok in Ef as (F & K4 & Ln & Et); [|done..|by destruct r1].
  assert (keeps w w4) as K
    by (eapply keeps_trans; [exact K2|]; by eapply keeps_trans).
  destruct (K Hw) as (G4 & A4 & _).
  apply handleFrame_acks in E as (G9 & Hs9 & T9 & Hair); [|done|by rewrite Hset2|done..].
  split_and!; [done|done|done|].
  destruct Hair as [Ha|(p & t & bytes & Hp & Hd & Hm & Hs & Ha & Hack & Hacc)];
    [left; congruence|right].
  exists p, data, w3, t, bytes. split_and!; try done; [|congruence].
  rewrite Ln in Hd. eapply decodeTelemetry_take; [..|exact Hd]; try done.
  - rewrite (fo_bytes _ F). done.
  - apply F.
Qed.

(** The service between rounds: boot session and commands are of their types. *)
Record service_typed (s : RadioService) : Prop := {
  st_session : is_u 32 (session (rv_radio s));
  st_processor : processor_typed (rv_processor s);
}.

Lemma radioRound_acks s w s' w' :
  rw_ok w -> service_typed s -> radioRound object_bytes s w = (s', w') ->
  rw_ok w' /\ service_typed s' /\ round_acknowledged s w w'.
Proof.
  unfold radioRound. intros Hw [Hb T] E. destruct (rv_mutex s); cbn [negb] in E.
  - destruct (handlePhysicalReceive _ _ _ w) as [[processor r] w9] eqn:Eh. injection E as <- <-.
    apply handlePhysicalReceive_acks in Eh as (G & Hs & T' & Ha); [|done..].
    split_and!; [done|split; by destruct s|done].
  - injection E as <- <-. split_and!; [done|done|by left].
Qed.

(** C5: durable before acknowledged, through the whole receive path: a round of
    the receiver puts at most one packet on the air; that packet decodes to an
    acknowledgement of a telemetry packet which the driver has just read, without a
    driver error, which is durable at that point, and which comes from the paired
    node while no search for a node is under way.  Whatever the round does, the
    state of queue, commands and radio stays well-formed. *)
Theorem radio_acks_only_durable s w s' w' :
  rw_ok w -> service_typed s -> radioRound object_bytes s w = (s', w') ->
  rw_ok w' /\ service_typed s' /\
  (rw_on_air w' = rw_on_air w \/
   let w1 := (nowUs w).2 in
   let n := (radio_getPacketLength w1).1 in
   exists p data w2 t bytes,
     rv_processor s = Some p /\
     radio_readData n (radio_getPacketLength w1).2 = (RADIOLIB_ERR_NONE, data, w2) /\
     decodeTelemetry (Some data) n TelemetryPacket_init = (DecodeStatus.kOk, t) /\
     pairingMatches (Some (tp_nodeId t)) (pp_pairing p) = true /\
     pm_pairingMode (pp_pairing p) = false /\
     rw_on_air w' = rw_on_air w ++ [bytes] /\ acknowledges t bytes /\ rw_accepted w' (keyOf t)).
Proof. intros Hw Ts E. exact (radioRound_acks s w s' w' Hw Ts E). Qed.
End Service.
