(* ===== verification/RadioSynthetic.v ===== *)
(** * The radio of the bench build (lib/radio/radio_service, [GATHRA_HIL_SYNTHETIC])

    Packets that are injected instead of received, the suppressed acknowledgement,
    and the cycle through standby and sleep.  The injected packet is the image of a
    telemetry packet, takes the way of a received one from [handleFrame] on, and is
    acknowledged on the same conditions. *)

From Stdlib Require Import ZArith Lia.
From stdpp Require Import list.
From S2P Require Import Prelude BuildConfig CString Platform Protocol ProtocolSpec.
From S2P Require Import ProtocolTheorems QueueRecord QueueRecordCodec DurableQueueCore Dedup.
From S2P Require Import Pairing CommandStore CommandStoreSpec Metrics.
From S2P Require Import PacketProcessor PacketProcessorTheorems GatewayConfig TimeManager.
From S2P Require Import RadioService RadioServiceTheorems.
Open Scope Z_scope.

(** ** The injected packet *)

Definition golden : list Z :=
  [0x47; 0x54; 0x03; 0x01; 0x02; 0x4E; 0x31;
   0x01; 0x02; 0x03; 0x04; 0xA0; 0xB0; 0xC0; 0xD0;
   0x00; 0x00; 0x12; 0x34; 0x00; 0x00; 0x02; 0xE4;
   0x00; 0x00; 0x02; 0xE3; 0x00; 0x03; 0xFB; 0x2E;
   0x11; 0xD7; 0x0E; 0x74; 0x07; 0x07; 0x00; 0x00;
   0x03; 0x02; 0x02; 0x00; 0x00; 0x69; 0xAB; 0xCD;
   0xEF; 0x0A; 0x01; 0x69; 0xAB; 0xF0; 0x00; 0x01;
   0x02; 0x03; 0x05; 0x03; 0x00; 0x00; 0x00; 0x05;
   0xDC].

Definition withSequence (sequence : Z) (bytes : list Z) : list Z :=
  <[14%nat := wrap 8 sequence]> (<[13%nat := wrap 8 (Z.shiftr sequence 8)]>
  (<[12%nat := wrap 8 (Z.shiftr sequence 16)]> (<[11%nat := wrap 8 (Z.shiftr sequence 24)]> bytes))).

(** [-42.0F] and [9.5F], as bits. *)
Definition kSyntheticRssi : Z := 0xC2280000.
Definition kSyntheticSnr : Z := 0x41180000.

Section Synthetic.
Context (object_bytes : CommandStoreRecord -> list Z).
Context {W : Type} `{Sx1278 W, MonotonicClock W, TrustedTime W, CommandBackend W, Tasks W}.
Context `{!PacketQueueSink W}.

(** The frame as it is made, with the clocks' readings. *)
Definition syntheticFrame (sequence observedUs : Z) (timestamp : TrustedTimeSnapshot)
    (r : RadioState) : ReceivedFrame :=
  let length := length golden in
  mkReceivedFrame (withSequence sequence golden ++ drop length (zeros kRadioPacketCapacity)) length
    (mkReceptionMetadata (if ts_trusted timestamp then ts_unixMs timestamp else -1)
       (ts_trusted timestamp) (observedUs / 1000) (rx_gatewayBootSessionId r) kSyntheticRssi
       kSyntheticSnr 0 (Z.of_nat length))
    observedUs.

Definition handleSynthetic (sequence : Z) (processor : option PacketProcessor) (r : RadioState)
    (w : W) : option PacketProcessor * RadioState * W :=
  let '(_, w) := radio_standby w in
  let '(observedUs, w) := nowUs w in
  let '(timestamp, w) := time_now w in
  let frame := syntheticFrame sequence observedUs timestamp r in
  let r := setDiagnostics (countReceived (Z.of_nat (length golden))) r in
  let r := setDiagnostics (noteReception frame) r in
  handleFrame object_bytes frame processor r w.

(** [syntheticQueue_] is the list of what it holds; [None]: not created. *)
Definition injectCanonical (sequence : Z) (syntheticQueue : ptr (list Z)) (s : RadioService) (w : W)
  : bool * ptr (list Z) * W :=
  match syntheticQueue with
  | None => (false, syntheticQueue, w)
  | Some queue =>
      if negb (rv_task s) then (false, syntheticQueue, w)
      else if (4 <=? length queue)%nat then (false, syntheticQueue, w)
      else (true, Some (queue ++ [sequence]), taskNotify w)
  end.

Definition suppressNextAck (s : RadioService) : RadioService :=
  if rv_mutex s then s <| rv_radio->rx_suppressNextAck := true |> else s.

Definition exerciseStandbySleepReceive (s : RadioService) (w : W) : bool * RadioService * W :=
  if negb (rv_mutex s) || negb (rd_ready (rx_diagnostics (rv_radio s))) then (false, s, w)
  else
    let current := rd_config (rx_diagnostics (rv_radio s)) in
    let '(code, w) := radio_standby w in
    let r := setLastCode code (rv_radio s) in
    if negb (code =? RADIOLIB_ERR_NONE) then (false, s <| rv_radio := r |>, w)
    else
      let '(code, w) := radio_sleep w in
      let r := setLastCode code r in
      if negb (code =? RADIOLIB_ERR_NONE) then (false, s <| rv_radio := r |>, w)
      else
        let '(okay, r, w) := configureAndReceive current r w in
        (okay, s <| rv_radio := r |>, w).

(** One injected packet of the loop in [run]. *)
Definition syntheticTurn (sequence : Z) (s : RadioService) (w : W) : RadioService * W :=
  if negb (rv_mutex s) then (s, w)
  else
    let '(processor, r, w) := handleSynthetic sequence (rv_processor s) (rv_radio s) w in
    (s <| rv_processor := processor |> <| rv_radio := r |>, w).

Fixpoint syntheticLoop (sequences : list Z) (s : RadioService) (w : W) : RadioService * W :=
  match sequences with
  | [] => (s, w)
  | sequence :: sequences =>
      let '(s, w) := syntheticTurn sequence s w in syntheticLoop sequences s w
  end.

(** One round of [run], after a notification: what has been injected, or else a
    received packet. *)
Definition benchRound (syntheticQueue : ptr (list Z)) (s : RadioService) (w : W)
  : ptr (list Z) * RadioService * W :=
  match syntheticQueue with
  | Some ((_ :: _) as sequences) =>
      let '(s, w) := syntheticLoop sequences s w in (Some [], s, w)
  | _ => let '(s, w) := radioRound object_bytes s w in (syntheticQueue, s, w)
  end.

(** What the radio task does for one packet, with the lock held. *)
Inductive RadioTurn :=
  | Received
  | Injected (sequence : Z).

Definition radioTurn (turn : RadioTurn) (s : RadioService) (w : W) : RadioService * W :=
  match turn with
  | Received => radioRound object_bytes s w
  | Injected sequence => syntheticTurn sequence s w
  end.

(** [begin]; [queueCreated]: the outcome of [xQueueCreate]. *)
Definition benchBegin (mutexCreated queueCreated taskCreated : bool) (config : RadioConfig)
    (pairing : PairingManager) (commands : CommandStore) (gatewayBootSessionId : Z)
    (s : RadioService) (w : W) : bool * ptr (list Z) * RadioService * W :=
  if mutexCreated && negb queueCreated then
    let p := mkPacketProcessor pairing commands PacketProcessingStats_init
               LatestTelemetry_init in
    (false, None,
     s <| rv_mutex := true |> <| rv_processor := Some p |>
       <| rv_radio->rx_gatewayBootSessionId := gatewayBootSessionId |>, w)
  else
    let '(ok, s, w) :=
      radioBegin mutexCreated taskCreated config pairing commands gatewayBootSessionId s w in
    (ok, if mutexCreated then Some [] else None, s, w).
End Synthetic.

(** The cycle leaves the processor alone. *)
Lemma exercise_radio {W} `{Sx1278 W, Tasks W} s (w : W) ok s' w' :
  exerciseStandbySleepReceive s w = (ok, s', w') ->
  rv_processor s' = rv_processor s /\ rv_mutex s' = rv_mutex s.
Proof.
  unfold exerciseStandbySleepReceive. destruct (_ || _); [by intros [= _ <- _]|].
  destruct (radio_standby w) as [c1 w1]. destruct (negb _); [intros [= _ <- _]; by destruct s|].
  destruct (radio_sleep w1) as [c2 w2]. destruct (negb _); [intros [= _ <- _]; by destruct s|].
  destruct (configureAndReceive _ _ w2) as [[okay r] w3]. intros [= _ <- _]. by destruct s.
Qed.

(** ** The packet is telemetry *)

Definition goldenPacket : TelemetryPacket := Eval vm_compute in
  (decodeTelemetry (Some golden) (length golden) TelemetryPacket_init).2.

Definition canonicalPacket (sequence : Z) : TelemetryPacket :=
  goldenPacket <| tp_sequence := sequence |>.

Lemma golden_exact : telemetry_wf goldenPacket /\ golden = telemetryWire goldenPacket.
Proof.
  destruct (decodeTelemetry_inv golden (length golden) TelemetryPacket_init DecodeStatus.kOk
    goldenPacket) as (W & tl & E & Et).
  - done.
  - apply (bool_decide_unpack _). vm_compute. reflexivity.
  - vm_compute. reflexivity.
  - by left.
  - split; [done|]. rewrite (finished_ok tl), app_nil_r in E by done. by rewrite <- E, firstn_all.
Qed.

Lemma canonical_wire sequence :
  is_u 32 sequence ->
  telemetry_wf (canonicalPacket sequence) /\
  telemetryWire (canonicalPacket sequence) = withSequence sequence golden.
Proof.
  intros Hs. destruct golden_exact as [[Wn [] ?? ? ? ? ?] E]. split.
  - by split.
  - vm_compute. reflexivity.
Qed.

Lemma withSequence_bytes sequence : bytes_ok (withSequence sequence golden).
Proof.
  unfold withSequence. repeat apply Forall_insert; try (apply wrap_range; lia).
  apply (bool_decide_unpack _). vm_compute. reflexivity.
Qed.

(** Only the sequence number's low 32 bits count. *)
Lemma wrap_wrap_shiftr v k :
  0 <= k <= 24 -> wrap 8 (Z.shiftr (wrap 32 v) k) = wrap 8 (Z.shiftr v k).
Proof.
  intros Hk. unfold wrap. apply Z.bits_inj'. intros n Hn.
  rewrite !Z.testbit_mod_pow2, !Z.shiftr_spec by lia.
  destruct (Z.ltb_spec n 8); [|done]. rewrite Z.testbit_mod_pow2 by lia.
  by destruct (Z.ltb_spec (n + k) 32); [|lia].
Qed.

Lemma withSequence_wrap sequence bytes :
  withSequence (wrap 32 sequence) bytes = withSequence sequence bytes.
Proof.
  unfold withSequence. rewrite !wrap_wrap_shiftr by lia.
  pose proof (wrap_wrap_shiftr sequence 0) as E. rewrite !Z.shiftr_0_r in E. by rewrite E by lia.
Qed.

(** The frame decodes to that packet, whatever the sequence number. *)
Lemma synthetic_decodes sequence observedUs timestamp r :
  let frame := syntheticFrame sequence observedUs timestamp r in
  decodeTelemetry (Some (rf_bytes frame)) (rf_length frame) TelemetryPacket_init =
    (DecodeStatus.kOk, canonicalPacket (wrap 32 sequence)).
Proof.
  destruct (canonical_wire (wrap 32 sequence)) as [W E]; [by apply wrap_range|]. cbv zeta.
  rewrite withSequence_wrap in E.
  assert (length (withSequence sequence golden) = 64%nat) as El
    by (unfold withSequence; by rewrite !length_insert).
  rewrite (decodeTelemetry_image _ _ _ (canonicalPacket (wrap 32 sequence)) []); [done| |done|].
  - cbn [rf_bytes rf_length syntheticFrame]. rewrite length_app, El. cbn. lia.
  - cbn [rf_bytes rf_length syntheticFrame]. rewrite E, app_nil_r. change (length golden) with 64%nat.
    by rewrite take_app_length'.
Qed.

Section Theorems.
Context (object_bytes : CommandStoreRecord -> list Z).
Context {W : Type} `{RadioWorld W, !Tasks W}.

Lemma synthetic_frame_ok sequence observedUs timestamp r :
  is_u 64 observedUs -> is_s 64 (ts_unixMs timestamp) -> is_u 32 (session r) ->
  frame_ok (syntheticFrame sequence observedUs timestamp r).
Proof.
  intros Ho Ht Hs. pose proof (withSequence_bytes sequence).
  split; unfold syntheticFrame; cbn [rf_bytes rf_length rf_reception rm_gatewayReceivedUnixMs
    rm_gatewayUptimeMs rm_gatewayBootSessionId rm_rssiDbm rm_snrDb rm_frequencyErrorHz
    rm_packetLength].
  - unfold withSequence. rewrite length_app, !length_insert. reflexivity.
  - apply Forall_app. split; [done|]. apply (bool_decide_unpack _). vm_compute. reflexivity.
  - vm_compute. lia.
  - destruct (ts_trusted timestamp); [done|by computed].
  - unfold is_u in *. split; [apply Z.div_pos; lia|apply Z.div_lt_upper_bound; lia].
  - done.
  - by computed.
  - by computed.
  - by computed.
  - by computed.
Qed.

Lemma startReceive_suppress r w :
  rx_suppressNextAck (startReceiveUnlocked r w).1.2 = rx_suppressNextAck r.
Proof.
  unfold startReceiveUnlocked. repeat case_bool_decide;
    destruct (notifyTake _ _) as [n w1]; destruct (radio_startReceive w1) as [c w2]; by destruct r.
Qed.

(** What the processing of an injected packet may put on the air: the acknowledgement
    of that packet. *)
Definition synthetic_acknowledged (sequence : Z) (processor : option PacketProcessor) (w w' : W)
  : Prop :=
  rw_on_air w' = rw_on_air w \/
  let t := canonicalPacket (wrap 32 sequence) in
  exists p bytes, processor = Some p /\
    pairingMatches (Some (tp_nodeId t)) (pp_pairing p) = true /\
    pm_pairingMode (pp_pairing p) = false /\
    rw_on_air w' = rw_on_air w ++ [bytes] /\ acknowledges t bytes /\
    rw_accepted w' (keyOf t).

Lemma handleSynthetic_acks sequence processor r w processor' r' w' :
  rw_ok w -> is_u 32 (session r) -> processor_typed processor ->
  handleSynthetic object_bytes sequence processor r w = (processor', r', w') ->
  rw_ok w' /\ is_u 32 (session r') /\ processor_typed processor' /\
  synthetic_acknowledged sequence processor w w'.
Proof.
  unfold handleSynthetic. intros Hw Hr T E.
  destruct (radio_standby w) as [x w1] eqn:E1. eapply keeps_of in E1; [|apply standby_law].
  pose proof (clock_typed w1) as Hc. destruct (nowUs w1) as [observedUs w2] eqn:E2.
  eapply keeps_of in E2; [|apply clock_law].
  pose proof (time_typed w2) as Ht. destruct (time_now w2) as [timestamp w3] eqn:E3.
  eapply keeps_of in E3; [|apply time_law].
  destruct (keeps_trans _ _ _ E1 (keeps_trans _ _ _ E2 E3) Hw) as (G3 & A3 & _).
  set (r1 := setDiagnostics (countReceived _) r) in E.
  assert (session r1 = session r) as Hr1 by (unfold r1; by destruct r). clearbody r1.
  assert (forall f, session (setDiagnostics f r1) = session r) as Hset by (by destruct r1).
  assert (frame_ok (syntheticFrame sequence observedUs timestamp r)) as F
    by (by apply synthetic_frame_ok).
  pose proof (synthetic_decodes sequence observedUs timestamp r) as Hdec. cbv zeta in Hdec.
  set (frame := syntheticFrame _ _ _ _) in *. clearbody frame.
  destruct (handleFrame_acks object_bytes _ _ _ _ _ _ _ G3 (eq_ind_r (is_u 32) Hr (Hset _)) F T E)
    as (G & Hs' & T' & Hair).
  split_and!; [done..|].
  destruct Hair as [Ha|(p & t & bytes & Hp & Hd & Hm & Hn & Ha & Hack & Hacc)];
    [left; congruence|right].
  rewrite Hdec in Hd. injection Hd as <-.
  exists p, bytes. split_and!; try done. congruence.
Qed.

Lemma syntheticTurn_acks sequence s w s' w' :
  rw_ok w -> service_typed s -> syntheticTurn object_bytes sequence s w = (s', w') ->
  rw_ok w' /\ service_typed s' /\ synthetic_acknowledged sequence (rv_processor s) w w'.
Proof.
  unfold syntheticTurn. intros Hw [Hb T] E. destruct (rv_mutex s); cbn [negb] in E.
  - destruct (handleSynthetic _ _ _ _ w) as [[processor r] w9] eqn:Eh. injection E as <- <-.
    apply handleSynthetic_acks in Eh as (G & Hs & T' & Ha); [|done..].
    split_and!; [done|split; by destruct s|done].
  - injection E as <- <-. split_and!; [done|done|by left].
Qed.

Lemma radioTurn_acks turn s w s' w' :
  rw_ok w -> service_typed s -> radioTurn object_bytes turn s w = (s', w') ->
  rw_ok w' /\ service_typed s' /\
  (rw_on_air w' = rw_on_air w \/ exists t bytes, rw_on_air w' = rw_on_air w ++ [bytes] /\
     acknowledges t bytes /\ rw_accepted w' (keyOf t)).
Proof.
  intros Hw T E. destruct turn as [|sequence]; cbn [radioTurn] in E.
  - destruct (radioRound_acks object_bytes _ _ _ _ Hw T E)
      as (G & T' & [Ha|(p & data & w2 & t & bytes & Hr)]); [by split_and!; [..|left]|].
    split_and!; [done..|]. right. exists t, bytes. tauto.
  - destruct (syntheticTurn_acks _ _ _ _ _ Hw T E) as (G & T' & [Ha|(p & bytes & Hr)]);
      [by split_and!; [..|left]|].
    split_and!; [done..|]. right. eexists _, bytes. split; [|split]; apply Hr.
Qed.

(** A suppressed acknowledgement is not sent, and the next one is not suppressed. *)
Lemma radioTransmitAck_suppressed t cs r w report cs' r' w' :
  rw_ok w -> rx_suppressNextAck r = true ->
  radioTransmitAck object_bytes t cs r w = (report, cs', r', w') ->
  at_success report = false /\ cs' = cs /\ rw_ok w' /\ rw_on_air w' = rw_on_air w /\
  (at_attempted report = true -> rx_suppressNextAck r' = false).
Proof.
  unfold radioTransmitAck. intros Hw Hr E. rewrite Hr in E.
  destruct (time_now w) as [ts w1] eqn:E1. eapply keeps_of in E1; [|apply time_law].
  destruct (encodeAckCommand _ _ _) as [[encoded bytes] n]. destruct encoded; cbn [negb] in E.
  - destruct (nowUs w1) as [startUs w2] eqn:E2. eapply keeps_of in E2; [|apply clock_law].
    destruct (startReceiveUnlocked _ w2) as [[ok r3] w3] eqn:E3. injection E as <- <- <- <-.
    pose proof (startReceive_suppress (r <| rx_suppressNextAck := false |>) w2) as Es.
    rewrite E3 in Es. apply startReceive_keeps in E3.
    destruct (keeps_trans _ _ _ E1 (keeps_trans _ _ _ E2 E3) Hw) as (? & ? & _).
    split_and!; try done.
  - destruct (startReceiveUnlocked _ w1) as [[ok r3] w3] eqn:E3. injection E as <- <- <- <-.
    apply startReceive_keeps in E3. destruct (keeps_trans _ _ _ E1 E3 Hw) as (? & ? & _).
    by split_and!.
Qed.

Lemma exercise_keeps s w ok s' w' :
  exerciseStandbySleepReceive s w = (ok, s', w') -> keeps w w'.
Proof.
  unfold exerciseStandbySleepReceive. intros E.
  destruct (_ || _); [injection E as _ _ <-; apply keeps_refl|].
  destruct (radio_standby w) as [c1 w1] eqn:E1. eapply keeps_of in E1; [|apply standby_law].
  destruct (negb _); [by injection E as _ _ <-|].
  destruct (radio_sleep w1) as [c2 w2] eqn:E2. eapply keeps_of in E2; [|apply sleep_law].
  pose proof (keeps_trans _ _ _ E1 E2) as K2. destruct (negb _); [by injection E as _ _ <-|].
  destruct (configureAndReceive _ _ w2) as [[okay r] w3] eqn:E3.
  apply configureAndReceive_keeps in E3. injection E as _ _ <-. by eapply keeps_trans.
Qed.
End Theorems.
