(* ===== verification/RadioTypes.v ===== *)
(** * What the radio reports is within its types

    The counters, readings and times of [RadioDiagnostics], the statistics of the
    processor and the latest telemetry, from [begin] on through any turns of the
    radio's task: [radio_figures_typed]. *)

From Stdlib Require Import ZArith Lia String.
From stdpp Require Import list.
From S2P Require Import Prelude BuildConfig CString Platform Protocol ProtocolSpec.
From S2P Require Import ProtocolTheorems QueueRecord QueueRecordCodec DurableQueueCore Dedup.
From S2P Require Import Pairing CommandStore CommandStoreSpec Metrics PacketProcessor.
From S2P Require Import PacketProcessorTheorems GatewayConfig TimeManager RadioService.
From S2P Require Import RadioServiceTheorems RadioSynthetic.
Open Scope Z_scope.

(** ** The figures *)

Record sample_typed (s : RunningStatistics) : Prop := {
  sa_count : is_u 64 (st_count s);
  sa_minimum : is_u 64 (st_minimum s);
  sa_maximum : is_u 64 (st_maximum s);
  sa_order : st_minimum s <= st_maximum s;
}.

Definition counters (s : PacketProcessingStats) : list Z :=
  [ps_validProtocolPackets s; ps_validTelemetryPackets s; ps_validCommandResultPackets s;
   ps_decodeErrors s; ps_unknownNodePackets s; ps_duplicates s; ps_ackSent s; ps_ackFailures s;
   ps_durableEnqueueFailures s; ps_commandResultsConfirmed s; ps_commandResultsIgnored s;
   ps_lastQueueWriteUs s; ps_lastRxToDurableEnqueueUs s; ps_lastRxToAckStartUs s;
   ps_lastRxToAckCompleteUs s; ps_lastAckTxDurationUs s].

Record stats_typed (s : PacketProcessingStats) : Prop := {
  pt_counters : Forall (is_u 64) (counters s);
  pt_start : sample_typed (al_rxToStart (ps_successfulAckLatency s));
  pt_complete : sample_typed (al_rxToComplete (ps_successfulAckLatency s));
  pt_duration : sample_typed (al_txDuration (ps_successfulAckLatency s));
}.

Record reception_typed (m : ReceptionMetadata) : Prop := {
  rt_unix : is_s 64 (rm_gatewayReceivedUnixMs m);
  rt_up : is_u 64 (rm_gatewayUptimeMs m);
  rt_session : is_u 32 (rm_gatewayBootSessionId m);
  rt_rssiDbm : is_u 32 (rm_rssiDbm m);
  rt_snrDb : is_u 32 (rm_snrDb m);
  rt_error : is_s 32 (rm_frequencyErrorHz m);
  rt_size : is_u 16 (rm_packetLength m);
}.

(** The latest telemetry is a well-formed packet with its reception. *)
Definition latest_typed (l : LatestTelemetry) : Prop :=
  (lt_available l = true -> telemetry_wf (lt_packet l)) /\ reception_typed (lt_reception l).

Definition processor_figures (p : PacketProcessor) : Prop :=
  stats_typed (pp_stats p) /\ latest_typed (pp_latest p).

(** The state's name is a terminated string. *)
Record diagnostics_typed (d : RadioDiagnostics) : Prop := {
  dt_state : length (rd_state d) = 20%nat /\ rd_state d !! 19%nat = Some 0;
  dt_counters : Forall (is_u 64) [rd_receivedPackets d; rd_crcErrors d;
    rd_invalidLengthPackets d; rd_readErrors d; rd_commandsSentCount d];
  dt_rssi : is_u 32 (rd_lastRssiDbm d);
  dt_snr : is_u 32 (rd_lastSnrDb d);
  dt_error : is_s 32 (rd_lastFrequencyErrorHz d);
  dt_length : is_u 16 (rd_lastPacketLength d);
  dt_uptime : is_u 64 (rd_lastRxUptimeUs d);
  dt_unix : is_s 64 (rd_lastRxUnixMs d);
  dt_processing : stats_typed (rd_processing d);
}.

Lemma strncpyz_ends n destination source :
  length destination = S n /\ destination !! n = Some 0 ->
  length (strncpyz destination source) = S n /\ strncpyz destination source !! n = Some 0.
Proof.
  intros [Hl He]. unfold strncpyz. rewrite Hl, Nat.sub_succ, Nat.sub_0_r.
  split; [rewrite length_strncpy by lia; done|]. unfold strncpy. rewrite app_assoc.
  pose proof (strnlen_le_n source n). pose proof (strnlen_le_length source n).
  rewrite lookup_app_r; rewrite length_app, length_take, length_replicate; [|lia].
  rewrite lookup_drop, <- He. f_equal. lia.
Qed.

(** ** Counting *)

Lemma u64_wrap v : is_u 64 (wrap 64 v).
Proof. by apply wrap_range. Qed.

Lemma record_sample_typed v s : is_u 64 v -> sample_typed s -> sample_typed (record_sample v s).
Proof.
  intros Hv [Hc Hn Hx Ho]. unfold record_sample. pose proof (u64_wrap (st_count s + 1)).
  destruct (_ =? 1); [by split|].
  destruct (Z.ltb_spec v (st_minimum s)), (Z.ltb_spec (st_maximum s) v); split; cbn; done || lia.
Qed.

Lemma record_ack_typed a b s :
  is_u 64 a -> is_u 64 b -> sample_typed (al_rxToStart s) -> sample_typed (al_rxToComplete s) ->
  sample_typed (al_txDuration s) ->
  sample_typed (al_rxToStart (record_ack a b s)) /\
  sample_typed (al_rxToComplete (record_ack a b s)) /\
  sample_typed (al_txDuration (record_ack a b s)).
Proof.
  intros Ha Hb K1 H2 H3. unfold record_ack. destruct (b <? a); [done|]. cbn.
  split_and!; apply record_sample_typed; done || apply u64_wrap.
Qed.

(** A step that sets counters to values of their width. *)
Ltac count_typed :=
  match goal with |- stats_typed ?s -> _ => destruct s end;
  intros [Hc ? ? ?]; unfold counters in Hc; cbn in Hc;
  repeat (let H := fresh in apply Forall_cons in Hc as [H Hc]);
  split; [unfold counters, bump64; cbn; repeat apply Forall_cons_2; done || apply u64_wrap|done..].

Lemma countDecodeError_typed s : stats_typed s -> stats_typed (countDecodeError s).
Proof. count_typed. Qed.
Lemma countCommandResult_typed s : stats_typed s -> stats_typed (countCommandResult s).
Proof. count_typed. Qed.
Lemma countTelemetry_typed s : stats_typed s -> stats_typed (countTelemetry s).
Proof. count_typed. Qed.
Lemma countIgnored_typed s : stats_typed s -> stats_typed (countIgnored s).
Proof. count_typed. Qed.
Lemma countConfirmed_typed s : stats_typed s -> stats_typed (countConfirmed s).
Proof. count_typed. Qed.
Lemma countUnknown_typed s : stats_typed s -> stats_typed (countUnknown s).
Proof. count_typed. Qed.
Lemma countDuplicate_typed s : stats_typed s -> stats_typed (countDuplicate s).
Proof. count_typed. Qed.
Lemma countEnqueueFailure_typed s : stats_typed s -> stats_typed (countEnqueueFailure s).
Proof. count_typed. Qed.
Lemma countAckFailure_typed s : stats_typed s -> stats_typed (countAckFailure s).
Proof. count_typed. Qed.

Lemma noteEnqueued_typed frame t1 t2 s : stats_typed s -> stats_typed (noteEnqueued frame t1 t2 s).
Proof. unfold noteEnqueued. destruct (_ <=? _); count_typed. Qed.

Lemma noteAckTimes_typed frame ack s : stats_typed s -> stats_typed (noteAckTimes frame ack s).
Proof.
  unfold noteAckTimes. destruct (at_attempted ack); cbn [andb]; [|done].
  destruct (_ <=? _), (_ <=? _), (_ <=? _); count_typed.
Qed.

Lemma countAckSent_typed frame ack s : stats_typed s -> stats_typed (countAckSent frame ack s).
Proof.
  intros T. unfold countAckSent. set (s1 := s <| ps_ackSent := _ |>).
  assert (stats_typed s1) as [C1 K1 H2 H3] by (revert T; unfold s1; count_typed). clearbody s1.
  destruct (_ && _); [|done].
  destruct (record_ack_typed (wrap 64 (at_startUs ack - rf_observedUs frame))
    (wrap 64 (at_completedUs ack - rf_observedUs frame)) (ps_successfulAckLatency s1))
    as (? & ? & ?); [apply u64_wrap|apply u64_wrap|done..].
Qed.

Create HintDb figures.
#[export] Hint Resolve countDecodeError_typed countCommandResult_typed countTelemetry_typed
  countIgnored_typed countConfirmed_typed countUnknown_typed countDuplicate_typed
  countEnqueueFailure_typed countAckFailure_typed noteEnqueued_typed noteAckTimes_typed
  countAckSent_typed : figures.

Lemma withStats_figures f p :
  (stats_typed (pp_stats p) -> stats_typed (f (pp_stats p))) -> processor_figures p ->
  processor_figures (withStats f p).
Proof. intros Hf [T L]. split; [by apply Hf|done]. Qed.

Lemma changed_figures pairing commands p :
  processor_figures p ->
  processor_figures (mkPacketProcessor pairing commands (pp_stats p) (pp_latest p)).
Proof. done. Qed.
#[export] Hint Resolve withStats_figures changed_figures : figures.

(** ** Processing a frame *)

Section Process.
Context (object_bytes : CommandStoreRecord -> list Z).
Context {V : Type} `{PacketQueueSink V, AckSink V, MonotonicClock V, CommandBackend V}.
(** What the world's operations keep. *)
Context (Q : V -> Prop).
Hypothesis keeps_contains : forall key v, Q v -> Q (containsKey key v).2.
Hypothesis keeps_enqueue : forall r v, Q v -> Q (durablyEnqueue r v).2.
Hypothesis keeps_duplicate : forall v, Q v -> Q (noteDuplicate v).
Hypothesis keeps_ack : forall t cs v, Q v -> Q (transmitAck t cs v).2.
Hypothesis keeps_clock : forall v, Q v -> Q (nowUs v).2.
Hypothesis keeps_save : forall r v, Q v -> Q (backend_save r v).2.

Lemma commitNoting_keeps done_ candidate cs v :
  Q v -> Q (commitNoting object_bytes done_ candidate cs v).2.
Proof.
  intros Hv. unfold commitNoting, commit. destruct (negb (cs_backend cs)); [done|].
  set (record := withChecksum _ candidate). pose proof (keeps_save record v Hv) as Hk.
  destruct (backend_save record v) as [saved v1]. by destruct saved.
Qed.

Lemma confirm_keeps result trusted cs v :
  Q v -> Q (confirm object_bytes result trusted cs v).2.
Proof.
  intros Hv. unfold confirm. destruct (negb _); [done|]. cbv zeta.
  destruct (_ || _); [done|]. destruct (enum_eqb _ _); [done|]. destruct (negb _); [done|].
  set (candidate := withCommand _ _).
  pose proof (commitNoting_keeps "matching command result confirmed" candidate cs v Hv) as Hk.
  by destruct (commitNoting _ _ candidate cs v) as [[ok cs1] v1].
Qed.

Lemma storePacket_figures frame t p v stored p' v' :
  storePacket frame t p v = (stored, p', v') -> processor_figures p -> Q v ->
  processor_figures p' /\ Q v'.
Proof.
  unfold storePacket. intros E T Hv.
  pose proof (keeps_contains (makeTelemetryKey (Some (tp_nodeId t))
    (tp_persistentSessionId t) (tp_sequence t)) v Hv) as K1.
  destruct (containsKey _ v) as [dup v1]. cbn [snd] in K1.
  destruct dup; [injection E as _ <- <-; auto with figures|].
  pose proof (keeps_clock v1 K1) as K2. destruct (nowUs v1) as [t0 v2].
  pose proof (keeps_enqueue (recordOfFrame frame) v2 K2) as K3.
  destruct (durablyEnqueue _ v2) as [o v3]. cbn [snd] in K3.
  destruct (negb _); [injection E as _ <- <-; auto with figures|].
  pose proof (keeps_clock v3 K3) as K4. destruct (nowUs v3) as [t1 v4].
  injection E as _ <- <-. auto with figures.
Qed.

Lemma acknowledge_figures frame t dup p v ack disposition p' v' :
  acknowledge frame t dup p v = (ack, disposition, p', v') -> processor_figures p -> Q v ->
  processor_figures p' /\ Q v'.
Proof.
  unfold acknowledge. intros E T Hv. pose proof (keeps_ack t (pp_commands p) v Hv) as K1.
  destruct (transmitAck t (pp_commands p) v) as [[ack1 cs] v1]. cbn [snd] in K1.
  destruct (_ && _); injection E as _ _ <- <-; auto with figures.
Qed.

Lemma process_figures frame p v result p' v' :
  frame_ok frame -> process object_bytes frame p v = (result, p', v') ->
  processor_figures p -> Q v -> processor_figures p' /\ Q v'.
Proof.
  unfold process. intros F E T Hv. destruct (_ && _).
  - unfold processCommandResult in E. destruct (decodeCommandResult _ _ _) as [status cr].
    destruct (negb _); [injection E as _ <- <-; auto with figures|].
    destruct (_ || _); [injection E as _ <- <-; auto with figures|].
    pose proof (confirm_keeps cr false (pp_commands (withStats countCommandResult p)) v Hv) as Hc.
    destruct (confirm _ _ _ _ v) as [[[ok dup] cs] v1]. cbn [snd] in Hc.
    set (q := mkPacketProcessor _ cs _ _) in E.
    assert (processor_figures q) as Tq by (apply changed_figures; auto with figures). clearbody q.
    destruct (negb ok); injection E as _ <- <-; auto with figures.
  - unfold processTelemetry in E.
    destruct (decodeTelemetry _ _ _) as [status t] eqn:Ed.
    destruct (bool_decide (status = DecodeStatus.kOk)) eqn:Eb; cbn [negb] in E;
      [|injection E as _ <- <-; auto with figures].
    apply bool_decide_eq_true in Eb as ->.
    destruct (pm_pairingMode _).
    { injection E as _ <- <-. split; [|done].
      apply (changed_figures _ _ (withStats countTelemetry p)). auto with figures. }
    destruct (negb _); [injection E as _ <- <-; auto with figures|].
    destruct (negb _); [injection E as _ <- <-; auto with figures|].
    set (q := mkPacketProcessor _ _ _ _) in E.
    assert (processor_figures q) as Tq.
    { destruct T as [T L]. split; [exact (countTelemetry_typed _ T)|].
      apply decodeTelemetry_inv in Ed as [W _]; [|rewrite (fo_bytes _ F); apply F|apply F|by left].
      split; [done|]. split; apply F. }
    clearbody q. destruct (storePacket frame t q v) as [[stored q1] v1] eqn:Es.
    apply storePacket_figures in Es as [T1 Q1]; [|done..].
    destruct stored as [dropped|[dup dropped]]; [by injection E as _ <- <-|].
    destruct (acknowledge frame t dup q1 v1) as [[[ack disp] q2] v2] eqn:Ea.
    injection E as _ <- <-. by apply acknowledge_figures in Ea.
Qed.
End Process.

(** ** The radio's state *)

Section Radio.
Context (object_bytes : CommandStoreRecord -> list Z).
Context {W : Type} `{RadioWorld W}.

Definition radio_typed (r : RadioState) : Prop := diagnostics_typed (rx_diagnostics r).

Lemma setDiagnostics_typed f r :
  (diagnostics_typed (rx_diagnostics r) -> diagnostics_typed (f (rx_diagnostics r))) ->
  radio_typed r -> radio_typed (setDiagnostics f r).
Proof. unfold radio_typed. destruct r. auto. Qed.

Lemma setLastCode_typed code r : radio_typed r -> radio_typed (setLastCode code r).
Proof. apply setDiagnostics_typed. destruct (rx_diagnostics r). by intros []. Qed.

Lemma setReady_typed ready r : radio_typed r -> radio_typed (setReady ready r).
Proof. apply setDiagnostics_typed. destruct (rx_diagnostics r). by intros []. Qed.

Lemma setState_typed name r : radio_typed r -> radio_typed (setState name r).
Proof.
  apply setDiagnostics_typed. destruct (rx_diagnostics r) as [ready state]. intros [[Hl He]].
  split; try done. by apply strncpyz_ends.
Qed.

Lemma setAction_typed action r : radio_typed r -> radio_typed (r <| rx_dio0Action := action |>).
Proof. by destruct r. Qed.

Lemma setSuppress_typed b r : radio_typed r -> radio_typed (r <| rx_suppressNextAck := b |>).
Proof. by destruct r. Qed.

#[local] Hint Resolve setLastCode_typed setReady_typed setState_typed setAction_typed
  setSuppress_typed : figures.

Lemma startReceive_typed r w : radio_typed r -> radio_typed (startReceiveUnlocked r w).1.2.
Proof.
  unfold startReceiveUnlocked. intros T. repeat case_bool_decide;
    destruct (notifyTake _ _) as [n w1]; destruct (radio_startReceive w1) as [c w2]; cbn [fst snd];
    auto 8 with figures.
Qed.

Lemma configure_typed config r w : radio_typed r -> radio_typed (configureUnlocked config r w).1.2.
Proof.
  unfold configureUnlocked. intros T. destruct (radio_begin config w) as [code w1].
  assert (forall q, radio_typed q -> radio_typed
    (if rd_ready (rx_diagnostics q)
     then setDiagnostics (fun d => d <| rd_config := config |>) q else setState "ERROR" q)) as Hset.
  { intros q Tq. destruct (rd_ready _); [|auto with figures].
    revert Tq. apply setDiagnostics_typed. destruct (rx_diagnostics q). by intros []. }
  destruct (rd_ready _); [|cbn [fst snd]; auto 8 with figures].
  destruct (radio_setCRC true w1) as [c w2]. cbn [fst snd]. auto 8 with figures.
Qed.

Lemma configureAndReceive_typed config r w :
  radio_typed r -> radio_typed (configureAndReceive config r w).1.2.
Proof.
  unfold configureAndReceive. intros T. pose proof (configure_typed config r w T) as T1.
  destruct (configureUnlocked config r w) as [[b r1] w1]. destruct b; [|done].
  by apply startReceive_typed.
Qed.

Lemma transmitBytes_typed bytes r w : radio_typed r -> radio_typed (transmitBytes bytes r w).1.2.
Proof.
  unfold transmitBytes. intros T. destruct (radio_startTransmit bytes w) as [code w1].
  destruct (negb _); [cbn [fst snd]; auto with figures|].
  destruct (radio_getTimeOnAir _ w1) as [t w2]. destruct (notifyTake _ w2) as [n w3].
  destruct (0 <? n); [destruct (radio_finishTransmit w3) as [c w4]|
                      destruct (radio_standby w3) as [c w4]]; cbn [fst snd]; auto 8 with figures.
Qed.

Lemma radioTransmitAck_typed t cs r w :
  radio_typed r -> radio_typed (radioTransmitAck object_bytes t cs r w).1.2.
Proof.
  unfold radioTransmitAck. intros T. destruct (time_now w) as [ts w1].
  destruct (encodeAckCommand _ _ _) as [[encoded bytes] n]. destruct encoded; cbn [negb].
  2: { pose proof (startReceive_typed r w1 T).
       by destruct (startReceiveUnlocked r w1) as [[ok r1] w2]. }
  destruct (rx_suppressNextAck r).
  { destruct (nowUs w1) as [us w2]. set (r1 := r <| rx_suppressNextAck := false |>).
    pose proof (startReceive_typed r1 w2 (setSuppress_typed false r T)).
    by destruct (startReceiveUnlocked r1 w2) as [[ok r2] w3]. }
  destruct (notifyTake 0 w1) as [k w2]. set (w3 := if bool_decide _ then w2 else _).
  destruct (nowUs (radio_setPacketSentAction w3)) as [us w4].
  set (r1 := r <| rx_dio0Action := _ |>).
  pose proof (transmitBytes_typed (take n (default [] bytes)) r1 w4 (setAction_typed _ r T)) as T1.
  destruct (transmitBytes _ r1 w4) as [[success r2] w5]. destruct (nowUs w5) as [us2 w6].
  pose proof (startReceive_typed r2 w6 T1) as T2.
  destruct (startReceiveUnlocked r2 w6) as [[restored r3] w7]. cbn [fst snd] in T2.
  destruct (_ && _); [|done]. destruct (time_now w7) as [sent w8].
  destruct (markSent _ _ _ _ w8) as [[ok cs1] w9]. revert T2. apply setDiagnostics_typed.
  destruct (rx_diagnostics r3). intros [? Hc]. cbn in Hc.
  repeat (let H := fresh in apply Forall_cons in Hc as [H Hc]). split; try done.
  cbn. repeat apply Forall_cons_2; done || apply u64_wrap.
Qed.

(** ** Turns *)

Definition processor_ok (o : option PacketProcessor) : Prop :=
  forall p, o = Some p -> processor_figures p.

Lemma handleFrame_figures frame o r w o' r' w' :
  frame_ok frame -> handleFrame object_bytes frame o r w = (o', r', w') ->
  radio_typed r -> processor_ok o -> radio_typed r' /\ processor_ok o'.
Proof.
  unfold handleFrame. intros F E R T. destruct o as [p|].
  2: { pose proof (startReceive_typed r w R). destruct (startReceiveUnlocked r w) as [[ok r1] w1].
       by injection E as <- <- _. }
  destruct (process object_bytes frame p (r, w)) as [[result p1] [r1 w1]] eqn:Ep.
  destruct (@process_figures object_bytes (RadioState * W) radio_queue
    (radio_ack_sink object_bytes) radio_clock radio_backend (fun v => radio_typed v.1))
    with (frame := frame) (p := p) (v := (r, w)) (result := result) (p' := p1) (v' := (r1, w1))
    as [T1 R1]; try done.
  - intros key [r0 w0] R0. cbn. by destruct (containsKey key w0).
  - intros q [r0 w0] R0. cbn. by destruct (durablyEnqueue q w0).
  - intros t cs [r0 w0] R0. cbn. pose proof (radioTransmitAck_typed t cs r0 w0 R0).
    by destruct (radioTransmitAck object_bytes t cs r0 w0) as [[[rep cs1] r2] w2].
  - intros [r0 w0] R0. cbn. by destruct (nowUs w0).
  - intros q [r0 w0] R0. cbn. by destruct (backend_save q w0).
  - by apply T.
  - cbn [fst] in R1. destruct (negb _).
    + pose proof (startReceive_typed r1 w1 R1).
      destruct (startReceiveUnlocked r1 w1) as [[ok r2] w2]. injection E as <- <- _.
      split; [done|by intros ? [= <-]].
    + injection E as <- <- _. split; [done|by intros ? [= <-]].
Qed.

Lemma countReceived_typed n r : radio_typed r -> radio_typed (setDiagnostics (countReceived n) r).
Proof.
  apply setDiagnostics_typed. destruct (rx_diagnostics r). intros [? Hc]. cbn in Hc.
  repeat (let H := fresh in apply Forall_cons in Hc as [H Hc]). split; try done.
  - cbn. repeat apply Forall_cons_2; done || apply u64_wrap.
  - by apply wrap_range.
Qed.

Lemma countFailure_typed f r :
  f ∈ [countInvalidLength; countCrcError; countReadError] ->
  radio_typed r -> radio_typed (setDiagnostics f r).
Proof.
  intros Hf. apply setDiagnostics_typed. destruct (rx_diagnostics r). intros [? Hc]. cbn in Hc.
  repeat (let H := fresh in apply Forall_cons in Hc as [H Hc]).
  rewrite !elem_of_cons in Hf. destruct Hf as [->|[->|[->|[]%elem_of_nil]]];
    (split; try done; cbn; repeat apply Forall_cons_2; done || apply u64_wrap).
Qed.

Lemma noteReception_typed frame r :
  frame_ok frame -> is_u 64 (rf_observedUs frame) -> radio_typed r ->
  radio_typed (setDiagnostics (noteReception frame) r).
Proof.
  intros F Ho. apply setDiagnostics_typed. destruct (rx_diagnostics r). intros [].
  split; try done; apply F.
Qed.

Lemma handlePhysicalReceive_figures o r w o' r' w' :
  is_u 32 (rx_gatewayBootSessionId r) -> handlePhysicalReceive object_bytes o r w = (o', r', w') ->
  radio_typed r -> processor_ok o -> radio_typed r' /\ processor_ok o'.
Proof.
  unfold handlePhysicalReceive. intros Hs E R T. destruct (negb _); [by injection E as <- <- _|].
  pose proof (clock_typed w) as Hus. destruct (nowUs w) as [observedUs w1]. cbn [fst] in Hus.
  destruct (radio_getPacketLength w1) as [n w2].
  pose proof (countReceived_typed (Z.of_nat n) r R) as R1.
  assert (is_u 32 (rx_gatewayBootSessionId (setDiagnostics (countReceived (Z.of_nat n)) r))) as Hs1
    by (by destruct r).
  set (r1 := setDiagnostics (countReceived (Z.of_nat n)) r) in *. clearbody r1.
  assert (forall q v, radio_typed q ->
    (let '(_, r, w) := startReceiveUnlocked q v in (o, r, w)) = (o', r', w') ->
    radio_typed r' /\ processor_ok o') as Hresume.
  { intros q v Rq Eq. pose proof (startReceive_typed q v Rq).
    destruct (startReceiveUnlocked q v) as [[ok r2] w3]. by injection Eq as <- <- _. }
  destruct ((n =? 0)%nat || _) eqn:En.
  { destruct (radio_standby w2) as [c w3]. eapply Hresume; [|exact E].
    apply countFailure_typed; [rewrite !elem_of_cons; tauto|done]. }
  apply orb_false_iff in En as [_ Hn]. apply Nat.ltb_ge in Hn.
  destruct (radio_readData n w2) as [[code data] w3] eqn:Er.
  apply readData_typed in Er as [Hdata Hlen].
  destruct (_ =? _).
  { eapply Hresume; [|exact E]. apply countFailure_typed; [rewrite !elem_of_cons; tauto|by apply setLastCode_typed]. }
  destruct (negb _).
  { eapply Hresume; [|exact E]. apply countFailure_typed; [rewrite !elem_of_cons; tauto|by apply setLastCode_typed]. }
  destruct (readFrame observedUs n data _ w3) as [frame w4] eqn:Ef.
  assert (rf_observedUs frame = observedUs) as Eo.
  { unfold readFrame in Ef. destruct (radio_getRSSI _) as [? v1], (radio_getSNR v1) as [? v2],
      (radio_getFrequencyError v2) as [? v3], (time_now v3). by injection Ef as <- _. }
  apply readFrame_ok in Ef as (F & _); [|done..|by destruct r1].
  eapply handleFrame_figures in E; [exact E|done| |done].
  apply noteReception_typed; [done|by rewrite Eo|by apply setLastCode_typed].
Qed.

Lemma handleSynthetic_figures sequence o r w o' r' w' :
  is_u 32 (rx_gatewayBootSessionId r) ->
  handleSynthetic object_bytes sequence o r w = (o', r', w') ->
  radio_typed r -> processor_ok o -> radio_typed r' /\ processor_ok o'.
Proof.
  unfold handleSynthetic. intros Hs E R T. destruct (radio_standby w) as [x w1].
  pose proof (clock_typed w1) as Hus. destruct (nowUs w1) as [us w2]. cbn [fst] in Hus.
  pose proof (time_typed w2) as Ht. destruct (time_now w2) as [ts w3]. cbn [fst] in Ht.
  assert (frame_ok (syntheticFrame sequence us ts r)) as F by (by apply synthetic_frame_ok).
  assert (rf_observedUs (syntheticFrame sequence us ts r) = us) as Eo by done.
  set (frame := syntheticFrame _ _ _ _) in *. clearbody frame.
  eapply handleFrame_figures in E; [exact E|done| |done].
  apply noteReception_typed; [done|by rewrite Eo|by apply countReceived_typed].
Qed.

Definition service_figures (s : RadioService) : Prop :=
  radio_typed (rv_radio s) /\ processor_ok (rv_processor s).

Lemma radioTurn_figures turn s w s' w' :
  is_u 32 (rx_gatewayBootSessionId (rv_radio s)) -> radioTurn object_bytes turn s w = (s', w') ->
  service_figures s -> service_figures s'.
Proof.
  intros Hs E [R T]. destruct turn as [|sequence]; cbn [radioTurn] in E;
    [unfold radioRound in E|unfold syntheticTurn in E];
    (destruct (negb _); [by injection E as <- _|]).
  - destruct (handlePhysicalReceive _ _ _ w) as [[o r] w1] eqn:Eh. injection E as <- _.
    apply handlePhysicalReceive_figures in Eh; [|done..]. by destruct s.
  - destruct (handleSynthetic _ _ _ _ w) as [[o r] w1] eqn:Eh. injection E as <- _.
    apply handleSynthetic_figures in Eh; [|done..]. by destruct s.
Qed.

Fixpoint radioTurns (turns : list RadioTurn) (s : RadioService) (w : W) : RadioService * W :=
  match turns with
  | [] => (s, w)
  | turn :: turns => let '(s, w) := radioTurn object_bytes turn s w in radioTurns turns s w
  end.

Lemma radioTurns_figures turns s w s' w' :
  rw_ok w -> service_typed s -> service_figures s -> radioTurns turns s w = (s', w') ->
  service_figures s'.
Proof.
  revert s w. induction turns as [|turn turns IH]; intros s w Hw T K E; cbn [radioTurns] in E.
  { by injection E as <- _. }
  destruct (radioTurn object_bytes turn s w) as [s1 w1] eqn:E1.
  destruct (radioTurn_acks object_bytes _ _ _ _ _ Hw T E1) as (G1 & T1 & _).
  eapply IH; [exact G1|exact T1| |exact E]. eapply radioTurn_figures; [apply T|exact E1|exact K].
Qed.

(** ** From the begin on *)

Lemma setDiagnostics_session f r :
  rx_gatewayBootSessionId (setDiagnostics f r) = rx_gatewayBootSessionId r.
Proof. by destruct r. Qed.

Lemma configureAndReceive_session config r w :
  rx_gatewayBootSessionId (configureAndReceive config r w).1.2 = rx_gatewayBootSessionId r.
Proof.
  unfold configureAndReceive.
  assert (rx_gatewayBootSessionId (configureUnlocked config r w).1.2 = rx_gatewayBootSessionId r)
    as Ec.
  { unfold configureUnlocked, setState, setReady, setLastCode.
    destruct (radio_begin config w) as [code w1].
    destruct (rd_ready _); [destruct (radio_setCRC true w1) as [c w2]|];
      cbn [fst snd]; destruct (rd_ready _); by rewrite !setDiagnostics_session. }
  destruct (configureUnlocked config r w) as [[b r1] w1]. destruct b; [|done].
  by rewrite startReceive_session.
Qed.

Lemma init_stats : stats_typed PacketProcessingStats_init.
Proof.
  assert (sample_typed RunningStatistics_init) as Hs by (split; [by computed..|done]).
  split; [|exact Hs..]. by repeat apply Forall_cons_2; [computed..|].
Qed.

Lemma init_latest : latest_typed LatestTelemetry_init.
Proof. split; [done|]. split; by computed. Qed.

Lemma init_figures : service_figures (RadioService_init (W := W)).
Proof.
  split; [|by intros p [=]]. unfold radio_typed. split.
  - split; reflexivity.
  - by repeat apply Forall_cons_2; [computed..|].
  - by computed.
  - by computed.
  - by computed.
  - by computed.
  - by computed.
  - by computed.
  - apply init_stats.
Qed.

Lemma radioBegin_figures mutex task config pairing commands bootSession w ok s w' :
  rw_ok w -> is_u 32 bootSession -> commands_typed commands ->
  radioBegin mutex task config pairing commands bootSession RadioService_init w = (ok, s, w') ->
  rw_ok w' /\ service_typed s /\ service_figures s.
Proof.
  unfold radioBegin. intros Hw Hs Hc E. pose proof init_figures as [R T].
  destruct mutex; cbn [negb] in E.
  2: { injection E as _ <- <-. split_and!; [done|split; [by computed|by intros p [=]]|by split]. }
  change (rx_spiStarted (rv_radio (RadioService_init <| rv_mutex := true |>))) with false in E.
  cbv iota in E.
  set (r := setDiagnostics _ _) in E.
  assert (radio_typed r) as Tr.
  { apply setDiagnostics_typed; [|exact R]. destruct (rx_diagnostics _). by intros []. }
  assert (rx_gatewayBootSessionId r = bootSession) as Er by done. clearbody r.
  set (p := mkPacketProcessor pairing commands _ _) in E.
  assert (processor_typed (Some p) /\ processor_ok (Some p)) as [Tp Fp].
  { split; intros q [= <-]; [done|]. split; [apply init_stats|apply init_latest]. }
  clearbody p. destruct (spi_law w Hw) as (G1 & _).
  set (w1 := spi_begin w) in *. clearbody w1.
  destruct task; cbn [negb] in E.
  - pose proof (configureAndReceive_typed config r w1 Tr) as T1.
    pose proof (configureAndReceive_session config r w1) as S1.
    destruct (configureAndReceive config r w1) as [[ready r1] w2] eqn:Ec.
    apply configureAndReceive_keeps in Ec. destruct (Ec G1) as (G2 & _). injection E as _ <- <-.
    cbn [fst snd] in T1, S1. split; [done|]. split; split; try done. cbn. by rewrite S1, Er.
  - injection E as _ <- <-. split; [done|]. split; split; try done. cbn. by rewrite Er.
Qed.

(** C35: what the radio reports is within its types: from [begin] on, whatever comes
    of mutex, task and hardware, after any turns of the radio's task - packets
    received, damaged or injected - the counters are 64-bit values, readings and times
    fit their fields, the name of the state is a terminated string, each minimum is at
    most its maximum, and telemetry that is shown is a well-formed packet. *)
Theorem radio_figures_typed mutex task config pairing commands bootSession w ok s1 w1 turns s w' :
  rw_ok w -> is_u 32 bootSession -> commands_typed commands ->
  radioBegin mutex task config pairing commands bootSession RadioService_init w = (ok, s1, w1) ->
  radioTurns turns s1 w1 = (s, w') ->
  diagnostics_typed (diagnostics s) /\ latest_typed (latestTelemetry s).
Proof.
  intros Hw Hs Hc E1 E. apply radioBegin_figures in E1 as (G1 & T1 & F1); [|done..].
  apply radioTurns_figures in E as [R T]; [|done..].
  unfold diagnostics, latestTelemetry, lockedProcessor.
  destruct (rv_mutex s); [|split; [done|apply init_latest]].
  destruct (rv_processor s) as [p|]; [|split; [done|apply init_latest]].
  destruct (T p eq_refl) as [Tp Lp]. split; [|done]. unfold radio_typed in R.
  destruct (rx_diagnostics (rv_radio s)). destruct R. by split.
Qed.
End Radio.
