(* ===== verification/GatewayWorld.v ===== *)
(** * The receive path on the durable queue

    [DurableQueue] as the sink of the packet processor, below the radio service:
    the world is the queue, the flash [F] it lives on (with preferences and
    clock), and the device [D] the service drives.  [gateway_world] shows that it
    is a [RadioWorld]; a flash in memory and a simulated device give the concrete
    gateway the witnesses compute with. *)

From Stdlib Require Import ZArith Lia String.
From stdpp Require Import gmap list.
From S2P Require Import Prelude BuildConfig CString Platform Protocol ProtocolSpec.
From S2P Require Import ProtocolCommands ProtocolTheorems QueueRecord QueueRecordSpec.
From S2P Require Import QueueRecordCodec Dedup QueueStorage DurableQueueCore DurableQueueSpec.
From S2P Require Import DurableQueueTheorems FlashStorage FlashStorageLaws MemoryFlash Pairing.
From S2P Require Import CommandStore CommandStoreSpec CommandStoreTheorems Metrics.
From S2P Require Import PacketProcessor.
From S2P Require Import PacketProcessorTheorems DurableQueue RecentCodec DurableQueueWorld.
From S2P Require Import GatewayConfig.
From S2P Require Import TimeManager RadioService RadioServiceTheorems RadioSynthetic RadioTypes.
Open Scope Z_scope.

Record Gateway (F D : Type) := mkGateway {
  gw_queue : DurableQueue;
  gw_flash : F;
  gw_device : D;
}.
Arguments mkGateway {F D}.
Arguments gw_queue {F D}.
Arguments gw_flash {F D}.
Arguments gw_device {F D}.

Section Lift.
Context {F D : Type}.

(** A call of the device, in the gateway. *)
Definition on_device {A} (f : D -> A * D) (g : Gateway F D) : A * Gateway F D :=
  let '(a, d) := f (gw_device g) in (a, mkGateway (gw_queue g) (gw_flash g) d).

Definition device_step (f : D -> D) (g : Gateway F D) : Gateway F D :=
  mkGateway (gw_queue g) (gw_flash g) (f (gw_device g)).

#[export] Instance gateway_sx1278 `{Sx1278 D} : Sx1278 (Gateway F D) := {
  RADIOLIB_ERR_NONE := RADIOLIB_ERR_NONE;
  RADIOLIB_ERR_CRC_MISMATCH := RADIOLIB_ERR_CRC_MISMATCH;
  RADIOLIB_ERR_TX_TIMEOUT := RADIOLIB_ERR_TX_TIMEOUT;
  radio_begin c := on_device (radio_begin c);
  radio_setCRC b := on_device (radio_setCRC b);
  radio_standby := on_device radio_standby;
  radio_sleep := on_device radio_sleep;
  radio_startReceive := on_device radio_startReceive;
  radio_startTransmit bytes := on_device (radio_startTransmit bytes);
  radio_finishTransmit := on_device radio_finishTransmit;
  radio_getTimeOnAir n := on_device (radio_getTimeOnAir n);
  radio_getPacketLength := on_device radio_getPacketLength;
  radio_readData n := on_device (radio_readData n);
  radio_getRSSI := on_device radio_getRSSI;
  radio_getSNR := on_device radio_getSNR;
  radio_getFrequencyError := on_device radio_getFrequencyError;
  radio_setPacketReceivedAction := device_step radio_setPacketReceivedAction;
  radio_clearPacketReceivedAction := device_step radio_clearPacketReceivedAction;
  radio_setPacketSentAction := device_step radio_setPacketSentAction;
  radio_clearPacketSentAction := device_step radio_clearPacketSentAction;
  spi_begin := device_step spi_begin;
  notifyTake t := on_device (notifyTake t);
}.

#[export] Instance gateway_clock `{MonotonicClock D} : MonotonicClock (Gateway F D) :=
  { nowUs := on_device nowUs }.

#[export] Instance gateway_time `{TrustedTime D} : TrustedTime (Gateway F D) :=
  { time_now := on_device time_now }.

#[export] Instance gateway_backend `{CommandBackend D} : CommandBackend (Gateway F D) :=
  { backend_load := on_device backend_load; backend_save r := on_device (backend_save r) }.

(** [DurableQueue : PacketQueueSink]. *)
#[export] Instance gateway_queue `{FileSystem F, Preferences F, Millis F}
  : PacketQueueSink (Gateway F D) := {
  containsKey key g :=
    let '(b, q, f) := queueContainsKey key (gw_queue g) (gw_flash g) in
    (b, mkGateway q f (gw_device g));
  durablyEnqueue record g :=
    let '(o, _, q, f) := queueEnqueue record (gw_queue g) (gw_flash g) in
    (o, mkGateway q f (gw_device g));
  noteDuplicate g :=
    mkGateway (recordDuplicate (gw_queue g)) (gw_flash g) (gw_device g);
}.
End Lift.

(** ** The device *)

(** [sent] lists what it has transmitted; nothing else puts packets on the air. *)
Class DeviceLaws (D : Type)
    `{Sx1278 D, MonotonicClock D, TrustedTime D, CommandBackend D} := {
  sent : D -> list (list Z);
  sent_begin c d : sent (radio_begin c d).2 = sent d;
  sent_setCRC b d : sent (radio_setCRC b d).2 = sent d;
  sent_standby d : sent (radio_standby d).2 = sent d;
  sent_sleep d : sent (radio_sleep d).2 = sent d;
  sent_startReceive d : sent (radio_startReceive d).2 = sent d;
  sent_finishTransmit d : sent (radio_finishTransmit d).2 = sent d;
  sent_timeOnAir n d : sent (radio_getTimeOnAir n d).2 = sent d;
  sent_packetLength d : sent (radio_getPacketLength d).2 = sent d;
  sent_readData n d : sent (radio_readData n d).2 = sent d;
  sent_rssi d : sent (radio_getRSSI d).2 = sent d;
  sent_snr d : sent (radio_getSNR d).2 = sent d;
  sent_frequencyError d : sent (radio_getFrequencyError d).2 = sent d;
  sent_setReceived d : sent (radio_setPacketReceivedAction d) = sent d;
  sent_clearReceived d : sent (radio_clearPacketReceivedAction d) = sent d;
  sent_setSent d : sent (radio_setPacketSentAction d) = sent d;
  sent_clearSent d : sent (radio_clearPacketSentAction d) = sent d;
  sent_spi d : sent (spi_begin d) = sent d;
  sent_notify t d : sent (notifyTake t d).2 = sent d;
  sent_clock d : sent (nowUs d).2 = sent d;
  sent_time d : sent (time_now d).2 = sent d;
  sent_save r d : sent (backend_save r d).2 = sent d;
  sent_startTransmit bytes d code d' :
    radio_startTransmit bytes d = (code, d') ->
    sent d' = sent d ++ [bytes] \/ sent d' = sent d /\ code <> RADIOLIB_ERR_NONE;
  device_clock d : is_u 64 (nowUs d).1;
  device_time d : is_s 64 (ts_unixMs (time_now d).1);
  device_rssi d : is_u 32 (radio_getRSSI d).1;
  device_snr d : is_u 32 (radio_getSNR d).1;
  device_readData n d code data d' :
    radio_readData n d = (code, data, d') -> bytes_ok data /\ (n <= length data)%nat;
}.

Create HintDb sent.
#[export] Hint Resolve sent_begin sent_setCRC sent_standby sent_sleep sent_startReceive
  sent_finishTransmit sent_timeOnAir sent_packetLength sent_readData sent_rssi sent_snr
  sent_frequencyError sent_setReceived sent_clearReceived sent_setSent sent_clearSent sent_spi
  sent_notify sent_clock sent_time sent_save : sent.

Section World.
Context {F D : Type} `{EnvironmentLaws F, DeviceLaws D}.

(** What is durable: in the queue, or finished recently. *)
Definition durable (g : Gateway F D) (key : TelemetryKey) : Prop :=
  (exists rs, queue_ok (gw_queue g) (gw_flash g) rs /\ queued rs key) \/
  dedupContains (dq_recent (gw_queue g)) key = true.

(** What is kept of queue and flash, whatever is received: the queue is good, and
    lookups, enqueues and noted duplicates keep [Q]. *)
Class QueueInvariant (Q : DurableQueue -> F -> Prop) := {
  qi_good q f : Q q f -> exists rs, queue_ok q f rs;
  qi_contains key q f b q' f' : Q q f -> queueContainsKey key q f = (b, q', f') -> Q q' f';
  qi_enqueue r q f o r' q' f' :
    Q q f -> record_typed r -> record_padded r -> queueEnqueue r q f = (o, r', q', f') -> Q q' f';
  qi_duplicate q f : Q q f -> Q (recordDuplicate q) f;
}.

Context (Q : DurableQueue -> F -> Prop) `{!QueueInvariant Q}.

Definition observationsOf : GatewayObservations (Gateway F D) := {|
  rw_ok g := Q (gw_queue g) (gw_flash g);
  rw_accepted := durable;
  rw_on_air g := sent (gw_device g);
|}.
#[local] Existing Instance observationsOf.

(** Steps of the device that send nothing. *)
Lemma keeps_device {A} (f : D -> A * D) (g : Gateway F D) :
  sent (f (gw_device g)).2 = sent (gw_device g) -> keeps g (on_device f g).2.
Proof.
  unfold keeps, on_device. destruct (f (gw_device g)) as [a d] eqn:E. cbn. intros Es Hw.
  split_and!; [done|done|]. by intros key.
Qed.

Lemma keeps_device_step (f : D -> D) (g : Gateway F D) :
  sent (f (gw_device g)) = sent (gw_device g) -> keeps g (device_step f g).
Proof. unfold keeps, device_step. cbn. intros Es Hw. split_and!; [done|done|]. by intros key. Qed.

Lemma queue_contains (g : Gateway F D) key b g' :
  rw_ok g -> containsKey key g = (b, g') ->
  rw_ok g' /\ rw_on_air g' = rw_on_air g /\ (b = true -> rw_accepted g' key).
Proof.
  intros Hq. destruct (qi_good _ _ Hq) as [rs K]. intros E. cbn in E.
  destruct (queueContainsKey key (gw_queue g) (gw_flash g)) as [[b1 q1] f1] eqn:Eq.
  injection E as <- <-. pose proof (qi_contains _ _ _ _ _ _ Hq Eq) as Hq1. clear Hq.
  apply (queueContainsKey_spec _ _ _ rs) in Eq as (K1 & Er & Hb); [|done].
  cbn. split_and!; [done|done|]. intros Hb1. destruct (Hb Hb1) as [Hd|Hr].
  - left. by exists rs.
  - right. cbn. by rewrite Er.
Qed.

Lemma queue_enqueue (g : Gateway F D) r o g' :
  rw_ok g -> record_typed r -> record_padded r -> durablyEnqueue r g = (o, g') ->
  rw_ok g' /\ rw_on_air g' = rw_on_air g /\
  (forall t, eo_persisted o = true -> telemetryOf r = Some t -> rw_accepted g' (keyOf t)).
Proof.
  intros Hq T P. destruct (qi_good _ _ Hq) as [rs K]. intros E. cbn in E.
  destruct (queueEnqueue r (gw_queue g) (gw_flash g)) as [[[o1 r1] q1] f1] eqn:Eq.
  injection E as <- <-. pose proof (qi_enqueue _ _ _ _ _ _ _ Hq T P Eq) as Hq1. clear Hq.
  apply (queueEnqueue_spec _ _ rs) in Eq as (_ & kept & _ & Hk); [|done..].
  cbn. split_and!; [done|done|]. intros t Ho Ht. cbn in Ho. rewrite Ho in Hk.
  destruct Hk as (K1 & ->). left. eexists. split; [exact K1|].
  exists (r <| qr_recordId := queue_next (gw_queue g) |>), t. split_and!.
  - apply elem_of_app. right. by apply list_elem_of_singleton.
  - by rewrite telemetryOf_id.
  - apply telemetryKeyEqual_refl.
Qed.

(** A noted duplicate leaves contents and ring alone. *)
Lemma recordDuplicate_ok q (f : F) rs : queue_ok q f rs -> queue_ok (recordDuplicate q) f rs.
Proof.
  intros K. destruct (recordDuplicate_keeps q) as (Ec & Er & Em & Eh).
  eapply queue_ok_keep; [exact K|done..|]. rewrite Er. apply K.
Qed.

Lemma queue_duplicate (g : Gateway F D) : keeps g (noteDuplicate g).
Proof.
  intros Hq. destruct (recordDuplicate_keeps (gw_queue g)) as (Ec & Er & Em & Eh).
  cbn. split_and!; [by apply qi_duplicate|done|]. intros key [(rs' & K' & Hd)|Hr].
  - left. exists rs'. split; [by apply recordDuplicate_ok|done].
  - right. cbn. by rewrite Er.
Qed.

Definition radioWorldOf : RadioWorld (Gateway F D).
Proof.
  constructor;
    try (intros; first [apply keeps_device | apply keeps_device_step]; auto with sent; fail).
  - intros key w b w'. apply queue_contains.
  - intros r w o w'. apply queue_enqueue.
  - apply queue_duplicate.
  - intros bytes [q f d] code g' Hw E. cbn in E. unfold on_device in E. cbn in E.
    destruct (radio_startTransmit bytes d) as [c1 d1] eqn:Es. injection E as <- <-.
    apply sent_startTransmit in Es. cbn. split_and!; [done|by intros key|done].
  - intros [q f d]. cbn. unfold on_device. cbn.
    pose proof (device_clock d). by destruct (nowUs d).
  - intros [q f d]. cbn. unfold on_device. cbn.
    pose proof (device_time d). by destruct (time_now d).
  - intros [q f d]. cbn. unfold on_device. cbn.
    pose proof (device_rssi d). by destruct (radio_getRSSI d).
  - intros [q f d]. cbn. unfold on_device. cbn.
    pose proof (device_snr d). by destruct (radio_getSNR d).
  - intros n [q f d] code data g' E. cbn in E. unfold on_device in E. cbn in E.
    destruct (radio_readData n d) as [[c1 data1] d1] eqn:Er. injection E as <- <- <-.
    by apply (device_readData _ _ _ _ _ Er).
Defined.
End World.

(** The queue is good, with whatever contents. *)
Definition queue_good {F} `{EnvironmentLaws F} (q : DurableQueue) (f : F) : Prop :=
  exists rs, queue_ok q f rs.

#[export] Instance queue_good_invariant {F} `{EnvironmentLaws F} : QueueInvariant (F := F) queue_good.
Proof.
  split.
  - done.
  - intros key q f b q' f' [rs K] (K' & _)%(queueContainsKey_spec _ _ _ rs); [by exists rs|done].
  - intros r q f o r' q' f' [rs K] T P (_ & kept & _ & K')%(queueEnqueue_spec _ _ rs); [|done..].
    destruct (eo_persisted o); [destruct K' as [K' _]|]; by eexists.
  - intros q f [rs K]. exists rs. by apply recordDuplicate_ok.
Qed.

#[export] Instance gateway_observations {F D} `{EnvironmentLaws F, DeviceLaws D}
  : GatewayObservations (Gateway F D) := observationsOf queue_good.

#[export] Instance gateway_world {F D} `{EnvironmentLaws F, DeviceLaws D} : RadioWorld (Gateway F D) :=
  radioWorldOf queue_good.

(** ** A gateway to compute with

    Preferences that forget, a clock that stands still, and a device that reads
    the packets of [sd_inbox], records what it transmits and trusts its time. *)

#[export] Instance MemoryFlash_preferences : Preferences MemoryFlash := {
  prefs_begin _ _ f := (true, f);
  prefs_getBool _ d f := (d, f);
  prefs_putBool _ _ f := (1, f);
  prefs_getULong64 _ d f := (d, f);
  prefs_putULong64 _ _ f := (8, f);
}.

#[export] Instance MemoryFlash_millis : Millis MemoryFlash := { millis f := (60000, f) }.

#[export] Instance MemoryFlash_environment : EnvironmentLaws MemoryFlash.
Proof. constructor; cbn; intros; simplify_eq; done. Qed.

Record SimulatedDevice := mkSimulatedDevice {
  sd_inbox : list (list Z);
  sd_sent : list (list Z);
  sd_saved : option CommandStoreRecord;
}.

#[export] Instance SimulatedDevice_radio : Sx1278 SimulatedDevice := {
  RADIOLIB_ERR_NONE := 0;
  RADIOLIB_ERR_CRC_MISMATCH := -7;
  RADIOLIB_ERR_TX_TIMEOUT := -5;
  radio_begin _ d := (0, d);
  radio_setCRC _ d := (0, d);
  radio_standby d := (0, d);
  radio_sleep d := (0, d);
  radio_startReceive d := (0, d);
  radio_startTransmit bytes d :=
    (0, mkSimulatedDevice (sd_inbox d) (sd_sent d ++ [bytes]) (sd_saved d));
  radio_finishTransmit d := (0, d);
  radio_getTimeOnAir _ d := (500000, d);
  radio_getPacketLength d := (length (default [] (head (sd_inbox d))), d);
  radio_readData n d :=
    (0, take n ((wrap 8 <$> default [] (head (sd_inbox d))) ++ replicate n 0),
     mkSimulatedDevice (tail (sd_inbox d)) (sd_sent d) (sd_saved d));
  radio_getRSSI d := (0, d);
  radio_getSNR d := (0, d);
  radio_getFrequencyError d := (SpecFloat.S754_zero false, d);
  radio_setPacketReceivedAction d := d;
  radio_clearPacketReceivedAction d := d;
  radio_setPacketSentAction d := d;
  radio_clearPacketSentAction d := d;
  spi_begin d := d;
  notifyTake _ d := (1, d);
}.

#[export] Instance SimulatedDevice_clock : MonotonicClock SimulatedDevice :=
  { nowUs d := (1000000, d) }.

#[export] Instance SimulatedDevice_time : TrustedTime SimulatedDevice :=
  { time_now d := (mkTrustedTimeSnapshot true 1700000000123, d) }.

#[export] Instance SimulatedDevice_backend : CommandBackend SimulatedDevice := {
  backend_load d := (sd_saved d, d);
  backend_save r d := (true, mkSimulatedDevice (sd_inbox d) (sd_sent d) (Some r));
}.

#[export] Instance SimulatedDevice_laws : DeviceLaws SimulatedDevice.
Proof.
  refine (Build_DeviceLaws _ _ _ _ _ sd_sent _ _ _ _ _ _ _ _ _ _ _ _ _ _ _ _ _ _ _ _ _ _ _ _ _ _ _);
    try (intros; reflexivity); try (intros; vm_compute; split; congruence).
  - cbn. intros bytes d code d' [= <- <-]. by left.
  - cbn. intros n d code data d' [= <- <- <-]. split.
    + apply Forall_take, Forall_app. split.
      * apply Forall_fmap, Forall_true. intros x. apply wrap_range. lia.
      * apply Forall_replicate. vm_compute. split; congruence.
    + rewrite length_take, length_app, length_replicate. lia.
Defined.

(** A gateway with an empty queue, paired with the sample node, on which the
    packets of [inbox] arrive. *)
Definition sampleQueue : DurableQueue :=
  mkDurableQueue (Some (DurableQueueCore_new 4)) (RecentDeduplicator_new kRecentDedupCapacity)
    true QueueOperationalStats_init 0 0 0 0 true.

Definition sampleGateway (inbox : list (list Z)) : Gateway MemoryFlash SimulatedDevice :=
  mkGateway sampleQueue emptyFlash (mkSimulatedDevice inbox [] None).

Definition sampleProcessor : PacketProcessor :=
  mkPacketProcessor (pairManual (Some sampleNode) PairingManager_init).2 CommandStore_init
    PacketProcessingStats_init LatestTelemetry_init.

Definition sampleService : RadioService :=
  mkRadioService true true (Some sampleProcessor)
    (setReady true (rv_radio (RadioService_init (W := SimulatedDevice)))).

Definition sampleRound : RadioService * Gateway MemoryFlash SimulatedDevice :=
  radioRound (fun _ => []) sampleService (sampleGateway [telemetryWire sampleTelemetry]).

Lemma sampleQueue_ok : queue_ok sampleQueue emptyFlash [].
Proof.
  split; [|apply new_wf].
  exists (DurableQueueCore_new 4). split; [reflexivity|].
  split; cbn; [lia|lia|constructor| |right; constructor|constructor].
  vm_compute. split; congruence.
Qed.

Lemma sampleService_typed : service_typed sampleService.
Proof.
  split.
  - vm_compute. split; congruence.
  - intros p [= <-]. apply store_typedb_spec. vm_compute. reflexivity.
Qed.

Lemma radio_acks_only_durable_witness :
  exists t bytes, sent (gw_device sampleRound.2) = [bytes] /\ acknowledges t bytes /\
    durable sampleRound.2 (keyOf t).
Proof.
  destruct (@radio_acks_only_durable (fun _ => []) (Gateway MemoryFlash SimulatedDevice)
    gateway_sx1278 gateway_clock gateway_time gateway_backend gateway_queue
    gateway_observations gateway_world sampleService
    (sampleGateway [telemetryWire sampleTelemetry]) sampleRound.1 sampleRound.2)
    as (_ & _ & [Hair|(p & data & w2 & t & bytes & _ & _ & _ & _ & _ & Ha & Hack & Hacc)]).
  - exists []. exact sampleQueue_ok.
  - exact sampleService_typed.
  - apply surjective_pairing.
  - exfalso. apply (f_equal length) in Hair. vm_compute in Hair. discriminate.
  - exists t, bytes. split; [exact Ha|]. split; [exact Hack|exact Hacc].
Defined.

(** The processor of the sample gateway, directly on frames. *)
Definition sampleWorld : RadioState * Gateway MemoryFlash SimulatedDevice :=
  (rv_radio sampleService, sampleGateway []).

Definition frameOf (bytes : list Z) : ReceivedFrame :=
  mkReceivedFrame (bytes ++ drop (length bytes) (zeros kRadioPacketCapacity)) (length bytes)
    (ReceptionMetadata_init <| rm_packetLength := Z.of_nat (length bytes) |>) 1000000.

Definition sampleObject : CommandStoreRecord -> list Z := fun _ => [].

Definition sampleFrames : list ReceivedFrame :=
  [frameOf (telemetryWire sampleTelemetry); frameOf (commandResultWire sampleResult);
   frameOf (telemetryWire sampleTelemetry); frameOf [1; 2; 3]].

Definition sampleProcess (frame : ReceivedFrame) :=
  @process sampleObject (RadioState * Gateway MemoryFlash SimulatedDevice)
    radio_queue (radio_ack_sink sampleObject) radio_clock radio_backend frame sampleProcessor
    sampleWorld.

Definition sampleBooks :=
  @processAll sampleObject (RadioState * Gateway MemoryFlash SimulatedDevice)
    radio_queue (radio_ack_sink sampleObject) radio_clock radio_backend sampleFrames
    sampleProcessor sampleWorld.

Lemma statistics_keep_books_witness :
  (fun x => (x.1, pr_disposition x.2)) <$> sampleBooks.1.1 =
    [(false, PacketDisposition.kNewAcknowledged); (false, PacketDisposition.kCommandResultIgnored);
     (true, PacketDisposition.kDuplicateAcknowledged); (false, PacketDisposition.kDecodeRejected)] /\
  tally (pp_stats sampleBooks.1.2) = wrap 64 <$> totals sampleBooks.1.1.
Proof.
  split; [vm_compute; reflexivity|].
  refine (proj2 (@statistics_keep_books sampleObject _ radio_queue
    (radio_ack_sink sampleObject) radio_clock radio_backend sampleFrames
    (pp_pairing sampleProcessor) (pp_commands sampleProcessor) (pp_latest sampleProcessor)
    sampleWorld sampleBooks.1.1 sampleBooks.1.2 sampleBooks.2 _)).
  unfold sampleBooks. destruct (processAll _ _ _) as [[rs p] w]. reflexivity.
Defined.

Lemma command_result_guarded_witness :
  let result := sampleProcess (frameOf (commandResultWire sampleResult)) in
  pr_isCommandResult result.1.1 = true /\
  pp_pairing result.1.2 = pp_pairing sampleProcessor /\
  sent (gw_device result.2.2) = [].
Proof.
  set (result := sampleProcess _). cbv zeta.
  assert (pr_isCommandResult result.1.1 = true) as Hr by (vm_compute; reflexivity).
  split; [exact Hr|].
  destruct (@command_result_guarded sampleObject _ radio_queue (radio_ack_sink sampleObject)
    radio_clock radio_backend (radio_world sampleObject)
    (frameOf (commandResultWire sampleResult)) sampleProcessor sampleWorld result.1.1 result.1.2
    result.2) as [_ Hc].
  - split; [exists []; exact sampleQueue_ok|vm_compute; split; congruence].
  - unfold result, sampleProcess. destruct (process _ _ _ _) as [[r p] w]. reflexivity.
  - destruct (Hc Hr) as (Hp & _ & Hs & _). split; [exact Hp|exact Hs].
Defined.

(** A service from its begin: a packet of another node, and one packet injected twice. *)
Definition begun : bool * RadioService * Gateway MemoryFlash SimulatedDevice :=
  radioBegin true true RadioConfig_init
    (pairManual (Some (chars "N1")) PairingManager_init).2 CommandStore_init 7
    (RadioService_init (W := SimulatedDevice)) (sampleGateway [telemetryWire sampleTelemetry]).

Definition begunTurns : RadioService * Gateway MemoryFlash SimulatedDevice :=
  radioTurns sampleObject [Received; Injected 7; Injected 7] begun.1.2 begun.2.

Lemma radio_figures_typed_witness :
  let d := diagnostics begunTurns.1 in
  (rd_receivedPackets d, ps_unknownNodePackets (rd_processing d), ps_duplicates (rd_processing d),
   ps_ackSent (rd_processing d)) = (3, 1, 1, 2) /\
  lt_available (latestTelemetry begunTurns.1) = true /\
  diagnostics_typed d /\ latest_typed (latestTelemetry begunTurns.1).
Proof.
  cbv zeta. split; [vm_compute; reflexivity|]. split; [vm_compute; reflexivity|].
  apply (@radio_figures_typed sampleObject (Gateway MemoryFlash SimulatedDevice)
    gateway_sx1278 gateway_clock gateway_time gateway_backend gateway_queue
    gateway_observations gateway_world true true RadioConfig_init
    (pairManual (Some (chars "N1")) PairingManager_init).2 CommandStore_init 7
    (sampleGateway [telemetryWire sampleTelemetry]) begun.1.1 begun.1.2 begun.2
    [Received; Injected 7; Injected 7] begunTurns.1 begunTurns.2).
  - exists []. exact sampleQueue_ok.
  - vm_compute. split; congruence.
  - apply store_typedb_spec. vm_compute. reflexivity.
  - unfold begun. destruct (radioBegin _ _ _ _ _ _ _ _) as [[ok s] w]. reflexivity.
  - unfold begunTurns. destruct (radioTurns _ _ _ _) as [s w]. reflexivity.
Defined.
