(* ===== verification/BackendWorker.v ===== *)
(** * The backend worker (lib/backend/backend_worker)

    The task that uploads the durable queue and sends heartbeats.  Everything it
    calls acts on a world [W], in which the other tasks of the gateway act as well;
    its own mutex, once created, is always obtained. *)

From Stdlib Require Import ZArith Lia String.
From stdpp Require Import list.
From S2P Require Import Prelude BuildConfig CString Platform Protocol QueueRecord Dedup.
From S2P Require Import CommandStore Metrics PacketProcessor DurableQueue GatewayConfig.
From S2P Require Import UtcTime Json BackendContract TimeManager Heartbeat WifiManager.
From S2P Require Import RadioService.
Open Scope Z_scope.

(** ** What the worker calls *)

(** [DurableQueue], as the worker sees it. *)
Class UploadQueue (W : Type) := {
  uq_size : W -> nat * W;
  uq_capacity : W -> nat * W;
  uq_peek : nat -> W -> bool * list QueueRecord * W;
  uq_finish : list QueueTerminalAction -> W -> bool * W;
  uq_recordUploadRetry : W -> W;
  uq_recordFilesystemError : W -> W;
}.

(** [HTTPClient]: [http_begin] with TLS (and the pinned root certificate) or
    without, the timeout and the URL; the requests with their headers answer the
    status, or a negative error code. *)
Class HttpClient (W : Type) := {
  http_begin : bool -> Z -> list Z -> W -> bool * W;
  http_POST : list (list Z * list Z) -> list Z -> W -> Z * W;
  http_GET : list (list Z * list Z) -> W -> Z * W;
  http_getString : W -> list Z * W;
  http_end : W -> W;
  http_errorToString : Z -> list Z;
}.

(** The other parts of the gateway that a heartbeat reports. *)
Class HeartbeatSources (W : Type) := {
  source_wifi : W -> WifiStatus * W;
  source_time : W -> TimeStatus * W;
  source_radio : W -> RadioDiagnostics * W;
  source_paired : W -> bool * W;
  source_pairedNodeId : list Z -> W -> list Z * W;
  source_command : W -> GatewayCommand * W;
}.

(** [firmware::kVersion] *)
Definition kFirmwareVersion : list Z := chars "2.2.0".

Definition HTTP_CODE_OK : Z := 200.
Definition HTTP_CODE_UNAUTHORIZED : Z := 401.
Definition HTTP_CODE_FORBIDDEN : Z := 403.

(** ** State *)

Record BackendStatus := mkBackendStatus {
  bs_state : list Z;
  bs_credentialConfigured : bool;
  bs_tlsEndpoint : bool;
  bs_lastAttemptUptimeMs : Z;
  bs_lastHttpStatus : Z;
  bs_lastSuccessUptimeMs : Z;
  bs_lastSuccessUnixMs : Z;
  bs_lastErrorUptimeMs : Z;
  bs_lastErrorUnixMs : Z;
  bs_consecutiveFailures : Z;
  bs_telemetryUploadSuccessCount : Z;
  bs_telemetryUploadFailureCount : Z;
  bs_lastError : list Z;
  bs_currentBackoffMs : Z;
}.

Definition BackendStatus_init : BackendStatus :=
  mkBackendStatus (zeros 24) false true 0 0 0 (-1) 0 (-1) 0 0 0 (zeros 128) 0.

Record HeartbeatStatus := mkHeartbeatStatus {
  hst_intervalSeconds : Z;
  hst_inProgress : bool;
  hst_lastAttemptUptimeMs : Z;
  hst_lastAttemptUnixMs : Z;
  hst_lastSuccessUptimeMs : Z;
  hst_lastSuccessUnixMs : Z;
  hst_lastHttpStatus : Z;
  hst_lastError : list Z;
  hst_successCount : Z;
  hst_failureCount : Z;
}.

Definition HeartbeatStatus_init : HeartbeatStatus :=
  mkHeartbeatStatus kDefaultHeartbeatIntervalSeconds false 0 (-1) 0 (-1) 0 (zeros 128) 0 0.

Record RuntimeConfig := mkRuntimeConfig {
  rt_baseUrl : list Z;
  rt_token : list Z;
  rt_batchSize : Z;
  rt_timeoutMs : Z;
  rt_initialBackoffMs : Z;
  rt_maximumBackoffMs : Z;
  rt_heartbeatIntervalSeconds : Z;
  rt_identity : GatewayIdentity;
}.

Definition RuntimeConfig_init : RuntimeConfig :=
  mkRuntimeConfig (zeros kBackendUrlCapacity) (zeros kBearerTokenCapacity) 20 10000 2000 300000
    kDefaultHeartbeatIntervalSeconds GatewayIdentity_init.

(** [bw_bound]: [begin] has set the pointers to the other parts; [bw_mutex],
    [bw_task]: mutex and task exist. *)
Record BackendWorker := mkBackendWorker {
  bw_bound : bool;
  bw_mutex : bool;
  bw_task : bool;
  bw_config : RuntimeConfig;
  bw_status : BackendStatus;
  bw_heartbeatStatus : HeartbeatStatus;
  bw_heartbeatScheduler : HeartbeatScheduler;
  bw_bootCount : Z;
  bw_resetReason : list Z;
}.

Definition BackendWorker_init : BackendWorker :=
  mkBackendWorker false false false RuntimeConfig_init BackendStatus_init HeartbeatStatus_init
    HeartbeatScheduler_init 0 (zeros 32).

(** [strncmp(value, prefix, strlen(prefix)) == 0]. *)
Definition startsWith (value : list Z) (prefix : list Z) : bool :=
  strncmp value prefix (length prefix) =? 0.

Definition configSnapshot (b : BackendWorker) : RuntimeConfig :=
  if bw_mutex b then bw_config b else RuntimeConfig_init.

Definition backendStatus (b : BackendWorker) : BackendStatus :=
  if bw_mutex b then bw_status b else BackendStatus_init.

Definition heartbeatStatus (b : BackendWorker) : HeartbeatStatus :=
  if bw_mutex b then bw_heartbeatStatus b else HeartbeatStatus_init.

(** [f] on the status, under the lock. *)
Definition onStatus (f : BackendStatus -> BackendStatus) (b : BackendWorker) : BackendWorker :=
  if bw_mutex b then b <| bw_status := f (bw_status b) |> else b.

Definition onHeartbeatStatus (f : HeartbeatStatus -> HeartbeatStatus) (b : BackendWorker)
  : BackendWorker :=
  if bw_mutex b then b <| bw_heartbeatStatus := f (bw_heartbeatStatus b) |> else b.

Definition setBackendState (name : string) (s : BackendStatus) : BackendStatus :=
  s <| bs_state := strncpyz (bs_state s) (chars name) |>.

(** [trusted ? unixMs : -1]. *)
Definition trustedMs (t : TrustedTimeSnapshot) : Z := if ts_trusted t then ts_unixMs t else -1.

(** The next backoff after a failure. *)
Definition advanceBackoffMs (config : RuntimeConfig) (s : BackendStatus) : BackendStatus :=
  if bs_currentBackoffMs s =? 0 then s <| bs_currentBackoffMs := rt_initialBackoffMs config |>
  else
    let doubled := wrap 64 (bs_currentBackoffMs s * 2) in
    s <| bs_currentBackoffMs :=
           wrap 32 (if rt_maximumBackoffMs config <? doubled then rt_maximumBackoffMs config
                    else doubled) |>.

(** [setFailure] in the status, with the times it reads. *)
Definition failed (httpStatus : Z) (message : list Z) (advanceBackoff telemetryOperationFailure : bool)
    (uptime : Z) (now : TrustedTimeSnapshot) (config : RuntimeConfig) (s : BackendStatus)
  : BackendStatus :=
  let s := setBackendState "BACKOFF" s in
  let s := s <| bs_lastHttpStatus := httpStatus |>
             <| bs_lastError := copyText (bs_lastError s) (Some message) |> in
  let s :=
    if telemetryOperationFailure then
      s <| bs_telemetryUploadFailureCount := bump64 (bs_telemetryUploadFailureCount s) |>
        <| bs_consecutiveFailures :=
             (if bs_consecutiveFailures s =? UINT32_MAX then bs_consecutiveFailures s
              else bs_consecutiveFailures s + 1) |>
        <| bs_lastErrorUptimeMs := uptime |>
        <| bs_lastErrorUnixMs := trustedMs now |>
    else s in
  if advanceBackoff then advanceBackoffMs config s else s.

(** [setSuccess] in the status. *)
Definition succeeded (httpStatus : Z) (uptime : Z) (now : TrustedTimeSnapshot) (s : BackendStatus)
  : BackendStatus :=
  let s := setBackendState "CONNECTED" s in
  s <| bs_lastHttpStatus := httpStatus |>
    <| bs_lastError := <[0%nat := 0]> (bs_lastError s) |>
    <| bs_currentBackoffMs := 0 |>
    <| bs_lastSuccessUptimeMs := uptime |>
    <| bs_lastSuccessUnixMs := trustedMs now |>
    <| bs_consecutiveFailures := 0 |>
    <| bs_telemetryUploadSuccessCount := bump64 (bs_telemetryUploadSuccessCount s) |>.

Section Operations.
Context {W : Type} `{UploadQueue W, HttpClient W, WifiReadings W, TrustedTime W}.
Context `{MonotonicClock W, Tasks W, JsonText}.

Definition uptimeMs (w : W) : Z * W := let '(us, w) := nowUs w in (us / 1000, w).

Definition setFailure (httpStatus : Z) (message : list Z)
    (advanceBackoff telemetryOperationFailure : bool) (b : BackendWorker) (w : W)
  : BackendWorker * W :=
  if negb (bw_mutex b) then (b, w)
  else
    let '(uptime, now, w) :=
      if telemetryOperationFailure then
        let '(uptime, w) := uptimeMs w in
        let '(now, w) := time_now w in
        (uptime, now, w)
      else (0, TrustedTimeSnapshot_init, w) in
    (onStatus (failed httpStatus message advanceBackoff telemetryOperationFailure uptime now
                 (bw_config b)) b, w).

Definition setSuccess (httpStatus : Z) (b : BackendWorker) (w : W) : BackendWorker * W :=
  if negb (bw_mutex b) then (b, w)
  else
    let '(uptime, w) := uptimeMs w in
    let '(now, w) := time_now w in
    (onStatus (succeeded httpStatus uptime now) b, w).

(** ** Configuration *)

Definition runtimeConfig (config : GatewayConfig) (identity : GatewayIdentity)
    (r : RuntimeConfig) : RuntimeConfig :=
  mkRuntimeConfig (copyText (rt_baseUrl r) (Some (cf_backendBaseUrl config)))
    (copyText (rt_token r) (Some (cf_backendBearerToken config)))
    (cf_backendBatchSize config) (cf_backendHttpTimeoutMs config)
    (cf_backendInitialBackoffMs config) (cf_backendMaximumBackoffMs config)
    (cf_heartbeatIntervalSeconds config) identity.

Definition backendApplyConfig (config : GatewayConfig) (identity : GatewayIdentity)
    (b : BackendWorker) (w : W) : BackendWorker * W :=
  if negb (bw_mutex b) then (b, w)
  else
    let r := runtimeConfig config identity (bw_config b) in
    let s := bw_status b in
    let s := s <| bs_credentialConfigured := negb (default 0 (head (rt_token r)) =? 0) |>
               <| bs_tlsEndpoint := startsWith (rt_baseUrl r) (chars "https://") |>
               <| bs_currentBackoffMs := 0 |> in
    let '(now, w) := nowUs w in
    let '(_, scheduler) :=
      heartbeatConfigure (rt_heartbeatIntervalSeconds r) now (bw_heartbeatScheduler b) in
    let h := (bw_heartbeatStatus b)
               <| hst_intervalSeconds := rt_heartbeatIntervalSeconds r |> in
    (mkBackendWorker (bw_bound b) (bw_mutex b) (bw_task b) r s h scheduler (bw_bootCount b)
       (bw_resetReason b),
     if bw_task b then taskNotify w else w).

(** [mutexCreated], [taskCreated]: the outcomes of [xSemaphoreCreateMutex] and
    [xTaskCreate]. *)
Definition backendBegin (mutexCreated taskCreated : bool) (config : GatewayConfig)
    (identity : GatewayIdentity) (bootCount : Z) (resetReason : ptr (list Z))
    (b : BackendWorker) (w : W) : bool * BackendWorker * W :=
  let b := b <| bw_bound := true |> <| bw_bootCount := bootCount |>
             <| bw_resetReason := copyText (bw_resetReason b) resetReason |>
             <| bw_mutex := mutexCreated |> in
  if negb mutexCreated then (false, b, w)
  else
    let '(b, w) := backendApplyConfig config identity b w in
    let b := b <| bw_status := setBackendState "IDLE" (bw_status b) |> in
    (taskCreated, b <| bw_task := taskCreated |>, w).

Definition flushNow (b : BackendWorker) (w : W) : W := if bw_task b then taskNotify w else w.

(** ** Requests *)

Definition networkAvailable (config : RuntimeConfig) (w : W) : bool * W :=
  let '(connected, w) := wifi_connected w in
  if (connected : bool) then (true, w)
  else
    let '(mode, w) := wifi_getMode w in
    let apActive := bool_decide (mode = WIFI_AP) || bool_decide (mode = WIFI_AP_STA) in
    if startsWith (rt_baseUrl config) (chars "http://") && apActive then
      let '(stations, w) := wifi_stationNum w in (0 <? stations, w)
    else (false, w).

(** The exchange, once the client has begun; [post]: the body of a POST. *)
Definition exchange (token : list Z) (post : option (list Z)) (error : ptr (list Z)) (w : W)
  : Z * list Z * ptr (list Z) * W :=
  let headers := [(chars "Accept", chars "application/json");
                  (chars "Authorization", chars "Bearer " ++ text token)] in
  let '(status, w) :=
    match post with
    | Some body =>
        http_POST (headers ++ [(chars "Content-Type", chars "application/json")]) (text body) w
    | None => http_GET headers w
    end in
  let '(response, error, w) :=
    if 0 <? status then let '(response, w) := http_getString w in (response, error, w)
    else
      ([], (fun e => putText e (chars "transport error " ++ http_errorToString status)) <$> error,
       w) in
  (status, response, error, http_end w).

(** The answers are the status, the response and the caller's error buffer.
    [method] and [body]: [post] is [Some body] for a POST, [None] for a GET. *)
Definition performRequest (config : RuntimeConfig) (post : option (list Z)) (path : list Z)
    (error : ptr (list Z)) (requireTrustedTime : bool) (b : BackendWorker) (w : W)
  : Z * list Z * ptr (list Z) * W :=
  let error := (fun e => <[0%nat := 0]> e) <$> error in
  let refuse message w : Z * list Z * ptr (list Z) * W :=
    (0, [], (fun e => putText e message) <$> error, w) in
  let '(available, w) := networkAvailable config w in
  if negb available then refuse (chars "Wi-Fi disconnected") w
  else
    let tls := startsWith (rt_baseUrl config) (chars "https://") in
    let '(timely, w) :=
      if tls && requireTrustedTime then
        if bw_bound b then let '(now, w) := time_now w in (ts_trusted now, w) else (false, w)
      else (true, w) in
    if negb timely then refuse (chars "TLS requires trusted time") w
    else
      let '(begun, w) := http_begin tls (rt_timeoutMs config) (text (rt_baseUrl config) ++ path) w in
      if negb begun then refuse (chars "HTTP client initialization failed") w
      else exchange (rt_token config) post error w.

Definition testConnection (error : ptr (list Z)) (b : BackendWorker) (w : W)
  : bool * Z * ptr (list Z) * W :=
  let config := configSnapshot b in
  let '(httpStatus, _, error, w) :=
    performRequest config None (chars "/api/v1/iot/gateway/ping") error true b w in
  (httpStatus =? HTTP_CODE_OK, httpStatus, error, w).

(** ** Uploading *)

(** The loop over the results; [None]: a queued payload does not decode. *)
Fixpoint terminalActions (results : list BackendRecordResult) (records : list QueueRecord)
  : option (list QueueTerminalAction) :=
  match results with
  | [] => Some []
  | result :: results =>
      let record := default QueueRecord_init (records !! Z.to_nat (br_index result)) in
      let '(status, telemetry) :=
        decodeTelemetry (Some (qr_rawPayload record)) (Z.to_nat (qr_payloadLength record))
          TelemetryPacket_init in
      if negb (bool_decide (status = DecodeStatus.kOk)) then None
      else
        let action := mkQueueTerminalAction (qr_recordId record)
          (makeTelemetryKey (Some (tp_nodeId telemetry)) (tp_persistentSessionId telemetry)
             (tp_sequence telemetry))
          (bool_decide (br_status result = BackendRecordStatus.kRejectedInvalid)) in
        actions ← terminalActions results records; Some (action :: actions)
  end.

(** What [uploadOnce] does with the answer to a request that was made. *)
Definition takeAnswer (httpStatus : Z) (response : list Z) (records : list QueueRecord)
    (b : BackendWorker) (w : W) : bool * bool * BackendWorker * W :=
  let '(parsed, results) := parseBackendBatchResponse (Some response) (length records) in
  if negb parsed then
    let '(b, w) := setFailure httpStatus
      (chars "incompatible/malformed batch response; queue retained") true true b w in
    (false, false, b, uq_recordUploadRetry w)
  else
    match terminalActions results records with
    | None =>
        let '(b, w) := setFailure httpStatus
          (chars "queued payload unexpectedly failed local decode") true false b w in
        (false, false, b, w)
    | Some actions =>
        let '(finished, w) :=
          match actions with [] => (true, w) | _ => uq_finish actions w end in
        if negb finished then
          let '(b, w) := setFailure httpStatus (chars "terminal queue dequeue failed") true false
            b w in
          (false, false, b, w)
        else if negb (backendBatchResponseComplete (length records) results) then
          let '(b, w) := setFailure httpStatus
            (chars "partial batch response; missing records retained") true true b w in
          (true, false, b, uq_recordUploadRetry w)
        else
          let '(b, w) := setSuccess httpStatus b w in
          (true, true, b, w)
    end.

(** The message of a request that was not answered with 200. *)
Definition failureMessage (httpStatus : Z) (error : list Z) : list Z :=
  if negb (default 0 (head error) =? 0) then error
  else if (httpStatus =? HTTP_CODE_UNAUTHORIZED) || (httpStatus =? HTTP_CODE_FORBIDDEN)
  then chars "backend authentication rejected; queue retained"
  else chars "backend request failed; queue retained".

(** The answers are the function's own and [completeSuccess]. *)
Definition uploadOnce (b : BackendWorker) (w : W) : bool * bool * BackendWorker * W :=
  let config := configSnapshot b in
  let '(peeked, records, w) := uq_peek (Z.to_nat (rt_batchSize config)) w in
  if negb peeked || (length records =? 0)%nat then
    let '(b, w) := setFailure 0 (chars "queue batch read failed") true false b w in
    (false, false, b, uq_recordFilesystemError w)
  else
    let '(serialized, payload) := serializeBackendBatch (rt_identity config) records in
    if negb serialized then
      let '(b, w) := setFailure 0 (chars "backend batch serialization failed") true false b w in
      (false, false, b, w)
    else
      let '(b, w) :=
        if bw_mutex b then
          let '(uptime, w) := uptimeMs w in
          (onStatus (fun s => setBackendState "UPLOADING" s
                                <| bs_lastAttemptUptimeMs := uptime |>) b, w)
        else (b, w) in
      let '(httpStatus, response, error, w) :=
        performRequest config (Some payload) (chars "/api/v1/iot/telemetry/batch")
          (Some (zeros 128)) true b w in
      if negb (backendHttpResponseMayDequeue httpStatus) then
        let '(b, w) := setFailure httpStatus (failureMessage httpStatus (default [] error)) true
          true b w in
        (false, false, b, uq_recordUploadRetry w)
      else takeAnswer httpStatus response records b w.

(** ** Heartbeats *)

Context `{HeartbeatSources W, SystemFigures W}.
(** [firmware::kBuildFlavor], which the build defines. *)
Context (kBuildFlavor : list Z).

Definition captureGateway (config : RuntimeConfig) : HeartbeatGateway :=
  mkHeartbeatGateway
    (copyText (zeros kGatewayIdCapacity) (Some (gi_gatewayId (rt_identity config))))
    (copyText (zeros 18) (Some (gi_hardwareMac (rt_identity config))))
    (copyText (zeros 17) (Some kFirmwareVersion)) kVersion
    (copyText (zeros 24) (Some kBuildFlavor)).

Definition captureRuntime (b : BackendWorker) (w : W) : HeartbeatRuntime * W :=
  let '(uptime, w) := uptimeMs w in
  let '(freeHeap, w) := esp_freeHeap w in
  let '(minFreeHeap, w) := esp_minFreeHeap w in
  let '(largest, w) := esp_largestFreeBlock w in
  let '(sketch, w) := esp_sketchSize w in
  let '(freeSketch, w) := esp_freeSketchSpace w in
  let '(flash, w) := esp_flashChipSize w in
  (mkHeartbeatRuntime (uptime / 1000) (copyText (zeros 32) (Some (bw_resetReason b)))
     (bw_bootCount b) freeHeap minFreeHeap largest sketch freeSketch flash, w).

Definition captureNetwork (b : BackendWorker) (wifi : WifiStatus) : HeartbeatNetwork :=
  let backend := backendStatus b in
  mkHeartbeatNetwork (wf_connected wifi)
    (copyText (zeros kWifiSsidCapacity) (Some (wf_ssid wifi))) (wf_rssiDbm wifi)
    (copyText (zeros 16) (Some (wf_localIp wifi)))
    (classifyBackendConnectivity (bs_telemetryUploadSuccessCount backend)
       (bs_consecutiveFailures backend))
    (bs_lastSuccessUnixMs backend) (bs_lastErrorUnixMs backend) (bs_consecutiveFailures backend).

Definition captureTime (time : TimeStatus) : HeartbeatTime :=
  mkHeartbeatTime (tst_trusted time) (if tst_trusted time then tst_currentUnixMs time else -1)
    (if tst_trusted time then tst_lastSyncUnixMs time else -1).

Definition captureLora (radio : RadioDiagnostics) (isPaired : bool) (nodeId : list Z)
  : HeartbeatLora :=
  let processing := rd_processing radio in
  mkHeartbeatLora isPaired nodeId (negb (rd_lastRxUptimeUs radio =? 0)) (rd_lastRxUnixMs radio)
    (rd_lastRssiDbm radio) (rd_lastSnrDb radio) (rd_lastFrequencyErrorHz radio)
    (rd_receivedPackets radio) (ps_validTelemetryPackets processing)
    (wrap 64 (rd_crcErrors radio + rd_invalidLengthPackets radio + rd_readErrors radio +
              ps_decodeErrors processing))
    (rd_crcErrors radio) (ps_decodeErrors processing) (ps_unknownNodePackets processing).

Definition captureAck (processing : PacketProcessingStats) : HeartbeatAck :=
  let count := wrap 64 (ps_ackSent processing + ps_ackFailures processing) in
  let latency := ps_successfulAckLatency processing in
  mkHeartbeatAck count (ps_ackSent processing) (ps_ackFailures processing)
    ((0 <? count) && (0 <? ps_lastRxToAckCompleteUs processing) &&
     (ps_lastRxToAckStartUs processing <=? ps_lastRxToAckCompleteUs processing))
    (ps_lastRxToAckStartUs processing) (ps_lastRxToAckCompleteUs processing)
    (snapshot (al_rxToStart latency)) (snapshot (al_rxToComplete latency))
    (snapshot (al_txDuration latency)).

(** The age of the oldest record in milliseconds, -1 when it is not known. *)
Definition oldestAgeMs (config : RuntimeConfig) (time : TimeStatus) (oldest : QueueRecord)
    (w : W) : Z * W :=
  let reception := qr_reception oldest in
  if tst_trusted time && rm_gatewayTimeTrusted reception
  then (tst_currentUnixMs time - rm_gatewayReceivedUnixMs reception, w)
  else if rm_gatewayBootSessionId reception =? gi_bootSessionId (rt_identity config) then
    let '(uptime, w) := uptimeMs w in
    (to_signed 64 uptime - to_signed 64 (rm_gatewayUptimeMs reception), w)
  else (-1, w).

Definition captureQueue (config : RuntimeConfig) (time : TimeStatus) (b : BackendWorker) (w : W)
  : HeartbeatQueue * W :=
  let backend := backendStatus b in
  let '(depth, w) := uq_size w in
  let depth := wrap 32 (Z.of_nat depth) in
  let '(capacity, w) := uq_capacity w in
  let '(ageMs, w) :=
    if 0 <? depth then
      let '(peeked, oldest, w) := uq_peek 1 w in
      match oldest with
      | record :: _ => if (peeked : bool) then oldestAgeMs config time record w else (-1, w)
      | [] => (-1, w)
      end
    else (-1, w) in
  (mkHeartbeatQueue depth (wrap 32 (Z.of_nat capacity)) (0 <=? ageMs)
     (if 0 <=? ageMs then ageMs / 1000 else 0) (bs_telemetryUploadSuccessCount backend)
     (bs_telemetryUploadFailureCount backend), w).

Definition captureCommands (command : GatewayCommand) (radio : RadioDiagnostics)
  : HeartbeatCommands :=
  mkHeartbeatCommands (outstanding command) (gc_commandId command)
    (copyText (zeros 40) (Some (chars (commandTypeName (gc_type command)))))
    (copyText (zeros 16) (Some (chars (commandStateName (gc_state command)))))
    (negb (gc_commandId command =? 0)) (gc_commandId command)
    (copyText (zeros 32) (Some (chars (commandResultName (gc_result command)))))
    (rd_commandsSentCount radio) (ps_validCommandResultPackets (rd_processing radio)).

(** [None]: the function answers false. *)
Definition captureHeartbeatSnapshot (config : RuntimeConfig) (b : BackendWorker) (w : W)
  : option HeartbeatSnapshot * W :=
  if negb (bw_bound b) then (None, w)
  else
    let gateway := captureGateway config in
    let '(runtime, w) := captureRuntime b w in
    let '(wifi, w) := source_wifi w in
    let network := captureNetwork b wifi in
    let '(time, w) := source_time w in
    let '(radio, w) := source_radio w in
    let '(isPaired, w) := source_paired w in
    let '(nodeId, w) := source_pairedNodeId (zeros kNodeIdCapacity) w in
    let '(queue, w) := captureQueue config time b w in
    let '(command, w) := source_command w in
    (Some (mkHeartbeatSnapshot (rt_heartbeatIntervalSeconds config) gateway runtime network
             (captureTime time) (captureLora radio isPaired nodeId)
             (captureAck (rd_processing radio)) queue (captureCommands command radio)), w).

(** The outcome of the attempt itself: the status (0 without a request), the error
    buffer, and whether it has been deferred. *)
Definition heartbeatRequest (b : BackendWorker) (w : W) : Z * list Z * bool * W :=
  let config := configSnapshot b in
  let error := zeros 128 in
  let '(size, w) := if bw_bound b then uq_size w else (0%nat, w) in
  if negb (size =? 0)%nat then (0, error, true, w)
  else
    let '(available, w) := networkAvailable config w in
    if negb available then (0, putText error (chars "Wi-Fi unavailable"), false, w)
    else if default 0 (head (rt_token config)) =? 0
    then (0, putText error (chars "backend credential is not configured"), false, w)
    else
      let '(snapshot, w) := captureHeartbeatSnapshot config b w in
      let '(serialized, payload) :=
        match snapshot with
        | Some snapshot => serializeHeartbeat snapshot
        | None => (false, [])
        end in
      if negb serialized
      then (0, putText error (chars "heartbeat serialization failed"), false, w)
      else
        let '(size, w) := uq_size w in
        if negb (size =? 0)%nat then (0, error, true, w)
        else
          let requestConfig :=
            if 5000 <? rt_timeoutMs config then config <| rt_timeoutMs := 5000 |> else config in
          let '(httpStatus, _, error, w) :=
            performRequest requestConfig (Some payload) kHeartbeatEndpoint (Some error) false b w in
          (httpStatus, default [] error, false, w).

(** How the status ends up after the attempt. *)
Definition heartbeatDone (httpStatus : Z) (error : list Z) (deferredForTelemetry : bool)
    (uptime : Z) (completedAt : TrustedTimeSnapshot) (h : HeartbeatStatus) : HeartbeatStatus :=
  let h := h <| hst_inProgress := false |> <| hst_lastHttpStatus := httpStatus |> in
  if deferredForTelemetry
  then h <| hst_lastError := copyText (hst_lastError h)
                               (Some (chars "deferred for durable telemetry")) |>
  else if heartbeatHttpSucceeded httpStatus
  then h <| hst_successCount := bump64 (hst_successCount h) |>
         <| hst_lastSuccessUptimeMs := uptime |>
         <| hst_lastSuccessUnixMs := trustedMs completedAt |>
         <| hst_lastError := <[0%nat := 0]> (hst_lastError h) |>
  else
    h <| hst_failureCount := bump64 (hst_failureCount h) |>
      <| hst_lastError :=
           (if negb (default 0 (head error) =? 0) then copyText (hst_lastError h) (Some error)
            else if 0 <? httpStatus
            then putText (hst_lastError h) (chars "HTTP " ++ decimal httpStatus)
            else copyText (hst_lastError h) (Some (chars "heartbeat request failed"))) |>.

Definition attemptHeartbeat (b : BackendWorker) (w : W) : BackendWorker * W :=
  let '(size, w) := if bw_bound b then uq_size w else (0%nat, w) in
  if negb (size =? 0)%nat then (b, w)
  else
    let '(attemptUptimeMs, w) := uptimeMs w in
    let '(attemptTime, w) := time_now w in
    if negb (bw_mutex b) then (b, w)
    else
      let '(now, w) := nowUs w in
      let b := b <| bw_heartbeatScheduler := heartbeatMarkAttempt now (bw_heartbeatScheduler b) |> in
      let b := onHeartbeatStatus (fun h =>
        h <| hst_inProgress := true |> <| hst_lastAttemptUptimeMs := attemptUptimeMs |>
          <| hst_lastAttemptUnixMs := trustedMs attemptTime |>) b in
      let '(httpStatus, error, deferred, w) := heartbeatRequest b w in
      let '(completedAt, w) := time_now w in
      let '(uptime, w) :=
        if negb deferred && heartbeatHttpSucceeded httpStatus then uptimeMs w else (0, w) in
      (onHeartbeatStatus (heartbeatDone httpStatus error deferred uptime completedAt) b, w).

(** ** The task *)

(** How a round of the task ends: at once, after a delay, or waiting for a
    notification for so many milliseconds. *)
Inductive Pause := PauseNone | PauseDelay (ms : Z) | PauseNotify (ms : Z).

(** The round when there is something to upload and nothing forbids it. *)
Definition uploadRound (b : BackendWorker) (w : W) : Pause * BackendWorker * W :=
  let '(requestCompleted, completeSuccess, b, w) := uploadOnce b w in
  if requestCompleted && completeSuccess then (PauseDelay 50, b, w)
  else
    let backoff := bs_currentBackoffMs (backendStatus b) in
    let '(jitter, w) :=
      if backoff =? 0 then (0, w)
      else let '(r, w) := esp_random w in (r mod (wrap 32 (backoff / 5 + 1)), w) in
    (PauseNotify (wrap 32 (backoff + jitter)), b, w).

(** One round of [run]; after [begin], hence with the queue set. *)
Definition backendRound (b : BackendWorker) (w : W) : Pause * BackendWorker * W :=
  let '(size, w) := uq_size w in
  if (size =? 0)%nat then
    let b := onStatus (setBackendState "IDLE") b in
    let '(isDue, w) :=
      if bw_mutex b then
        let '(now, w) := nowUs w in (heartbeatDue now (bw_heartbeatScheduler b), w)
      else (false, w) in
    let '(size, w) := if (isDue : bool) then uq_size w else (0%nat, w) in
    if isDue && (size =? 0)%nat
    then let '(b, w) := attemptHeartbeat b w in (PauseNone, b, w)
    else (PauseNotify 1000, b, w)
  else
    let config := configSnapshot b in
    let retain message b w : Pause * BackendWorker * W :=
      let '(b, w) := setFailure 0 (chars message) false false b w in (PauseNotify 5000, b, w) in
    let '(available, w) := networkAvailable config w in
    if negb available then retain "Wi-Fi unavailable; queue retained"%string b w
    else if default 0 (head (rt_token config)) =? 0
    then retain "backend credential is not configured; queue retained"%string b w
    else
      let '(timely, w) :=
        if startsWith (rt_baseUrl config) (chars "https://")
        then let '(now, w) := time_now w in (ts_trusted now, w) else (true, w) in
      if negb timely
      then retain "HTTPS waiting for trusted NTP time; queue retained"%string b w
      else uploadRound b w.

End Operations.
