(* ===== verification/BackendWorkerTheorems.v ===== *)
(** * Theorems on the backend worker

    [UploadWorld]: what the worker relies on.  The queue holds [uploads]; the other
    tasks of the gateway may enqueue, and thereby drop the oldest records, while
    an HTTP exchange is under way ([later]). *)

From Stdlib Require Import ZArith Lia String.
From stdpp Require Import list.
From S2P Require Import Prelude BuildConfig CString Platform Protocol ProtocolSpec QueueRecord.
From S2P Require Import QueueRecordSpec QueueRecordCodec Dedup DurableQueueCore CommandStore.
From S2P Require Import Metrics PacketProcessor DurableQueue RecentCodec DurableQueueWorld.
From S2P Require Import GatewayConfig.
From S2P Require Import UtcTime Json BackendContract TimeManager Heartbeat WifiManager.
From S2P Require Import RadioService BackendWorker.
Open Scope Z_scope.

(** What the others may have made of the queue. *)
Definition later (l l' : list QueueRecord) : Prop :=
  exists dropped new, l' = drop dropped l ++ new /\
    Forall (fun r => qr_recordId r ∉ qr_recordId <$> l) new.

Lemma later_refl l : later l l.
Proof. exists 0%nat, []. rewrite app_nil_r. split; [done|constructor]. Qed.

(** What can be seen of a world: the queue's contents; [quiet]: nothing has happened
    to the queue; [meanwhile]: the other tasks have worked; [finishing removed]: the
    actions [removed] have been carried out on the queue. *)
Class UploadObservations (W : Type) := {
  uw_ok : W -> Prop;
  uploads : W -> list QueueRecord;
  quiet : W -> W -> Prop;
  meanwhile : W -> W -> Prop;
  finishing : list QueueTerminalAction -> W -> W -> Prop;
}.

Definition same {W} `{UploadObservations W} (w w' : W) : Prop :=
  uw_ok w -> uw_ok w' /\ quiet w w'.

Class UploadWorld (W : Type)
    `{UploadQueue W, HttpClient W, WifiReadings W, TrustedTime W, MonotonicClock W,
      UploadObservations W} := {
  quiet_refl w : quiet w w;
  quiet_trans w1 w2 w3 : quiet w1 w2 -> quiet w2 w3 -> quiet w1 w3;
  quiet_uploads w w' : quiet w w' -> uploads w' = uploads w;
  quiet_meanwhile w w' : quiet w w' -> meanwhile w w';
  meanwhile_after w1 w2 w3 : quiet w1 w2 -> meanwhile w2 w3 -> meanwhile w1 w3;
  meanwhile_before w1 w2 w3 : meanwhile w1 w2 -> quiet w2 w3 -> meanwhile w1 w3;
  meanwhile_later w w' : uw_ok w -> meanwhile w w' -> later (uploads w) (uploads w');
  finishing_none w w' : quiet w w' -> finishing [] w w';
  finishing_before removed w1 w2 w3 :
    finishing removed w1 w2 -> quiet w2 w3 -> finishing removed w1 w3;
  finishing_uploads removed w w' :
    uw_ok w -> finishing removed w w' -> uploads w' = left_over removed (uploads w);
  uploads_wf w : uw_ok w ->
    Forall record_wf (uploads w) /\ NoDup (qr_recordId <$> uploads w);
  upload_peek n w ok out w' :
    uw_ok w -> uq_peek n w = (ok, out, w') ->
    uw_ok w' /\ quiet w w' /\ out = if ok then take n (uploads w) else [];
  upload_finish actions w ok w' :
    uw_ok w -> Forall (fun a => key_wf (qa_key a)) actions ->
    uq_finish actions w = (ok, w') ->
    uw_ok w' /\ exists removed, removed `sublist_of` actions /\
      finishing removed w w' /\ (ok = true -> removed = actions);
  upload_retry w : same w (uq_recordUploadRetry w);
  upload_error w : same w (uq_recordFilesystemError w);
  upload_connected w : same w (wifi_connected w).2;
  upload_mode w : same w (wifi_getMode w).2;
  upload_stations w : same w (wifi_stationNum w).2;
  upload_time w : same w (time_now w).2;
  upload_clock w : same w (nowUs w).2;
  upload_begin tls timeout url w : same w (http_begin tls timeout url w).2;
  upload_string w : same w (http_getString w).2;
  upload_end w : same w (http_end w);
  upload_post headers body w : uw_ok w ->
    uw_ok (http_POST headers body w).2 /\ meanwhile w (http_POST headers body w).2;
}.

Lemma left_over_nil l : left_over [] l = l.
Proof.
  unfold left_over. apply filter_all, Forall_forall. intros r _. apply not_elem_of_nil.
Qed.

(** ** The actions made of an answer *)

(** What an answer says about a record of the batch. *)
Record terminal (batch : list QueueRecord) (results : list BackendRecordResult)
    (action : QueueTerminalAction) : Prop := {
  te_answered : exists r record, r ∈ results /\ batch !! Z.to_nat (br_index r) = Some record /\
    qa_recordId action = qr_recordId record /\
    (qa_permanentlyRejected action = true <-> br_status r = BackendRecordStatus.kRejectedInvalid) /\
    exists t, telemetryOf record = Some t /\ qa_key action = keyOf t;
}.

Lemma terminal_cons batch r results action :
  terminal batch results action -> terminal batch (r :: results) action.
Proof.
  intros [(x & record & Hx & ?)]. split. exists x, record. split; [|done].
  rewrite elem_of_cons. auto.
Qed.

Lemma terminalActions_spec batch results actions :
  Forall record_wf batch ->
  Forall (fun r => 0 <= br_index r < Z.of_nat (length batch)) results ->
  terminalActions results batch = Some actions ->
  Forall (terminal batch results) actions /\
  Forall (fun a => key_wf (qa_key a)) actions /\
  qa_recordId <$> actions =
    (fun r => qr_recordId (default QueueRecord_init (batch !! Z.to_nat (br_index r)))) <$> results.
Proof.
  intros Hwf Hr. revert actions. induction Hr as [|r results Hi Hr IH]; intros actions E;
    cbn [terminalActions] in E; [injection E as <-; split_and!; constructor|].
  destruct (lookup_lt_is_Some_2 batch (Z.to_nat (br_index r))) as [record Hl]; [lia|].
  rewrite Hl in E. cbn [default from_option] in E. unfold id in E.
  destruct (decodeTelemetry _ _ _) as [status t] eqn:Ed.
  destruct (bool_decide (status = DecodeStatus.kOk)) eqn:Es; cbn [negb] in E; [|done].
  destruct (terminalActions results batch) as [rest|] eqn:Et; [|done].
  cbn in E. injection E as <-. destruct (IH rest eq_refl) as (I1 & I2 & I3).
  assert (telemetryOf record = Some t) as Hto by (unfold telemetryOf; by rewrite Ed, Es).
  rewrite Forall_forall in Hwf.
  destruct (Hwf record (list_elem_of_lookup_2 _ _ _ Hl)) as [(_ & Hlen & _) [_ _ [Hp Hb] _ _ _ _ _ _ _] _].
  apply bool_decide_eq_true in Es. subst status.
  apply decodeTelemetry_inv in Ed as (Wt & _); [|unfold kRadioPacketCapacity in *; lia|done|by left].
  split_and!.
  - constructor.
    + split. exists r, record. rewrite elem_of_cons, Hl. split_and!; auto.
      * cbn. by rewrite bool_decide_eq_true.
      * by exists t.
    + eapply Forall_impl; [exact I1|]. intros a. apply terminal_cons.
  - constructor; [|done]. by apply keyOf_wf.
  - rewrite !fmap_cons, I3, Hl. done.
Qed.

(** Answers that name [n] distinct records of [n] name them all. *)
Lemma all_named (n : nat) (indices : list Z) (i : nat) :
  NoDup indices -> Forall (fun i => 0 <= i < Z.of_nat n) indices -> length indices = n ->
  (i < n)%nat -> Z.of_nat i ∈ indices.
Proof.
  intros Hd Hr Hl Hi. apply list_elem_of_In.
  apply (NoDup_length_incl (l := indices) (l' := Z.of_nat <$> seq 0 n)).
  - by apply NoDup_ListNoDup.
  - rewrite length_fmap, length_seq. lia.
  - intros x Hx. apply list_elem_of_In in Hx. rewrite Forall_forall in Hr.
    pose proof (Hr x Hx). apply list_elem_of_In, list_elem_of_fmap. exists (Z.to_nat x).
    rewrite elem_of_seq. lia.
  - apply list_elem_of_In, list_elem_of_fmap. exists i. rewrite elem_of_seq. lia.
Qed.

Section Upload.
Context {W : Type} `{UploadWorld W, Tasks W, JsonText, !JsonLaws}.

Lemma same_refl w : same w w.
Proof. intros Hw. split; [done|apply quiet_refl]. Qed.

Lemma same_trans w1 w2 w3 : same w1 w2 -> same w2 w3 -> same w1 w3.
Proof.
  intros S1 S2 Hw. destruct (S1 Hw) as [G1 E1]. destruct (S2 G1) as [G2 E2].
  split; [done|by eapply quiet_trans].
Qed.

(** [same] for the second part of a result. *)
Lemma same_of {A} (f : A * W) a w w' : same w f.2 -> f = (a, w') -> same w w'.
Proof. by intros S ->. Qed.

Lemma uptimeMs_same w t w' : uptimeMs w = (t, w') -> same w w'.
Proof.
  unfold uptimeMs. destruct (nowUs w) as [us w1] eqn:E. intros [= _ <-].
  eapply same_of; [|exact E]. apply upload_clock.
Qed.

Lemma setFailure_same status message advanceBackoff telemetry b w b' w' :
  setFailure status message advanceBackoff telemetry b w = (b', w') -> same w w'.
Proof.
  unfold setFailure. intros E. destruct (bw_mutex b); cbn [negb] in E;
    [|injection E as _ <-; apply same_refl].
  destruct telemetry; [|injection E as _ <-; apply same_refl].
  destruct (uptimeMs w) as [u w1] eqn:E1. apply uptimeMs_same in E1.
  destruct (time_now w1) as [now w2] eqn:E2. eapply same_of in E2; [|apply upload_time].
  injection E as _ <-. by eapply same_trans.
Qed.

Lemma setSuccess_same status b w b' w' : setSuccess status b w = (b', w') -> same w w'.
Proof.
  unfold setSuccess. intros E. destruct (bw_mutex b); cbn [negb] in E;
    [|injection E as _ <-; apply same_refl].
  destruct (uptimeMs w) as [u w1] eqn:E1. apply uptimeMs_same in E1.
  destruct (time_now w1) as [now w2] eqn:E2. eapply same_of in E2; [|apply upload_time].
  injection E as _ <-. by eapply same_trans.
Qed.

Lemma networkAvailable_same config w b w' : networkAvailable config w = (b, w') -> same w w'.
Proof.
  unfold networkAvailable. intros E.
  destruct (wifi_connected w) as [c w1] eqn:E1. eapply same_of in E1; [|apply upload_connected].
  destruct c; [by injection E as _ <-|].
  destruct (wifi_getMode w1) as [m w2] eqn:E2. eapply same_of in E2; [|apply upload_mode].
  pose proof (same_trans _ _ _ E1 E2) as S. destruct (_ && _); [|by injection E as _ <-].
  destruct (wifi_stationNum w2) as [n w3] eqn:E3. eapply same_of in E3; [|apply upload_stations].
  injection E as _ <-. by eapply same_trans.
Qed.

(** The POST of [body] in the world [w], to whose queue nothing has happened since,
    was answered with [status] and [response]. *)
Definition answered (w : W) (body : list Z) (status : Z) (response : list Z) : Prop :=
  exists headers w1 w2 w3, quiet w w1 /\
    http_POST headers (text body) w1 = (status, w2) /\ http_getString w2 = (response, w3).

Lemma answered_after w w1 body status response :
  quiet w w1 -> answered w1 body status response -> answered w body status response.
Proof.
  intros Q (headers & w2 & w3 & w4 & Q2 & E). exists headers, w2, w3, w4.
  split; [by eapply quiet_trans|done].
Qed.

Lemma exchange_spec token body error w status response error' w' :
  uw_ok w -> exchange token (Some body) error w = (status, response, error', w') ->
  uw_ok w' /\ meanwhile w w' /\ (0 < status -> answered w body status response).
Proof.
  unfold exchange. intros Hw E.
  match type of E with context [http_POST ?h ?t w] =>
    pose proof (upload_post h t w Hw) as [G1 M1];
    destruct (http_POST h t w) as [s w1] eqn:E1 end.
  cbn [snd] in *. destruct (Z.ltb_spec 0 s) as [Hs|Hs].
  - pose proof (upload_string w1 G1) as [G2 Q2].
    destruct (http_getString w1) as [r w2] eqn:E2. cbn [snd] in *.
    injection E as <- <- _ <-. destruct (upload_end w2 G2) as [G3 Q3].
    split_and!; [done|do 2 (eapply meanwhile_before; [|done]); done|].
    intros _. eexists _, _, _, _. split; [apply quiet_refl|done].
  - injection E as <- <- _ <-. destruct (upload_end w1 G1) as [G3 Q3].
    split_and!; [done|by eapply meanwhile_before|lia].
Qed.

Lemma performRequest_spec config body path error requireTrustedTime b w status response error' w' :
  uw_ok w ->
  performRequest config (Some body) path error requireTrustedTime b w =
    (status, response, error', w') ->
  uw_ok w' /\ meanwhile w w' /\ (0 < status -> answered w body status response).
Proof.
  unfold performRequest. intros Hw E.
  assert (forall w1, same w w1 -> uw_ok w1 /\ meanwhile w w1 /\ (0 < 0 -> answered w body 0 []))
    as Hnone by (intros w1 S; destruct (S Hw); split_and!; [done|by apply quiet_meanwhile|lia]).
  destruct (networkAvailable config w) as [available w1] eqn:E1. apply networkAvailable_same in E1.
  destruct available; cbn [negb] in E; [|injection E as <- <- _ <-; by apply Hnone].
  match type of E with (let '(_, _) := ?f in _) = _ => destruct f as [timely w2] eqn:E2 end.
  assert (same w w2) as S2.
  { eapply same_trans; [exact E1|]. destruct (_ && _); [|injection E2 as _ <-; apply same_refl].
    destruct (bw_bound b); [|injection E2 as _ <-; apply same_refl].
    destruct (time_now w1) as [now w3] eqn:E3. eapply same_of in E3; [|apply upload_time].
    by injection E2 as _ <-. }
  destruct timely; cbn [negb] in E; [|injection E as <- <- _ <-; by apply Hnone].
  match type of E with context [http_begin ?t ?n ?u w2] =>
    destruct (http_begin t n u w2) as [begun w3] eqn:E3 end.
  eapply same_of in E3; [|apply upload_begin]. pose proof (same_trans _ _ _ S2 E3) as S3.
  destruct begun; cbn [negb] in E; [|injection E as <- <- _ <-; by apply Hnone].
  destruct (S3 Hw) as [G3 Q3]. apply exchange_spec in E as (G4 & M4 & Ha); [|done].
  split_and!; [done|by eapply meanwhile_after|]. intros Hs. by eapply answered_after, Ha.
Qed.

(** A complete answer names every record of the batch. *)
Lemma complete_named (batch : list QueueRecord) results record :
  NoDup (br_index <$> results) ->
  Forall (fun r => 0 <= br_index r < Z.of_nat (length batch)) results ->
  backendBatchResponseComplete (length batch) results = true -> record ∈ batch ->
  qr_recordId record ∈
    (fun r => qr_recordId (default QueueRecord_init (batch !! Z.to_nat (br_index r)))) <$> results.
Proof.
  intros Hd Hr Hc [i Hi]%list_elem_of_lookup_1. apply list_elem_of_fmap.
  unfold backendBatchResponseComplete in Hc. apply andb_true_iff in Hc as [_ Hc%Nat.eqb_eq].
  pose proof (lookup_lt_Some _ _ _ Hi) as Hlt.
  pose proof (all_named (length batch) (br_index <$> results) i Hd) as Hin.
  rewrite Forall_fmap, length_fmap in Hin. specialize (Hin Hr Hc Hlt).
  apply list_elem_of_fmap in Hin as (r & Er & Hrin). exists r.
  split; [|done]. by rewrite <- Er, Nat2Z.id, Hi.
Qed.

(** Without actions the queue is not called. *)
Lemma finish_some actions w finished w1 :
  uw_ok w -> Forall (fun a => key_wf (qa_key a)) actions ->
  match actions with [] => (true, w) | _ => uq_finish actions w end = (finished, w1) ->
  uw_ok w1 /\ exists removed, removed `sublist_of` actions /\
    finishing removed w w1 /\ (finished = true -> removed = actions).
Proof.
  intros Hw Hkeys Efin. destruct actions as [|a actions]; [|by apply (upload_finish (a :: actions) w)].
  injection Efin as <- <-. split; [done|]. exists [].
  split_and!; [done|apply finishing_none, quiet_refl|done].
Qed.

(** What becomes of the queue when an answer with status 200 is taken: [removed]
    goes, every record of it named by the answer. *)
Lemma takeAnswer_spec status response batch b w completed success b' w' :
  uw_ok w -> Forall record_wf batch -> NoDup (qr_recordId <$> batch) -> batch <> [] ->
  (length batch <= Z.to_nat kBackendMaximumBatchSize)%nat ->
  takeAnswer status response batch b w = (completed, success, b', w') ->
  uw_ok w' /\ exists removed,
    finishing removed w w' /\
    (removed = [] \/ exists results,
       parseBackendBatchResponse (Some response) (length batch) = (true, results) /\
       Forall (terminal batch results) removed) /\
    (success = true -> completed = true /\
       forall record, record ∈ batch -> qr_recordId record ∈ qa_recordId <$> removed).
Proof.
  unfold takeAnswer. intros Hw Hwf Hnd Hne Hn E.
  assert (forall w1, same w w1 -> uw_ok w1 /\ exists removed,
    finishing removed w w1 /\
    (removed = [] \/ exists results,
       parseBackendBatchResponse (Some response) (length batch) = (true, results) /\
       Forall (terminal batch results) removed) /\
    (false = true -> completed = true /\
       forall record, record ∈ batch -> qr_recordId record ∈ qa_recordId <$> removed)) as Hnone.
  { intros w1 S. destruct (S Hw) as [G1 Q1]. split; [done|]. exists [].
    split_and!; [by apply finishing_none|by left|done]. }
  destruct (parseBackendBatchResponse _ _) as [parsed results] eqn:Ep.
  destruct parsed; cbn [negb] in E.
  2: { destruct (setFailure _ _ _ _ b w) as [b1 w1] eqn:Ef. apply setFailure_same in Ef.
       injection E as <- <- _ <-. apply Hnone. eapply same_trans; [exact Ef|apply upload_retry]. }
  destruct (parse_spec _ _ _ Hn Ep) as (document & items & _ & _ & _ & Hd & Hr & _).
  destruct (terminalActions results batch) as [actions|] eqn:Et.
  2: { destruct (setFailure _ _ _ _ b w) as [b1 w1] eqn:Ef. apply setFailure_same in Ef.
       injection E as <- <- _ <-. by apply Hnone. }
  destruct (terminalActions_spec _ _ _ Hwf Hr Et) as (Hterm & Hkeys & Hids).
  destruct (match actions with [] => (true, w) | _ => uq_finish actions w end)
    as [finished w1] eqn:Efin.
  destruct (finish_some _ _ _ _ Hw Hkeys Efin) as (G1 & removed & Hsub & F1 & Hall).
  assert (Forall (terminal batch results) removed) as Hrem.
  { rewrite Forall_forall in Hterm |- *. intros a Ha. apply Hterm.
    by eapply elem_of_sublist. }
  assert (forall w2 completed', same w1 w2 -> uw_ok w2 /\ exists removed,
    finishing removed w w2 /\
    (removed = [] \/ exists results0, (true, results) = (true, results0) /\
       Forall (terminal batch results0) removed) /\
    (false = true -> completed' = true /\
       forall record, record ∈ batch -> qr_recordId record ∈ qa_recordId <$> removed)) as Hpart.
  { intros w2 completed' S. destruct (S G1) as [G2 Q2]. split; [done|]. exists removed.
    split_and!; [by eapply finishing_before|right; by exists results|done]. }
  destruct finished; cbn [negb] in E.
  2: { destruct (setFailure _ _ _ _ b w1) as [b1 w2] eqn:Ef. apply setFailure_same in Ef.
       injection E as <- <- _ <-. by apply Hpart. }
  destruct (backendBatchResponseComplete _ _) eqn:Ec; cbn [negb] in E.
  - destruct (setSuccess status b w1) as [b1 w2] eqn:Ef. apply setSuccess_same in Ef.
    injection E as <- <- _ <-. destruct (Ef G1) as [G2 Q2]. split; [done|].
    exists removed. split_and!; [by eapply finishing_before|right; by exists results|].
    intros _. split; [done|]. intros record Hin. rewrite (Hall eq_refl), Hids.
    by apply complete_named.
  - destruct (setFailure _ _ _ _ b w1) as [b1 w2] eqn:Ef. apply setFailure_same in Ef.
    injection E as <- <- _ <-. apply Hpart. eapply same_trans; [exact Ef|apply upload_retry].
Qed.

Lemma serialized_size identity records payload :
  serializeBackendBatch identity records = (true, payload) ->
  (length records <= Z.to_nat kBackendMaximumBatchSize)%nat.
Proof.
  unfold serializeBackendBatch, batchDocument. destruct (_ || _) eqn:G; [done|]. intros _.
  apply orb_false_iff in G as [_ G%Z.ltb_ge]. lia.
Qed.

Lemma left_over_gone removed l id :
  id ∈ qa_recordId <$> removed -> id ∉ qr_recordId <$> left_over removed l.
Proof.
  intros Hin (r & -> & Hr)%list_elem_of_fmap. unfold left_over in Hr.
  by apply list_elem_of_filter in Hr as [Hn _].
Qed.

(** Why records may leave the queue: the POST of the batch, serialized, in the world
    [w], was answered with status 200 and names each of them with a terminal status. *)
Definition answer_for (identity : GatewayIdentity) (batch : list QueueRecord) (w : W)
    (removed : list QueueTerminalAction) : Prop :=
  exists payload response results,
    serializeBackendBatch identity batch = (true, payload) /\ answered w payload 200 response /\
    parseBackendBatchResponse (Some response) (length batch) = (true, results) /\
    Forall (terminal batch results) removed.

Lemma uploadOnce_spec b w completed success b' w' :
  uw_ok w -> uploadOnce b w = (completed, success, b', w') ->
  let batch := take (Z.to_nat (rt_batchSize (configSnapshot b))) (uploads w) in
  uw_ok w' /\ exists w1 removed,
    uw_ok w1 /\ meanwhile w w1 /\ finishing removed w1 w' /\
    (removed = [] \/ answer_for (rt_identity (configSnapshot b)) batch w removed) /\
    (success = true -> completed = true /\ batch <> [] /\
       forall record, record ∈ batch -> qr_recordId record ∈ qa_recordId <$> removed).
Proof.
  intros Hw E batch. unfold uploadOnce in E.
  destruct (uploads_wf w Hw) as [Hwf Hnd].
  assert (forall w1 w2 completed', meanwhile w w1 -> uw_ok w1 -> same w1 w2 -> uw_ok w2 /\
    exists w1 removed, uw_ok w1 /\ meanwhile w w1 /\ finishing removed w1 w2 /\
    (removed = [] \/ answer_for (rt_identity (configSnapshot b)) batch w removed) /\
    (false = true -> completed' = true /\ batch <> [] /\
       forall record, record ∈ batch -> qr_recordId record ∈ qa_recordId <$> removed)) as Hnone.
  { intros w1 w2 completed' M G S. destruct (S G) as [G2 Q2]. split; [done|]. exists w1, [].
    split_and!; [done|done|by apply finishing_none|by left|done]. }
  pose proof (fun w2 c S => Hnone w w2 c (quiet_meanwhile _ _ (quiet_refl w)) Hw S) as Hsame.
  destruct (uq_peek _ w) as [[peeked records] w1] eqn:Ep.
  apply upload_peek in Ep as (G1 & Q1 & Er); [|done]. assert (same w w1) as S1 by (by intros _).
  destruct (negb peeked || _) eqn:Gp.
  { destruct (setFailure _ _ _ _ b w1) as [b1 w2] eqn:Ef. apply setFailure_same in Ef.
    injection E as <- <- _ <-. apply Hsame. eapply same_trans; [exact S1|].
    eapply same_trans; [exact Ef|apply upload_error]. }
  apply orb_false_iff in Gp as [Gp%negb_false_iff Gl%Nat.eqb_neq]. subst peeked. cbn in Er.
  fold batch in Er. subst records.
  destruct (serializeBackendBatch _ batch) as [serialized payload] eqn:Es.
  destruct serialized; cbn [negb] in E.
  2: { destruct (setFailure _ _ _ _ b w1) as [b1 w2] eqn:Ef. apply setFailure_same in Ef.
       injection E as <- <- _ <-. apply Hsame. by eapply same_trans. }
  pose proof (serialized_size _ _ _ Es) as Hn.
  match type of E with (let '(_, _) := ?f in _) = _ => destruct f as [b2 w2] eqn:E2 end.
  assert (same w w2) as S2.
  { eapply same_trans; [exact S1|]. destruct (bw_mutex b); [|injection E2 as _ <-; apply same_refl].
    destruct (uptimeMs w1) as [u w3] eqn:Eu. apply uptimeMs_same in Eu. by injection E2 as _ <-. }
  destruct (S2 Hw) as [G2 Q2].
  destruct (performRequest _ _ _ _ _ b2 w2) as [[[status response] error] w3] eqn:Ereq.
  apply performRequest_spec in Ereq as (G3 & M3 & Hans); [|done].
  assert (meanwhile w w3) as M by (by eapply meanwhile_after).
  destruct (backendHttpResponseMayDequeue status) eqn:Est; cbn [negb] in E.
  2: { destruct (setFailure _ _ _ _ b2 w3) as [b4 w4] eqn:Ef. apply setFailure_same in Ef.
       injection E as <- <- _ <-. apply (Hnone w3); [done|done|].
       eapply same_trans; [exact Ef|apply upload_retry]. }
  unfold backendHttpResponseMayDequeue in Est. apply Z.eqb_eq in Est. subst status.
  apply takeAnswer_spec in E as (G4 & removed & F4 & Hrem & Hok);
    [|done|by apply Forall_take| |by destruct batch|done].
  2: { unfold batch. rewrite fmap_take. by eapply sublist_NoDup, sublist_take. }
  split; [done|]. exists w3, removed. split_and!; [done|done|done| |].
  - destruct Hrem as [|(results & Hp & Ht)]; [by left|right].
    exists payload, response, results. split_and!; [done| |done|done].
    by eapply answered_after, Hans.
  - intros Hs. destruct (Hok Hs) as [-> Hall]. split_and!; [done|by destruct batch|done].
Qed.

(** C6: nothing is lost by uploading: whatever the network and the backend do and
    whatever the other tasks enqueue meanwhile, an upload takes records out of the
    queue only when the POST of its batch, made after the batch was read, is answered
    with status 200, and only records of the batch that this answer names with a
    terminal status; each is remembered under the key of its telemetry and counted as
    rejected exactly when the answer rejects it.  Every other record stays in its
    place.  Success is reported only when the whole batch has left the queue. *)
Theorem upload_removes_answered b w completed success b' w' :
  uw_ok w -> uploadOnce b w = (completed, success, b', w') ->
  let batch := take (Z.to_nat (rt_batchSize (configSnapshot b))) (uploads w) in
  uw_ok w' /\ exists queue removed,
    later (uploads w) queue /\ uploads w' = left_over removed queue /\
    (removed = [] \/ answer_for (rt_identity (configSnapshot b)) batch w removed) /\
    (success = true -> completed = true /\ batch <> [] /\
       forall record, record ∈ batch -> qr_recordId record ∉ qr_recordId <$> uploads w').
Proof.
  intros Hw E batch. apply uploadOnce_spec in E as (G & w1 & removed & G1 & M & Hf & Ha & Hs); [|done].
  apply finishing_uploads in Hf; [|done].
  split; [done|]. exists (uploads w1), removed.
  split_and!; [by apply meanwhile_later|done|done|].
  intros Ht. destruct (Hs Ht) as (? & ? & Hall). split_and!; [done|done|].
  intros record Hr. rewrite Hf. by apply left_over_gone, Hall.
Qed.
End Upload.

(** ** Backoff *)

(** What [validateConfig] demands of the retry policy. *)
Record policy_ok (config : RuntimeConfig) : Prop := {
  po_initial : 1000 <= rt_initialBackoffMs config <= 60000;
  po_maximum : rt_initialBackoffMs config <= rt_maximumBackoffMs config <= 300000;
}.

Abbreviation backoff b := (bs_currentBackoffMs (bw_status b)).

(** The delay after one more failure. *)
Definition nextBackoff (config : RuntimeConfig) (current : Z) : Z :=
  if current =? 0 then rt_initialBackoffMs config
  else Z.min (current * 2) (rt_maximumBackoffMs config).

Definition backoff_ok (config : RuntimeConfig) (current : Z) : Prop :=
  current = 0 \/ rt_initialBackoffMs config <= current <= rt_maximumBackoffMs config.

Lemma nextBackoff_ok config current :
  policy_ok config -> backoff_ok config current ->
  rt_initialBackoffMs config <= nextBackoff config current <= rt_maximumBackoffMs config.
Proof.
  intros [Hi Hm] Hc. unfold nextBackoff. destruct (Z.eqb_spec current 0); [lia|].
  destruct Hc as [|Hc]; [done|]. lia.
Qed.

Lemma advance_next config s :
  policy_ok config -> backoff_ok config (bs_currentBackoffMs s) ->
  bs_currentBackoffMs (advanceBackoffMs config s) = nextBackoff config (bs_currentBackoffMs s).
Proof.
  intros [Hi Hm] Hc. unfold advanceBackoffMs, nextBackoff.
  destruct s as [? ? ? ? ? ? ? ? ? ? ? ? ? current]. cbn in *.
  destruct (Z.eqb_spec current 0); [done|]. destruct Hc as [|Hc]; [done|]. cbn.
  rewrite (wrap_id 64) by (unfold is_u; change (2 ^ 64) with 18446744073709551616; lia).
  destruct (Z.ltb_spec (rt_maximumBackoffMs config) (current * 2));
    rewrite wrap_id by (unfold is_u; change (2 ^ 32) with 4294967296; lia); lia.
Qed.

Lemma failed_backoff status message telemetry uptime now config s :
  policy_ok config -> backoff_ok config (bs_currentBackoffMs s) ->
  bs_currentBackoffMs (failed status message true telemetry uptime now config s) =
    nextBackoff config (bs_currentBackoffMs s).
Proof.
  intros P O. unfold failed. cbv zeta iota beta.
  rewrite advance_next; [by destruct s, telemetry|done|by destruct s, telemetry].
Qed.

Section Backoff.
Context {W : Type}
  `{UploadQueue W, HttpClient W, WifiReadings W, TrustedTime W, MonotonicClock W, Tasks W}.
Context `{JsonText}.

(** Outcomes in the worker's own state: what a failure and a success leave. *)
Definition outcome (success : bool) (b b' : BackendWorker) : Prop :=
  bw_mutex b' = true /\ bw_config b' = bw_config b /\
  backoff b' = if success then 0 else nextBackoff (bw_config b) (backoff b).

Lemma setFailure_outcome status message telemetry b w b' w' :
  bw_mutex b = true -> policy_ok (bw_config b) -> backoff_ok (bw_config b) (backoff b) ->
  setFailure status message true telemetry b w = (b', w') -> outcome false b b'.
Proof.
  intros Hm P O E. unfold setFailure in E. rewrite Hm in E. cbn [negb] in E.
  match type of E with (let '(_, _) := ?f in _) = _ => destruct f as [[u now] w1] end.
  injection E as <- _. unfold onStatus. rewrite Hm. unfold outcome.
  rewrite <- (failed_backoff status message telemetry u now _ _ P O). by destruct b.
Qed.

Lemma setSuccess_outcome status b w b' w' :
  bw_mutex b = true -> setSuccess status b w = (b', w') -> outcome true b b'.
Proof.
  intros Hm E. unfold setSuccess in E. rewrite Hm in E. cbn [negb] in E.
  destruct (uptimeMs w) as [u w1]. destruct (time_now w1) as [now w2].
  injection E as <- _. unfold onStatus. rewrite Hm. by destruct b as [? ? ? ? [] ? ? ? ?].
Qed.

(** Every failing path of [takeAnswer] and of [uploadOnce] advances the backoff. *)
Ltac fails E :=
  match type of E with
  | context [setFailure ?s ?m true ?t ?b ?w] =>
      let Ef := fresh "Ef" in
      destruct (setFailure s m true t b w) as [? ?] eqn:Ef;
      apply setFailure_outcome in Ef; [|done..]; by injection E as <- <- <- _
  end.

Lemma takeAnswer_outcome status response records b w completed success b' w' :
  bw_mutex b = true -> policy_ok (bw_config b) -> backoff_ok (bw_config b) (backoff b) ->
  takeAnswer status response records b w = (completed, success, b', w') ->
  outcome success b b' /\ (success = true -> completed = true).
Proof.
  intros Hm P O E. unfold takeAnswer in E. destruct (parseBackendBatchResponse _ _) as [[] results];
    cbn [negb] in E; [|fails E].
  destruct (terminalActions _ _) as [actions|]; [|fails E].
  destruct (match actions with [] => _ | _ => _ end) as [[] w1]; cbn [negb] in E; [|fails E].
  destruct (backendBatchResponseComplete _ _); cbn [negb] in E; [|fails E].
  destruct (setSuccess _ _ _) as [b1 w2] eqn:Es. apply setSuccess_outcome in Es; [|done].
  by injection E as <- <- <- _.
Qed.

Lemma uploadOnce_outcome b w completed success b' w' :
  bw_mutex b = true -> policy_ok (bw_config b) -> backoff_ok (bw_config b) (backoff b) ->
  uploadOnce b w = (completed, success, b', w') ->
  outcome success b b' /\ (success = true -> completed = true).
Proof.
  intros Hm P O E. unfold uploadOnce in E. destruct (uq_peek _ w) as [[peeked records] w1].
  destruct (_ || _); [fails E|].
  destruct (serializeBackendBatch _ _) as [[] payload]; cbn [negb] in E; [|fails E].
  rewrite Hm in E. destruct (uptimeMs w1) as [u w2].
  match type of E with context [performRequest _ _ _ _ _ ?b1 w2] => set (b2 := b1) in E end.
  assert (bw_mutex b2 = true /\ bw_config b2 = bw_config b /\ backoff b2 = backoff b)
    as (Hm2 & Hc2 & Hb2)
    by (unfold b2, onStatus; rewrite Hm; by destruct b as [? ? ? ? [] ? ? ? ?]).
  clearbody b2. rewrite <- Hc2 in P. rewrite <- Hc2, <- Hb2 in O.
  assert (forall success, outcome success b2 b' -> outcome success b b') as Ho
    by (unfold outcome; rewrite Hc2, Hb2; done).
  destruct (performRequest _ _ _ _ _ b2 w2) as [[[status response] error] w3].
  destruct (backendHttpResponseMayDequeue status); cbn [negb] in E.
  - apply takeAnswer_outcome in E as [? ?]; [|done..]. auto.
  - destruct (setFailure _ _ _ _ b2 w3) as [b4 w4] eqn:Ef.
    apply setFailure_outcome in Ef; [|done..]. injection E as <- <- <- _. auto.
Qed.

(** [n] rounds of uploading in a row, with the pauses after them. *)
Fixpoint uploadRounds (n : nat) (b : BackendWorker) (w : W) : list Pause * BackendWorker * W :=
  match n with
  | O => ([], b, w)
  | S n =>
      let '(pause, b, w) := uploadRound b w in
      let '(pauses, b, w) := uploadRounds n b w in (pause :: pauses, b, w)
  end.

(** The pauses that follow the policy, from a current backoff on. *)
Fixpoint follows (config : RuntimeConfig) (current : Z) (pauses : list Pause) : Prop :=
  match pauses with
  | [] => True
  | PauseDelay ms :: pauses => ms = 50 /\ follows config 0 pauses
  | PauseNotify ms :: pauses =>
      let next := nextBackoff config current in
      next <= ms <= next + next / 5 /\ follows config next pauses
  | PauseNone :: _ => False
  end.

Lemma uploadRound_follows b w pause b' w' :
  (forall w, is_u 32 (esp_random w).1) ->
  bw_mutex b = true -> policy_ok (bw_config b) -> backoff_ok (bw_config b) (backoff b) ->
  uploadRound b w = (pause, b', w') ->
  bw_mutex b' = true /\ bw_config b' = bw_config b /\
  (pause = PauseDelay 50 /\ backoff b' = 0 \/
   exists ms, pause = PauseNotify ms /\ backoff b' = nextBackoff (bw_config b) (backoff b) /\
     backoff b' <= ms <= backoff b' + backoff b' / 5).
Proof.
  intros Hrandom Hm P O E. unfold uploadRound in E.
  destruct (uploadOnce b w) as [[[completed success] b1] w1] eqn:Eu.
  apply uploadOnce_outcome in Eu as [(Hm1 & Hc1 & Hb1) Hs]; [|done..].
  destruct success.
  - rewrite (Hs eq_refl) in E. cbn [andb] in E. injection E as <- <- <-. auto.
  - rewrite andb_false_r in E. pose proof (nextBackoff_ok _ _ P O) as Hn.
    destruct P as [Hi Hmax]. unfold backendStatus in E. rewrite Hm1, Hb1 in E.
    set (next := nextBackoff _ _) in *. destruct (Z.eqb_spec next 0); [lia|].
    destruct (esp_random w1) as [r w2] eqn:Er. injection E as <- <- _.
    split_and!; [done|done|]. right. eexists. split; [reflexivity|]. split; [done|].
    rewrite Hb1. assert (0 <= next / 5 <= 60000) by (Z.div_mod_to_equations; lia).
    rewrite (wrap_id 32 (next / 5 + 1))
      by (unfold is_u; change (2 ^ 32) with 4294967296; lia).
    pose proof (Z.mod_pos_bound r (next / 5 + 1) ltac:(lia)).
    rewrite wrap_id by (unfold is_u; change (2 ^ 32) with 4294967296; lia). lia.
Qed.

Lemma uploadRounds_follows n b w pauses b' w' :
  (forall w, is_u 32 (esp_random w).1) ->
  bw_mutex b = true -> policy_ok (bw_config b) -> backoff_ok (bw_config b) (backoff b) ->
  uploadRounds n b w = (pauses, b', w') ->
  follows (bw_config b) (backoff b) pauses /\ backoff_ok (bw_config b) (backoff b').
Proof.
  intros Hrandom. revert b w pauses. induction n as [|n IH]; intros b w pauses Hm P O E;
    cbn [uploadRounds] in E; [by injection E as <- <- _|].
  destruct (uploadRound b w) as [[pause b1] w1] eqn:Er.
  apply uploadRound_follows in Er as (Hm1 & Hc1 & Hp); [|done..].
  destruct (uploadRounds n b1 w1) as [[rest b2] w2] eqn:Es. injection E as <- <- <-.
  rewrite <- Hc1 in P. pose proof (nextBackoff_ok (bw_config b) (backoff b)) as Hn.
  rewrite <- Hc1 in Hn.
  apply IH in Es as [Hf Hb]; [|done|done|].
  - rewrite Hc1 in Hf, Hb. split; [|done].
    destruct Hp as [[-> Hz]|(ms & -> & Hz & Hms)]; cbn [follows].
    + by rewrite Hz in Hf.
    + rewrite Hz in Hf, Hms. done.
  - rewrite Hc1. destruct Hp as [[-> ->]|(ms & -> & -> & _)]; [by left|right].
    rewrite Hc1 in *. by apply Hn.
Qed.

(** Pauses that are all retries, from no backoff on. *)
Lemma follows_exact config pauses (k : nat) current :
  policy_ok config -> follows config current pauses ->
  (k = 0%nat /\ current = 0 \/
   (0 < k)%nat /\ current = Z.min (rt_initialBackoffMs config * 2 ^ Z.of_nat (k - 1))
                              (rt_maximumBackoffMs config)) ->
  Forall (fun p => exists ms, p = PauseNotify ms) pauses ->
  forall i ms, pauses !! i = Some (PauseNotify ms) ->
    let delay := Z.min (rt_initialBackoffMs config * 2 ^ Z.of_nat (k + i))
                   (rt_maximumBackoffMs config) in
    delay <= ms <= delay + delay / 5.
Proof.
  intros [Hi Hm]. revert k current. induction pauses as [|p pauses IH]; intros k current Hf Hk Ha;
    [done|].
  apply Forall_cons in Ha as [[ms0 ->] Ha]. cbn [follows] in Hf. destruct Hf as [Hms Hf].
  assert (nextBackoff config current =
    Z.min (rt_initialBackoffMs config * 2 ^ Z.of_nat k) (rt_maximumBackoffMs config)) as En.
  { unfold nextBackoff. destruct Hk as [[-> ->]|[Hk ->]].
    - change (0 =? 0) with true. cbv iota. change (2 ^ Z.of_nat 0) with 1. lia.
    - replace (Z.of_nat k) with (Z.succ (Z.of_nat (k - 1))) by lia.
      rewrite Z.pow_succ_r by lia. pose proof (Z.pow_pos_nonneg 2 (Z.of_nat (k - 1))).
      destruct (Z.eqb_spec (Z.min (rt_initialBackoffMs config * 2 ^ Z.of_nat (k - 1))
        (rt_maximumBackoffMs config)) 0); nia. }
  intros [|i] ms E.
  - injection E as <-. rewrite Nat.add_0_r. rewrite <- En. exact Hms.
  - cbn in E. replace (k + S i)%nat with (S k + i)%nat by lia.
    apply (IH (S k) (nextBackoff config current)); try done.
    right. split; [lia|]. rewrite En. do 3 f_equal. lia.
Qed.

(** C31: retries back off: from a state without backoff, in any row of upload
    rounds, the i-th consecutive failure is followed by a wait of at least
    min(initial * 2^i, maximum) milliseconds and at most a fifth more; a success
    is followed by 50 ms and resets the schedule, and the backoff never leaves
    the range of the policy. *)
Theorem backoff_schedule n b w pauses b' w' :
  (forall w, is_u 32 (esp_random w).1) -> bw_mutex b = true -> policy_ok (bw_config b) ->
  backoff b = 0 -> uploadRounds n b w = (pauses, b', w') ->
  follows (bw_config b) 0 pauses /\ backoff_ok (bw_config b) (backoff b') /\
  (Forall (fun p => exists ms, p = PauseNotify ms) pauses ->
   forall i ms, pauses !! i = Some (PauseNotify ms) ->
     let delay := Z.min (rt_initialBackoffMs (bw_config b) * 2 ^ Z.of_nat i)
                    (rt_maximumBackoffMs (bw_config b)) in
     delay <= ms <= delay + delay / 5).
Proof.
  intros Hrandom Hm P Hz E. apply uploadRounds_follows in E as [Hf Hb];
    [|done|done|done|by left]. rewrite Hz in Hf.
  split_and!; [done|done|]. intros Ha i ms Hi.
  apply (follows_exact (bw_config b) pauses 0 0 P Hf); [by left|done|done].
Qed.
End Backoff.
