(* ===== verification/UploadGateway.v ===== *)
(** * The backend worker on the durable queue

    [DurableQueue] is the queue the worker uploads from; with a network that acts
    on its own state and no other task, the gateway is an [UploadWorld].  The sample gateway then
    uploads the record it has received. *)

From Stdlib Require Import ZArith Lia String.
From stdpp Require Import gmap list sorting.
From S2P Require Import Prelude BuildConfig CString Platform Protocol ProtocolSpec.
From S2P Require Import ProtocolTheorems QueueRecord QueueRecordSpec QueueRecordCodec Dedup.
From S2P Require Import QueueStorage DurableQueueCore DurableQueueSpec DurableQueueTheorems.
From S2P Require Import FlashStorage FlashStorageLaws MemoryFlash CommandStore Metrics.
From S2P Require Import PacketProcessor PacketProcessorTheorems DurableQueue DurableQueueWorld.
From S2P Require Import QueueAccount.
From S2P Require Import GatewayConfig UtcTime.
From S2P Require Import Json BackendContract TimeManager Heartbeat WifiManager RadioService.
From S2P Require Import GatewayWorld BackendWorker BackendWorkerTheorems.
Open Scope Z_scope.

#[export] Instance gateway_uploads {F N} `{FileSystem F, Preferences F, Millis F}
  : UploadQueue (Gateway F N) := {
  uq_size g := (durableSize (gw_queue g), g);
  uq_capacity g := (durableCapacity (gw_queue g), g);
  uq_peek n g :=
    let '(ok, records, q, f) := queuePeek n (gw_queue g) (gw_flash g) in
    (ok, records, mkGateway q f (gw_device g));
  uq_finish actions g :=
    let '(ok, q, f) := finish actions (gw_queue g) (gw_flash g) in
    (ok, mkGateway q f (gw_device g));
  uq_recordUploadRetry g :=
    let '(q, f) := recordUploadRetry (gw_queue g) (gw_flash g) in
    mkGateway q f (gw_device g);
  uq_recordFilesystemError g :=
    mkGateway (recordFilesystemError (gw_queue g)) (gw_flash g) (gw_device g);
}.

#[export] Instance gateway_http {F N} `{HttpClient N} : HttpClient (Gateway F N) := {
  http_begin tls timeout url := on_device (http_begin tls timeout url);
  http_POST headers body := on_device (http_POST headers body);
  http_GET headers := on_device (http_GET headers);
  http_getString := on_device http_getString;
  http_end := device_step http_end;
  http_errorToString := http_errorToString;
}.

#[export] Instance gateway_wifi {F N} `{WifiReadings N} : WifiReadings (Gateway F N) := {
  wifi_connected := on_device wifi_connected;
  wifi_getMode := on_device wifi_getMode;
  wifi_stationNum := on_device wifi_stationNum;
  wifi_localIP := on_device wifi_localIP;
  wifi_RSSI := on_device wifi_RSSI;
}.

Section World.
Context {F N : Type} `{EnvironmentLaws F}.
Context `{HttpClient N, WifiReadings N, TrustedTime N, MonotonicClock N}.

Definition upload_ok (g : Gateway F N) : Prop :=
  exists rs, queue_ok (gw_queue g) (gw_flash g) rs.

Definition held (g : Gateway F N) : list QueueRecord := contentsOf (gw_queue g) (gw_flash g).

(** What a step that ends in a good queue with contents [rs] has done. *)
Lemma held_ok (g : Gateway F N) rs :
  queue_ok (gw_queue g) (gw_flash g) rs -> upload_ok g /\ held g = rs.
Proof. intros K. split; [by exists rs|by apply contentsOf_ok]. Qed.

#[export] Instance upload_observations : UploadObservations (Gateway F N) := {
  uw_ok := upload_ok;
  uploads := held;
  quiet g g' := held g' = held g;
  meanwhile g g' := held g' = held g;
  finishing removed g g' := held g' = left_over removed (held g);
}.

Lemma device_same {A} (f : N -> A * N) (g : Gateway F N) : same g (on_device f g).2.
Proof. intros G. unfold on_device. by destruct (f (gw_device g)). Qed.

Lemma step_same (f : N -> N) (g : Gateway F N) : same g (device_step f g).
Proof. by intros G. Qed.

(** A step that keeps the queue's contents, as the queue sees it. *)
Lemma kept_same (g g' : Gateway F N) :
  (forall rs, queue_ok (gw_queue g) (gw_flash g) rs -> queue_ok (gw_queue g') (gw_flash g') rs) ->
  same g g'.
Proof.
  intros Hk [rs K]. destruct (held_ok g' rs (Hk rs K)) as [G E]. split; [exact G|].
  change (held g' = held g). rewrite E. symmetry. by apply (held_ok g rs).
Qed.

#[export] Instance upload_world : UploadWorld (Gateway F N).
Proof.
  constructor; try (intros; first [apply device_same|apply step_same]; fail).
  - done.
  - intros g1 g2 g3 E1 E2. by transitivity (held g2).
  - done.
  - done.
  - intros g1 g2 g3 E1 E2. by transitivity (held g2).
  - intros g1 g2 g3 E1 E2. by transitivity (held g2).
  - cbn. intros g g' _ ->. apply later_refl.
  - cbn. intros g g' ->. by rewrite left_over_nil.
  - cbn. intros removed g1 g2 g3 E ->. exact E.
  - done.
  - intros g [rs K]. cbn. destruct (held_ok g rs K) as [_ ->]. by apply (queue_ok_wf _ _ _ K).
  - intros n g ok out g' G E. cbn in E.
    destruct (queuePeek n (gw_queue g) (gw_flash g)) as [[[ok1 out1] q1] f1] eqn:Ep.
    injection E as <- <- <-. destruct G as [rs K].
    apply (queuePeek_spec _ _ _ rs) in Ep as (K1 & Eo & _); [|done].
    destruct (held_ok g rs K) as [_ Eh].
    destruct (held_ok (mkGateway q1 f1 (gw_device g)) rs K1) as [G1 Eh1].
    cbn. rewrite Eh, Eh1. split_and!; [exact G1|done|exact Eo].
  - intros actions g ok g' [rs K] Hk E. cbn in E. destruct (held_ok g rs K) as [_ Eh].
    destruct (finish actions (gw_queue g) (gw_flash g)) as [[ok1 q1] f1] eqn:Ef.
    injection E as <- <-.
    apply (finish_spec _ _ _ rs) in Ef as (removed & Hsub & K1 & _ & Hall); [|done..].
    destruct (held_ok (mkGateway q1 f1 (gw_device g)) _ K1) as [K1' Eh1].
    split; [done|]. exists removed. cbn. rewrite Eh1, Eh. done.
  - intros g. apply kept_same. intros rs K. cbn.
    destruct (recordUploadRetry (gw_queue g) (gw_flash g)) as [q1 f1] eqn:Er.
    by apply (recordUploadRetry_ok _ _ rs) in Er as [K1 _].
  - intros g. apply kept_same. intros rs K. by apply recordFilesystemError_ok.
  - intros headers body g G. destruct (device_same (http_POST headers body) g G) as [G1 E].
    by split.
Qed.
End World.

#[export] Instance gateway_tasks {F N} `{Tasks N} : Tasks (Gateway F N) :=
  { esp_random := on_device esp_random; taskNotify := device_step taskNotify }.

(** ** A network to compute with

    It answers the coming requests with the given statuses and texts; the clocks
    stand still. *)

Record SimulatedNetwork := mkSimulatedNetwork { sn_answers : list (Z * list Z) }.

#[export] Instance SimulatedNetwork_http : HttpClient SimulatedNetwork := {
  http_begin _ _ _ n := (true, n);
  http_POST _ _ n := (fst (default (-1, []) (head (sn_answers n))), n);
  http_GET _ n := (fst (default (-1, []) (head (sn_answers n))), n);
  http_getString n := (snd (default (-1, []) (head (sn_answers n))), n);
  http_end n := mkSimulatedNetwork (tail (sn_answers n));
  http_errorToString _ := chars "connection refused";
}.

#[export] Instance SimulatedNetwork_wifi : WifiReadings SimulatedNetwork := {
  wifi_connected n := (true, n);
  wifi_getMode n := (WIFI_STA, n);
  wifi_stationNum n := (0, n);
  wifi_localIP n := (chars "192.168.1.7", n);
  wifi_RSSI n := (-60, n);
}.

#[export] Instance SimulatedNetwork_time : TrustedTime SimulatedNetwork :=
  { time_now n := (mkTrustedTimeSnapshot true 1700000000123, n) }.

#[export] Instance SimulatedNetwork_clock : MonotonicClock SimulatedNetwork :=
  { nowUs n := (5000000, n) }.

#[export] Instance SimulatedNetwork_tasks : Tasks SimulatedNetwork :=
  { esp_random n := (1001, n); taskNotify n := n }.

(** The answer to a batch of one. *)
Definition insertedAnswer : json :=
  JObject [("results", JArray
    [JObject [("index", JInt 0); ("status", JString (chars "INSERTED"))]])]%string.

Definition uploadJson : JsonText :=
  tree_json (fun _ => chars "{}")
    (fun text => if decide (text = chars "answer") then Some insertedAnswer else None).

Definition sampleWorker : BackendWorker :=
  BackendWorker_init <| bw_bound := true |> <| bw_mutex := true |>
    <| bw_config->rt_baseUrl :=
         strncpyz (zeros kBackendUrlCapacity) (chars "https://api.gathra.my.id") |>
    <| bw_config->rt_token := strncpyz (zeros kBearerTokenCapacity) (chars "token") |>.

(** A queue that holds one record, with these answers to come. *)
Definition sampleQueued : QueueRecord :=
  recordOfFrame (frameOf (telemetryWire sampleTelemetry)).

Definition queuedOne : EnqueueOutcome * QueueRecord * DurableQueue * MemoryFlash :=
  queueEnqueue sampleQueued sampleQueue emptyFlash.

Definition uploadGateway (answers : list (Z * list Z)) : Gateway MemoryFlash SimulatedNetwork :=
  mkGateway queuedOne.1.2 queuedOne.2 (mkSimulatedNetwork answers).

Lemma sampleQueued_ok answers : upload_ok (uploadGateway answers).
Proof.
  unfold upload_ok, uploadGateway. cbn [gw_queue gw_flash].
  assert (eo_persisted queuedOne.1.1.1 = true) as Ho by (vm_compute; reflexivity).
  destruct queuedOne as [[[o r] q] f] eqn:Eq. unfold queuedOne in Eq. cbn [fst snd] in *.
  assert (record_typed sampleQueued /\ record_padded sampleQueued) as [T P].
  { apply recordOfFrame_typed. split; try (vm_compute; split; congruence).
    - apply (bool_decide_unpack _). vm_compute. reflexivity.
    - vm_compute. lia. }
  apply (queueEnqueue_spec _ _ []) in Eq as (_ & kept & _ & Hk);
    [|exact sampleQueue_ok|exact T|exact P].
  rewrite Ho in Hk. destruct Hk as [K _]. by eexists.
Qed.

Definition sampleUpload :=
  @uploadOnce (Gateway MemoryFlash SimulatedNetwork) gateway_uploads gateway_http gateway_wifi
    gateway_time gateway_clock uploadJson sampleWorker (uploadGateway [(200, chars "answer")]).

Lemma upload_removes_answered_witness :
  sampleUpload.1.1.2 = true /\ length (held (uploadGateway [(200, chars "answer")])) = 1%nat /\
  held sampleUpload.2 = [] /\ sampleUpload.1.1.1 = true.
Proof.
  assert (sampleUpload.1.1.2 = true) as Hs by (vm_compute; reflexivity).
  split; [exact Hs|]. split; [vm_compute; reflexivity|]. split; [vm_compute; reflexivity|].
  destruct (@upload_removes_answered (Gateway MemoryFlash SimulatedNetwork) gateway_uploads
    gateway_http gateway_wifi gateway_time gateway_clock upload_observations upload_world uploadJson
    (tree_json_laws _ _) sampleWorker (uploadGateway [(200, chars "answer")])
    sampleUpload.1.1.1 sampleUpload.1.1.2 sampleUpload.1.2 sampleUpload.2)
    as (_ & queue & removed & _ & _ & _ & Hall).
  - apply sampleQueued_ok.
  - unfold sampleUpload. destruct (uploadOnce _ _) as [[[completed success] b] w]. reflexivity.
  - exact (proj1 (Hall Hs)).
Defined.

(** Three failures in a row. *)
Definition sampleRetries :=
  @uploadRounds (Gateway MemoryFlash SimulatedNetwork) gateway_uploads gateway_http gateway_wifi
    gateway_time gateway_clock gateway_tasks uploadJson 3 sampleWorker
    (uploadGateway [(500, []); (-1, []); (401, [])]).

Lemma backoff_schedule_witness :
  sampleRetries.1.1 = [PauseNotify 2199; PauseNotify 4200; PauseNotify 9001] /\
  follows (bw_config sampleWorker) 0 sampleRetries.1.1.
Proof.
  split; [vm_compute; reflexivity|].
  refine (proj1 (@backoff_schedule (Gateway MemoryFlash SimulatedNetwork) gateway_uploads
    gateway_http gateway_wifi gateway_time gateway_clock gateway_tasks uploadJson 3 sampleWorker
    (uploadGateway [(500, []); (-1, []); (401, [])]) sampleRetries.1.1 sampleRetries.1.2
    sampleRetries.2 _ _ _ _ _)).
  - intros g. vm_compute. split; congruence.
  - reflexivity.
  - split; vm_compute; split; congruence.
  - reflexivity.
  - unfold sampleRetries. destruct (uploadRounds _ _ _) as [[pauses b] w]. reflexivity.
Defined.
