(* ===== verification/WorkerRounds.v ===== *)
(** * Rounds of the backend worker

    A whole round of the worker's task, heartbeats included, on the queue: what
    [uploadOnce] does, or nothing but what the other tasks do meanwhile. *)

From Stdlib Require Import ZArith Lia String.
From stdpp Require Import list.
From S2P Require Import Prelude BuildConfig CString Platform Protocol QueueRecord CommandStore.
From S2P Require Import Metrics PacketProcessor DurableQueue DurableQueueWorld GatewayConfig.
From S2P Require Import Json BackendContract TimeManager Heartbeat WifiManager RadioService.
From S2P Require Import BackendWorker BackendWorkerTheorems.
Open Scope Z_scope.

(** Asking for sizes and figures leaves the queue alone. *)
Class WorkerWorld (W : Type)
    `{UploadWorld W, Tasks W, HeartbeatSources W, SystemFigures W} := {
  worker_size w : same w (uq_size w).2;
  worker_capacity w : same w (uq_capacity w).2;
  worker_random w : same w (esp_random w).2;
  worker_wifi w : same w (source_wifi w).2;
  worker_time w : same w (source_time w).2;
  worker_radio w : same w (source_radio w).2;
  worker_paired w : same w (source_paired w).2;
  worker_node s w : same w (source_pairedNodeId s w).2;
  worker_command w : same w (source_command w).2;
  worker_freeHeap w : same w (esp_freeHeap w).2;
  worker_minFreeHeap w : same w (esp_minFreeHeap w).2;
  worker_largest w : same w (esp_largestFreeBlock w).2;
  worker_sketch w : same w (esp_sketchSize w).2;
  worker_freeSketch w : same w (esp_freeSketchSpace w).2;
  worker_flash w : same w (esp_flashChipSize w).2;
}.

Create HintDb worker.
#[export] Hint Resolve worker_size worker_capacity worker_random worker_wifi worker_time
  worker_radio worker_paired worker_node worker_command worker_freeHeap worker_minFreeHeap
  worker_largest worker_sketch worker_freeSketch worker_flash upload_time upload_clock : worker.

(** The next call of [E], a step that leaves the queue alone, added to the step [S]. *)
Ltac call E S :=
  match type of E with
  | context [let '(_, _) := ?f in _] =>
      let a := fresh "a" in let w := fresh "w" in let T := fresh "T" in
      match type of S with
      | same ?w0 ?w1 => assert (same w1 f.2) as T by (solve [eauto with worker])
      end;
      destruct f as [a w]; cbn [snd] in T;
      pose proof (same_trans _ _ _ S T); clear S T; rename select (same _ w) into S
  end.

Section Rounds.
Context (kBuildFlavor : list Z).
Context {W : Type} `{WorkerWorld W, JsonText, !JsonLaws}.

Lemma networkAvailable_call config w : same w (networkAvailable config w).2.
Proof.
  destruct (networkAvailable config w) as [b w'] eqn:E. by apply networkAvailable_same in E.
Qed.

Lemma uptimeMs_call w : same w (uptimeMs w).2.
Proof. destruct (uptimeMs w) as [t w'] eqn:E. by apply uptimeMs_same in E. Qed.

Lemma peek_call n w : same w (uq_peek n w).2.
Proof.
  intros Hw. destruct (uq_peek n w) as [[ok out] w'] eqn:E.
  by apply upload_peek in E as (G & Q & _).
Qed.

#[local] Hint Resolve networkAvailable_call uptimeMs_call peek_call : worker.

Lemma setFailure_call status message advance telemetry b w :
  same w (setFailure status message advance telemetry b w).2.
Proof. destruct (setFailure _ _ _ _ b w) as [b' w'] eqn:E. by apply setFailure_same in E. Qed.

Lemma captureRuntime_call b w : same w (captureRuntime b w).2.
Proof.
  unfold captureRuntime. pose proof (same_refl w) as S.
  destruct (let '(_, _) := uptimeMs w in _) as [r w'] eqn:E.
  do 7 call E S. injection E as _ <-. exact S.
Qed.

Lemma oldestAgeMs_call config time oldest w : same w (oldestAgeMs config time oldest w).2.
Proof.
  unfold oldestAgeMs. destruct (_ && _); [apply same_refl|]. destruct (_ =? _); [|apply same_refl].
  destruct (uptimeMs w) as [t w'] eqn:E. by apply uptimeMs_same in E.
Qed.

#[local] Hint Resolve setFailure_call captureRuntime_call oldestAgeMs_call : worker.

Lemma captureQueue_call config time b w : same w (captureQueue config time b w).2.
Proof.
  unfold captureQueue. destruct (uq_size w) as [size w1] eqn:E1.
  eapply same_of in E1; [|apply worker_size].
  destruct (uq_capacity w1) as [capacity w2] eqn:E2. eapply same_of in E2; [|apply worker_capacity].
  destruct (if 0 <? wrap 32 (Z.of_nat size) then _ else _) as [age w3] eqn:E3. cbn.
  eapply same_trans; [exact E1|]. eapply same_trans; [exact E2|].
  destruct (0 <? _); [|injection E3 as _ <-; apply same_refl].
  pose proof (peek_call 1 w2) as S. destruct (uq_peek 1 w2) as [[peeked oldest] w4]. cbn in S.
  destruct oldest as [|record oldest]; [by injection E3 as _ <-|].
  destruct peeked; [|by injection E3 as _ <-].
  eapply same_trans; [exact S|]. eapply same_of; [|exact E3]. apply oldestAgeMs_call.
Qed.

#[local] Hint Resolve captureQueue_call : worker.

Lemma capture_call config b w : same w (captureHeartbeatSnapshot kBuildFlavor config b w).2.
Proof.
  unfold captureHeartbeatSnapshot. destruct (negb _); [apply same_refl|]. cbv zeta.
  pose proof (same_refl w) as S.
  destruct (let '(_, _) := captureRuntime b w in _) as [r w'] eqn:E.
  do 8 call E S. injection E as _ <-. exact S.
Qed.

#[local] Hint Resolve capture_call : worker.

Lemma same_meanwhile w w' : uw_ok w -> same w w' -> uw_ok w' /\ meanwhile w w'.
Proof. intros Hw S. destruct (S Hw). split; [done|by apply quiet_meanwhile]. Qed.

Lemma size_if_call (bound : bool) w : same w (if bound then uq_size w else (0%nat, w)).2.
Proof. destruct bound; [apply worker_size|apply same_refl]. Qed.

#[local] Hint Resolve size_if_call : worker.

(** The request of a heartbeat: at most one exchange. *)
Lemma heartbeatRequest_meanwhile b w status error deferred w' :
  uw_ok w -> heartbeatRequest kBuildFlavor b w = (status, error, deferred, w') ->
  uw_ok w' /\ meanwhile w w'.
Proof.
  intros Hw E. unfold heartbeatRequest in E. cbv zeta in E. pose proof (same_refl w) as S.
  call E S. destruct (negb _); [injection E as _ _ _ <-; by apply same_meanwhile|].
  call E S. destruct (negb _); [injection E as _ _ _ <-; by apply same_meanwhile|].
  destruct (_ =? 0); [injection E as _ _ _ <-; by apply same_meanwhile|].
  call E S.
  match type of E with (let '(_, _) := ?f in _) = _ => destruct f as [serialized payload] end.
  destruct serialized; cbn [negb] in E; [|injection E as _ _ _ <-; by apply same_meanwhile].
  call E S. destruct (negb _); [injection E as _ _ _ <-; by apply same_meanwhile|].
  destruct (S Hw) as [G Q].
  destruct (performRequest _ _ _ _ _ _ _) as [[[st response] er] w5] eqn:Er.
  apply performRequest_spec in Er as (G5 & M5 & _); [|done]. injection E as _ _ _ <-.
  split; [done|]. by eapply meanwhile_after.
Qed.

Lemma attemptHeartbeat_meanwhile b w b' w' :
  uw_ok w -> attemptHeartbeat kBuildFlavor b w = (b', w') -> uw_ok w' /\ meanwhile w w'.
Proof.
  intros Hw E. unfold attemptHeartbeat in E. cbv zeta in E. pose proof (same_refl w) as S.
  call E S. destruct (negb _); [injection E as _ <-; by apply same_meanwhile|].
  do 2 call E S. destruct (negb _); [injection E as _ <-; by apply same_meanwhile|].
  call E S. destruct (S Hw) as [G Q].
  destruct (heartbeatRequest _ _ _) as [[[st er] deferred] w5] eqn:Er.
  apply heartbeatRequest_meanwhile in Er as [G5 M5]; [|done].
  pose proof (same_refl w5) as S5. call E S5.
  match type of E with (let '(_, _) := ?f in _) = _ => destruct f as [u w7] eqn:E7 end.
  assert (same w5 w7) as S7.
  { destruct (_ && _); [|by injection E7 as _ <-]. eapply same_trans; [exact S5|].
    by eapply same_of; [apply uptimeMs_call|]. }
  injection E as _ <-. destruct (S7 G5) as [G7 Q7]. split; [done|].
  eapply meanwhile_after; [exact Q|]. by eapply meanwhile_before.
Qed.

(** A round of the worker, in one spec: the others' work, then what was answered. *)
Definition round_done (b : BackendWorker) (w w' : W) : Prop :=
  uw_ok w' /\ exists w1 removed, uw_ok w1 /\ meanwhile w w1 /\ finishing removed w1 w' /\
    (removed = [] \/
     answer_for (rt_identity (configSnapshot b))
       (take (Z.to_nat (rt_batchSize (configSnapshot b))) (uploads w)) w removed).

Lemma round_meanwhile b w w' : uw_ok w' -> meanwhile w w' -> round_done b w w'.
Proof.
  intros G M. split; [done|]. exists w', [].
  split_and!; [done|done|apply finishing_none, quiet_refl|by left].
Qed.

Lemma round_same b w w' : uw_ok w -> same w w' -> round_done b w w'.
Proof. intros Hw S. destruct (same_meanwhile _ _ Hw S). by apply round_meanwhile. Qed.

Lemma round_after b w w1 w' : uw_ok w -> same w w1 -> round_done b w1 w' -> round_done b w w'.
Proof.
  intros Hw S (G & w2 & removed & G2 & M & F & A). destruct (S Hw) as [G1 Q1].
  rewrite (quiet_uploads _ _ Q1) in A. split; [done|]. exists w2, removed.
  split_and!; [done|by eapply meanwhile_after|done|].
  destruct A as [|(payload & response & results & Hs & Ha & ?)]; [by left|right].
  exists payload, response, results. split_and!; [done|by eapply answered_after|tauto..].
Qed.

Lemma uploadRound_done b w pause b' w' :
  uw_ok w -> uploadRound b w = (pause, b', w') -> round_done b w w'.
Proof.
  intros Hw E. unfold uploadRound in E.
  destruct (uploadOnce b w) as [[[completed success] b1] w1] eqn:Eu.
  apply uploadOnce_spec in Eu as (G1 & w2 & removed & G2 & M & F & A & _); [|done].
  destruct (_ && _).
  - injection E as _ _ <-. split; [done|]. by exists w2, removed.
  - match type of E with context [let '(_, _) := ?f in _] => destruct f as [j w3] eqn:E3 end.
    assert (same w1 w3) as S3.
    { destruct (_ =? 0); [injection E3 as _ <-; apply same_refl|].
      destruct (esp_random w1) as [r w4] eqn:Er. injection E3 as _ <-.
      by eapply same_of; [apply worker_random|]. }
    injection E as _ _ <-. destruct (S3 G1) as [G3 Q3]. split; [done|].
    exists w2, removed. split_and!; [done|done|by eapply finishing_before|done].
Qed.

Lemma backendRound_done b w pause b' w' :
  uw_ok w -> backendRound kBuildFlavor b w = (pause, b', w') -> round_done b w w'.
Proof.
  intros Hw E. unfold backendRound in E. cbv zeta in E. pose proof (same_refl w) as S.
  call E S. destruct (_ =? 0)%nat.
  - match type of E with (let '(_, _) := ?f in _) = _ => destruct f as [due w1] eqn:E1 end.
    match type of E with (let '(_, _) := ?f in _) = _ => destruct f as [size w2] eqn:E2 end.
    assert (same w w2) as S2.
    { eapply same_trans; [exact S|]. eapply same_trans; [|eapply same_of; [|exact E2]].
      - destruct (bw_mutex _); [|injection E1 as _ <-; apply same_refl].
        destruct (nowUs _) as [now w3] eqn:En. injection E1 as _ <-.
        by eapply same_of; [apply upload_clock|].
      - destruct due; [apply worker_size|apply same_refl]. }
    destruct (_ && _); [|injection E as _ _ <-; by apply round_same].
    destruct (attemptHeartbeat _ _ w2) as [b3 w3] eqn:Ea. injection E as _ _ <-.
    eapply round_after; [done|exact S2|]. destruct (S2 Hw) as [G2 Q2].
    apply attemptHeartbeat_meanwhile in Ea as [G3 M3]; [|done]. by apply round_meanwhile.
  - assert (forall message b0 w1, same w w1 ->
      (let '(b1, w2) := setFailure 0 (chars message) false false b0 w1 in
       (PauseNotify 5000, b1, w2)) = (pause, b', w') -> round_done b w w') as Hretain.
    { intros message b0 w1 S1 Er. destruct (setFailure _ _ _ _ b0 w1) as [b1 w2] eqn:Ef.
      apply setFailure_same in Ef. injection Er as _ _ <-. apply round_same; [done|].
      by eapply same_trans. }
    call E S. destruct (negb _); [by eapply Hretain|].
    destruct (_ =? 0); [by eapply Hretain|].
    match type of E with (let '(_, _) := ?f in _) = _ => destruct f as [timely w2] eqn:E2 end.
    assert (same w w2) as S2.
    { eapply same_trans; [exact S|]. destruct (startsWith _ _); [|injection E2 as _ <-; apply same_refl].
      destruct (time_now _) as [now w3] eqn:En. injection E2 as _ <-.
      by eapply same_of; [apply upload_time|]. }
    destruct (negb timely); [by eapply Hretain|].
    eapply round_after; [done|exact S2|]. destruct (S2 Hw) as [G2 _].
    by eapply uploadRound_done.
Qed.
End Rounds.
