(* ===== verification/QueueLedger.v ===== *)
(** * The ledger of the queue

    [ledger q e tr q' e']: the changes [tr] account for everything between two
    states of the queue and its flash: what is in it, which identifiers have been
    given out, which keys it remembers, and, when the ring's file was in order, for
    every state the flash passes through.  Every operation of the queue keeps such a
    ledger, and ledgers compose. *)

From Stdlib Require Import ZArith Lia String.
From stdpp Require Import gmap list sorting.
From S2P Require Import Prelude BuildConfig CString Platform Protocol ProtocolSpec QueueRecord.
From S2P Require Import QueueRecordSpec QueueRecordCodec Dedup QueueStorage DurableQueueCore.
From S2P Require Import DurableQueueSpec DurableQueueTheorems FlashStorage FlashStorageLaws.
From S2P Require Import CommandStore Metrics PacketProcessor DurableQueue RecentCodec.
From S2P Require Import DurableQueueWorld.
From S2P Require Import QueueRestart QueuePower QueueAccount GatewayWorld BackendWorker.
From S2P Require Import BackendWorkerTheorems.
Open Scope Z_scope.

Definition no_answers (tr : list change) : Prop := Forall (fun c => ~ is_answered c) tr.

(** All identifiers given out so far are below; [nextRecordId] is 0 when they are
    used up. *)
Definition id_limit (q : DurableQueue) : Z := if queue_next q =? 0 then 2 ^ 64 else queue_next q.

(** [r] is stored on this flash, or [tr] says what has become of it. *)
Definition fated (d : Disk) (tr : list change) (r : QueueRecord) : Prop :=
  DurableQueueTheorems.stored (record_files d) r \/ DroppedOldest r ∈ tr \/ Answered r ∈ tr.

Lemma fated_app_l d tr tr' r : fated d tr r -> fated d (tr ++ tr') r.
Proof. unfold fated. rewrite !elem_of_app. tauto. Qed.

Lemma fated_app_r d tr tr' r : fated d tr' r -> fated d (tr ++ tr') r.
Proof. unfold fated. rewrite !elem_of_app. tauto. Qed.

(** [key] is among [keys]. *)
Definition listed (keys : list TelemetryKey) (key : TelemetryKey) : Prop :=
  existsb (fun x => telemetryKeyEqual x key) keys = true.

Section Ledger.
Context {E : Type} `{HistoryLaws E}.

(** The telemetry [key] was in the queue, has been stored, or was remembered. *)
Definition known (q : DurableQueue) (e : E) (tr : list change) (key : TelemetryKey) : Prop :=
  (exists r, r ∈ contentsOf q e ++ stored tr /\ carries r key) \/
  dedupContains (dq_recent q) key = true.

(** The ring's file holds [key]. *)
Definition filed (e : E) (key : TelemetryKey) : Prop :=
  exists keys, ring_file (disk e) keys /\ listed keys key.

(** What a loss of power may leave of the state [q], [e] after [tr]: its records and
    its keys. *)
Record guarded (q : DurableQueue) (e : E) (tr : list change) (d : Disk) : Prop := {
  gd_records r : r ∈ contentsOf q e -> fated d tr r;
  gd_ring : exists keys, ring_file d keys /\ forall key, listed keys key ->
    filed e key \/ dedupContains (dq_recent q) key = true \/ exists r, carries r key /\ fated d tr r;
}.

Definition ring_filed (e : E) : Prop := exists keys, ring_file (disk e) keys.

Record ledger (q : DurableQueue) (e : E) (tr : list change) (q' : DurableQueue) (e' : E)
    : Prop := {
  lg_changes : changes (durableCapacity q) (contentsOf q e) tr (contentsOf q' e');
  lg_capacity : durableCapacity q' = durableCapacity q;
  lg_limit : id_limit q <= id_limit q';
  lg_fresh : Forall (fun r => id_limit q <= qr_recordId r < id_limit q') (stored tr);
  lg_recent key : dedupContains (dq_recent q') key = true -> known q e tr key;
  lg_power : ring_filed e -> passes (guarded q e tr) e e';
  lg_filed : ring_filed e -> ring_filed e';
  lg_keys key : ring_filed e -> filed e' key -> filed e key \/ known q e tr key;
}.

Lemma passes_refl (P : Disk -> Prop) (e : E) : passes P e e.
Proof. exists []. by rewrite app_nil_r. Qed.

Lemma ledger_refl q e : ledger q e [] q e.
Proof.
  split; [constructor|done|done|constructor|by right|intros _; apply passes_refl|done|by left].
Qed.

Lemma known_app q e tr tr' key : known q e tr key -> known q e (tr ++ tr') key.
Proof.
  intros [(r & Hr & Hk)|]; [|by right]. left. exists r. split; [|done].
  rewrite stored_app, !elem_of_app in *. tauto.
Qed.

Lemma known_trans q1 e1 tr1 q2 e2 tr2 key :
  ledger q1 e1 tr1 q2 e2 -> known q2 e2 tr2 key -> known q1 e1 (tr1 ++ tr2) key.
Proof.
  intros L [(r & Hin & Hk)|Hd]; [|apply known_app; by eapply lg_recent].
  left. exists r. split; [|done]. rewrite stored_app, !elem_of_app.
  apply elem_of_app in Hin as [Hin|Hin]; [|tauto].
  eapply changes_origin in Hin; [|apply L]. apply elem_of_app in Hin. tauto.
Qed.

(** [d] accounts for what was there in [q], [e] or has been stored in [tr1]. *)
Definition fates (q : DurableQueue) (e : E) (tr1 tr : list change) (d : Disk) : Prop :=
  forall r, r ∈ contentsOf q e ++ stored tr1 -> fated d tr r.

(** So it does when it accounts for all that [tr1] has left. *)
Lemma ledger_fates q1 e1 tr1 q2 e2 tr2 d :
  ledger q1 e1 tr1 q2 e2 -> (forall r, r ∈ contentsOf q2 e2 -> fated d tr2 r) ->
  fates q1 e1 tr1 (tr1 ++ tr2) d.
Proof.
  intros L Hd r Hin. apply (changes_fate _ _ _ _ r (lg_changes _ _ _ _ _ L)) in Hin as [Hin|Hin].
  - by apply fated_app_r, Hd.
  - apply fated_app_l. by right.
Qed.

Lemma fates_first q e tr1 tr2 tr d : fates q e (tr1 ++ tr2) tr d -> fates q e tr1 tr d.
Proof.
  intros Hd r Hin. apply Hd. rewrite stored_app, !elem_of_app in *. tauto.
Qed.

Lemma fates_trans q1 e1 tr1 q2 e2 tr2 tr d :
  ledger q1 e1 tr1 q2 e2 -> fates q2 e2 tr2 tr d -> fates q1 e1 (tr1 ++ tr2) (tr1 ++ tr) d.
Proof.
  intros L Hd r Hin. rewrite stored_app, app_assoc in Hin. apply elem_of_app in Hin as [Hin|Hin].
  - revert r Hin. apply (ledger_fates _ _ _ q2 e2); [done|]. intros r Hin. apply Hd, elem_of_app. by left.
  - apply fated_app_r, Hd, elem_of_app. by right.
Qed.

(** What was known before [tr], seen from a flash that guards what [tr] has left. *)
Lemma known_fated q1 e1 tr1 q2 e2 tr2 d key :
  ledger q1 e1 tr1 q2 e2 -> (forall r, r ∈ contentsOf q2 e2 -> fated d tr2 r) ->
  known q1 e1 tr1 key ->
  dedupContains (dq_recent q1) key = true \/ exists r, carries r key /\ fated d (tr1 ++ tr2) r.
Proof.
  intros L Hd [(r & Hin & Hk)|]; [right|by left]. exists r. split; [done|].
  by apply (ledger_fates _ _ _ _ _ _ _ L Hd).
Qed.

Lemma guarded_trans q1 e1 tr1 q2 e2 tr2 d :
  ring_filed e1 -> ledger q1 e1 tr1 q2 e2 -> guarded q2 e2 tr2 d -> guarded q1 e1 (tr1 ++ tr2) d.
Proof.
  intros F1 L [Hr (keys & Hk & Hkeys)].
  pose proof (fun key => known_fated _ _ _ _ _ _ d key L Hr) as Hkn. split.
  - intros r Hin. apply (ledger_fates _ _ _ _ _ _ _ L Hr), elem_of_app. by left.
  - exists keys. split; [done|]. intros key [Hf|[Hm|(r & Hc & Hd)]]%Hkeys.
    + destruct (lg_keys _ _ _ _ _ L key F1 Hf) as [|Hn]; [by left|right; by apply Hkn].
    + right. by apply Hkn, (lg_recent _ _ _ _ _ L).
    + right. right. exists r. split; [done|]. by apply fated_app_r.
Qed.

Lemma guarded_app q e tr tr' d : guarded q e tr d -> guarded q e (tr ++ tr') d.
Proof.
  intros [Hr (keys & Hk & Hkeys)]. split; [intros r Hin; by apply fated_app_l, Hr|].
  exists keys. split; [done|]. intros key [|[|(r & ? & ?)]]%Hkeys; [by left|by right; left|].
  right. right. exists r. split; [done|]. by apply fated_app_l.
Qed.

Lemma ledger_trans q1 e1 tr1 q2 e2 tr2 q3 e3 :
  ledger q1 e1 tr1 q2 e2 -> ledger q2 e2 tr2 q3 e3 -> ledger q1 e1 (tr1 ++ tr2) q3 e3.
Proof.
  intros L1 L2. pose proof L1 as [Hc1 Hcap1 Hl1 Hf1 Hr1 Hp1 Hx1 Hk1].
  destruct L2 as [Hc2 Hcap2 Hl2 Hf2 Hr2 Hp2 Hx2 Hk2]. split.
  - rewrite Hcap1 in Hc2. by eapply changes_app.
  - congruence.
  - lia.
  - rewrite stored_app. apply Forall_app. split.
    + eapply Forall_impl; [exact Hf1|]. cbn. lia.
    + eapply Forall_impl; [exact Hf2|]. cbn. lia.
  - intros key Hd. eapply known_trans; [exact L1|auto].
  - intros F. apply (passes_trans _ e1 e2).
    + eapply passes_mono; [|by apply Hp1]. intros d. apply guarded_app.
    + eapply passes_mono; [|by apply Hp2, Hx1]. intros d. by apply guarded_trans.
  - auto.
  - intros key F Hf. destruct (Hk2 key (Hx1 F) Hf) as [Hf'|Hn].
    + destruct (Hk1 key F Hf') as [|]; [by left|right; by apply known_app].
    + right. by eapply known_trans.
Qed.

Lemma queue_ok_limit q e rs :
  queue_ok q e rs -> Forall (fun r => qr_recordId r < id_limit q) rs.
Proof.
  intros [(core & Hr & [_ _ _ Hn Hf Hh]) _].
  assert (id_limit q = if c_nextRecordId core =? 0 then 2 ^ 64 else c_nextRecordId core) as ->
    by (unfold id_limit, queue_next; by rewrite (ready_core _ _ Hr)).
  cut (Forall (fun id => id < if c_nextRecordId core =? 0 then 2 ^ 64 else c_nextRecordId core)
    (qr_recordId <$> rs)); [by rewrite Forall_fmap|]. rewrite (holds_ids _ _ _ Hh).
  destruct (Z.eqb_spec (c_nextRecordId core) 0) as [Ez|Hz].
  - clear Hf. unfold ids. rewrite Forall_fmap.
    induction Hh as [|x r es rs' Hx Hh IH]; constructor; [|done]. cbn.
    by destruct (ho_id _ _ _ Hx) as [[_ ?] _].
  - by destruct Hf.
Qed.

(** An operation that moves nothing. *)
Lemma ledger_unmoved q e rs q' e' :
  queue_ok q e rs -> queue_ok q' e' rs -> unmoved q q' -> still e e' -> ledger q e [] q' e'.
Proof.
  intros K K' [Hc Hn Hr] S. pose proof (still_disk _ _ S) as Ed. split.
  - rewrite (contentsOf_ok _ _ _ K), (contentsOf_ok _ _ _ K'). constructor.
  - done.
  - unfold id_limit. by rewrite Hn.
  - constructor.
  - intros key Hd. right. by rewrite <- Hr.
  - intros (keys & Hk). apply S. split.
    + intros r Hin. left. rewrite (contentsOf_ok _ _ _ K) in Hin.
      pose proof (queue_ok_stored _ _ _ K) as Hst. rewrite Forall_forall in Hst. by apply Hst.
    + exists keys. split; [done|]. intros key Hl. left. by exists keys.
  - unfold ring_filed. by rewrite Ed.
  - intros key _. unfold filed. rewrite Ed. auto.
Qed.

Lemma ledger_contains key q e rs b q' e' :
  queue_ok q e rs -> queueContainsKey key q e = (b, q', e') -> ledger q e [] q' e'.
Proof.
  intros K Ec. pose proof (queueContainsKey_unmoved _ _ _ _ _ _ Ec) as U.
  pose proof (queueContainsKey_still _ _ _ _ _ _ Ec) as S.
  apply (queueContainsKey_spec _ _ _ rs) in Ec as (K' & _); [|done].
  by apply (ledger_unmoved _ _ rs).
Qed.

Lemma limit_next q :
  is_u 64 (queue_next q) -> queue_next q <> 0 ->
  (if wrap 64 (queue_next q + 1) =? 0 then 2 ^ 64 else wrap 64 (queue_next q + 1)) =
    id_limit q + 1 /\ id_limit q = queue_next q.
Proof.
  unfold id_limit, is_u. intros Hn Hz. destruct (Z.eqb_spec (queue_next q) 0) as [|_]; [done|].
  destruct (decide (queue_next q + 1 = 2 ^ 64)) as [Em|Hm].
  - rewrite Em. change (wrap 64 (2 ^ 64)) with 0. cbn [Z.eqb]. done.
  - assert (wrap 64 (queue_next q + 1) = queue_next q + 1) as ->
      by (unfold wrap; apply Z.mod_small; lia).
    destruct (Z.eqb_spec (queue_next q + 1) 0); lia.
Qed.

Lemma changes_room capacity l tr kept l' :
  (kept = l \/ kept = tail l /\ length l = capacity) -> (1 <= capacity)%nat ->
  changes capacity kept tr l' ->
  exists tr', changes capacity l tr' l' /\ stored tr' = stored tr /\
    (no_answers tr -> no_answers tr') /\
    (forall r, r ∈ l -> r ∈ kept \/ DroppedOldest r ∈ tr').
Proof.
  intros [->|[-> Hl]] Hc Hch; [exists tr; by split_and!; auto|].
  destruct l as [|r l]; [cbn in Hl; lia|].
  exists (DroppedOldest r :: tr). split_and!; [by constructor|done| |].
  - intros Hn. constructor; [by intros []|done].
  - intros x [->|Hx]%elem_of_cons; [right; left|by left].
Qed.

(** A record that is enqueued is stored, maybe in the place of the oldest. *)
Lemma ledger_enqueue record q e rs o record' q' e' :
  queue_ok q e rs -> record_typed record -> record_padded record ->
  queueEnqueue record q e = (o, record', q', e') ->
  exists tr, ledger q e tr q' e' /\ no_answers tr.
Proof.
  intros K T P Eq. pose proof (queueEnqueue_next _ _ _ _ _ _ _ Eq) as (Hcap & Hrec & Hnext).
  apply (enqueue_kept _ _ _ rs) in Eq as (kept & Hk & K' & Hid & Hlasts); [|done..].
  pose proof K as [(core & Hr & C) _].
  assert (1 <= durableCapacity q)%nat as Hc1 by (rewrite (ready_capacity _ _ Hr); apply C).
  assert (is_u 64 (queue_next q)) as Hu
    by (unfold queue_next; rewrite (ready_core _ _ Hr); apply C).
  set (tr := if eo_persisted o then [Stored record'] else []).
  destruct (changes_room (durableCapacity q) rs tr kept (contentsOf q' e'))
    as (tr' & Hch & Est & Hn & Hfate); [done|done| |].
  { rewrite (contentsOf_ok _ _ _ K'). unfold tr. destruct (eo_persisted o); do 2 constructor. }
  exists tr'. split; [|apply Hn; unfold tr; destruct (eo_persisted o); repeat constructor; by intros []].
  split.
  - by rewrite (contentsOf_ok _ _ _ K).
  - done.
  - unfold id_limit at 2. destruct (eo_persisted o).
    + destruct Hnext as [Hz ->]. destruct (limit_next q Hu Hz) as [-> _]. lia.
    + rewrite Hnext. done.
  - rewrite Est. unfold tr, id_limit at 2. destruct (eo_persisted o); [|constructor].
    rewrite (Hid eq_refl). destruct Hnext as [Hz ->], (limit_next q Hu Hz) as [-> El].
    constructor; [|constructor]. rewrite El. destruct record; cbn. lia.
  - intros key Hd. right. by rewrite <- Hrec.
  - intros (keys & Hkeys). eapply passes_mono; [|by apply (Hlasts keys)]. intros d [Hst Hd]. split.
    + intros r Hin. rewrite (contentsOf_ok _ _ _ K) in Hin.
      destruct (Hfate r Hin) as [Hkept|]; [left|by right; left].
      rewrite Forall_forall in Hst. by apply Hst.
    + exists keys. split; [done|]. intros key Hl. left. by exists keys.
  - intros (keys & Hkeys). exists keys. by apply Hlasts.
  - intros key (keys & Hkeys) (keys' & Hk' & Hl). left. exists keys. split; [done|].
    destruct (Hlasts keys Hkeys) as [_ Hd]. by rewrite (ring_file_unique _ _ _ Hd Hk').
Qed.

(** ** The other tasks at work *)

(** What the receive path may have made of queue and flash. *)
Definition moved (q : DurableQueue) (e : E) (q' : DurableQueue) (e' : E) : Prop :=
  (exists rs, queue_ok q' e' rs) /\ exists tr, ledger q e tr q' e' /\ no_answers tr.

Lemma moved_step q e q1 e1 q2 e2 tr :
  moved q e q1 e1 -> (exists rs, queue_ok q2 e2 rs) -> ledger q1 e1 tr q2 e2 -> no_answers tr ->
  moved q e q2 e2.
Proof.
  intros (_ & tr1 & L1 & N1) K L N. split; [done|]. exists (tr1 ++ tr).
  split; [by eapply ledger_trans|by apply Forall_app].
Qed.

#[export] Instance moved_invariant q e : QueueInvariant (moved q e).
Proof.
  split.
  - by intros q1 e1 [K _].
  - intros key q1 e1 b q2 e2 M Ec. pose proof M as [[rs K] _].
    eapply moved_step; [exact M| |by eapply ledger_contains|constructor].
    destruct (queueContainsKey_spec _ _ _ _ _ _ _ K Ec) as (K2 & _). by exists rs.
  - intros r q1 e1 o r' q2 e2 M T P Eq. pose proof M as [[rs K] _].
    destruct (ledger_enqueue _ _ _ _ _ _ _ _ K T P Eq) as (tr & L & N).
    eapply moved_step; [exact M| |exact L|exact N].
    destruct (queueEnqueue_spec _ _ _ _ _ _ _ _ K T P Eq) as (_ & kept & _ & K2).
    destruct (eo_persisted o); [destruct K2 as [K2 _]|]; by eexists.
  - intros q1 e1 M. pose proof M as [[rs K] _]. pose proof (recordDuplicate_ok _ _ _ K) as K'.
    eapply moved_step; [exact M|by eexists| |constructor].
    eapply ledger_unmoved; [exact K|exact K'|apply recordDuplicate_unmoved|apply still_refl].
Qed.

(** Identifiers are not given out twice. *)
Lemma ledger_later q e tr q' e' rs :
  queue_ok q e rs -> ledger q e tr q' e' -> no_answers tr ->
  later (contentsOf q e) (contentsOf q' e').
Proof.
  intros K [Hc _ _ Hf _ _ _ _] N. destruct (changes_suffix _ _ _ _ Hc N) as [gone Eg].
  pose proof (queue_ok_limit _ _ _ K) as Hlim. rewrite (contentsOf_ok _ _ _ K) in *.
  exists (length gone), (drop (length gone - length rs) (stored tr)). split.
  - rewrite <- skipn_app, Eg. by rewrite drop_app_length.
  - apply Forall_drop. eapply Forall_impl; [exact Hf|]. cbn. intros r [Hr _] Hin.
    apply list_elem_of_fmap in Hin as (r' & Er & Hin). rewrite Forall_forall in Hlim.
    specialize (Hlim r' Hin). lia.
Qed.

(** A record found later under the identifier of an earlier one is that one. *)
Lemma later_same l l' r r' :
  NoDup (qr_recordId <$> l) -> later l l' -> r ∈ l -> r' ∈ l' ->
  qr_recordId r' = qr_recordId r -> r' = r.
Proof.
  intros Hnd (n & new & -> & Hnew) Hr Hr' Eid. apply elem_of_app in Hr' as [Hr'|Hr'].
  - assert (r' ∈ l) as Hin by (by eapply elem_of_sublist, sublist_drop).
    clear Hr' Hnew. induction l as [|x l IH]; [by apply elem_of_nil in Hr|].
    rewrite fmap_cons in Hnd. apply NoDup_cons in Hnd as [Hx Hnd].
    apply elem_of_cons in Hr as [->|Hr], Hin as [->|Hin]; auto.
    + destruct Hx. apply list_elem_of_fmap. by exists r'.
    + destruct Hx. apply list_elem_of_fmap. by exists r.
  - rewrite Forall_forall in Hnew. destruct (Hnew r' Hr'). rewrite Eid.
    apply list_elem_of_fmap. by exists r.
Qed.

(** ** Answers *)

Lemma remember_all_keys cap removed l key :
  existsb (fun x => telemetryKeyEqual x key) (remember_all cap removed l) = true ->
  existsb (fun x => telemetryKeyEqual x key) l = true \/
  exists a, a ∈ removed /\ telemetryKeyEqual (qa_key a) key = true.
Proof.
  unfold remember_all. revert l. induction removed as [|a removed IH]; intros l Hk; [by left|].
  cbn [foldl] in Hk. apply IH in Hk as [Hk|(a' & Ha & He)];
    [|right; exists a'; split; [apply elem_of_cons; auto|done]].
  unfold remember_list in Hk. destruct (existsb _ l) eqn:Ex in Hk; cbn [snd] in Hk; [by left|].
  apply existsb_exists in Hk as (x & Hx & He).
  apply list_elem_of_In, (elem_of_sublist _ _ _) with (2 := sublist_drop _ _) in Hx.
  apply elem_of_app in Hx as [Hx|Hx%list_elem_of_singleton].
  - left. apply existsb_exists. exists x. by rewrite <- list_elem_of_In.
  - right. exists a. subst x. split; [apply elem_of_cons; auto|done].
Qed.

(** Where the keys of the ring and of its file are from when [removed] have been
    carried out. *)
Definition recalled (removed : list QueueTerminalAction) (q : DurableQueue) (e : E)
    (key : TelemetryKey) : Prop :=
  filed e key \/ dedupContains (dq_recent q) key = true \/
  exists a, a ∈ removed /\ telemetryKeyEqual (qa_key a) key = true.

(** A state of the flash on the way there. *)
Record spared (removed : list QueueTerminalAction) (q : DurableQueue) (e : E) (d : Disk) : Prop := {
  sp_records : Forall (DurableQueueTheorems.stored (record_files d)) (left_over removed (contentsOf q e));
  sp_ring : exists keys, ring_file d keys /\ forall key, listed keys key -> recalled removed q e key;
}.

(** The actions [removed] have been carried out. *)
Record finished (removed : list QueueTerminalAction) (q : DurableQueue) (e : E)
    (q' : DurableQueue) (e' : E) : Prop := {
  fi_contents : contentsOf q' e' = left_over removed (contentsOf q e);
  fi_capacity : durableCapacity q' = durableCapacity q;
  fi_limit : id_limit q' = id_limit q;
  fi_recent key : dedupContains (dq_recent q') key = true ->
    dedupContains (dq_recent q) key = true \/
    exists a, a ∈ removed /\ telemetryKeyEqual (qa_key a) key = true;
  fi_power : ring_filed e -> passes (spared removed q e) e e';
  fi_keys : ring_filed e -> exists keys, ring_file (disk e') keys /\
    forall key, listed keys key -> recalled removed q e key;
}.

Lemma finished_none q e : finished [] q e q e.
Proof.
  split; [by rewrite left_over_nil|done|done|by left|intros _; apply passes_refl|].
  intros (keys & Hk). exists keys. split; [done|]. intros key Hl. left. by exists keys.
Qed.

Lemma finish_finished actions q e rs ok q' e' :
  queue_ok q e rs -> Forall (fun action => key_wf (qa_key action)) actions ->
  finish actions q e = (ok, q', e') ->
  exists removed, removed `sublist_of` actions /\ queue_ok q' e' (left_over removed rs) /\
    finished removed q e q' e' /\ (ok = true -> removed = actions).
Proof.
  intros K Hk Ef. destruct (finish_frame _ _ _ _ _ _ Ef) as [Hc Hn].
  destruct (finish_spec _ _ _ _ _ _ _ K Hk Ef) as (removed & Hsub & K' & Hrec & Hok).
  exists removed. split_and!; [done|done| |done].
  assert (forall key, dedupContains (dq_recent q') key = true ->
    dedupContains (dq_recent q) key = true \/
    exists a, a ∈ removed /\ telemetryKeyEqual (qa_key a) key = true) as Hmem
    by (intros key; rewrite !contains_recent, Hrec; apply remember_all_keys).
  assert (forall keys key, ring_file (disk e) keys ->
    listed keys key \/ listed (recent (dq_recent q')) key -> recalled removed q e key) as Hrecall.
  { intros keys key Hkeys [Hl|Hl]; [left; by exists keys|right]. apply Hmem. by rewrite contains_recent. }
  split.
  - by rewrite (contentsOf_ok _ _ _ K), (contentsOf_ok _ _ _ K').
  - done.
  - unfold id_limit. by rewrite Hn.
  - exact Hmem.
  - intros (keys & Hkeys). eapply passes_mono;
      [|exact (finish_survives _ _ _ _ _ _ _ _ _ K Hk Hkeys Ef K' (left_over_subset _ _))].
    intros d [Hst Hd]. split; [by rewrite (contentsOf_ok _ _ _ K)|].
    destruct Hd as [Hd|Hd]; eexists; (split; [exact Hd|]); intros key Hl; apply (Hrecall keys); auto.
  - intros (keys & Hkeys). destruct (finish_ring _ _ _ _ _ _ _ _ K Hk Hkeys Ef) as [[Hd|Hd] _];
      eexists; (split; [exact Hd|]); intros key Hl; apply (Hrecall keys); auto.
Qed.

(** An action that names a record of [batch]. *)
Definition names (batch : list QueueRecord) (a : QueueTerminalAction) : Prop :=
  exists record t, record ∈ batch /\ qa_recordId a = qr_recordId record /\
    telemetryOf record = Some t /\ qa_key a = keyOf t.

Lemma terminal_names batch results a : terminal batch results a -> names batch a.
Proof.
  intros [(r & record & _ & Hl & Hid & _ & t & Ht & Hk)]. exists record, t.
  split_and!; [by eapply list_elem_of_lookup_2|done..].
Qed.

(** The keys that are recalled are known, and their records accounted for. *)
Lemma recalled_known q e rs tr q1 e1 removed batch key :
  queue_ok q e rs -> ring_filed e -> ledger q e tr q1 e1 -> batch ⊆ rs ->
  Forall (names batch) removed -> recalled removed q1 e1 key -> filed e key \/ known q e tr key.
Proof.
  intros K F L Hb Hn [Hf|[Hm|(a & Ha & He)]].
  - by apply (lg_keys _ _ _ _ _ L).
  - right. by apply (lg_recent _ _ _ _ _ L).
  - right. left. rewrite Forall_forall in Hn. destruct (Hn a Ha) as (record & t & Hin & _ & Ht & Hk).
    exists record. split; [|exists t; by rewrite <- Hk].
    apply elem_of_app. left. rewrite (contentsOf_ok _ _ _ K). by apply Hb.
Qed.

(** The records that go with the actions [removed]. *)
Definition taken (removed : list QueueTerminalAction) (rs : list QueueRecord) : list QueueRecord :=
  filter (fun r => ~ (qr_recordId r ∉ qa_recordId <$> removed)) rs.

Lemma stored_answered l : stored (Answered <$> l) = [].
Proof. by induction l. Qed.

Lemma spared_fated removed q e d r :
  spared removed q e d -> r ∈ contentsOf q e ->
  fated d (Answered <$> taken removed (contentsOf q e)) r.
Proof.
  intros [Hsp _] Hin. destruct (decide (qr_recordId r ∉ qa_recordId <$> removed)) as [Hr|Hr].
  - left. rewrite Forall_forall in Hsp. by apply Hsp, list_elem_of_filter.
  - right. right. by apply list_elem_of_fmap_2, list_elem_of_filter.
Qed.

(** The answers being taken, the flash guards what there was before. *)
Lemma round_guarded q e rs tr q1 e1 removed batch d :
  queue_ok q e rs -> ring_filed e -> ledger q e tr q1 e1 -> batch ⊆ rs ->
  Forall (names batch) removed -> spared removed q1 e1 d ->
  guarded q e (tr ++ (Answered <$> taken removed (contentsOf q1 e1))) d.
Proof.
  intros K F L Hb Hn Hsp. pose proof (fun r => spared_fated _ _ _ _ r Hsp) as Hfate. split.
  - intros r Hin. apply (ledger_fates _ _ _ _ _ _ _ L Hfate), elem_of_app. by left.
  - destruct (sp_ring _ _ _ _ Hsp) as (keys & Hk & Hkeys). exists keys. split; [done|].
    intros key Hkey. destruct (recalled_known q e rs tr q1 e1 removed batch key) as [|Hkn];
      [done..|by apply Hkeys|by left|right]. by apply (known_fated _ _ _ _ _ _ _ _ L Hfate).
Qed.

(** Only records of the batch are answered. *)
Lemma round_answered q e rs tr q1 e1 removed batch r :
  queue_ok q e rs -> ledger q e tr q1 e1 -> no_answers tr -> batch ⊆ rs ->
  Forall (names batch) removed ->
  Answered r ∈ tr ++ (Answered <$> taken removed (contentsOf q1 e1)) ->
  r ∈ batch /\ qr_recordId r ∈ qa_recordId <$> removed.
Proof.
  intros K L N Hb Hn. pose proof (ledger_later _ _ _ _ _ _ K L N) as Hlater.
  destruct (queue_ok_wf _ _ _ K) as [_ Hnd]. intros [Hin|Hin]%elem_of_app.
  - unfold no_answers in N. rewrite Forall_forall in N. by destruct (N _ Hin).
  - apply list_elem_of_fmap in Hin as (r' & [= <-] & Hin).
    apply list_elem_of_filter in Hin as [Hp Hin].
    assert (qr_recordId r ∈ qa_recordId <$> removed) as Hid by (by apply dec_stable).
    split; [|done]. apply list_elem_of_fmap in Hid as (a & Eid & Ha).
    rewrite Forall_forall in Hn. destruct (Hn a Ha) as (record & t & Hrec & Er & _).
    rewrite (contentsOf_ok _ _ _ K) in Hlater.
    rewrite (later_same rs (contentsOf q1 e1) record r); [done|done|done|by apply Hb|done|].
    by rewrite Eid.
Qed.

(** What the other tasks have done, then the answers taken: one ledger, in which
    only records of the batch are answered. *)
Lemma ledger_round q e rs tr q1 e1 rs1 removed q2 e2 batch :
  queue_ok q e rs -> queue_ok q1 e1 rs1 -> ledger q e tr q1 e1 -> no_answers tr ->
  finished removed q1 e1 q2 e2 -> batch ⊆ rs -> Forall (names batch) removed ->
  let answers := Answered <$> taken removed (contentsOf q1 e1) in
  ledger q e (tr ++ answers) q2 e2 /\
  (forall r, Answered r ∈ tr ++ answers -> r ∈ batch /\ qr_recordId r ∈ qa_recordId <$> removed).
Proof.
  intros K K1 L N [Fc Fcap Fl Fr Fp Fk] Hb Hn answers. unfold answers. clear answers.
  split; [|intros r; exact (round_answered _ _ _ _ _ _ _ _ r K L N Hb Hn)].
  pose proof L as [Hc Hcap Hl Hf Hr Hp Hx _].
  assert (forall key, ring_filed e -> recalled removed q1 e1 key -> filed e key \/ known q e tr key)
    as Hrecall by (intros key Hkey Hrec; by eapply recalled_known).
  split.
  - eapply changes_app; [exact Hc|]. rewrite Fc. apply (changes_filter _ _ [] (contentsOf q1 e1)).
  - congruence.
  - lia.
  - rewrite stored_app, stored_answered, app_nil_r. eapply Forall_impl; [exact Hf|]. cbn. lia.
  - intros key Hd. apply Fr in Hd as [Hd|(a & Ha & He)]; [apply known_app; auto|].
    left. rewrite Forall_forall in Hn. destruct (Hn a Ha) as (record & t & Hin & _ & Ht & Hk).
    exists record. split; [|exists t; by rewrite <- Hk].
    apply elem_of_app. left. rewrite (contentsOf_ok _ _ _ K). by apply Hb.
  - intros F. apply (passes_trans _ e e1).
    + eapply passes_mono; [|by apply Hp]. intros d. apply guarded_app.
    + eapply passes_mono; [|by apply Fp, Hx]. intros d. by eapply round_guarded.
  - intros F. destruct (Fk (Hx F)) as (keys & Hk & _). by exists keys.
  - intros key F (keys & Hk & Hl'). destruct (Fk (Hx F)) as (keys' & Hk' & Hkeys).
    rewrite (ring_file_unique _ _ _ Hk Hk') in Hl'.
    destruct (Hrecall key F (Hkeys key Hl')) as [|]; [by left|right; by apply known_app].
Qed.
End Ledger.
