(* ===== verification/GatewaySystem.v ===== *)
(** * The gateway as a whole

    The radio service and the backend worker on one durable queue.  The receive
    path runs while a request of the worker is under way ([sy_turns]: the turns of
    the radio task that fall into each of the coming requests) and between the
    worker's rounds; a turn is a round of the receiver or, in the bench build, an
    injected packet; nothing else of the worker's round is visible to the queue, so
    a turn elsewhere in it amounts to one before or after the
    request.  [sy_past] is no state of the gateway: it keeps what the gateway was like
    after each turn.  [acknowledged_accounted] follows every acknowledged packet through
    any run of the two. *)

From Stdlib Require Import ZArith Lia String.
From stdpp Require Import gmap list relations.
From S2P Require Import Prelude BuildConfig CString Platform Protocol ProtocolSpec.
From S2P Require Import ProtocolTheorems QueueRecord QueueRecordSpec Dedup QueueStorage.
From S2P Require Import DurableQueueCore DurableQueueTheorems FlashStorage FlashStorageLaws.
From S2P Require Import MemoryFlash Pairing CommandStore Metrics PacketProcessor.
From S2P Require Import PacketProcessorTheorems DurableQueue RecentCodec DurableQueueWorld.
From S2P Require Import QueueRestart QueuePower QueueAccount.
From S2P Require Import GatewayConfig Json BackendContract TimeManager Heartbeat WifiManager.
From S2P Require Import RadioService RadioServiceTheorems RadioSynthetic GatewayWorld.
From S2P Require Import BackendWorker BackendWorkerTheorems UploadGateway WorkerRounds QueueLedger.
Open Scope Z_scope.

Record System (F D N : Type) := mkSystem {
  sy_gateway : Gateway F D;
  sy_service : RadioService;
  sy_network : N;
  sy_turns : list (list RadioTurn);
  sy_past : list (Gateway F D);
}.
Arguments mkSystem {F D N}.
Arguments sy_gateway {F D N}.
Arguments sy_service {F D N}.
Arguments sy_network {F D N}.
Arguments sy_turns {F D N}.
Arguments sy_past {F D N}.

(** ** The parts in the whole *)

Section Lift.
Context {F D N : Type}.
Implicit Type y : System F D N.

Definition gateway_step (f : Gateway F D -> Gateway F D) y : System F D N :=
  mkSystem (f (sy_gateway y)) (sy_service y) (sy_network y) (sy_turns y) (sy_past y).

Definition on_gateway {A} (f : Gateway F D -> A * Gateway F D) y : A * System F D N :=
  let '(a, g) := f (sy_gateway y) in (a, gateway_step (fun _ => g) y).

Definition network_step (f : N -> N) y : System F D N :=
  mkSystem (sy_gateway y) (sy_service y) (f (sy_network y)) (sy_turns y) (sy_past y).

Definition on_network {A} (f : N -> A * N) y : A * System F D N :=
  let '(a, n) := f (sy_network y) in (a, network_step (fun _ => n) y).

Definition of_service {A} (f : RadioService -> A) y : A * System F D N := (f (sy_service y), y).
End Lift.

Section System.
Context (object_bytes : CommandStoreRecord -> list Z) (kBuildFlavor : list Z).
Context {F D N : Type} `{HistoryLaws F, DeviceLaws D}.
Context `{HttpClient N, WifiReadings N, Tasks N, SystemFigures N, HeartbeatSources N}.
Implicit Type y : System F D N.

Definition radio_turn (turn : RadioTurn) y : System F D N :=
  let '(service, g) := radioTurn object_bytes turn (sy_service y) (sy_gateway y) in
  mkSystem g service (sy_network y) (sy_turns y) (sy_past y ++ [g]).

Fixpoint radio_turns (turns : list RadioTurn) y : System F D N :=
  match turns with
  | [] => y
  | turn :: turns => radio_turns turns (radio_turn turn y)
  end.

#[local] Instance system_uploads : UploadQueue (System F D N) := {
  uq_size := on_gateway uq_size;
  uq_capacity := on_gateway uq_capacity;
  uq_peek n := on_gateway (uq_peek n);
  uq_finish actions := on_gateway (uq_finish actions);
  uq_recordUploadRetry := gateway_step uq_recordUploadRetry;
  uq_recordFilesystemError := gateway_step uq_recordFilesystemError;
}.

(** While the worker waits for the backend, the receiver works. *)
Definition while_waiting y : System F D N :=
  let y := radio_turns (default [] (head (sy_turns y))) y in
  mkSystem (sy_gateway y) (sy_service y) (sy_network y) (tail (sy_turns y)) (sy_past y).

#[local] Instance system_http : HttpClient (System F D N) := {
  http_begin tls timeout url := on_network (http_begin tls timeout url);
  http_POST headers body y := on_network (http_POST headers body) (while_waiting y);
  http_GET headers y := on_network (http_GET headers) (while_waiting y);
  http_getString := on_network http_getString;
  http_end := network_step http_end;
  http_errorToString := http_errorToString;
}.

#[local] Instance system_wifi : WifiReadings (System F D N) := {
  wifi_connected := on_network wifi_connected;
  wifi_getMode := on_network wifi_getMode;
  wifi_stationNum := on_network wifi_stationNum;
  wifi_localIP := on_network wifi_localIP;
  wifi_RSSI := on_network wifi_RSSI;
}.

#[local] Instance system_time : TrustedTime (System F D N) := { time_now := on_gateway time_now }.

#[local] Instance system_clock : MonotonicClock (System F D N) := { nowUs := on_gateway nowUs }.

#[local] Instance system_tasks : Tasks (System F D N) :=
  { esp_random := on_network esp_random; taskNotify := network_step taskNotify }.

#[local] Instance system_figures : SystemFigures (System F D N) := {
  esp_freeHeap := on_network esp_freeHeap;
  esp_minFreeHeap := on_network esp_minFreeHeap;
  esp_largestFreeBlock := on_network esp_largestFreeBlock;
  esp_sketchSize := on_network esp_sketchSize;
  esp_freeSketchSpace := on_network esp_freeSketchSpace;
  esp_flashChipSize := on_network esp_flashChipSize;
}.

(** The heartbeat reports on the service, and what the network's side answers for
    Wi-Fi and time. *)
#[local] Instance system_sources : HeartbeatSources (System F D N) := {
  source_wifi := on_network source_wifi;
  source_time := on_network source_time;
  source_radio := of_service diagnostics;
  source_paired := of_service radioPaired;
  source_pairedNodeId output := of_service (fun s => default [] (pairedNodeId (Some output) s));
  source_command := of_service (fun s =>
    match rv_processor s with
    | Some p => current (pp_commands p)
    | None => GatewayCommand_init
    end);
}.

(** ** Accounts *)

Abbreviation queue_of y := (gw_queue (sy_gateway y)).
Abbreviation flash_of y := (gw_flash (sy_gateway y)).
Abbreviation on_air y := (sent (gw_device (sy_gateway y))).
Abbreviation contents y := (contentsOf (queue_of y) (flash_of y)).

Definition system_ok y : Prop :=
  (exists rs, queue_ok (queue_of y) (flash_of y) rs) /\ service_typed (sy_service y).

(** What has been sent since [y], [tr] having happened, acknowledges what is known. *)
Definition aired y (tr : list change) (air : list (list Z)) : Prop :=
  exists new, air = on_air y ++ new /\
    Forall (fun bytes => exists t, acknowledges t bytes /\
      known (queue_of y) (flash_of y) tr (keyOf t)) new.

(** [g] is a state on the way from [y] to [y'], and whatever the flash passes through
    from then on accounts for what has happened up to [g]. *)
Definition seen y (tr : list change) y' (g : Gateway F D) : Prop :=
  exists tr1 tr2, tr = tr1 ++ tr2 /\
    (exists rs, queue_ok (gw_queue g) (gw_flash g) rs) /\
    ledger (queue_of y) (flash_of y) tr1 (gw_queue g) (gw_flash g) /\
    aired y tr1 (sent (gw_device g)) /\
    (ring_filed (flash_of y) ->
     passes (fun d => guarded (queue_of y) (flash_of y) tr d /\
                      fates (queue_of y) (flash_of y) tr1 tr d) (gw_flash g) (flash_of y')).

(** [tr] accounts for all between [y] and [y']: the queue, what has been
    acknowledged, and the states on the way. *)
Record accounts y (tr : list change) y' : Prop := {
  ac_ledger : ledger (queue_of y) (flash_of y) tr (queue_of y') (flash_of y');
  ac_air : aired y tr (on_air y');
  ac_past : exists past, sy_past y' = sy_past y ++ past /\ Forall (seen y tr y') past;
}.

Lemma aired_none y tr : aired y tr (on_air y).
Proof. exists []. by rewrite app_nil_r. Qed.

Lemma aired_app y tr tr' air : aired y tr air -> aired y (tr ++ tr') air.
Proof.
  intros (new & Ea & Hn). exists new. split; [done|]. eapply Forall_impl; [exact Hn|].
  cbn. intros bytes (t & ? & ?). exists t. split; [done|by apply known_app].
Qed.

Lemma aired_trans y1 tr1 y2 tr2 air :
  ledger (queue_of y1) (flash_of y1) tr1 (queue_of y2) (flash_of y2) -> aired y1 tr1 (on_air y2) ->
  aired y2 tr2 air -> aired y1 (tr1 ++ tr2) air.
Proof.
  intros L (n1 & E1 & A1) (n2 & -> & A2). exists (n1 ++ n2).
  split; [by rewrite E1, app_assoc|]. apply Forall_app. split.
  - eapply Forall_impl; [exact A1|]. cbn. intros bytes (t & ? & ?). exists t.
    split; [done|by apply known_app].
  - eapply Forall_impl; [exact A2|]. cbn. intros bytes (t & ? & ?). exists t.
    split; [done|by eapply known_trans].
Qed.

(** More happens after [g]. *)
Lemma seen_longer y1 tr1 y2 tr2 y3 g :
  ledger (queue_of y1) (flash_of y1) tr1 (queue_of y2) (flash_of y2) ->
  (ring_filed (flash_of y1) ->
   passes (fun d => guarded (queue_of y1) (flash_of y1) (tr1 ++ tr2) d /\
     fates (queue_of y1) (flash_of y1) tr1 (tr1 ++ tr2) d) (flash_of y2) (flash_of y3)) ->
  seen y1 tr1 y2 g -> seen y1 (tr1 ++ tr2) y3 g.
Proof.
  intros L Hp (a & b & -> & K & Lg & Ag & Hg). exists a, (b ++ tr2).
  split_and!; [by rewrite app_assoc|done..|]. intros R. eapply passes_trans.
  - eapply passes_mono; [|by apply Hg]. intros d [G1 G2].
    split; [by apply guarded_app|]. intros r Hr. by apply fated_app_l, G2.
  - eapply passes_mono; [|by apply Hp]. intros d [G1 G2].
    split; [done|]. by eapply fates_first.
Qed.

(** More has happened before. *)
Lemma seen_earlier y1 tr1 y2 tr2 y3 g :
  accounts y1 tr1 y2 -> seen y2 tr2 y3 g -> seen y1 (tr1 ++ tr2) y3 g.
Proof.
  intros [L A _] (a & b & -> & K & Lg & Ag & Hg). exists (tr1 ++ a), b.
  split_and!; [by rewrite app_assoc|done|by eapply ledger_trans|by eapply aired_trans|].
  intros R. eapply passes_mono; [|by apply Hg, L]. intros d [G1 G2].
  split; [by eapply guarded_trans|by eapply fates_trans].
Qed.

Lemma accounts_silent y tr y' :
  ledger (queue_of y) (flash_of y) tr (queue_of y') (flash_of y') -> on_air y' = on_air y ->
  sy_past y' = sy_past y -> accounts y tr y'.
Proof.
  intros L Ea Ep. split; [done|rewrite Ea; apply aired_none|]. exists []. by rewrite app_nil_r.
Qed.

Lemma accounts_refl y : accounts y [] y.
Proof. apply accounts_silent; [apply ledger_refl|done..]. Qed.

Lemma accounts_trans y1 tr1 y2 tr2 y3 :
  accounts y1 tr1 y2 -> accounts y2 tr2 y3 -> accounts y1 (tr1 ++ tr2) y3.
Proof.
  intros A1 A2. pose proof A1 as [L1 B1 (p1 & E1 & P1)]. pose proof A2 as [L2 B2 (p2 & E2 & P2)].
  split; [by eapply ledger_trans|by eapply aired_trans|]. exists (p1 ++ p2).
  split; [by rewrite E2, E1, app_assoc|]. apply Forall_app. split.
  - eapply Forall_impl; [exact P1|]. intros g. apply seen_longer; [done|]. intros R.
    eapply passes_mono; [|by apply (lg_power _ _ _ _ _ L2), L1]. intros d G.
    split; [by eapply guarded_trans|]. by eapply ledger_fates, G.
  - eapply Forall_impl; [exact P2|]. intros g. by apply seen_earlier.
Qed.

(** [accounts] with nobody answered: what the receive path does. *)
Definition received y y' : Prop := exists tr, accounts y tr y' /\ no_answers tr.

Lemma received_trans y1 y2 y3 : received y1 y2 -> received y2 y3 -> received y1 y3.
Proof.
  intros (tr1 & A1 & N1) (tr2 & A2 & N2). exists (tr1 ++ tr2).
  split; [by eapply accounts_trans|by apply Forall_app].
Qed.

Lemma radio_turn_past turn y :
  sy_past (radio_turn turn y) = sy_past y ++ [sy_gateway (radio_turn turn y)].
Proof. unfold radio_turn. by destruct (radioTurn _ _ _ _). Qed.

Lemma radio_turn_received turn y :
  system_ok y -> system_ok (radio_turn turn y) /\ received y (radio_turn turn y).
Proof.
  intros [K T]. unfold radio_turn.
  destruct (radioTurn object_bytes turn (sy_service y) (sy_gateway y)) as [service g] eqn:Er.
  pose (Q := moved (queue_of y) (flash_of y)).
  destruct (@radioTurn_acks object_bytes (Gateway F D) gateway_sx1278 gateway_clock gateway_time
    gateway_backend gateway_queue (observationsOf Q) (radioWorldOf Q) turn (sy_service y)
    (sy_gateway y) service g) as ((K' & tr & L & Nt) & T' & Ha); [|done|done|].
  { split; [done|]. exists []. split; [apply ledger_refl|constructor]. }
  assert (aired y tr (sent (gw_device g))) as Ag.
  { cbn in Ha. destruct Ha as [Ha|(t & bytes & Ha & Hack & Hd)]; [rewrite Ha; apply aired_none|].
    exists [bytes]. split; [exact Ha|]. constructor; [|constructor]. exists t. split; [exact Hack|].
    destruct Hd as [(rs & Kr & r & t' & Hin & Ht & Hk)|Hd]; [left|by apply (lg_recent _ _ _ _ _ L)].
    exists r. split; [|by exists t'].
    eapply changes_origin; [apply L|]. by rewrite (contentsOf_ok _ _ _ Kr). }
  split; [by split|]. exists tr. split; [|done]. split; [exact L|exact Ag|].
  exists [g]. split; [done|]. constructor; [|constructor]. exists tr, [].
  split_and!; [by rewrite app_nil_r|exact K'|exact L|exact Ag|intros _; apply passes_refl].
Qed.

Lemma radio_turns_received turns y :
  system_ok y -> system_ok (radio_turns turns y) /\ received y (radio_turns turns y).
Proof.
  revert y. induction turns as [|turn turns IH]; intros y K; cbn [radio_turns].
  - split; [done|]. exists []. split; [apply accounts_refl|constructor].
  - destruct (radio_turn_received turn _ K) as [K1 R1]. destruct (IH _ K1) as [K' R'].
    split; [exact K'|by eapply received_trans].
Qed.

(** ** The system is a world of the worker *)

(** The actions [removed] have been carried out, and nothing has been sent. *)
Definition concluded (removed : list QueueTerminalAction) y y' : Prop :=
  finished removed (queue_of y) (flash_of y) (queue_of y') (flash_of y') /\
  on_air y' = on_air y /\ sy_past y' = sy_past y.

#[local] Instance system_observations : UploadObservations (System F D N) := {
  uw_ok := system_ok;
  uploads y := contents y;
  quiet y y' := accounts y [] y';
  meanwhile := received;
  finishing removed y y' := exists y1, concluded removed y y1 /\ accounts y1 [] y';
}.

(** A step of the gateway that leaves the queue's contents alone. *)
Lemma same_gateway y g :
  (forall rs, queue_ok (queue_of y) (flash_of y) rs ->
    queue_ok (gw_queue g) (gw_flash g) rs /\ unmoved (queue_of y) (gw_queue g)) ->
  still (flash_of y) (gw_flash g) ->
  sent (gw_device g) = on_air y ->
  same y (gateway_step (fun _ => g) y).
Proof.
  intros Hk Hs Ea [[rs K] T]. destruct (Hk rs K) as [K' U]. split; [by split; [exists rs|]|].
  apply accounts_silent; [by apply (ledger_unmoved _ _ rs)|done|done].
Qed.

Lemma same_device {A} (f : D -> A * D) y :
  (forall d, sent (f d).2 = sent d) -> same y (on_gateway (on_device f) y).2.
Proof.
  intros Hs. unfold on_gateway, on_device. pose proof (Hs (gw_device (sy_gateway y))) as E.
  destruct (f _) as [a d]. apply same_gateway; [done|apply still_refl|done].
Qed.

Lemma same_network {A} (f : N -> A * N) y : same y (on_network f y).2.
Proof.
  intros K. unfold on_network. destruct (f (sy_network y)). split; [exact K|].
  apply accounts_silent; [apply ledger_refl|done|done].
Qed.

Lemma same_service {A} (f : RadioService -> A) y : same y (of_service f y).2.
Proof. intros K. split; [exact K|apply accounts_refl]. Qed.

Lemma waiting_received y : system_ok y -> system_ok (while_waiting y) /\ received y (while_waiting y).
Proof.
  intros K. destruct (radio_turns_received (default [] (head (sy_turns y))) y K) as [K' (tr & A & Nt)].
  split; [exact K'|]. exists tr. split; [|exact Nt]. by destruct A.
Qed.

Lemma system_peek n y ok out y' :
  uw_ok y -> uq_peek n y = (ok, out, y') ->
  uw_ok y' /\ quiet y y' /\ out = if ok then take n (uploads y) else [].
Proof.
  intros [[rs K] T] E. cbn in E. unfold on_gateway in E. cbn in E.
  destruct (queuePeek n (queue_of y) (flash_of y)) as [[[ok1 out1] q1] f1] eqn:Ep.
  injection E as <- <- <-. destruct (queuePeek_spec _ _ _ _ _ _ _ _ K Ep) as (K1 & Eo & U).
  apply queuePeek_still in Ep.
  split_and!; [by split; [exists rs|]| |cbn; by rewrite (contentsOf_ok _ _ _ K)].
  apply accounts_silent; [by apply (ledger_unmoved _ _ rs)|done|done].
Qed.

Lemma system_finish actions y ok y' :
  uw_ok y -> Forall (fun a => key_wf (qa_key a)) actions ->
  uq_finish actions y = (ok, y') ->
  uw_ok y' /\ exists removed, removed `sublist_of` actions /\
    finishing removed y y' /\ (ok = true -> removed = actions).
Proof.
  intros [[rs K] T] Hk E. cbn in E. unfold on_gateway in E. cbn in E.
  destruct (finish actions (queue_of y) (flash_of y)) as [[ok1 q1] f1] eqn:Ef.
  injection E as <- <-.
  destruct (finish_finished _ _ _ _ _ _ _ K Hk Ef) as (removed & Hsub & K1 & Hf & Hok).
  split; [split; [by eexists|done]|]. exists removed. split_and!; [done| |done].
  eexists. split; [|apply accounts_refl]. by split.
Qed.

#[local] Instance system_world : UploadWorld (System F D N).
Proof.
  constructor;
    try (intros; apply same_network; fail);
    try (intros; apply same_device; auto with sent; fail).
  - apply accounts_refl.
  - intros y1 y2 y3 A1 A2. exact (accounts_trans _ _ _ _ _ A1 A2).
  - intros y y' [[Hc _ _ _ _ _ _ _] _]. by inversion Hc.
  - intros y y' A. exists []. split; [exact A|constructor].
  - intros y1 y2 y3 A (tr & A' & Nt). exists tr. split; [exact (accounts_trans _ [] _ _ _ A A')|done].
  - intros y1 y2 y3 (tr & A & Nt) A'. exists (tr ++ []).
    split; [by eapply accounts_trans|by rewrite app_nil_r].
  - intros y y' [[rs K] _] (tr & [L _] & Nt). by eapply ledger_later.
  - intros y y' A. exists y. split; [|exact A]. split; [apply finished_none|done].
  - intros removed y1 y2 y3 (y & C & A) A'. exists y. split; [done|].
    exact (accounts_trans _ [] _ [] _ A A').
  - intros removed y y' K (y1 & [[Hc _ _ _ _ _] _] & [[Hl _ _ _ _ _ _ _] _]).
    transitivity (contents y1); [by inversion Hl|exact Hc].
  - intros y [[rs K] _]. cbn. rewrite (contentsOf_ok _ _ _ K). by apply (queue_ok_wf _ _ _ K).
  - apply system_peek.
  - apply system_finish.
  - intros y. apply same_gateway; cbn.
    + intros rs K. destruct (recordUploadRetry _ _) as [q1 f1] eqn:Er.
      by apply (recordUploadRetry_ok _ _ rs) in Er.
    + destruct (recordUploadRetry _ _) as [q1 f1] eqn:Er. by apply recordUploadRetry_still in Er.
    + by destruct (recordUploadRetry _ _).
  - intros y. apply same_gateway; cbn.
    + intros rs K. split; [by apply recordFilesystemError_ok|apply recordFilesystemError_unmoved].
    + apply still_refl.
    + done.
  - intros y K. split; [apply K|apply accounts_silent; [apply ledger_refl|done|done]].
  - intros headers body y K. destruct (waiting_received y K) as [K1 R1].
    destruct (same_network (http_POST headers body) (while_waiting y) K1) as [K2 A2].
    split; [exact K2|]. eapply received_trans; [exact R1|]. eexists. split; [exact A2|constructor].
Qed.

#[local] Instance system_worker_world : WorkerWorld (System F D N).
Proof.
  constructor; intros;
    try (apply same_network; fail); try (apply same_service; fail).
  - apply same_gateway; cbn; [done|apply still_refl|done].
  - apply same_gateway; cbn; [done|apply still_refl|done].
Qed.

(** ** Runs *)

Context `{JsonText, !JsonLaws}.

(** What may happen: a turn of the radio task, a round of the backend worker, the
    dashboard looking at the oldest record or saving the counters, and, elsewhere,
    anything that keeps queue, flash and the list of what has been sent: the settings,
    the pairing, the network, the clocks. *)
Inductive system_step : BackendWorker * System F D N -> BackendWorker * System F D N -> Prop :=
  | step_radio b y turn : system_step (b, y) (b, radio_turn turn y)
  | step_worker b y pause b' y' :
      backendRound kBuildFlavor b y = (pause, b', y') -> system_step (b, y) (b', y')
  | step_peek b y n ok records y' :
      uq_peek n y = (ok, records, y') -> system_step (b, y) (b, y')
  | step_checkpoint b y force q f :
      checkpointCounters force (queue_of y) (flash_of y) = (q, f) ->
      system_step (b, y)
        (b, gateway_step (fun g => mkGateway q f (gw_device g)) y)
  | step_elsewhere b y b' y' :
      queue_of y' = queue_of y -> flash_of y' = flash_of y -> on_air y' = on_air y ->
      sy_past y' = sy_past y -> service_typed (sy_service y') -> system_step (b, y) (b', y').

(** The backend has answered for [r]: in a round of the worker that finds [y], with
    [r] in its batch, the batch was posted, answered with 200, and the answer names
    [r] with a terminal status. *)
Definition confirmed (b : BackendWorker) y (r : QueueRecord) : Prop :=
  let batch := take (Z.to_nat (rt_batchSize (configSnapshot b))) (contents y) in
  exists removed, answer_for (rt_identity (configSnapshot b)) batch y removed /\
    r ∈ batch /\ qr_recordId r ∈ qa_recordId <$> removed.

(** What the tasks have done in the meantime, then the answers taken. *)
Lemma concluded_accounted y rs tr y1 rs1 removed y2 batch :
  queue_ok (queue_of y) (flash_of y) rs -> queue_ok (queue_of y1) (flash_of y1) rs1 ->
  accounts y tr y1 -> no_answers tr -> concluded removed y1 y2 -> batch ⊆ rs ->
  Forall (names batch) removed ->
  accounts y (tr ++ (Answered <$> taken removed (contents y1))) y2.
Proof.
  intros K K1 A Nt (Hf & Ea & Ep) Hb Hn. pose proof A as [L B (past & Epast & Hpast)].
  destruct (ledger_round _ _ _ _ _ _ _ _ _ _ _ K K1 L Nt Hf Hb Hn) as [L2 _].
  split; [exact L2|rewrite Ea; by apply aired_app|]. exists past. split; [congruence|].
  eapply Forall_impl; [exact Hpast|]. intros g. apply seen_longer; [exact L|]. intros R.
  eapply passes_mono; [|by apply (fi_power _ _ _ _ _ Hf), L]. intros d Hsp.
  split; [by eapply round_guarded|]. eapply ledger_fates; [exact L|].
  intros r. by apply spared_fated.
Qed.

Lemma round_accounted b y pause b' y' :
  system_ok y -> backendRound kBuildFlavor b y = (pause, b', y') ->
  system_ok y' /\ exists tr, accounts y tr y' /\ forall r, Answered r ∈ tr -> confirmed b y r.
Proof.
  intros K E. pose proof K as [[rs Kr] _].
  destruct (@backendRound_done kBuildFlavor (System F D N) _ _ _ _ _ system_observations _ _ _ _ _
    _ _ b y pause b' y' K E)
    as (K' & y1 & removed & K1 & (tr & A & Nt) & (y2 & C & A2) & Hans).
  split; [done|]. pose proof K1 as [[rs1 Kr1] _].
  set (batch := take (Z.to_nat (rt_batchSize (configSnapshot b))) (contents y)).
  assert (batch ⊆ rs) as Hb
    by (unfold batch; rewrite (contentsOf_ok _ _ _ Kr); apply subseteq_take).
  assert (Forall (names batch) removed) as Hn.
  { destruct Hans as [->|(payload & response & results & _ & _ & _ & Ht)]; [constructor|].
    eapply Forall_impl; [exact Ht|]. intros a. apply terminal_names. }
  exists ((tr ++ (Answered <$> taken removed (contents y1))) ++ []). split.
  - eapply accounts_trans; [|exact A2]. by eapply concluded_accounted.
  - rewrite app_nil_r. intros r Hr.
    destruct (round_answered _ _ _ _ _ _ _ _ r Kr (ac_ledger _ _ _ A) Nt Hb Hn Hr) as [Hin Hid].
    exists removed. split_and!; [|done|done]. destruct Hans as [->|]; [|done].
    by apply elem_of_nil in Hid.
Qed.

Lemma step_accounted s s' :
  system_ok s.2 -> system_step s s' ->
  system_ok s'.2 /\ exists tr, accounts s.2 tr s'.2 /\
    forall r, Answered r ∈ tr -> confirmed s.1 s.2 r.
Proof.
  intros K Hs.
  destruct Hs as [b y turn|b y pause b' y' E|b y n ok records y' E|b y force q f E|b y b' y' Eq Ef Ea Ep T];
    cbn [fst snd] in *.
  - destruct (radio_turn_received turn y K) as [K' (tr & A & Nt)]. split; [done|]. exists tr.
    split; [done|]. intros r Hr. unfold no_answers in Nt. rewrite Forall_forall in Nt.
    by destruct (Nt _ Hr).
  - by eapply round_accounted.
  - apply system_peek in E as (K' & A & _); [|done]. split; [done|]. exists [].
    split; [exact A|]. by intros r Hr%elem_of_nil.
  - assert (same y (gateway_step (fun _ => mkGateway q f (gw_device (sy_gateway y))) y)) as S.
    { apply same_gateway; [|by eapply checkpointCounters_still|done].
      intros rs Kr. cbn. unfold checkpointCounters in E.
      destruct (dq_mutex (queue_of y)) eqn:Em; [|by injection E as <- <-].
      apply checkpoint_keeps in E as (Ed & ? & Er & ? & ? & _). split.
      - eapply queue_ok_keep; [exact Kr|by apply disk_files|congruence..|]. rewrite Er. apply Kr.
      - by apply unmoved_core. }
    destruct (S K) as [K' A]. split; [exact K'|]. exists [].
    split; [exact A|]. by intros r Hr%elem_of_nil.
  - destruct K as [[rs K] _]. split; [split; [rewrite Eq, Ef; by exists rs|done]|]. exists [].
    split; [|by intros r Hr%elem_of_nil]. apply accounts_silent; [|done|done].
    rewrite Eq, Ef. apply ledger_refl.
Qed.

Lemma run_accounted s s' :
  rtc system_step s s' -> system_ok s.2 ->
  system_ok s'.2 /\ exists tr, accounts s.2 tr s'.2 /\
    forall r, Answered r ∈ tr ->
      exists s1, rtc system_step s s1 /\ rtc system_step s1 s' /\ confirmed s1.1 s1.2 r.
Proof.
  induction 1 as [s|s s1 s' Hs Hr IH]; intros K.
  - split; [done|]. exists []. split; [apply accounts_refl|]. by intros r Hr%elem_of_nil.
  - destruct (step_accounted s s1 K Hs) as (K1 & tr1 & A1 & C1).
    destruct (IH K1) as (K' & tr2 & A2 & C2). split; [done|]. exists (tr1 ++ tr2).
    split; [by eapply accounts_trans|]. intros r [Hin|Hin]%elem_of_app.
    + exists s. split_and!; [done|by eapply rtc_l|by apply C1].
    + destruct (C2 r Hin) as (s2 & ? & ? & ?). exists s2. split_and!; [by eapply rtc_l|done|done].
Qed.

(** C2: no acknowledged telemetry is lost silently, whatever the radio task, the
    backend worker, the dashboard, the network and the backend do and however their
    steps interleave: in any run of the gateway, a trace of changes leads from the
    first contents of the queue to the last, in which a record is dropped only as the
    oldest of a full queue, and goes on account of an answer only if at some point of
    the run a batch with this record in it was posted and the answer, with status 200,
    names it.  Every packet the gateway has put on the air in the run acknowledges
    telemetry that had been finished before, or that is carried by a record which is
    still in the queue, was dropped as the oldest, or has been answered for. *)
Theorem acknowledged_accounted b y b' y' :
  system_ok y -> rtc system_step (b, y) (b', y') ->
  system_ok y' /\ exists tr new,
    changes (durableCapacity (queue_of y)) (contents y) tr (contents y') /\
    (forall r, Answered r ∈ tr -> exists s,
       rtc system_step (b, y) s /\ rtc system_step s (b', y') /\ confirmed s.1 s.2 r) /\
    on_air y' = on_air y ++ new /\
    (forall bytes, bytes ∈ new -> exists t, acknowledges t bytes /\
       (dedupContains (dq_recent (queue_of y)) (keyOf t) = true \/
        exists r, carries r (keyOf t) /\
          (r ∈ contents y' \/ DroppedOldest r ∈ tr \/ Answered r ∈ tr))).
Proof.
  intros K Hr. destruct (run_accounted _ _ Hr K) as (K' & tr & [[Hc _ _ _ _ _ _ _] (new & En & Hnew) _] & Ha).
  split; [done|]. exists tr, new. split_and!; [done|done|done|]. intros bytes Hin.
  rewrite Forall_forall in Hnew. destruct (Hnew bytes Hin) as (t & Hack & [(r & Hr' & Hk)|Hd]).
  - exists t. split; [done|]. right. exists r. split; [done|]. by eapply changes_fate.
  - exists t. auto.
Qed.
End System.

#[local] Instance sample_history : FlashHistory MemoryFlash := no_history.
#[local] Instance sample_history_laws : HistoryLaws MemoryFlash := no_history_laws.

(** ** A run to compute

    A packet is received and acknowledged; while the worker uploads its record, a
    second packet arrives; the backend answers for the first record only. *)

#[export] Instance SimulatedNetwork_figures : SystemFigures SimulatedNetwork := {
  esp_freeHeap n := (200000, n);
  esp_minFreeHeap n := (150000, n);
  esp_largestFreeBlock n := (100000, n);
  esp_sketchSize n := (1300000, n);
  esp_freeSketchSpace n := (1310720, n);
  esp_flashChipSize n := (4194304, n);
}.

#[export] Instance SimulatedNetwork_sources : HeartbeatSources SimulatedNetwork := {
  source_wifi n := (WifiStatus_init, n);
  source_time n := (mkTimeStatus true 1700000000123 1700000000000, n);
  source_radio n := (RadioDiagnostics_init (W := SimulatedDevice), n);
  source_paired n := (false, n);
  source_pairedNodeId s n := (s, n);
  source_command n := (GatewayCommand_init, n);
}.

Definition sampleSystem : System MemoryFlash SimulatedDevice SimulatedNetwork :=
  mkSystem
    (sampleGateway [telemetryWire sampleTelemetry;
                    telemetryWire (sampleTelemetry <| tp_sequence := 8 |>)])
    sampleService (mkSimulatedNetwork [(200, chars "answer")]) [[Received]] [].

Definition sampleReceived : System MemoryFlash SimulatedDevice SimulatedNetwork :=
  radio_turn sampleObject Received sampleSystem.

Definition sampleWork :=
  @backendRound (System MemoryFlash SimulatedDevice SimulatedNetwork) system_uploads
    (system_http sampleObject) system_wifi system_time system_clock system_tasks uploadJson
    system_sources system_figures [] sampleWorker sampleReceived.

Lemma acknowledged_accounted_witness :
  contentsOf (gw_queue (sy_gateway sampleSystem)) (gw_flash (sy_gateway sampleSystem)) = [] /\
  length (contentsOf (gw_queue (sy_gateway sampleReceived)) (gw_flash (sy_gateway sampleReceived)))
    = 1%nat /\
  length (sent (gw_device (sy_gateway sampleWork.2))) = 2%nat /\
  (qr_recordId <$> contentsOf (gw_queue (sy_gateway sampleWork.2))
     (gw_flash (sy_gateway sampleWork.2))) = [2] /\
  forall bytes, bytes ∈ sent (gw_device (sy_gateway sampleWork.2)) ->
    exists t, acknowledges t bytes.
Proof.
  split; [vm_compute; reflexivity|]. split; [vm_compute; reflexivity|].
  split; [vm_compute; reflexivity|]. split; [vm_compute; reflexivity|].
  destruct (@acknowledged_accounted sampleObject [] MemoryFlash SimulatedDevice SimulatedNetwork
    _ _ _ _ _ _ _ _ _ _ _ _ _ _ _ _ _ uploadJson (tree_json_laws _ _)
    sampleWorker sampleSystem sampleWork.1.2 sampleWork.2) as (_ & tr & new & _ & _ & Ha & Hn).
  - split; [exists []; exact sampleQueue_ok|exact sampleService_typed].
  - eapply rtc_l; [apply (step_radio _ _ _ _ Received)|].
    apply rtc_once, (step_worker _ _ _ _ sampleWork.1.1).
    unfold sampleWork. destruct (backendRound _ _ _) as [[pause b] y]. reflexivity.
  - intros bytes Hb. rewrite Ha in Hb. destruct (Hn bytes Hb) as (t & Hack & _). by exists t.
Defined.
