(* ===== verification/GatewayLives.v ===== *)
(** * The gateway through losses of power

    A life of the gateway: runs of the system of GatewaySystem, cut short by losses of
    power, and starts of the queue on what the flash then holds, which may be cut short
    in their turn.  The flash keeps what one of the states it passed through held
    ([history]); all else is lost.  [acknowledged_survives] follows every acknowledged
    packet through any life.

    A loss of power in a step of the system leaves any state the flash passes through in
    the step, and the packets that had been sent when the last turn of the receiver
    before it had ended ([stages]): a turn writes to flash before it acknowledges. *)

From Stdlib Require Import ZArith Lia String.
From stdpp Require Import gmap list relations.
From S2P Require Import Prelude BuildConfig CString Platform Protocol ProtocolSpec.
From S2P Require Import ProtocolTheorems QueueRecord QueueRecordSpec Dedup QueueStorage.
From S2P Require Import DurableQueueCore DurableQueueTheorems FlashStorage FlashStorageLaws.
From S2P Require Import MemoryFlash FlashPower Pairing CommandStore Metrics PacketProcessor.
From S2P Require Import PacketProcessorTheorems DurableQueue RecentCodec DurableQueueWorld.
From S2P Require Import QueueRestart QueuePower QueueStart QueueAccount.
From S2P Require Import GatewayConfig Json BackendContract TimeManager Heartbeat WifiManager.
From S2P Require Import RadioService RadioServiceTheorems RadioSynthetic GatewayWorld.
From S2P Require Import BackendWorker BackendWorkerTheorems UploadGateway WorkerRounds QueueLedger.
From S2P Require Import GatewaySystem.
Open Scope Z_scope.

#[local] Abbreviation queue_of y := (gw_queue (sy_gateway y)).
#[local] Abbreviation flash_of y := (gw_flash (sy_gateway y)).
#[local] Abbreviation sent_by y := (sent (gw_device (sy_gateway y))).
#[local] Abbreviation contents y := (contentsOf (queue_of y) (flash_of y)).
#[local] Abbreviation on_flash d := (DurableQueueTheorems.stored (record_files d)).

(** ** What a loss of power leaves *)

Section Moments.
Context {F : Type} `{HistoryLaws F}.

(** The states of the flash from [e] to [e']. *)
Definition moments (e e' : F) : list Disk :=
  disk e :: drop (length (history e)) (history e') ++ [disk e'].

Lemma moments_passes (P : Disk -> Prop) (e e' : F) d :
  P (disk e) -> passes P e e' -> P (disk e') -> d ∈ moments e e' -> P d.
Proof.
  intros Hbefore (l & El & Hl) Hafter. unfold moments. rewrite El, drop_app_length.
  intros [->|[Hin| ->%list_elem_of_singleton]%elem_of_app]%elem_of_cons; [done| |done].
  rewrite Forall_forall in Hl. by apply Hl.
Qed.

Lemma moments_lasts (P : Disk -> Prop) (e e' : F) d :
  lasts P e e' -> P (disk e) -> d ∈ moments e e' -> P d.
Proof. intros K HP. destruct (K HP) as [A HP']. by apply moments_passes. Qed.

Lemma last_moment (e e' : F) : disk e' ∈ moments e e'.
Proof. unfold moments. rewrite elem_of_cons, elem_of_app, list_elem_of_singleton. auto. Qed.

Lemma contents_stored q (e : F) r :
  (exists rs, queue_ok q e rs) -> r ∈ contentsOf q e -> on_flash (disk e) r.
Proof.
  intros [rs K]. rewrite (contentsOf_ok _ _ _ K). pose proof (queue_ok_stored _ _ _ K) as Hst.
  rewrite Forall_forall in Hst. apply Hst.
Qed.

Lemma fated_stored d tr r : on_flash d r -> fated d tr r.
Proof. by left. Qed.

(** The changes account for every moment. *)
Lemma guarded_moments q (e : F) rs tr q' e' rs' d :
  queue_ok q e rs -> queue_ok q' e' rs' -> ring_filed e -> ledger q e tr q' e' ->
  d ∈ moments e e' -> guarded q e tr d.
Proof.
  intros K K' R L. apply moments_passes; [|by apply L|].
  - destruct R as (keys & Hk). split.
    + intros r Hin. left. eapply contents_stored; eauto.
    + exists keys. split; [done|]. intros key Hl. left. by exists keys.
  - assert (forall r, r ∈ contentsOf q' e' -> fated (disk e') [] r) as Hst
      by (intros r Hin; left; eapply contents_stored; eauto).
    rewrite <- (app_nil_r tr). eapply guarded_trans; [exact R|exact L|]. split; [exact Hst|].
    destruct (lg_filed _ _ _ _ _ L R) as (keys & Hk). exists keys. split; [done|].
    intros key Hl. left. by exists keys.
Qed.
End Moments.

(** ** Lives *)

Inductive Life (F D N : Type) :=
  | Running (s : BackendWorker * System F D N)
  | Off (d : Disk) (air : list (list Z)).
Arguments Running {F D N}.
Arguments Off {F D N}.

Section Lives.
Context (object_bytes : CommandStoreRecord -> list Z) (kBuildFlavor : list Z).
Context {F D N : Type} `{HistoryLaws F, DeviceLaws D}.
Context `{HttpClient N, WifiReadings N, Tasks N, SystemFigures N, HeartbeatSources N}.
Context `{JsonText, !JsonLaws}.
Implicit Type s : BackendWorker * System F D N.
Implicit Type x : Life F D N.
Implicit Type y : System F D N.

Abbreviation system_step := (system_step object_bytes kBuildFlavor).
Abbreviation confirmed := (confirmed object_bytes).

(** A start of the queue on a flash that holds [d]: the file system has been set up,
    and not all identifiers are used up. *)
Record begins (d : Disk) (f : F) (ok : bool) (q : DurableQueue) (f' : F) : Prop := {
  bg_disk : disk f = d;
  bg_set_up : set_up f;
  bg_ids : files f !! recordName (2 ^ 64 - 1) = None;
  bg_begin : queueBegin true DurableQueue_init f = (ok, q, f');
}.

(** The gateway as the step finds it, and after each turn of the receiver in it. *)
Definition stages s s' : list (Gateway F D) :=
  sy_gateway s.2 :: drop (length (sy_past s.2)) (sy_past s'.2).

(** What follows a step of the system, or a start: its outcome, or a loss of power on
    the way there. *)
Definition after_step s s' x' : Prop :=
  x' = Running s' \/
  exists g d, g ∈ stages s s' /\ d ∈ moments (gw_flash g) (flash_of s'.2) /\
    x' = Off d (sent (gw_device g)).

Definition after_start (f : F) (ok : bool) (q : DurableQueue) (f' : F) (air : list (list Z)) x' : Prop :=
  (exists s', x' = Running s' /\ ok = true /\ queue_of s'.2 = q /\ flash_of s'.2 = f' /\
     sent_by s'.2 = air /\ service_typed (sy_service s'.2)) \/
  exists d', d' ∈ moments f f' /\ x' = Off d' air.

Inductive life_step : Life F D N -> Life F D N -> Prop :=
  | life_system s s' x' : system_step s s' -> after_step s s' x' -> life_step (Running s) x'
  | life_start d air f ok q f' x' :
      begins d f ok q f' -> after_start f ok q f' air x' -> life_step (Off d air) x'.

(** The record is in the queue, or on the flash to start from. *)
Definition held x (r : QueueRecord) : Prop :=
  match x with Running s => r ∈ contents s.2 | Off d _ => on_flash d r end.

(** The key is in the ring or in its file. *)
Definition remembered x (key : TelemetryKey) : Prop :=
  match x with
  | Running s => dedupContains (dq_recent (queue_of s.2)) key = true \/ filed (flash_of s.2) key
  | Off d _ => exists keys, ring_file d keys /\ listed keys key
  end.

Definition air_of x : list (list Z) :=
  match x with Running s => sent_by s.2 | Off _ air => air end.

(** Why a record may go in a step: the backend has answered for it; it was the oldest
    of a full queue; a start found as many newer ones as the queue may hold; or a start
    could not read its file when recovery came to it. *)
Inductive given_up : Life F D N -> Life F D N -> QueueRecord -> Prop :=
  | given_confirmed s x' r : confirmed s.1 s.2 r -> given_up (Running s) x' r
  | given_oldest s s' x' tr r :
      system_step s s' -> after_step s s' x' ->
      changes (durableCapacity (queue_of s.2)) (contents s.2) tr (contents s'.2) ->
      DroppedOldest r ∈ tr -> given_up (Running s) x' r
  | given_displaced d air f ok q f' x' r :
      begins d f ok q f' -> after_start f ok q f' air x' -> displaced q (files f) r ->
      given_up (Off d air) x' r
  | given_unread d air f ok q f' x' r :
      begins d f ok q f' -> after_start f ok q f' air x' ->
      qr_recordId r ∈ start_unread f -> given_up (Off d air) x' r.

Definition life_ok x : Prop :=
  match x with
  | Running s => system_ok s.2 /\ ring_filed (flash_of s.2)
  | Off d _ => exists keys, ring_file d keys
  end.

(** From [x] to [x'] all records and keys are accounted for, and the new packets on the
    air; [lost]: the records that may be given up. *)
Definition accounted (lost : QueueRecord -> Prop) x x' (key : TelemetryKey) : Prop :=
  remembered x key \/ exists r, carries r key /\ (held x' r \/ lost r).

Record traced (lost : QueueRecord -> Prop) x x' : Prop := {
  tc_held r : held x r -> held x' r \/ lost r;
  tc_keys key : remembered x' key -> accounted lost x x' key;
  tc_air : exists new, air_of x' = air_of x ++ new /\
    Forall (fun bytes => exists t, acknowledges t bytes /\ accounted lost x x' (keyOf t)) new;
}.

Lemma traced_silent lost x x' :
  (forall r, held x r -> held x' r \/ lost r) ->
  (forall key, remembered x' key -> accounted lost x x' key) ->
  air_of x' = air_of x -> traced lost x x'.
Proof. intros Hh Hk Ea. split; [done..|]. exists []. by rewrite app_nil_r. Qed.

Lemma traced_refl lost x : traced lost x x.
Proof. apply traced_silent; [by left|by left|done]. Qed.

Lemma accounted_later lost1 lost2 x1 x2 x3 key :
  traced lost2 x2 x3 -> accounted lost1 x1 x2 key ->
  accounted (fun r => lost1 r \/ lost2 r) x1 x3 key.
Proof.
  intros T2 [Hm|(r & Hc & Hr)]; [by left|right]. exists r. split; [done|].
  destruct Hr as [Hr|Hr]; [|auto]. destruct (tc_held _ _ _ T2 r Hr); auto.
Qed.

Lemma accounted_since lost1 lost2 x1 x2 x3 key :
  traced lost1 x1 x2 -> traced lost2 x2 x3 -> accounted lost2 x2 x3 key ->
  accounted (fun r => lost1 r \/ lost2 r) x1 x3 key.
Proof.
  intros T1 T2 [Hm|(r & Hc & Hr)].
  - eapply accounted_later; [exact T2|]. by apply (tc_keys _ _ _ T1).
  - right. exists r. split; [done|]. tauto.
Qed.

Lemma traced_trans lost1 lost2 x1 x2 x3 :
  traced lost1 x1 x2 -> traced lost2 x2 x3 -> traced (fun r => lost1 r \/ lost2 r) x1 x3.
Proof.
  intros T1 T2. split.
  - intros r Hr. destruct (tc_held _ _ _ T1 r Hr) as [Hr2|]; [|auto].
    destruct (tc_held _ _ _ T2 r Hr2); auto.
  - intros key Hk. eapply accounted_since; [exact T1|exact T2|]. by apply (tc_keys _ _ _ T2).
  - destruct (tc_air _ _ _ T1) as (n1 & E1 & A1), (tc_air _ _ _ T2) as (n2 & E2 & A2).
    exists (n1 ++ n2). split; [by rewrite E2, E1, app_assoc|]. apply Forall_app. split.
    + eapply Forall_impl; [exact A1|]. intros bytes (t & ? & ?). exists t.
      split; [done|by eapply accounted_later].
    + eapply Forall_impl; [exact A2|]. intros bytes (t & ? & ?). exists t.
      split; [done|by eapply accounted_since].
Qed.

Lemma traced_mono (lost lost' : QueueRecord -> Prop) x x' :
  (forall r, lost r -> lost' r) -> traced lost x x' -> traced lost' x x'.
Proof.
  intros Hl [Hh Hk (new & Ea & Ha)].
  assert (forall key, accounted lost x x' key -> accounted lost' x x' key) as Hacc
    by (intros key [|(r & ? & [|])]; [by left|right; eauto..]).
  split; [intros r Hr; destruct (Hh r Hr); auto|auto|]. exists new. split; [done|].
  eapply Forall_impl; [exact Ha|]. intros bytes (t & ? & ?). eauto.
Qed.

(** ** One step *)

Lemma known_accounted (lost : QueueRecord -> Prop) s tr s' key :
  accounts s.2 tr s'.2 ->
  (forall r, DroppedOldest r ∈ tr \/ Answered r ∈ tr -> lost r) ->
  known (queue_of s.2) (flash_of s.2) tr key -> accounted lost (Running s) (Running s') key.
Proof.
  intros [L _ _] Hl [(r & Hin & Hc)|Hm]; [right|by left; left]. exists r. split; [done|].
  apply (changes_fate _ _ _ _ r (lg_changes _ _ _ _ _ L)) in Hin as [|]; [by left|right; by apply Hl].
Qed.

Lemma system_traced s s' :
  life_ok (Running s) -> system_step s s' ->
  life_ok (Running s') /\ traced (given_up (Running s) (Running s')) (Running s) (Running s').
Proof.
  intros [K R] Hs. destruct (step_accounted _ _ s s' K Hs) as (K' & tr & A & Hans).
  pose proof A as [L (new & Ea & Hnew) _].
  assert (forall r, DroppedOldest r ∈ tr \/ Answered r ∈ tr -> given_up (Running s) (Running s') r) as Hl.
  { intros r [Hr|Hr]; [|by apply given_confirmed, Hans].
    apply (given_oldest s s' _ tr); [done|by left|apply L|done]. }
  split; [split; [done|by apply L]|]. split.
  - intros r Hr. destruct (changes_fate _ _ _ _ r (lg_changes _ _ _ _ _ L)) as [|];
      [apply elem_of_app; by left|by left|right; by apply Hl].
  - intros key [Hm|Hf].
    + eapply known_accounted; [exact A|done|]. by apply (lg_recent _ _ _ _ _ L).
    + destruct (lg_keys _ _ _ _ _ L key R Hf) as [|Hk]; [by left; right|].
      by eapply known_accounted.
  - exists new. split; [done|]. eapply Forall_impl; [exact Hnew|]. intros bytes (t & Hack & Hk).
    exists t. split; [done|]. by eapply known_accounted.
Qed.

(** Every stage is seen on the way. *)
Lemma stages_seen s s' tr g :
  system_ok s.2 -> accounts s.2 tr s'.2 -> g ∈ stages s s' -> seen s.2 tr s'.2 g.
Proof.
  intros [K _] [L _ (past & Ep & Hpast)]. unfold stages. rewrite Ep, drop_app_length.
  intros [->|Hg]%elem_of_cons; [|rewrite Forall_forall in Hpast; by apply Hpast].
  exists [], tr. split_and!; [done|done|apply ledger_refl|apply aired_none|].
  intros R. eapply passes_mono; [|by apply (lg_power _ _ _ _ _ L)]. intros d G.
  split; [done|]. intros r Hr. apply G. by rewrite app_nil_r in Hr.
Qed.

(** From a stage on, every moment accounts for what has happened up to it. *)
Lemma seen_moments y tr y' g d :
  system_ok y -> system_ok y' -> ring_filed (flash_of y) ->
  ledger (queue_of y) (flash_of y) tr (queue_of y') (flash_of y') -> seen y tr y' g ->
  d ∈ moments (gw_flash g) (flash_of y') ->
  guarded (queue_of y) (flash_of y) tr d /\
  exists tr1, aired y tr1 (sent (gw_device g)) /\ fates (queue_of y) (flash_of y) tr1 tr d.
Proof.
  intros [[rs K] _] [[rs' K'] _] R L (tr1 & tr2 & -> & [rsg Kg] & Lg & Ag & Hp) Hd.
  assert (guarded (queue_of y) (flash_of y) (tr1 ++ tr2) d /\
          fates (queue_of y) (flash_of y) tr1 (tr1 ++ tr2) d) as [G Fa]; [|by split; [|exists tr1]].
  refine (moments_passes (fun d => guarded (queue_of y) (flash_of y) (tr1 ++ tr2) d /\
    fates (queue_of y) (flash_of y) tr1 (tr1 ++ tr2) d) _ _ d _ (Hp R) _ Hd); split.
  - apply guarded_app. eapply guarded_moments; [exact K|exact Kg|done..|apply last_moment].
  - apply (ledger_fates _ _ _ _ _ _ _ Lg). intros r Hr. apply fated_stored.
    apply (contents_stored (gw_queue g)); [by exists rsg|done].
  - eapply guarded_moments; [exact K|exact K'|done..|apply last_moment].
  - apply (fates_first _ _ _ tr2). rewrite <- (app_nil_r (tr1 ++ tr2)) at 2.
    apply (ledger_fates _ _ _ _ _ _ _ L). intros r Hr. apply fated_stored.
    apply (contents_stored (queue_of y')); [by exists rs'|done].
Qed.

Lemma cut_traced s s' g d :
  life_ok (Running s) -> system_step s s' -> g ∈ stages s s' ->
  d ∈ moments (gw_flash g) (flash_of s'.2) ->
  let x' := Off d (sent (gw_device g)) in
  life_ok x' /\ traced (given_up (Running s) x') (Running s) x'.
Proof.
  intros [K R] Hs Hg Hd x'. destruct (step_accounted _ _ s s' K Hs) as (K' & tr & A & Hans).
  pose proof (stages_seen _ _ _ _ K A Hg) as Hseen. pose proof (ac_ledger _ _ _ A) as L.
  destruct (seen_moments _ _ _ _ _ K K' R L Hseen Hd)
    as [[Hr (keys & Hk & Hkeys)] (tr1 & (new & Ea & Hnew) & Fa)].
  assert (forall r, fated d tr r -> held x' r \/ given_up (Running s) x' r) as Hfate.
  { intros r [|[Hin|Hin]]; [by left|right..]; [|by apply given_confirmed, Hans].
    apply (given_oldest s s' _ tr); [done|right; by exists g, d|apply L|done]. }
  split; [by exists keys|]. split.
  - intros r Hin. by apply Hfate, Hr.
  - intros key (keys' & Hk' & Hl). rewrite <- (ring_file_unique _ _ _ Hk Hk') in Hl.
    destruct (Hkeys key Hl) as [|[|(r & Hc & Hf)]]; [by left; right|by left; left|right].
    exists r. split; [done|by apply Hfate].
  - exists new. split; [exact Ea|]. eapply Forall_impl; [exact Hnew|].
    intros bytes (t & Hack & Hkn). exists t. split; [done|].
    destruct Hkn as [(r & Hin & Hc)|Hm]; [right|by left; left]. exists r. split; [done|].
    by apply Hfate, Fa.
Qed.

Lemma start_traced d air f q f' s' :
  life_ok (Off d air) -> begins d f true q f' -> queue_of s'.2 = q -> flash_of s'.2 = f' ->
  sent_by s'.2 = air -> service_typed (sy_service s'.2) ->
  life_ok (Running s') /\ traced (given_up (Off d air) (Running s')) (Off d air) (Running s').
Proof.
  intros (keys & Hk) B Eq Ef Ea T. pose proof B as [Ed Hset Hmax Hb]. rewrite <- Ed in Hk.
  destruct (queueBegin_restored _ _ _ _ Hk Hset Hmax Hb) as (all & Hall & Hs & K & _ & Hrec).
  destruct (begin_keeps_ring _ _ _ _ _ Hk Hset Hmax Hb (or_introl Hk)) as [_ Hk'].
  pose proof (contentsOf_ok _ _ _ K) as Ec. pose proof K as [(core & Hr & _) _].
  assert (forall r, held (Off d air) r -> held (Running s') r \/ given_up (Off d air) (Running s') r)
    as Hheld.
  { intros r Hst. cbn in Hst. rewrite <- Ed in Hst.
    destruct (decide (qr_recordId r ∈ start_unread f)) as [Hu|Hu];
      [right; apply (given_unread d air f true q f'); [done|left; by exists s'|done]|].
    destruct (newest_or_outnumbered (files f) all (durableCapacity q) r) as [Hn|Ho].
    - apply Forall_forall. intros x Hx. by apply Hall.
    - done.
    - by apply Hall.
    - left. cbn. by rewrite Eq, Ef, Ec.
    - right. apply (given_displaced d air f true q f'); [done|left; by exists s'|].
      exists core. rewrite <- (ready_capacity _ _ Hr). split; [by apply ready_core|done]. }
  assert (forall key, (exists keys', ring_file (disk f') keys' /\ listed keys' key) -> listed keys key)
    as Hfile.
  { intros key (keys' & Hk2 & Hl). destruct Hk' as [Hk'|[_ Hnone]].
    - by rewrite (ring_file_unique _ _ _ Hk' Hk2).
    - unfold ring_file in Hk2. rewrite Hnone in Hk2. subst keys'. done. }
  split; [split; [split; [rewrite Eq, Ef; by eexists|done]|rewrite Ef]|].
  { destruct Hk' as [Hk'|[_ Hnone]]; [by exists keys|]. exists []. unfold ring_file. by rewrite Hnone. }
  apply traced_silent; [exact Hheld| |by cbn]. intros key Hrem. left. exists keys.
  rewrite <- Ed. split; [done|]. cbn in Hrem. rewrite Eq, Ef in Hrem.
  destruct Hrem as [Hm|Hf]; [|by apply Hfile].
  rewrite contains_recent, Hrec in Hm. destruct (start_ring f); [exact Hm|].
  done.
Qed.

Lemma falter_traced d air f ok q f' d' :
  life_ok (Off d air) -> begins d f ok q f' -> d' ∈ moments f f' ->
  let x' := Off d' air in
  life_ok x' /\ traced (given_up (Off d air) x') (Off d air) x'.
Proof.
  intros (keys & Hk) B Hd x'. pose proof B as [Ed Hset Hmax Hb]. rewrite <- Ed in Hk.
  pose proof (begin_keeps_ring _ _ _ _ _ Hk Hset Hmax Hb) as Kr.
  pose proof (moments_lasts _ _ _ _ Kr (or_introl Hk) Hd) as Hk'.
  split; [destruct Hk' as [Hk'|[_ Hnone]]; [by exists keys|];
    exists []; unfold ring_file; by rewrite Hnone|]. apply traced_silent; [| |done].
  - intros r Hst. cbn in Hst. rewrite <- Ed in Hst.
    destruct (begin_keeps_record _ _ _ _ _ Hk Hset Hmax Hb r Hst) as [Kl|[Hdis|Hu]];
      [left|right..].
    + exact (moments_lasts _ _ _ _ Kl Hst Hd).
    + apply (given_displaced d air f ok q f'); [done|right; by exists d'|done].
    + apply (given_unread d air f ok q f'); [done|right; by exists d'|done].
  - intros key (keys' & Hk2 & Hl). left. exists keys. rewrite <- Ed.
    split; [done|]. destruct Hk' as [Hk'|[_ Hnone]].
    + by rewrite (ring_file_unique _ _ _ Hk' Hk2).
    + unfold ring_file in Hk2. rewrite Hnone in Hk2. subst keys'.
      done.
Qed.

Lemma step_traced x x' :
  life_ok x -> life_step x x' -> life_ok x' /\ traced (given_up x x') x x'.
Proof.
  intros K Hx. destruct Hx as [s s' x1 Hs Ha|d air f ok q f' x1 B Ha].
  - destruct Ha as [->|(g & d & Hg & Hd & ->)].
    + exact (system_traced _ _ K Hs).
    + exact (cut_traced _ _ _ _ K Hs Hg Hd).
  - destruct Ha as [(s' & -> & -> & Eq & Ef & Ea & T)|(d' & Hd & ->)].
    + exact (start_traced _ _ _ _ _ _ K B Eq Ef Ea T).
    + exact (falter_traced _ _ _ _ _ _ _ K B Hd).
Qed.

(** ** Whole lives *)

(** [r] has been given up in a step of the life from [x] to [x']. *)
Definition given_up_between x x' (r : QueueRecord) : Prop :=
  exists x1 x2, rtc life_step x x1 /\ life_step x1 x2 /\ rtc life_step x2 x' /\ given_up x1 x2 r.

Lemma life_traced x x' :
  rtc life_step x x' -> life_ok x -> life_ok x' /\ traced (given_up_between x x') x x'.
Proof.
  induction 1 as [x|x x1 x' Hs Hr IH]; intros K; [split; [done|apply traced_refl]|].
  destruct (step_traced _ _ K Hs) as [K1 T1]. destruct (IH K1) as [K' T2]. split; [done|].
  eapply traced_mono; [|exact (traced_trans _ _ _ _ _ T1 T2)]. intros r [Hg|(x2 & x3 & ? & ? & ? & ?)].
  - by exists x, x1.
  - exists x2, x3. split_and!; [by eapply rtc_l|done..].
Qed.

(** C1: acknowledged telemetry survives any life of the gateway, whatever the tasks, the
    network and the backend do and whenever the power goes: every packet put on the air
    acknowledges telemetry that was remembered in the beginning, or that is carried by
    a record which is in the queue in the end (on the flash, if the power is off), or
    has been given up on the way: because the backend has answered for it with status
    200, because it was the oldest of a full queue, because a start has found as many
    newer records as the queue may hold, or because a start could not read its file when
    recovery came to it. No record that was in the queue in the beginning goes for
    another reason. In such a life every start of the queue finds the mark in the
    preferences that the file system has been set up (without it a start may format),
    and the identifier 2^64 - 1 not in use ([begins]). *)
Theorem acknowledged_survives s x' :
  system_ok s.2 -> ring_filed (flash_of s.2) -> rtc life_step (Running s) x' ->
  life_ok x' /\
  (forall r, r ∈ contents s.2 -> held x' r \/ given_up_between (Running s) x' r) /\
  exists new, air_of x' = sent_by s.2 ++ new /\
    forall bytes, bytes ∈ new -> exists t, acknowledges t bytes /\
      (remembered (Running s) (keyOf t) \/
       exists r, carries r (keyOf t) /\ (held x' r \/ given_up_between (Running s) x' r)).
Proof.
  intros K R Hr. destruct (life_traced _ _ Hr (conj K R)) as [K' [Hh _ (new & Ea & Hnew)]].
  split_and!; [done|exact Hh|]. exists new. split; [exact Ea|]. intros bytes Hin.
  rewrite Forall_forall in Hnew. exact (Hnew bytes Hin).
Qed.
End Lives.

(** ** A life to compute

    A packet is received and acknowledged, the power goes before the turn of the
    receiver has ended, and the queue starts again with its record. *)

Import StartedFlash.

Abbreviation LoggedFlash := (@Logged MemoryFlash).

Definition lifeSystem : System LoggedFlash SimulatedDevice SimulatedNetwork :=
  mkSystem
    (mkGateway sampleQueue (emptyFlash, [])
       (mkSimulatedDevice [telemetryWire sampleTelemetry] [] None))
    sampleService (mkSimulatedNetwork []) [] [].

Definition lifeReceived : System LoggedFlash SimulatedDevice SimulatedNetwork :=
  radio_turn sampleObject Received lifeSystem.

Definition lifeFlash : LoggedFlash := ((flash_of lifeReceived).1, []).

Definition lifeStart := queueBegin true DurableQueue_init lifeFlash.

Definition lifeAgain : System LoggedFlash SimulatedDevice SimulatedNetwork :=
  mkSystem (mkGateway lifeStart.1.2 lifeStart.2 (gw_device (sy_gateway lifeReceived)))
    sampleService (mkSimulatedNetwork []) [] [].

Lemma lifeSystem_ok : system_ok lifeSystem.
Proof.
  split; [exists []|exact sampleService_typed].
  destruct sampleQueue_ok as [Hr Hg]. split; [exact Hr|exact Hg].
Qed.

Lemma lifeStart_begins :
  begins (disk lifeFlash) lifeFlash true lifeStart.1.2 lifeStart.2.
Proof.
  split; vm_compute; reflexivity.
Qed.

Lemma lifeStart_follows :
  after_start lifeFlash true lifeStart.1.2 lifeStart.2 (sent_by lifeReceived)
    (Running (sampleWorker, lifeAgain)).
Proof.
  left. exists (sampleWorker, lifeAgain).
  split; [reflexivity|]. split; [reflexivity|].
  do 3 (split; [vm_compute; reflexivity|]). exact sampleService_typed.

Qed.

Definition life : relation (Life LoggedFlash SimulatedDevice SimulatedNetwork) :=
  @life_step sampleObject [] LoggedFlash SimulatedDevice SimulatedNetwork
    _ _ _ _ _ _ _ _ _ _ _ _ _ _ _ uploadJson.

Lemma life_cut_off :
  life (Running (sampleWorker, lifeSystem)) (Off (disk lifeFlash) (sent_by lifeReceived)).
Proof.
  apply (life_system _ _ _ (sampleWorker, lifeReceived)); [apply (step_radio _ _ _ _ Received)|].
  right. exists (sy_gateway lifeReceived), (disk (flash_of lifeReceived)).
  split; [|split; [left|reflexivity]]. right. cbn [snd].
  rewrite (radio_turn_past sampleObject Received lifeSystem : sy_past lifeReceived = _). left.
Qed.

Lemma life_again :
  life (Off (disk lifeFlash) (sent_by lifeReceived)) (Running (sampleWorker, lifeAgain)).
Proof. exact (life_start _ _ _ _ _ _ _ _ _ lifeStart_begins lifeStart_follows). Qed.

Lemma acknowledged_survives_witness :
  contents lifeSystem = [] /\ length (contents lifeAgain) = 1%nat /\
  length (sent_by lifeAgain) = 1%nat /\
  forall bytes, bytes ∈ sent_by lifeAgain -> exists t, acknowledges t bytes.
Proof.
  split; [vm_compute; reflexivity|]. split; [vm_compute; reflexivity|].
  split; [vm_compute; reflexivity|].
  destruct (@acknowledged_survives sampleObject [] LoggedFlash SimulatedDevice SimulatedNetwork
    _ _ _ _ _ _ _ _ _ _ _ _ _ _ _ _ _ uploadJson (tree_json_laws _ _)
    (sampleWorker, lifeSystem) (Running (sampleWorker, lifeAgain))) as (_ & _ & new & Ea & Hn).
  - exact lifeSystem_ok.
  - exists []. vm_compute. reflexivity.
  - exact (rtc_l _ _ _ _ life_cut_off (rtc_once _ _ life_again)).
  - intros bytes Hb. cbn [air_of snd] in Ea. rewrite Ea in Hb.
    destruct (Hn bytes Hb) as (t & Hack & _). by exists t.
Defined.
