(* ===== verification/UploadLiveness.v ===== *)
(** * The queue drains

    While nothing fails - the flash reads and removes, the clock is trusted, the
    backend answers every batch in full - and no packet arrives, each round of the
    worker uploads one batch, and after ceil(length / batch size) rounds the queue is
    empty.  [HealthyWorld] says what "nothing fails" means for each call. *)

From Stdlib Require Import ZArith Lia String.
From stdpp Require Import list.
From S2P Require Import Prelude BuildConfig CString Platform Protocol ProtocolSpec QueueRecord.
From S2P Require Import QueueRecordSpec QueueRecordCodec Dedup DurableQueueCore CommandStore.
From S2P Require Import Metrics PacketProcessor DurableQueue.
From S2P Require Import RecentCodec DurableQueueWorld GatewayConfig UtcTime Json BackendContract.
From S2P Require Import TimeManager.
From S2P Require Import Heartbeat WifiManager RadioService BackendWorker BackendWorkerTheorems.
Open Scope Z_scope.

(** Every call succeeds and leaves a world in which the next one does, too. *)
Class HealthyWorld (W : Type)
    `{UploadQueue W, HttpClient W, WifiReadings W, TrustedTime W, MonotonicClock W,
      UploadObservations W, JsonText} := {
  healthy : W -> Prop;
  healthy_ok w : healthy w -> uw_ok w;
  healthy_size w :
    healthy w -> (uq_size w).1 = length (uploads w) /\ healthy (uq_size w).2 /\
      uploads (uq_size w).2 = uploads w;
  healthy_peek n w : healthy w -> (uq_peek n w).1.1 = true /\ healthy (uq_peek n w).2;
  healthy_finish actions w :
    healthy w -> NoDup (qa_recordId <$> actions) ->
    Forall (fun a => key_wf (qa_key a) /\
      qa_recordId a ∈ qr_recordId <$> uploads w) actions ->
    (uq_finish actions w).1 = true /\ healthy (uq_finish actions w).2;
  healthy_connected w : healthy w -> (wifi_connected w).1 = true /\ healthy (wifi_connected w).2;
  healthy_time w : healthy w -> ts_trusted (time_now w).1 = true /\ healthy (time_now w).2;
  healthy_clock w : healthy w -> healthy (nowUs w).2;
  healthy_begin tls timeout url w :
    healthy w -> (http_begin tls timeout url w).1 = true /\ healthy (http_begin tls timeout url w).2;
  healthy_post headers body w : healthy w -> healthy (http_POST headers body w).2;
  healthy_string w : healthy w -> healthy (http_getString w).2;
  healthy_end w : healthy w -> healthy (http_end w);
  (** The backend answers a batch with 200 and a result for each of its records. *)
  healthy_answer identity batch payload headers w :
    healthy w -> serializeBackendBatch identity batch = (true, payload) ->
    let '(status, w) := http_POST headers (text payload) w in
    status = 200 /\ exists results,
      parseBackendBatchResponse (Some (http_getString w).1) (length batch) = (true, results) /\
      length results = length batch;
}.

(** A record that can be put into a batch, and taken out again. *)
Definition deliverable (r : QueueRecord) : Prop := is_Some (readingOf r) /\ is_Some (telemetryOf r).

(** What the worker needs to be sending. *)
Record sending (b : BackendWorker) : Prop := {
  sd_bound : bw_bound b = true;
  sd_mutex : bw_mutex b = true;
  sd_token : default 0 (head (rt_token (bw_config b))) <> 0;
  sd_batch : 1 <= rt_batchSize (bw_config b) <= kBackendMaximumBatchSize;
}.

Definition batchOf (b : BackendWorker) : nat := Z.to_nat (rt_batchSize (bw_config b)).

Section Liveness.
Context {W : Type} `{UploadWorld W, Tasks W, HeartbeatSources W, SystemFigures W}.
Context `{JsonText, !JsonLaws, !HealthyWorld W}.

(** Nothing arrives. *)
Context (alone : forall w w', uw_ok w -> meanwhile w w' -> uploads w' = uploads w).

Lemma networkAvailable_healthy config w :
  healthy w -> exists w', networkAvailable config w = (true, w') /\ healthy w'.
Proof.
  intros G. unfold networkAvailable. destruct (healthy_connected w G) as [E G'].
  destruct (wifi_connected w) as [c w']. cbn in *. subst c. by exists w'.
Qed.

Lemma uptimeMs_healthy w : healthy w -> exists t w', uptimeMs w = (t, w') /\ healthy w'.
Proof.
  intros G. unfold uptimeMs. pose proof (healthy_clock w G) as G'.
  destruct (nowUs w) as [t w']. by exists (t / 1000), w'.
Qed.

Lemma time_healthy w :
  healthy w -> exists now w', time_now w = (now, w') /\ ts_trusted now = true /\ healthy w'.
Proof.
  intros G. destruct (healthy_time w G) as [E G']. destruct (time_now w) as [now w'].
  by exists now, w'.
Qed.

Lemma onStatus_keeps f b :
  bw_bound (onStatus f b) = bw_bound b /\ bw_mutex (onStatus f b) = bw_mutex b /\
  bw_config (onStatus f b) = bw_config b.
Proof. unfold onStatus. by destruct b as [bound [] task config st hs sch bc rr]. Qed.

Lemma setSuccess_healthy status b w :
  healthy w -> exists b' w', setSuccess status b w = (b', w') /\ healthy w' /\
    bw_bound b' = bw_bound b /\ bw_mutex b' = bw_mutex b /\ bw_config b' = bw_config b.
Proof.
  intros G. unfold setSuccess. destruct (bw_mutex b) eqn:Em; cbn [negb].
  - destruct (uptimeMs_healthy w G) as (t & w1 & -> & G1).
    destruct (time_healthy w1 G1) as (now & w2 & -> & _ & G2).
    eexists _, _. rewrite <- Em.
    split_and!; [reflexivity|done|apply onStatus_keeps..].
  - by exists b, w.
Qed.

Lemma performRequest_healthy config identity batch payload path error b w :
  healthy w -> bw_bound b = true -> serializeBackendBatch identity batch = (true, payload) ->
  exists response error' w' results,
    performRequest config (Some payload) path error true b w = (200, response, error', w') /\
    healthy w' /\ uploads w' = uploads w /\
    parseBackendBatchResponse (Some response) (length batch) = (true, results) /\
    length results = length batch.
Proof.
  intros G Hb Hs.
  cut (exists response error' w' results,
    performRequest config (Some payload) path error true b w = (200, response, error', w') /\
    healthy w' /\ parseBackendBatchResponse (Some response) (length batch) = (true, results) /\
    length results = length batch).
  { intros (response & error' & w' & results & E & ?). exists response, error', w', results.
    split_and!; [done|tauto| |tauto..]. apply performRequest_spec in E as (_ & M & _);
      [|by apply healthy_ok]. apply alone; [by apply healthy_ok|done]. }
  unfold performRequest.
  destruct (networkAvailable_healthy config w G) as (w1 & -> & G1). cbn [negb].
  match goal with |- context [let '(_, _) := ?f in _] =>
    assert (exists w2, f = (true, w2) /\ healthy w2) as (w2 & E2 & G2); [|rewrite E2; clear E2] end.
  { rewrite Hb. destruct (_ && _); [|by exists w1].
    destruct (time_healthy w1 G1) as (now & w2 & -> & -> & G2). by exists w2. }
  cbn [negb]. match goal with |- context [http_begin ?t ?n ?u w2] =>
    destruct (healthy_begin t n u w2 G2) as [E3 G3]; destruct (http_begin t n u w2) as [begun w3] end.
  cbn [fst snd] in *. subst begun. cbn [negb]. unfold exchange.
  match goal with |- context [http_POST ?h ?t w3] =>
    pose proof (healthy_answer identity batch payload h w3 G3 Hs) as Ha;
    pose proof (healthy_post h t w3 G3) as G4; destruct (http_POST h t w3) as [status w4] end.
  destruct Ha as (-> & results & Hp & Hl). cbn [fst snd] in *. change (0 <? 200) with true.
  pose proof (healthy_string w4 G4) as G5. destruct (http_getString w4) as [response w5].
  cbn [fst snd] in *. eexists response, _, _, results. split; [reflexivity|].
  split_and!; [by apply healthy_end|done|done].
Qed.

Lemma terminalActions_total batch results :
  Forall deliverable batch ->
  Forall (fun r => 0 <= br_index r < Z.of_nat (length batch)) results ->
  exists actions, terminalActions results batch = Some actions.
Proof.
  intros Hd. induction 1 as [|r results Hi _ [actions IH]]; [by exists []|]. cbn [terminalActions].
  destruct (lookup_lt_is_Some_2 batch (Z.to_nat (br_index r))) as [record Hl]; [lia|]. rewrite Hl.
  change (default QueueRecord_init (Some record)) with record.
  rewrite Forall_forall in Hd. destruct (Hd record (list_elem_of_lookup_2 _ _ _ Hl)) as [_ [t Ht]].
  unfold telemetryOf in Ht. destruct (decodeTelemetry _ _ _) as [status t'].
  case_bool_decide; [|done]. cbn [negb]. rewrite IH. by eexists.
Qed.

(** Results for distinct records make actions for distinct records. *)
Lemma answered_ids batch results :
  NoDup (qr_recordId <$> batch) -> NoDup (br_index <$> results) ->
  Forall (fun r => 0 <= br_index r < Z.of_nat (length batch)) results ->
  NoDup ((fun r => qr_recordId (default QueueRecord_init (batch !! Z.to_nat (br_index r))))
    <$> results).
Proof.
  intros Hb Hd Hr. induction Hr as [|r results Hi Hr IH]; [constructor|].
  rewrite fmap_cons in Hd |- *. apply NoDup_cons in Hd as [Hn Hd].
  apply NoDup_cons. split; [|auto]. intros (r' & E & Hr')%list_elem_of_fmap.
  rewrite Forall_forall in Hr. pose proof (Hr r' Hr') as Hi'.
  destruct (lookup_lt_is_Some_2 batch (Z.to_nat (br_index r))) as [x Hx]; [lia|].
  destruct (lookup_lt_is_Some_2 batch (Z.to_nat (br_index r'))) as [x' Hx']; [lia|].
  rewrite Hx, Hx' in E. cbn in E.
  assert (Z.to_nat (br_index r) = Z.to_nat (br_index r')) as Ei.
  { eapply NoDup_lookup; [exact Hb|rewrite list_lookup_fmap, Hx; reflexivity|].
    rewrite list_lookup_fmap, Hx'. cbn. by rewrite E. }
  apply Hn, list_elem_of_fmap. exists r'. split; [lia|done].
Qed.

(** An answer for every record of the batch ends the request with success. *)
Lemma takeAnswer_healthy status response batch results b w :
  healthy w -> Forall deliverable batch -> batch <> [] ->
  Forall record_wf batch -> NoDup (qr_recordId <$> batch) -> batch ⊆ uploads w ->
  (length batch <= Z.to_nat kBackendMaximumBatchSize)%nat ->
  parseBackendBatchResponse (Some response) (length batch) = (true, results) ->
  length results = length batch ->
  exists b' w', takeAnswer status response batch b w = (true, true, b', w') /\ healthy w' /\
    bw_bound b' = bw_bound b /\ bw_mutex b' = bw_mutex b /\ bw_config b' = bw_config b.
Proof.
  intros G Hd Hne Hwf Hnd Hsub Hn Hp Hl. unfold takeAnswer. rewrite Hp. cbn [negb].
  destruct (parse_spec _ _ _ Hn Hp) as (document & items & _ & _ & _ & Hdi & Hr & _).
  destruct (terminalActions_total batch results Hd Hr) as [actions Et]. rewrite Et.
  destruct (terminalActions_spec _ _ _ Hwf Hr Et) as (Hterm & Hkeys & Hids).
  assert (NoDup (qa_recordId <$> actions)) as Hnda
    by (rewrite Hids; by apply answered_ids).
  assert (Forall (fun a => key_wf (qa_key a) /\
    qa_recordId a ∈ qr_recordId <$> uploads w) actions) as Hact.
  { rewrite Forall_forall in Hterm, Hkeys |- *. intros a Ha. split; [by apply Hkeys|].
    destruct (Hterm a Ha) as [(r & record & _ & Hrec & -> & _)].
    apply list_elem_of_fmap. exists record. split; [done|].
    by eapply Hsub, list_elem_of_lookup_2. }
  match goal with |- context [let '(_, _) := ?f in _] =>
    assert (exists w1, f = (true, w1) /\ healthy w1) as (w1 & -> & G1) end.
  { destruct actions as [|a actions]; [by exists w|].
    destruct (healthy_finish (a :: actions) w G Hnda Hact) as [E1 G1].
    destruct (uq_finish (a :: actions) w) as [f w1]. cbn in *. subst f. by exists w1. }
  cbn [negb]. assert (backendBatchResponseComplete (length batch) results = true) as ->.
  { unfold backendBatchResponseComplete. rewrite Hl, Nat.eqb_refl, andb_true_r.
    apply Nat.ltb_lt. destruct batch; [done|cbn; lia]. }
  cbn [negb]. destruct (setSuccess_healthy status b w1 G1) as (b' & w' & -> & ?). by exists b', w'.
Qed.

Lemma serialize_total identity batch :
  (forall document, serializeJson document <> []) -> Forall deliverable batch -> batch <> [] ->
  Z.of_nat (length batch) <= kBackendMaximumBatchSize ->
  exists payload, serializeBackendBatch identity batch = (true, payload).
Proof.
  intros Hj Hd Hne Hn. unfold serializeBackendBatch, batchDocument.
  destruct (Nat.eqb_spec (length batch) 0) as [El|_]; [by destruct batch|].
  destruct (Z.ltb_spec kBackendMaximumBatchSize (Z.of_nat (length batch))) as [|_]; [lia|]. cbn [orb].
  assert (is_Some (mapM readingOf batch)) as [readings ->].
  { apply mapM_is_Some. eapply Forall_impl; [exact Hd|]. by intros r []. }
  eexists. f_equal. match goal with |- context [serializeJson ?d] =>
    specialize (Hj d); by destruct (serializeJson d) end.
Qed.

(** What a round leaves of the worker. *)
Definition kept (b b' : BackendWorker) : Prop :=
  bw_bound b' = bw_bound b /\ bw_mutex b' = bw_mutex b /\ bw_config b' = bw_config b.

Lemma kept_trans b1 b2 b3 : kept b1 b2 -> kept b2 b3 -> kept b1 b3.
Proof. unfold kept. intros (-> & -> & ->). tauto. Qed.

Lemma sending_kept b b' : sending b -> kept b b' -> sending b'.
Proof. intros [H1' H2' H3' H4'] (E1 & E2 & E3). split; congruence. Qed.

Context (printed : forall document, serializeJson document <> []).

Lemma uploadOnce_healthy b w :
  healthy w -> sending b -> uploads w <> [] -> Forall deliverable (uploads w) ->
  exists b' w', uploadOnce b w = (true, true, b', w') /\ healthy w' /\ kept b b'.
Proof.
  intros G [Hb Hm Ht Hn] Hne Hd. unfold uploadOnce.
  assert (configSnapshot b = bw_config b) as -> by (unfold configSnapshot; by rewrite Hm).
  fold (batchOf b). pose proof (healthy_ok w G) as Hw.
  destruct (healthy_peek (batchOf b) w G) as [E1 G1].
  destruct (uq_peek (batchOf b) w) as [[peeked records] w1] eqn:Ep. cbn in E1, G1. subst peeked.
  apply upload_peek in Ep as (_ & Q1 & ->); [|done].
  set (batch := take (batchOf b) (uploads w)).
  assert (batch <> [] /\ (length batch <= Z.to_nat kBackendMaximumBatchSize)%nat /\
    Forall deliverable batch) as (Hbne & Hbl & Hbd).
  { unfold batch, batchOf. split_and!; [|rewrite length_take; lia|by apply Forall_take].
    destruct (Z.to_nat _) eqn:En; [lia|]. by destruct (uploads w). }
  assert ((length batch =? 0)%nat = false) as -> by (apply Nat.eqb_neq; by destruct batch).
  cbn [negb orb].
  destruct (serialize_total (rt_identity (bw_config b)) batch printed Hbd Hbne) as [payload Es];
    [unfold kBackendMaximumBatchSize in *; lia|]. rewrite Es. cbn [negb]. rewrite Hm.
  destruct (uptimeMs_healthy w1 G1) as (t & w2 & Et & G2). rewrite Et.
  assert (uploads w2 = uploads w) as U2.
  { apply uptimeMs_same in Et. destruct (Et (healthy_ok _ G1)) as [_ ->%quiet_uploads].
    by apply quiet_uploads. }
  set (b2 := onStatus _ b). destruct (onStatus_keeps (fun s => setBackendState "UPLOADING" s
    <| bs_lastAttemptUptimeMs := t |>) b) as (K1 & K2 & K3). fold b2 in K1, K2, K3.
  destruct (performRequest_healthy (bw_config b) (rt_identity (bw_config b)) batch payload (chars "/api/v1/iot/telemetry/batch")
    (Some (zeros 128)) b2 w2 G2) as (response & error & w3 & results & -> & G3 & U3 & Hp & Hl);
    [congruence|exact Es|]. cbn [negb].
  change (backendHttpResponseMayDequeue 200) with true. cbn [negb].
  destruct (uploads_wf w Hw) as [Hwf Hnd].
  destruct (takeAnswer_healthy 200 response batch results b2 w3) as (b' & w' & E & G' & K');
    [done|done|done|by apply Forall_take| | |done|done|done|].
  { unfold batch. rewrite fmap_take. by eapply sublist_NoDup, sublist_take. }
  { rewrite U3, U2. apply subseteq_take. }
  exists b', w'. split_and!; [exact E|done|]. by eapply kept_trans.
Qed.

Lemma left_over_batch n l removed :
  NoDup (qr_recordId <$> l) ->
  (forall r, r ∈ take n l -> qr_recordId r ∈ qa_recordId <$> removed) ->
  Forall (fun a => exists r, r ∈ take n l /\ qa_recordId a = qr_recordId r) removed ->
  left_over removed l = drop n l.
Proof.
  intros Hnd Hall Hin. unfold left_over. rewrite <- (take_drop n l) at 1.
  rewrite filter_app. rewrite <- (take_drop n l), fmap_app in Hnd.
  apply NoDup_app in Hnd as (_ & Hdis & _).
  rewrite (filter_none _ (take n l)), (filter_all _ (drop n l)); [done|..]; apply Forall_forall.
  - intros r Hr (a & Ea & Ha)%list_elem_of_fmap. rewrite Forall_forall in Hin.
    destruct (Hin a Ha) as (r' & Hr' & Er). apply (Hdis (qr_recordId r')).
    + apply list_elem_of_fmap. by exists r'.
    + apply list_elem_of_fmap. exists r. by rewrite <- Er, Ea.
  - intros r Hr. auto.
Qed.

Lemma uploadOnce_drains b w b' w' :
  uw_ok w -> bw_mutex b = true -> uploadOnce b w = (true, true, b', w') ->
  uploads w' = drop (batchOf b) (uploads w).
Proof.
  intros Hw Hm E. apply uploadOnce_spec in E as (_ & w1 & removed & G1 & M & F & Ha & Hs); [|done].
  assert (configSnapshot b = bw_config b) as Ec by (unfold configSnapshot; by rewrite Hm).
  rewrite Ec in *. fold (batchOf b) in *. destruct (Hs eq_refl) as (_ & _ & Hall).
  rewrite (finishing_uploads _ _ _ G1 F), (alone _ _ Hw M).
  apply left_over_batch; [apply uploads_wf, Hw|exact Hall|].
  destruct Ha as [->|(payload & response & results & _ & _ & _ & Ht)]; [constructor|].
  eapply Forall_impl; [exact Ht|]. intros a [(x & record & _ & Hl & Hid & _)]. exists record.
  split; [by eapply list_elem_of_lookup_2|done].
Qed.

Lemma backendRound_healthy kBuildFlavor b w :
  healthy w -> sending b -> uploads w <> [] -> Forall deliverable (uploads w) ->
  exists b' w', backendRound kBuildFlavor b w = (PauseDelay 50, b', w') /\ healthy w' /\ kept b b' /\
    uploads w' = drop (batchOf b) (uploads w).
Proof.
  intros G S Hne Hd. pose proof S as [Hb Hm Ht Hn]. unfold backendRound.
  destruct (healthy_size w G) as (E1 & G1 & U1). destruct (uq_size w) as [size w1]. cbn in *. subst size.
  destruct (Nat.eqb_spec (length (uploads w)) 0) as [El|_]; [by destruct (uploads w)|].
  assert (configSnapshot b = bw_config b) as -> by (unfold configSnapshot; by rewrite Hm).
  assert (forall w2, healthy w2 -> uploads w2 = uploads w ->
    exists b' w', uploadRound b w2 = (PauseDelay 50, b', w') /\ healthy w' /\ kept b b' /\
      uploads w' = drop (batchOf b) (uploads w)) as Hround.
  { intros w2 G2 U2. destruct (uploadOnce_healthy b w2 G2 S) as (b' & w' & E & G' & K);
      [by rewrite U2|by rewrite U2|]. exists b', w'. unfold uploadRound. rewrite E.
    split_and!; [done..|]. rewrite <- U2. eapply uploadOnce_drains; [by apply healthy_ok|done..]. }
  destruct (networkAvailable (bw_config b) w1) as [available w2] eqn:E2.
  destruct (networkAvailable_healthy (bw_config b) w1 G1) as (w2' & E2' & G2).
  rewrite E2 in E2'. injection E2' as -> <-. apply networkAvailable_same in E2.
  destruct (E2 (healthy_ok _ G1)) as [_ Q2%quiet_uploads]. cbn [negb].
  destruct (Z.eqb_spec (default 0 (head (rt_token (bw_config b)))) 0) as [|_]; [done|].
  destruct (startsWith _ _); cbn [negb]; [|by apply Hround; [|congruence]].
  destruct (healthy_time w2 G2) as [E3 G3]. pose proof (upload_time w2 (healthy_ok _ G2)) as [_ Q3].
  apply quiet_uploads in Q3. destruct (time_now w2) as [now w3]. cbn in E3, G3, Q3. rewrite E3.
  cbn [negb]. apply Hround; [done|congruence].
Qed.

(** [n] rounds of the worker. *)
Fixpoint backendRounds (kBuildFlavor : list Z) (n : nat) (b : BackendWorker) (w : W)
  : list Pause * BackendWorker * W :=
  match n with
  | O => ([], b, w)
  | S n =>
      let '(pause, b, w) := backendRound kBuildFlavor b w in
      let '(pauses, b, w) := backendRounds kBuildFlavor n b w in
      (pause :: pauses, b, w)
  end.

(** C4: the queue drains: while every call succeeds, the backend answers each batch in
    full and no packet arrives, the k-th round of the worker uploads the k-th batch -
    after k rounds exactly the first k batches have left the queue, oldest first, and
    each round ends with the short pause -, so that ceil(length / batch size) rounds
    empty it. *)
Theorem queue_drains kBuildFlavor k b w :
  healthy w -> sending b -> Forall deliverable (uploads w) ->
  (k * batchOf b < length (uploads w) + batchOf b)%nat ->
  exists b' w', backendRounds kBuildFlavor k b w = (replicate k (PauseDelay 50), b', w') /\
    healthy w' /\ uploads w' = drop (k * batchOf b) (uploads w) /\
    ((length (uploads w) <= k * batchOf b)%nat -> uploads w' = []).
Proof.
  intros G S Hd Hk.
  assert (exists b' w', backendRounds kBuildFlavor k b w = (replicate k (PauseDelay 50), b', w') /\
    healthy w' /\ uploads w' = drop (k * batchOf b) (uploads w)) as (b' & w' & E & G' & U).
  { revert b w G S Hd Hk. induction k as [|k IH]; intros b w G S Hd Hk; [by exists b, w|].
    destruct (backendRound_healthy kBuildFlavor b w G S) as (b1 & w1 & E1 & G1 & K & U1);
      [intros El; rewrite El in Hk; cbn in Hk; lia|done|].
    assert (batchOf b1 = batchOf b) as Eb by (destruct K as (_ & _ & Ec); unfold batchOf; by rewrite Ec).
    destruct (IH b1 w1 G1) as (b' & w' & E & G' & U').
    - by eapply sending_kept.
    - rewrite U1. by apply Forall_drop.
    - rewrite Eb, U1, length_drop. cbn in Hk. lia.
    - exists b', w'. cbn [backendRounds replicate]. rewrite E1, E. split_and!; [done|done|].
      by rewrite U', U1, Eb, drop_drop. }
  exists b', w'. split_and!; [done|done|done|]. intros Hl. rewrite U. by apply drop_ge.
Qed.
End Liveness.
