(* ===== verification/FlashHealth.v ===== *)
(** * A flash without failures

    [IntactFlash]: a state of the file system in which every call the queue makes
    succeeds.  On such a flash peeking and finishing answer true. *)

From Stdlib Require Import ZArith Lia String.
From stdpp Require Import gmap list sorting.
From S2P Require Import Prelude BuildConfig CString Platform Protocol ProtocolSpec QueueRecord.
From S2P Require Import QueueRecordSpec QueueRecordCodec Dedup QueueStorage DurableQueueCore.
From S2P Require Import DurableQueueSpec DurableQueueTheorems FlashStorage FlashStorageLaws.
From S2P Require Import MemoryFlash CommandStore Metrics PacketProcessor DurableQueue.
From S2P Require Import RecentCodec DurableQueueWorld GatewayWorld.
Open Scope Z_scope.

Class IntactFlash (E : Type) `{EnvironmentLaws E} := {
  intact : E -> Prop;
  intact_open p e :
    intact e -> intact (fs_open p e).2 /\
      forall bytes, disk e !! p = Some bytes -> (fs_open p e).1 = Some (false, length bytes);
  intact_read p n e :
    intact e -> intact (fs_read p n e).2 /\
      forall bytes, disk e !! p = Some bytes -> length (fs_read p n e).1 = Nat.min n (length bytes);
  intact_remove p e :
    intact e -> intact (fs_remove p e).2 /\ (is_Some (disk e !! p) -> (fs_remove p e).1 = true);
  intact_unlink p e : intact e -> intact (vfs_unlink p e).2 /\ (vfs_unlink p e).1 <> VfsError;
  intact_write p bytes e :
    intact e -> intact (fs_write p bytes e).2 /\ (fs_write p bytes e).1 = Some (length bytes);
  intact_rename a b e :
    intact e -> intact (fs_rename a b e).2 /\
      (is_Some (disk e !! a) -> (fs_rename a b e).1 = true);
  intact_put k v e : intact e -> intact (prefs_putULong64 k v e).2;
  intact_millis e : intact e -> intact (millis e).2;
}.

Section Intact.
Context {E : Type} `{IntactFlash E}.

Lemma readRecord_intact id bytes (e : E) :
  intact e -> valid_id id -> files e !! recordName id = Some bytes ->
  (length bytes <= kMaximumEncodedBytes)%nat ->
  exists e', readRecord (recordName id) e = (Some bytes, e') /\ intact e'.
Proof.
  intros I Hid Hf Hl. destruct (readRecord (recordName id) e) as [o e'] eqn:Er.
  pose proof Er as Er'. cbn in Er'. unfold flash_readRecord in Er'.
  change (files e) with (record_files (disk e)) in Hf.
  rewrite lookup_record_files in Hf by done. rewrite fullPath_recordName in Er'.
  destruct (intact_open (queuePath (recordName id)) e I) as [I1 E1].
  destruct (fs_open _ e) as [file e1] eqn:Eo. cbn [fst snd] in *.
  rewrite (E1 _ Hf) in Er'. cbn [orb] in Er'.
  destruct (Nat.ltb_spec kMaximumEncodedBytes (length bytes)) as [|_]; [lia|].
  destruct (intact_read (queuePath (recordName id)) (length bytes) e1 I1) as [I2 E2].
  apply open_keeps in Eo. rewrite Eo in E2. specialize (E2 _ Hf).
  destruct (fs_read _ _ e1) as [bs e2] eqn:Ed. cbn [fst snd] in *.
  rewrite Nat.min_id in E2. rewrite E2, Nat.eqb_refl in Er'.
  apply (read_law _ _ _ _ _ bytes) in Ed; [|by rewrite Eo].
  injection Er' as <- <-. exists e2. split; [|done]. by rewrite Ed, E2, firstn_all.
Qed.

Lemma load_intact (e : E) entry r :
  intact e -> holds (files e) entry r ->
  exists e', loadRecord (recordName (e_recordId entry)) e = (Some r, e') /\ intact e'.
Proof.
  intros I [Hid Hf W _ _]. unfold loadRecord.
  pose proof (proj2 (queueDecode_some _ r (recordWire_bytes r (rw_typed _ W))) (conj W eq_refl)) as Ed.
  destruct (readRecord_intact (e_recordId entry) (recordWire r) e) as (e' & -> & I'); try done.
  { destruct (le_lt_dec (length (recordWire r)) kMaximumEncodedBytes) as [|Hl]; [done|].
    apply queueDecode_long in Hl. by rewrite Ed in Hl. }
  exists e'. by rewrite Ed.
Qed.

Lemma peekLoop_intact es rs (e : E) :
  intact e -> Forall2 (holds (files e)) es rs ->
  exists e', peekLoop es e = (Some rs, e') /\ intact e'.
Proof.
  revert rs e. induction es as [|entry es IH]; intros rs e I Hh;
    inversion Hh as [|? r ? rs' He Hh']; subst; cbn [peekLoop]; [by exists e|].
  destruct (load_intact e entry r I He) as (e1 & E1 & I1). rewrite E1.
  apply loadRecord_keeps in E1. rewrite <- E1 in Hh'.
  destruct (IH rs' e1 I1 Hh') as (e2 & -> & I2). by exists e2.
Qed.

Lemma queuePeek_intact n q (e : E) rs :
  intact e -> queue_ok q e rs ->
  exists out q' e', queuePeek n q e = (true, out, q', e') /\ intact e'.
Proof.
  intros I [(core & Hr & C) _]. unfold queuePeek, peek. rewrite Hr.
  destruct (peekLoop_intact (take (Nat.min n (length (c_entries core))) (c_entries core))
    (take (Nat.min n (length (c_entries core))) rs) e I) as (e' & -> & I');
    [apply Forall2_take, C|]. by eexists _, _, e'.
Qed.

Lemma queueRemove_intact id c (e : E) rs :
  intact e -> core_ok c (files e) rs -> id ∈ qr_recordId <$> rs ->
  exists c' e', queueRemove id c e = (true, c', e') /\ intact e'.
Proof.
  intros I C Hin. unfold queueRemove. pose proof (co_holds _ _ _ C) as Hh.
  destruct (list_find (has_id id) (c_entries c)) as [[i entry]|] eqn:Ef.
  - apply (list_find_ids _ _ _ _ _ _ Hh) in Ef as (r & _ & _ & _ & [Hid Hf _ _ _]). cbn.
    unfold flash_removeRecord. rewrite fullPath_recordName.
    destruct (intact_remove (queuePath (recordName (e_recordId entry))) e I) as [I1 E1].
    change (files e) with (record_files (disk e)) in Hf.
    rewrite lookup_record_files in Hf by done.
    destruct (fs_remove _ e) as [removed e1]. cbn [fst snd] in *. rewrite E1; [|by eexists].
    by eexists _, e1.
  - apply list_find_None in Ef. rewrite (holds_ids _ _ _ Hh) in Hin.
    apply list_elem_of_fmap in Hin as (entry & -> & Hin).
    rewrite Forall_forall in Ef. by destruct (Ef entry Hin).
Qed.

(** ** Finishing *)

Definition in_queue (rs : list QueueRecord) (a : QueueTerminalAction) : Prop :=
  key_wf (qa_key a) /\ qa_recordId a ∈ qr_recordId <$> rs.

Lemma in_queue_left rs action actions :
  qa_recordId action ∉ qa_recordId <$> actions -> Forall (in_queue rs) actions ->
  Forall (in_queue (filter (fun r => qr_recordId r <> qa_recordId action) rs)) actions.
Proof.
  intros Hn Ha. rewrite !Forall_forall in Ha |- *. intros a Hin. destruct (Ha a Hin) as [Hb Hid].
  split; [done|]. apply list_elem_of_fmap in Hid as (r & Er & Hr). apply list_elem_of_fmap.
  exists r. split; [done|]. apply list_elem_of_filter. split; [|done]. intros E1.
  apply Hn. rewrite <- E1, <- Er. apply list_elem_of_fmap. by exists a.
Qed.

Lemma finishActions_intact actions core changed q (e : E) rs :
  intact e -> core_ok core (files e) rs -> Forall (in_queue rs) actions ->
  NoDup (qa_recordId <$> actions) ->
  exists changed' core' q' e',
    finishActions actions core true changed q e = (true, changed', core', q', e') /\ intact e'.
Proof.
  revert core changed q e rs. induction actions as [|action actions IH];
    intros core changed q e rs I C Ha Hnd; cbn [finishActions]; [by eexists _, _, _, e|].
  rewrite fmap_cons in Hnd. apply NoDup_cons in Hnd as [Hn Hnd].
  apply Forall_cons in Ha as [[_ Hid] Ha].
  destruct (queueRemove_intact _ _ _ _ I C Hid) as (core1 & e1 & E1 & I1). rewrite E1. cbn [negb].
  apply (queueRemove_filter _ _ rs) in E1; [|done].
  destruct (remember _ _) as [remembered ring]. eapply IH; [done|exact E1| |done].
  by apply in_queue_left.
Qed.

Lemma unlink_intact p (e : E) :
  intact e -> exists e', silentlyUnlink p e = (true, e') /\ intact e'.
Proof.
  intros I. unfold silentlyUnlink. destruct (intact_unlink (mountedPath p) e I) as [I1 E1].
  destruct (vfs_unlink _ e) as [r e1]. cbn in *. exists e1. split; [|done]. by destruct r.
Qed.

Lemma persistRecent_intact q (e : E) :
  intact e -> ring_wf (dq_recent q) -> exists e', persistRecent q e = (true, e') /\ intact e'.
Proof.
  intros I R. unfold persistRecent. destruct (unlink_intact kRecentTempPath e I) as (e1 & -> & I1).
  cbn [negb]. destruct (intact_write kRecentTempPath (encodeRecent (dq_recent q)) e1 I1) as [I2 E2].
  destruct (fs_write _ _ e1) as [written e2] eqn:Ew. cbn [fst snd] in *. subst written.
  apply write_law in Ew as [_ Ed]; [|by apply encodeRecent_bytes].
  rewrite Nat.eqb_refl. cbn [negb].
  destruct (intact_rename kRecentTempPath kRecentPath e2 I2) as [I3 E3].
  destruct (fs_rename _ _ e2) as [renamed e3]. cbn [fst snd] in *. exists e3.
  rewrite E3; [done|]. rewrite Ed, lookup_insert_eq. by eexists.
Qed.

Lemma checkpoint_intact force q (e : E) :
  intact e -> intact (checkpointCountersUnlocked force q e).2.
Proof.
  intros I. unfold checkpointCountersUnlocked, persistCounters.
  pose proof (intact_millis e I) as I0. destruct (millis e) as [now e0]. cbn in I0.
  destruct (_ && _); [done|].
  repeat match goal with
  | |- context [prefs_putULong64 ?k ?v ?e0] =>
      match goal with I : intact e0 |- _ =>
        let I' := fresh "I" in let n := fresh "n" in let e' := fresh "e" in
        pose proof (intact_put k v e0 I) as I'; destruct (prefs_putULong64 k v e0) as [n e'];
        cbn [snd] in I' end
  end.
  destruct (forallb _ _); [|done].
  match goal with |- context [millis ?e] => match goal with I : intact e |- _ =>
    pose proof (intact_millis e I); destruct (millis e) end end. done.
Qed.

Lemma finish_intact actions q (e : E) rs :
  intact e -> queue_ok q e rs -> Forall (in_queue rs) actions -> NoDup (qa_recordId <$> actions) ->
  exists q' e', finish actions q e = (true, q', e') /\ intact e'.
Proof.
  intros I [(core & Hr & C) R] Ha Hnd. unfold finish. rewrite Hr.
  destruct (finishActions_intact actions core false q e rs I C Ha Hnd)
    as (changed & core1 & q1 & e1 & Ef & I1). rewrite Ef.
  apply (finishActions_spec _ _ _ _ _ _ rs) in Ef as (removed & _ & _ & R1 & _); [|done..|].
  2: { eapply Forall_impl; [exact Ha|]. by intros a []. }
  set (q2 := q1 <| dq_core := Some core1 |>).
  assert (ring_wf (dq_recent q2)) as R2 by (unfold q2; by destruct q1). clearbody q2.
  match goal with |- context [if changed then ?x else ?y] =>
    assert (exists q3 e3, (if changed then x else y) = (true, q3, e3) /\ intact e3)
      as (q3 & e3 & -> & I3) end.
  { destruct changed; [|by eexists _, e1].
    destruct (persistRecent_intact q2 e1 I1 R2) as (e2 & -> & I2). by eexists _, e2. }
  pose proof (checkpoint_intact false q3 e3 I3) as I4.
  destruct (checkpointCountersUnlocked false q3 e3) as [q4 e4]. by exists q4, e4.
Qed.
End Intact.
