(* ===== verification/GatewayDrain.v ===== *)
(** * The queue of the gateway drains

    The durable queue on an intact flash, with a network on which every request is
    answered and a backend that answers every batch in full, is a [HealthyWorld]. *)

From Stdlib Require Import ZArith Lia String.
From stdpp Require Import gmap list.
From S2P Require Import Prelude BuildConfig CString Platform Protocol ProtocolSpec.
From S2P Require Import ProtocolTheorems QueueRecord QueueRecordSpec QueueRecordCodec Dedup.
From S2P Require Import QueueStorage DurableQueueCore DurableQueueSpec DurableQueueTheorems.
From S2P Require Import FlashStorage FlashStorageLaws MemoryFlash CommandStore Metrics.
From S2P Require Import PacketProcessor PacketProcessorTheorems DurableQueue DurableQueueWorld.
From S2P Require Import QueueAccount GatewayConfig UtcTime Json BackendContract TimeManager.
From S2P Require Import Heartbeat WifiManager RadioService GatewayWorld BackendWorker.
From S2P Require Import BackendWorkerTheorems UploadGateway UploadLiveness FlashHealth.
Open Scope Z_scope.

#[export] Instance MemoryFlash_intact : IntactFlash MemoryFlash.
Proof.
  refine {| intact (s : MemoryFlash) := mf_script s = [] |}; try (intros; assumption).
  - intros p s Hs. split; [done|]. intros bytes. cbn [disk MemoryFlash_laws].
    rewrite lookup_fmap. intros (b & Eb & ->)%fmap_Some. cbn. rewrite Eb. cbn.
    unfold file_content. by rewrite length_fmap.
  - intros p n s Hs. split; [done|]. intros bytes. cbn [disk MemoryFlash_laws].
    rewrite lookup_fmap. intros (b & Eb & ->)%fmap_Some. cbn. rewrite Eb. cbn.
    by rewrite length_take.
  - intros p [d script] Hs. cbn in Hs. subst script. by split.
  - intros p [d script] Hs. cbn in Hs. subst script. cbn. case_bool_decide; by split.
  - intros p bytes [d script] Hs. cbn in Hs. subst script. by split.
  - intros a b [d script] Hs. cbn in Hs. subst script. cbn [fs_rename MemoryFlash_ops].
    unfold next_outcome. cbn. destruct (d !! a) as [bytes|] eqn:Ea; [by split|].
    split; [done|]. rewrite lookup_fmap, Ea. by intros [? [=]].
Defined.

(** ** A backend that answers in full

    A batch is printed as one character more than it has readings; the network keeps
    the length, and answers as many characters, which are read as one result for each
    reading. *)

Record EchoNetwork := mkEchoNetwork { en_length : nat }.

#[export] Instance EchoNetwork_http : HttpClient EchoNetwork := {
  http_begin _ _ _ n := (true, n);
  http_POST _ body n := (200, mkEchoNetwork (length body));
  http_GET _ n := (200, n);
  http_getString n := (replicate (en_length n) 65, n);
  http_end n := n;
  http_errorToString _ := [];
}.

#[export] Instance EchoNetwork_wifi : WifiReadings EchoNetwork := {
  wifi_connected n := (true, n);
  wifi_getMode n := (WIFI_STA, n);
  wifi_stationNum n := (0, n);
  wifi_localIP n := (chars "192.168.1.7", n);
  wifi_RSSI n := (-60, n);
}.

#[export] Instance EchoNetwork_time : TrustedTime EchoNetwork :=
  { time_now n := (mkTrustedTimeSnapshot true 1700000000123, n) }.

#[export] Instance EchoNetwork_clock : MonotonicClock EchoNetwork :=
  { nowUs n := (5000000, n) }.

Definition readingsCount (document : json) : nat :=
  match tree_member "readings" document with JArray items => length items | _ => 0%nat end.

Definition insertedResult (index : nat) : json :=
  JObject [("index", JInt (Z.of_nat index)); ("status", JString (chars "INSERTED"))]%string.

Definition insertedAll (n : nat) : json :=
  JObject [("results", JArray (insertedResult <$> seq 0 n))]%string.

Definition echoJson : JsonText :=
  tree_json (fun document => replicate (S (readingsCount document)) 65)
    (fun text => Some (insertedAll (length text - 1))).

Lemma text_letters n : text (replicate n 65) = replicate n 65.
Proof.
  unfold text, strlen. rewrite length_replicate.
  assert (forall k, strnlen (replicate n 65) k = Nat.min k n) as ->.
  { induction n as [|n IH]; intros [|k]; cbn; try done. by rewrite IH. }
  by rewrite Nat.min_id, take_ge by (rewrite length_replicate; lia).
Qed.

(** The answer to each size of batch, computed. *)
Lemma echo_answers :
  forallb (fun n =>
    let '(ok, results) := @parseBackendBatchResponse echoJson (Some (replicate (S n) 65)) n in
    ok && (length results =? n)%nat) (seq 1 (Z.to_nat kBackendMaximumBatchSize)) = true.
Proof. vm_compute. reflexivity. Qed.

Section Drain.
Context {F : Type} `{IntactFlash F}.
#[local] Existing Instance echoJson.

Definition drains (g : Gateway F EchoNetwork) : Prop := upload_ok g /\ intact (gw_flash g).

Lemma drains_device {A} (f : EchoNetwork -> A * EchoNetwork) (g : Gateway F EchoNetwork) :
  drains g -> drains (on_device f g).2.
Proof. unfold on_device. by destruct (f (gw_device g)). Qed.

Lemma drains_peek n (g : Gateway F EchoNetwork) :
  drains g -> (uq_peek n g).1.1 = true /\ drains (uq_peek n g).2.
Proof.
  intros [[rs K] I]. cbn. destruct (queuePeek_intact n _ _ rs I K) as (out & q & f & E & I').
  rewrite E. split; [done|]. apply (queuePeek_spec _ _ _ rs) in E as (K' & _); [|done].
  split; [by exists rs|done].
Qed.

Lemma drains_finish actions (g : Gateway F EchoNetwork) :
  drains g -> NoDup (qa_recordId <$> actions) -> Forall (in_queue (held g)) actions ->
  (uq_finish actions g).1 = true /\ drains (uq_finish actions g).2.
Proof.
  intros [[rs K] I] Hnd Ha. unfold held in Ha. rewrite (contentsOf_ok _ _ _ K) in Ha. cbn.
  destruct (finish_intact actions _ _ rs I K Ha Hnd) as (q & f & E & I'). rewrite E.
  split; [done|]. apply (finish_spec _ _ _ rs) in E as (removed & _ & K' & _); [|done|].
  - split; [by eexists|done].
  - eapply Forall_impl; [exact Ha|]. by intros a [].
Qed.

Lemma echo_answer identity batch payload :
  serializeBackendBatch identity batch = (true, payload) ->
  exists results,
    parseBackendBatchResponse (Some (replicate (length (text payload)) 65)) (length batch) =
      (true, results) /\ length results = length batch.
Proof.
  intros Es. pose proof (serialized_size _ _ _ Es) as Hn.
  unfold serializeBackendBatch, batchDocument in Es.
  destruct (Nat.eqb_spec (length batch) 0) as [|Hz]; [done|].
  destruct (_ <? _); [done|]. cbn [orb] in Es.
  destruct (mapM readingOf batch) as [readings|] eqn:Em; [|done]. apply length_mapM in Em.
  assert (payload = replicate (S (length readings)) 65) as -> by (by injection Es).
  rewrite text_letters, length_replicate, <- Em.
  pose proof echo_answers as Ha. rewrite forallb_forall in Ha.
  specialize (Ha (length batch)). rewrite in_seq in Ha. specialize (Ha ltac:(lia)).
  destruct (parseBackendBatchResponse _ _) as [ok results].
  apply andb_true_iff in Ha as [-> El%Nat.eqb_eq]. by exists results.
Qed.

#[local] Instance drain_world : HealthyWorld (Gateway F EchoNetwork).
Proof.
  refine {| healthy := drains |};
    try (intros; apply drains_device; done);
    try (intros; split; [reflexivity|by apply drains_device]).
  - by intros g [].
  - intros g [[rs K] I]. cbn. unfold held. rewrite (contentsOf_ok _ _ _ K).
    split_and!; [|by split; [exists rs|]|done].
    destruct K as [(core & Hr & C) _]. rewrite <- (Forall2_length _ _ _ (co_holds _ _ _ C)).
    unfold durableSize, ready in *. destruct (dq_mutex (gw_queue g)); [|done].
    destruct (dq_healthy (gw_queue g)); [|done]. cbn in Hr. by rewrite Hr.
  - apply drains_peek.
  - intros actions g G Hnd Ha. by apply drains_finish.
  - by intros [q f n].
  - intros identity batch payload headers [q f n] G Es. cbn. split; [done|].
    by eapply echo_answer.
Defined.
End Drain.

(** ** Three records in two rounds *)

#[export] Instance EchoNetwork_tasks : Tasks (Gateway MemoryFlash EchoNetwork) :=
  { esp_random g := (1001, g); taskNotify g := g }.

#[export] Instance EchoNetwork_figures : SystemFigures (Gateway MemoryFlash EchoNetwork) := {
  esp_freeHeap g := (200000, g);
  esp_minFreeHeap g := (150000, g);
  esp_largestFreeBlock g := (100000, g);
  esp_sketchSize g := (1300000, g);
  esp_freeSketchSpace g := (1310720, g);
  esp_flashChipSize g := (4194304, g);
}.

#[export] Instance EchoNetwork_sources : HeartbeatSources (Gateway MemoryFlash EchoNetwork) := {
  source_wifi g := (WifiStatus_init, g);
  source_time g := (mkTimeStatus true 1700000000123 1700000000000, g);
  source_radio g := (RadioDiagnostics_init (W := SimulatedDevice), g);
  source_paired g := (false, g);
  source_pairedNodeId s g := (s, g);
  source_command g := (GatewayCommand_init, g);
}.

Definition sampleArrival (sequence : Z) : QueueRecord :=
  recordOfFrame (frameOf (telemetryWire (sampleTelemetry <| tp_sequence := sequence |>))).

Fixpoint arrive (sequences : list Z) (q : DurableQueue) (f : MemoryFlash)
  : DurableQueue * MemoryFlash :=
  match sequences with
  | [] => (q, f)
  | sequence :: sequences =>
      let '(_, _, q, f) := queueEnqueue (sampleArrival sequence) q f in arrive sequences q f
  end.

Lemma arrive_ok sequences q f :
  Forall (fun sequence => frame_ok (frameOf
    (telemetryWire (sampleTelemetry <| tp_sequence := sequence |>)))) sequences ->
  (exists rs, queue_ok q f rs) ->
  exists rs, queue_ok (arrive sequences q f).1 (arrive sequences q f).2 rs.
Proof.
  intros Hs. revert q f. induction Hs as [|sequence sequences Hx Hs IH]; intros q f [rs K];
    cbn [arrive]; [by exists rs|].
  destruct (queueEnqueue _ q f) as [[[o r] q1] f1] eqn:Eq. apply IH.
  destruct (recordOfFrame_typed _ Hx) as [T P].
  apply (queueEnqueue_spec _ _ rs) in Eq as (_ & kept & _ & K'); [|done..].
  destruct (eo_persisted o); [destruct K' as [K' _]|]; by eexists.
Qed.

Definition drainWorker : BackendWorker := sampleWorker <| bw_config->rt_batchSize := 2 |>.

Definition drainGateway : Gateway MemoryFlash EchoNetwork :=
  let '(q, f) := arrive [7; 8; 9] sampleQueue emptyFlash in mkGateway q f (mkEchoNetwork 0).

Lemma queue_drains_witness :
  (qr_recordId <$> held drainGateway) = [1; 2; 3] /\
  exists b g, @backendRounds _ gateway_uploads gateway_http gateway_wifi gateway_time gateway_clock
    EchoNetwork_tasks EchoNetwork_sources EchoNetwork_figures echoJson [] 2 drainWorker drainGateway =
    ([PauseDelay 50; PauseDelay 50], b, g) /\ held g = [].
Proof.
  split; [vm_compute; reflexivity|].
  destruct (@queue_drains (Gateway MemoryFlash EchoNetwork) gateway_uploads gateway_http gateway_wifi
    gateway_time gateway_clock upload_observations upload_world EchoNetwork_tasks
    EchoNetwork_sources EchoNetwork_figures echoJson (tree_json_laws _ _) drain_world
    (fun _ _ _ M => M) (fun document H => ltac:(discriminate H)) [] 2 drainWorker drainGateway)
    as (b & g & E & _ & _ & Hd).
  - split; [|vm_compute; reflexivity].
    destruct (arrive_ok [7; 8; 9] sampleQueue emptyFlash) as [rs K]; [|exists []; exact sampleQueue_ok|].
    + repeat constructor; try (vm_compute; split; congruence);
        try (apply (bool_decide_unpack _); vm_compute; reflexivity); vm_compute; lia.
    + exists rs. unfold drainGateway. by destruct (arrive _ _ _).
  - split; try reflexivity; vm_compute; [discriminate|split; congruence].
  - apply (bool_decide_unpack _). vm_compute. reflexivity.
  - vm_compute. lia.
  - exists b, g. split; [exact E|]. apply Hd. vm_compute. lia.
Defined.
