(* ===== verification/Dashboard.v ===== *)
(** * The dashboard (lib/dashboard/dashboard)

    The handlers of the local web server: forms that change the configuration,
    pairing, commands for the node, and updates.  [Parts] holds the components the
    dashboard refers to; everything they call acts on the world [W].  The status
    document is in DashboardStatus. *)

From Stdlib Require Import ZArith Lia String.
From stdpp Require Import list.
From S2P Require Import Prelude BuildConfig CString Platform Protocol Pairing CommandStore.
From S2P Require Import PacketProcessor DurableQueue GatewayConfig ConfigStore StrTo Json.
From S2P Require Import BackendContract WifiManager TimeManager RadioService BackendWorker.
From S2P Require Import Logger OtaManager.
Open Scope Z_scope.

(** ** What the dashboard calls besides *)

(** [Update], the flash writer, without the messages it prints. *)
Class Updater (W : Type) := {
  update_begin : W -> bool * W;
  update_hasError : W -> bool * W;
  update_write : list Z -> W -> nat * W;
  update_end : bool -> W -> bool * W;
  update_abort : W -> W;
}.

(** [DurableQueue], as the dashboard sees it, besides [UploadQueue], and
    [TimeManager::status] and [ESP.restart]. *)
Class DashboardSources (W : Type) := {
  queue_operationalStats : W -> QueueOperationalStats * W;
  queue_usedBytes : W -> Z * W;
  queue_totalBytes : W -> Z * W;
  queue_checkpointCounters : bool -> W -> W;
  time_status : W -> TimeStatus * W;
  esp_restart : W -> W;
}.

(** ** State *)

Record Dashboard := mkDashboard {
  db_identity : GatewayIdentity;
  db_resetReason : list Z;
  db_rebootAtMs : Z;
  db_otaUploadOkay : bool;
}.

Definition Dashboard_init : Dashboard := mkDashboard GatewayIdentity_init (zeros 32) 0 false.

(** [pa_commands] is the command store until the radio service refers to it: from
    then on it is the one of the service's processor. *)
Record Parts := mkParts {
  pa_configStore : ConfigStore;
  pa_radio : RadioService;
  pa_commands : CommandStore;
  pa_wifi : WifiManager;
  pa_backend : BackendWorker;
  pa_ota : OtaManager;
  pa_logger : Logger;
  pa_dashboard : Dashboard;
}.

Definition commandStore (p : Parts) : CommandStore :=
  match rv_processor (pa_radio p) with
  | Some q => pp_commands q
  | None => pa_commands p
  end.

Definition setCommandStore (c : CommandStore) (p : Parts) : Parts :=
  match rv_processor (pa_radio p) with
  | Some q =>
      p <| pa_radio :=
             (pa_radio p) <| rv_processor :=
               Some (mkPacketProcessor (pp_pairing q) c (pp_stats q) (pp_latest q)) |> |>
  | None => p <| pa_commands := c |>
  end.

Definition config (p : Parts) : GatewayConfig := cg_config (pa_configStore p).

(** ** Requests and responses *)

(** The arguments of a request: [server_.hasArg] and [server_.arg], which is empty
    when there is none. *)
Abbreviation Request := (string -> option (list Z)).

Definition hasArg (request : Request) (name : string) : bool :=
  match request name with Some _ => true | None => false end.

Definition arg (request : Request) (name : string) : list Z := default [] (request name).

(** [arg == literal]. *)
Definition argIs (request : Request) (name literal : string) : bool :=
  bool_decide (text (arg request name) = chars literal).

Record Response := mkResponse {
  rs_status : Z;
  rs_contentType : string;
  rs_body : list Z;
}.

Definition sendText (status : Z) (body : list Z) : Response :=
  mkResponse status "text/plain; charset=utf-8" (text body).

Definition say (status : Z) (body : string) : Response := sendText status (chars body).

(** [destination[0] = '\0']. *)
Definition cleared (destination : list Z) : list Z := <[0%nat := 0]> destination.

(** A secret: cleared, replaced by a new value that is not empty, or kept. *)
Definition secretField (request : Request) (clearName name : string) (stored : list Z) : list Z :=
  if argIs request clearName "true" then cleared stored
  else if hasArg request name && negb (length (arg request name) =? 0)%nat
  then copyText stored (Some (arg request name))
  else stored.

Definition identityFor (c : GatewayConfig) (d : Dashboard) : GatewayIdentity :=
  (db_identity d) <| gi_gatewayId := copyText (gi_gatewayId (db_identity d))
                                       (Some (cf_gatewayId c)) |>.

Section Handlers.
Context (config_bytes : GatewayConfig -> list Z) (sizeof_config : nat).
Context (object_bytes : CommandStoreRecord -> list Z).
Context (strtof : list Z -> single * option (list Z) * bool).
Context {W : Type} `{RawPreferences W, Sx1278 W, CommandBackend W, Millis W}.
Context `{WifiReadings W, WifiControl W, TrustedTime W, MonotonicClock W, Tasks W}.
Context `{HttpClient W, DashboardSources W}.

(** What every handler does: it answers, and changes parts and world. *)
Abbreviation Handled := (Response * Parts * W)%type.

Definition saveConfig (c : GatewayConfig) (p : Parts) (w : W) : bool * Parts * W :=
  let '(saved, s, w) := configSave config_bytes sizeof_config c (pa_configStore p) w in
  (saved, p <| pa_configStore := s |>, w).

Definition applyToBackend (c : GatewayConfig) (identity : GatewayIdentity) (p : Parts) (w : W)
  : Parts * W :=
  let '(b, w) := backendApplyConfig c identity (pa_backend p) w in
  (p <| pa_backend := b |>, w).

(** The common part of the forms: the candidate is validated and saved, and then
    put into effect. *)
Definition saveValid (c : GatewayConfig) (failure : string) (p : Parts) (w : W)
    (done : Parts -> W -> Handled) : Handled :=
  let validation := validateConfig c in
  if negb (configOk validation) then (say 422 (cv_message validation), p, w)
  else
    let '(saved, p, w) := saveConfig c p w in
    if negb saved then (say 500 failure, p, w) else done p w.

(** ** Forms *)

Definition handleWifi (r : Request) (p : Parts) (w : W) : Handled :=
  let c := config p in
  let c := c <| cf_wifiSsid := copyText (cf_wifiSsid c) (Some (arg r "ssid")) |>
             <| cf_wifiPassword := secretField r "clearPassword" "password" (cf_wifiPassword c) |> in
  saveValid c "NVS configuration write failed" p w (fun p w =>
    (say 200 "Wi-Fi configuration saved; reconnect requested",
     p <| pa_wifi := wifiApplyConfig c (pa_wifi p) |>, w)).

Definition handleGateway (r : Request) (p : Parts) (w : W) : Handled :=
  let c := config p in
  let c := c <| cf_gatewayId := copyText (cf_gatewayId c) (Some (arg r "gatewayId")) |> in
  saveValid c "NVS configuration write failed" p w (fun p w =>
    let identity := identityFor c (pa_dashboard p) in
    let p := p <| pa_dashboard := (pa_dashboard p) <| db_identity := identity |> |> in
    let '(p, w) := applyToBackend c identity p w in
    (say 200 "logical Gateway ID saved", p, w)).

Definition handleBackend (r : Request) (p : Parts) (w : W) : Handled :=
  let c := config p in
  let c := c <| cf_backendBaseUrl := copyText (cf_backendBaseUrl c) (Some (arg r "baseUrl")) |>
             <| cf_backendBearerToken :=
                  secretField r "clearToken" "token" (cf_backendBearerToken c) |> in
  let '(okay, value) := parseUnsigned (arg r "batchSize") 0 in
  if negb okay || (255 <? value) then (say 422 "invalid batch size", p, w)
  else
    let c := c <| cf_backendBatchSize := wrap 8 value |> in
    let '(okay, timeout) := parseUnsigned (arg r "timeoutMs") (cf_backendHttpTimeoutMs c) in
    let c := c <| cf_backendHttpTimeoutMs := timeout |> in
    if negb okay then (say 422 "invalid HTTP timeout", p, w)
    else
      saveValid c "NVS configuration write failed" p w (fun p w =>
        let '(p, w) := applyToBackend c (identityFor c (pa_dashboard p)) p w in
        (say 200 "backend configuration saved; token value remains masked", p,
         flushNow (pa_backend p) w)).

Definition handleHeartbeat (r : Request) (p : Parts) (w : W) : Handled :=
  let c := config p in
  let '(okay, interval) := parseUnsigned (arg r "intervalSeconds") (cf_heartbeatIntervalSeconds c) in
  let c := c <| cf_heartbeatIntervalSeconds := interval |> in
  if negb okay then (say 422 "invalid heartbeat interval", p, w)
  else
    saveValid c "NVS heartbeat configuration write failed" p w (fun p w =>
      let '(p, w) := applyToBackend c (identityFor c (pa_dashboard p)) p w in
      (say 200 "heartbeat interval saved locally", p, w)).

(** The radio settings of the form, or what is wrong with them. *)
Definition radioForm (r : Request) (c : RadioConfig) : RadioConfig + string :=
  let '(ok1, frequency) := parseFloat strtof (arg r "frequencyMhz") (rc_frequencyMhz c) in
  let '(ok2, bandwidth) := parseFloat strtof (arg r "bandwidthKhz") (rc_bandwidthKhz c) in
  let '(ok3, spreading) := parseUnsigned (arg r "spreadingFactor") 0 in
  if negb ok1 || negb ok2 || negb ok3 || (255 <? spreading)
  then inr "invalid radio numeric value"%string
  else
    let '(ok4, coding) := parseUnsigned (arg r "codingRateDenominator") spreading in
    if negb ok4 || (255 <? coding) then inr "invalid coding rate"%string
    else
      let '(ok5, power) := parseSigned (arg r "txPowerDbm") 0 in
      if negb ok5 || (power <? -128) || (127 <? power) then inr "invalid TX power"%string
      else
        let '(ok6, sync) := parseUnsigned (arg r "syncWord") coding in
        if negb ok6 || (255 <? sync) then inr "invalid sync word"%string
        else inl (mkRadioConfig frequency bandwidth (wrap 8 spreading) (wrap 8 coding)
                    (to_signed 8 power) (wrap 8 sync)).

Definition applyToRadio (c : RadioConfig) (p : Parts) (w : W) : bool * Parts * W :=
  let '(applied, s, w) := radioApplyConfig c (pa_radio p) w in
  (applied, p <| pa_radio := s |>, w).

Definition handleRadio (r : Request) (p : Parts) (w : W) : Handled :=
  let previous := config p in
  match radioForm r (cf_radio previous) with
  | inr message => (say 422 message, p, w)
  | inl radio =>
      let c := previous <| cf_radio := radio |> in
      let validation := validateConfig c in
      if negb (configOk validation) then (say 422 (cv_message validation), p, w)
      else
        let '(applied, p, w) := applyToRadio radio p w in
        if negb applied
        then (say 422 "SX1278 rejected candidate; previous radio configuration restored", p, w)
        else
          let '(saved, p, w) := saveConfig c p w in
          if negb saved then
            let '(_, p, w) := applyToRadio (cf_radio previous) p w in
            (say 500 "NVS save failed; previous radio configuration restored", p, w)
          else (say 200 "radio configuration applied and persisted", p, w)
  end.

Definition handleRadioRestart (p : Parts) (w : W) : Handled :=
  let '(restarted, s, w) := radioRestart (pa_radio p) w in
  (if (restarted : bool) then say 200 "radio restarted" else say 503 "radio restart failed",
   p <| pa_radio := s |>, w).

Definition handleReconnect (p : Parts) (w : W) : Handled :=
  (say 200 "STA reconnect requested", p <| pa_wifi := requestReconnect (pa_wifi p) |>, w).

(** ** Pairing *)

Definition savePairedNode (nodeId : list Z) (p : Parts) (w : W) : bool * Parts * W :=
  let c := config p in
  saveConfig (c <| cf_pairedNodeId := copyText (cf_pairedNodeId c) (Some nodeId) |>) p w.

Definition handlePairStart (p : Parts) (w : W) : Handled :=
  let '(started, s) := startPairing (pa_radio p) in
  (if (started : bool)
   then say 200 "pairing discovery started; candidates are not queued or ACKed"
   else say 409 "unpair the current Node before starting discovery",
   p <| pa_radio := s |>, w).

Definition unpairRadio (p : Parts) : Parts := p <| pa_radio := radioUnpair (pa_radio p) |>.

Definition handlePairConfirm (p : Parts) (w : W) : Handled :=
  let '(confirmed, nodeId, s) := confirmPairing (Some (zeros kNodeIdCapacity)) (pa_radio p) in
  let p := p <| pa_radio := s |> in
  if negb confirmed then (say 409 "no pairing candidate is available", p, w)
  else
    let '(saved, p, w) := savePairedNode (default [] nodeId) p w in
    if negb saved
    then (say 500 "NVS pairing save failed; Gateway remains unpaired", unpairRadio p, w)
    else (say 200 "Node pairing confirmed; production capture begins with the next packet", p, w).

Definition handlePairCancel (p : Parts) (w : W) : Handled :=
  let '(_, s) := cancelPairing (pa_radio p) in
  (say 200 "pairing discovery cancelled", p <| pa_radio := s |>, w).

Definition handlePairManual (r : Request) (p : Parts) (w : W) : Handled :=
  let nodeId := arg r "nodeId" in
  if negb (nodeIdValid (Some nodeId)) then (say 422 "invalid Node ID", p, w)
  else
    let previous := config p in
    let c := previous <| cf_pairedNodeId :=
                           copyText (cf_pairedNodeId previous) (Some nodeId) |> in
    let '(saved, p, w) := saveConfig c p w in
    if negb saved then (say 500 "NVS pairing save failed", p, w)
    else
      let '(paired, s) := radioPairManual (Some nodeId) (pa_radio p) in
      let p := p <| pa_radio := s |> in
      if negb paired then
        let '(_, p, w) := saveConfig previous p w in
        (say 500 "pairing state update failed", p, w)
      else (say 200 "Node ID paired manually", p, w).

Definition handleUnpair (r : Request) (p : Parts) (w : W) : Handled :=
  if negb (argIs r "confirm" "UNPAIR") then (say 422 "confirmation must equal UNPAIR", p, w)
  else
    let c := config p in
    let c := c <| cf_pairedNodeId := cleared (cf_pairedNodeId c) |> in
    let '(saved, p, w) := saveConfig c p w in
    if negb saved then (say 500 "NVS unpair write failed", p, w)
    else (say 200 "Gateway is now UNPAIRED; telemetry will not be queued or ACKed",
          unpairRadio p, w).

(** ** The backend *)

Definition handleFlush (p : Parts) (w : W) : Handled :=
  (say 200 "backend worker awakened; queue records are retained until terminal results", p,
   flushNow (pa_backend p) w).

Definition handleBackendTest (p : Parts) (w : W) : Handled :=
  let '(okay, status, error, w) := testConnection (Some (zeros 128)) (pa_backend p) w in
  if (okay : bool)
  then (say 200 "backend connectivity, TLS/authentication, and schema compatibility passed", p, w)
  else
    let error := default [] error in
    let reason := if default 0 (head error) =? 0
                  then chars "authentication or compatibility failure" else text error in
    (sendText 503 (putText (zeros 180)
       (chars "backend test failed HTTP=" ++ decimalSigned status ++ chars " error=" ++ reason)),
     p, w).

(** ** Commands for the node *)

(** [commands_->create], with the answer for a command that is not created. *)
Definition createCommand (type : CommandType.t) (poll scheduled createdUnixMs : Z)
    (created : string) (p : Parts) (w : W) : Handled :=
  let '(okay, _, c, w) :=
    create object_bytes type poll scheduled createdUnixMs 0 (commandStore p) w in
  (if (okay : bool) then say 202 created else say 409 (cs_lastError c), setCommandStore c p, w).

Definition handleEnterMaintenance (r : Request) (p : Parts) (w : W) : Handled :=
  if negb (argIs r "confirm" "ENTER") then (say 422 "confirmation must equal ENTER", p, w)
  else if negb (radioPaired (pa_radio p)) then (say 409 "no production Node is paired", p, w)
  else
    let '(now, w) := time_now w in
    createCommand CommandType.kEnterMaintenanceNow 0 0
      (if ts_trusted now then ts_unixMs now else -1)
      "ENTER_MAINTENANCE_NOW queued for the next telemetry ACK" p w.

Definition handlePollIntervalCommand (r : Request) (p : Parts) (w : W) : Handled :=
  if negb (radioPaired (pa_radio p)) then (say 409 "no production Node is paired", p, w)
  else
    let '(okay, minutes) := parseUnsigned (arg r "minutes") 0 in
    if negb okay || (minutes <? 1) || (255 <? minutes)
    then (say 422 "poll interval must be 1-255 minutes", p, w)
    else
      let '(now, w) := time_now w in
      createCommand CommandType.kSetPollIntervalMinutes (wrap 8 minutes) 0
        (if ts_trusted now then ts_unixMs now else -1)
        "poll-interval command queued for the next telemetry ACK" p w.

(** 27 days, in seconds. *)
Definition horizon : Z := 27 * 24 * 60 * 60.

Definition handleScheduleMaintenance (r : Request) (p : Parts) (w : W) : Handled :=
  if negb (radioPaired (pa_radio p)) then (say 409 "no production Node is paired", p, w)
  else
    let '(now, w) := time_now w in
    if negb (ts_trusted now) || (ts_unixMs now <? 0)
    then (say 409 "Gateway NTP time is untrusted; scheduling is disabled", p, w)
    else
      let '(okay, target) := parseUnsigned (arg r "targetUnix") 0 in
      if negb okay then (say 422 "targetUnix must be UTC Unix seconds", p, w)
      else
        let nowSeconds := wrap 32 (Z.quot (ts_unixMs now) 1000) in
        if negb (target mod 60 =? 0) || (target <? wrap 32 (nowSeconds + 60)) ||
           (horizon <? wrap 32 (target - nowSeconds))
        then (say 422
                "target must be minute-aligned, at least 60 seconds ahead, and within 27 days",
              p, w)
        else
          createCommand CommandType.kScheduleMaintenanceAt 0 target (ts_unixMs now)
            "scheduled-maintenance command queued for the next telemetry ACK" p w.

Definition handleCancelCommand (r : Request) (p : Parts) (w : W) : Handled :=
  if negb (argIs r "confirm" "CANCEL") then (say 422 "confirmation must equal CANCEL", p, w)
  else
    let '(okay, commandId) := parseUnsigned (arg r "commandId") 0 in
    let '(cancelled, c, w) :=
      if okay then cancel object_bytes commandId (commandStore p) w
      else (false, commandStore p, w) in
    (if (cancelled : bool) then say 200 "pending command cancelled"
     else say 409 "matching pending command was not found or could not be persisted",
     setCommandStore c p, w).

(** ** Restarting and updating *)

Definition setRebootAt (atMs : Z) (p : Parts) : Parts :=
  p <| pa_dashboard := (pa_dashboard p) <| db_rebootAtMs := atMs |> |>.

Definition handleReboot (r : Request) (p : Parts) (w : W) : Handled :=
  if negb (argIs r "confirm" "REBOOT") then (say 422 "confirmation must equal REBOOT", p, w)
  else
    let '(now, w) := millis w in
    (say 202 "reboot scheduled", setRebootAt (wrap 32 (now + 750)) p, w).

Definition uploading (value : bool) (p : Parts) : Parts :=
  p <| pa_ota := setUploadInProgress value (pa_ota p) |>.

Definition handleOtaComplete (p : Parts) (w : W) : Handled :=
  let p := uploading false p in
  if negb (db_otaUploadOkay (pa_dashboard p))
  then (say 500 "OTA upload/write verification failed", p, w)
  else
    let '(now, w) := millis w in
    (say 202 "OTA upload verified; rebooting into PENDING_VERIFY image",
     setRebootAt (wrap 32 (now + 1000)) p, w).

(** [server_.upload()]: the parts of an upload. *)
Inductive HTTPUpload :=
  | UPLOAD_FILE_START
  | UPLOAD_FILE_WRITE (buf : list Z)
  | UPLOAD_FILE_END
  | UPLOAD_FILE_ABORTED.

Definition setUploadOkay (value : bool) (p : Parts) : Parts :=
  p <| pa_dashboard := (pa_dashboard p) <| db_otaUploadOkay := value |> |>.

Definition handleOtaUpload `{Updater W} (upload : HTTPUpload) (p : Parts) (w : W) : Parts * W :=
  match upload with
  | UPLOAD_FILE_START =>
      let p := uploading true (setUploadOkay false p) in
      let '(_, w) := update_begin w in
      (p, w)
  | UPLOAD_FILE_WRITE buf =>
      let '(failed, w) := update_hasError w in
      if (failed : bool) then (p, w) else let '(_, w) := update_write buf w in (p, w)
  | UPLOAD_FILE_END =>
      let '(failed, w) := update_hasError w in
      let '(okay, w) := if (failed : bool) then (false, w) else update_end true w in
      (uploading false (setUploadOkay okay p), w)
  | UPLOAD_FILE_ABORTED => (uploading false p, update_abort w)
  end.

(** ** begin and loop *)

Definition dashboardBegin (identity : GatewayIdentity) (resetReason : ptr (list Z))
    (p : Parts) : bool * Parts :=
  let d := pa_dashboard p in
  (true,
   p <| pa_dashboard :=
          d <| db_identity := identity |>
            <| db_resetReason :=
                 strncpyz (db_resetReason d) (default (chars "unknown") resetReason) |> |>).

(** [loop], after the web server has handled its client. *)
Definition dashboardLoop (p : Parts) (w : W) : W :=
  let at_ := db_rebootAtMs (pa_dashboard p) in
  if at_ =? 0 then w
  else
    let '(now, w) := millis w in
    if 0 <=? to_signed 32 (now - at_) then esp_restart (queue_checkpointCounters true w) else w.

End Handlers.
