(* ===== verification/DashboardStatus.v ===== *)
(** * The status document (lib/dashboard/dashboard, handleStatus and handleLogs)

    What the dashboard shows, and the routes of its web server.  [kBuildFlavor],
    [kBuildDate] and [kGitCommit] are given by the build, [kDashboardHtml] is the
    page itself. *)

From Stdlib Require Import ZArith Lia String SpecFloat.
From stdpp Require Import list.
From S2P Require Import Prelude BuildConfig CString Platform Protocol QueueRecord Pairing.
From S2P Require Import CommandStore Metrics PacketProcessor DurableQueue GatewayConfig.
From S2P Require Import ConfigStore UtcTime StrTo Json BackendContract WifiManager TimeManager.
From S2P Require Import Heartbeat RadioService BackendWorker Logger OtaManager Dashboard.
Open Scope Z_scope.

(** [condition ? value : nullptr] is [when condition value]; a number that is null
    when it equals [sentinel]. *)
Definition unless (sentinel value : Z) : json := if value =? sentinel then JNull else JInt value.

Definition JName (name : string) : json := JString (chars name).

(** [value / 100.0F] *)
Definition hundredth (value : Z) : json := JSingle (single_of value 100).

Definition single_mul : single -> single -> single := SFmul single_prec single_emax.
Definition single_div : single -> single -> single := SFdiv single_prec single_emax.

Definition statusWifi (c : GatewayConfig) (wifi : WifiStatus) : json :=
  JObject [("configuredSsid", JText (cf_wifiSsid c)); ("configured", JBool (wf_configured wifi));
           ("connected", JBool (wf_connected wifi));
           ("localIp", if wf_connected wifi then JText (wf_localIp wifi) else JName "unavailable");
           ("rssiDbm", when (wf_connected wifi) (JInt (wf_rssiDbm wifi)));
           ("reconnecting", JBool (wf_reconnecting wifi));
           ("fallbackApActive", JBool (wf_fallbackApActive wifi));
           ("fallbackApSsid", JText (wf_fallbackApSsid wifi));
           ("fallbackApAddress",
              JName (if wf_fallbackApActive wifi then "192.168.4.1" else "unavailable"))]%string.

Definition statusPairing (radio : RadioService) (candidate : PairingCandidate)
    (latest : LatestTelemetry) : json :=
  let node := default [] (pairedNodeId (Some (zeros kNodeIdCapacity)) radio) in
  let offered := pc_available candidate in
  let reception := lt_reception latest in
  JObject [("state", JName (if radioPaired radio then "PAIRED" else "UNPAIRED"));
           ("pairedNodeId",
              if (default 0 (head node) =? 0)%Z then JName "unavailable" else JText node);
           ("pairingMode", JBool (pairingMode radio));
           ("candidateNodeId",
              if offered then JText (pc_nodeId candidate) else JName "unavailable");
           ("candidatePersistentSessionId", when offered (JInt (pc_persistentSessionId candidate)));
           ("candidateSequence", when offered (JInt (pc_sequence candidate)));
           ("candidateRssiDbm", when offered (JFloat (pc_rssiDbm candidate)));
           ("candidateSnrDb", when offered (JFloat (pc_snrDb candidate)));
           ("lastNodeSeenUptimeMs", when (lt_available latest) (JInt (rm_gatewayUptimeMs reception)));
           ("lastNodeSeenAt",
              when (lt_available latest && rm_gatewayTimeTrusted reception)
                (timestampValue (rm_gatewayReceivedUnixMs reception)))]%string.

Definition statusTelemetry (latest : LatestTelemetry) : json :=
  let t := lt_packet latest in
  if negb (lt_available latest) then JObject [("state", JName "unavailable")]%string
  else
    JObject [("nodeId", JText (tp_nodeId t));
             ("persistentSessionId", JInt (tp_persistentSessionId t));
             ("sequence", JInt (tp_sequence t)); ("medianEchoUs", JInt (tp_medianEchoUs t));
             ("rawDistanceMm", unless kDistanceUnavailable (tp_rawDistanceMm t));
             ("acceptedDistanceMm", unless kDistanceUnavailable (tp_acceptedDistanceMm t));
             ("madMm", JInt (tp_madMm t));
             ("temperatureC",
                if (tp_temperatureCentiC t =? kTemperatureUnavailable)%Z then JNull
                else hundredth (tp_temperatureCentiC t));
             ("humidityPercent",
                if (tp_humidityCentiPercent t =? kHumidityUnavailable)%Z then JNull
                else hundredth (tp_humidityCentiPercent t));
             ("batteryMv", JInt (tp_batteryMv t));
             ("samples",
                JString (decimal (tp_validSamples t) ++ chars "/" ++ decimal (tp_totalSamples t))%list);
             ("filterState", JName (filterStateName (tp_filterState t)));
             ("filterStateCode", JInt (to_u8 (tp_filterState t)));
             ("qualityFlags", JInt (tp_qualityFlags t)); ("healthFlags", JInt (tp_healthFlags t));
             ("bootReason", JName (bootReasonName (tp_bootReason t)));
             ("rtcState", JName (rtcStateName (tp_rtcState t)));
             ("rtcUnixTime",
                JInt (if enum_eqb (tp_rtcState t) RtcState.kValid then tp_rtcUnixTime t else 0));
             ("pollIntervalMinutes", JInt (tp_pollIntervalMinutes t));
             ("scheduleState", JName (scheduleStateName (tp_scheduleState t)));
             ("scheduledMaintenanceUnix", JInt (tp_scheduledMaintenanceUnix t));
             ("lastCommandId", JInt (tp_lastCommandId t));
             ("lastCommandType", JName (commandTypeName (tp_lastCommandType t)));
             ("lastCommandResult", JName (commandResultName (tp_lastCommandResult t)));
             ("referenceDistanceMm", unless 0 (tp_referenceDistanceMm t));
             ("calibration",
                JName (if (tp_referenceDistanceMm t =? 0)%Z then "missing" else "configured"))]%string.

Definition statusRadioConfig (c : RadioConfig) : json :=
  JObject [("frequencyMhz", JSingle (rc_frequencyMhz c));
           ("bandwidthKhz", JSingle (rc_bandwidthKhz c));
           ("spreadingFactor", JInt (rc_spreadingFactor c));
           ("codingRateDenominator", JInt (rc_codingRateDenominator c));
           ("txPowerDbm", JInt (rc_txPowerDbm c)); ("syncWord", JInt (rc_syncWord c))]%string.

Definition statusRadio (radio : RadioDiagnostics) : json :=
  let processing := rd_processing radio in
  JObject [("state", JText (rd_state radio)); ("ready", JBool (rd_ready radio));
           ("lastCode", JInt (rd_lastCode radio));
           ("configuration", statusRadioConfig (rd_config radio));
           ("receivedPackets", JInt (rd_receivedPackets radio));
           ("validProtocolV3Packets", JInt (ps_validProtocolPackets processing));
           ("validTelemetryPackets", JInt (ps_validTelemetryPackets processing));
           ("crcErrors", JInt (rd_crcErrors radio));
           ("decodeErrors", JInt (ps_decodeErrors processing));
           ("unknownNodePackets", JInt (ps_unknownNodePackets processing));
           ("duplicates", JInt (ps_duplicates processing));
           ("ackSent", JInt (ps_ackSent processing));
           ("ackFailures", JInt (ps_ackFailures processing));
           ("commandResultsConfirmed", JInt (ps_commandResultsConfirmed processing));
           ("commandResultsIgnored", JInt (ps_commandResultsIgnored processing));
           ("lastRssiDbm", JFloat (rd_lastRssiDbm radio)); ("lastSnrDb", JFloat (rd_lastSnrDb radio));
           ("lastFrequencyErrorHz", JInt (rd_lastFrequencyErrorHz radio));
           ("lastPacketLength", JInt (rd_lastPacketLength radio));
           ("lastQueueWriteLatencyUs", JInt (ps_lastQueueWriteUs processing));
           ("lastDurableEnqueueLatencyUs", JInt (ps_lastRxToDurableEnqueueUs processing));
           ("lastRxToAckStartLatencyUs", JInt (ps_lastRxToAckStartUs processing));
           ("lastRxToAckCompleteLatencyUs", JInt (ps_lastRxToAckCompleteUs processing));
           ("lastAckTxDurationUs", JInt (ps_lastAckTxDurationUs processing))]%string.

(** [ageMs]: the age of the oldest record, negative when it is not known. *)
Definition statusQueue (size capacity : nat) (stats : QueueOperationalStats) (ageMs : Z) : json :=
  let single n := single_of n 1 in
  JObject [("queuedRecords", JInt (Z.of_nat size)); ("capacityRecords", JInt (Z.of_nat capacity));
           ("utilizationPercent",
              JSingle (if (capacity =? 0)%nat then single 0%Z
                       else single_div (single_mul (single 100%Z) (single (Z.of_nat size)))
                              (single (Z.of_nat capacity))));
           ("recordsUploaded", JInt (qo_recordsUploaded stats));
           ("uploadRetries", JInt (qo_uploadRetries stats));
           ("recordsDeduplicated", JInt (qo_recordsDeduplicated stats));
           ("recordsPermanentlyRejected", JInt (qo_recordsPermanentlyRejected stats));
           ("recordsDroppedOldest", JInt (qo_recordsDroppedOldest stats));
           ("filesystemErrors", JInt (qo_filesystemErrors stats));
           ("oldestRecordAgeMs", when (0 <=? ageMs)%Z (JInt ageMs))]%string.

Definition statusBackend (c : GatewayConfig) (backend : BackendStatus) : json :=
  JObject [("state", JText (bs_state backend)); ("baseUrl", JText (cf_backendBaseUrl c));
           ("credentialConfigured", JBool (bs_credentialConfigured backend));
           ("transport", JName (if bs_tlsEndpoint backend then "HTTPS_VALIDATED" else "LOCAL_HTTP"));
           ("batchSize", JInt (cf_backendBatchSize c));
           ("timeoutMs", JInt (cf_backendHttpTimeoutMs c));
           ("lastAttemptUptimeMs", JInt (bs_lastAttemptUptimeMs backend));
           ("lastHttpStatus", JInt (bs_lastHttpStatus backend));
           ("lastSuccessUptimeMs",
              when (0 <? bs_lastSuccessUptimeMs backend)%Z (JInt (bs_lastSuccessUptimeMs backend)));
           ("lastSuccessUnixMs",
              when (0 <=? bs_lastSuccessUnixMs backend)%Z (JInt (bs_lastSuccessUnixMs backend)));
           ("lastError",
              if (default 0 (head (bs_lastError backend)) =? 0)%Z then JName "none"
              else JText (bs_lastError backend));
           ("currentBackoffMs", JInt (bs_currentBackoffMs backend));
           ("connectivityState",
              JName (backendConnectivityStateName
                (classifyBackendConnectivity (bs_telemetryUploadSuccessCount backend)
                   (bs_consecutiveFailures backend))));
           ("consecutiveFailures", JInt (bs_consecutiveFailures backend));
           ("telemetryUploadSuccessCount", JInt (bs_telemetryUploadSuccessCount backend));
           ("telemetryUploadFailureCount", JInt (bs_telemetryUploadFailureCount backend))]%string.

(** A time as text and in milliseconds, both null when it cannot be shown. *)
Definition timeFields (textField msField : string) (shown : bool) (unixMs : Z)
  : list (string * json) :=
  if shown && (formatUtc unixMs (zeros 32) 32).1
  then [(textField, timestampValue unixMs); (msField, JInt unixMs)]
  else [(textField, JNull); (msField, JNull)].

Definition statusTime (time : TimeStatus) : json :=
  JObject (("state", JName (if tst_trusted time then "SYNCED" else "UNSYNCED")) ::
           List.concat [timeFields "currentUtc" "currentUtcUnixMs" (tst_trusted time)
                          (tst_currentUnixMs time);
                        timeFields "lastSyncAt" "lastSyncUnixMs" (0 <=? tst_lastSyncUnixMs time)%Z
                          (tst_lastSyncUnixMs time)])%string.

(** The poll interval the node is known to use. *)
Definition knownPollMinutes (latest : LatestTelemetry) (command : GatewayCommand) : Z :=
  if enum_eqb (gc_state command) CommandState.kConfirmed &&
     enum_eqb (gc_type command) CommandType.kSetPollIntervalMinutes &&
     negb (gc_effectivePollIntervalMinutes command =? 0) &&
     (enum_eqb (gc_result command) CommandResultCode.kApplied ||
      enum_eqb (gc_result command) CommandResultCode.kAlreadyApplied)
  then gc_effectivePollIntervalMinutes command
  else if lt_available latest then tp_pollIntervalMinutes (lt_packet latest) else 0.

Definition statusCommand (command : GatewayCommand) (latest : LatestTelemetry) (trusted : bool)
  : json :=
  JObject [("commandId", unless 0 (gc_commandId command));
           ("type", JName (commandTypeName (gc_type command)));
           ("state", JName (commandStateName (gc_state command)));
           ("pollIntervalMinutes", unless 0 (gc_pollIntervalMinutes command));
           ("scheduledMaintenanceUnix", unless 0 (gc_scheduledMaintenanceUnix command));
           ("createdUnixMs",
              when (0 <=? gc_createdUnixMs command)%Z (JInt (gc_createdUnixMs command)));
           ("lastSentUnixMs",
              when (0 <=? gc_lastSentUnixMs command)%Z (JInt (gc_lastSentUnixMs command)));
           ("sendCount", JInt (gc_sendCount command));
           ("result", JName (commandResultName (gc_result command)));
           ("effectivePollIntervalMinutes", unless 0 (gc_effectivePollIntervalMinutes command));
           ("effectiveMaintenanceUnix", unless 0 (gc_effectiveMaintenanceUnix command));
           ("gatewayTimeTrusted", JBool trusted);
           ("currentKnownPollIntervalMinutes", JInt (knownPollMinutes latest command))]%string.

Definition statusOta (ota : OtaManager) (layoutSane : bool) : json :=
  JObject [("uploadInProgress", JBool (ot_uploadInProgress ota));
           ("runningPartition", JText (ot_runningPartition ota));
           ("imageState", JName (ot_imageStateName ota));
           ("pendingVerification", JBool (ot_pendingVerification ota));
           ("partitionLayoutSane", JBool layoutSane);
           ("lastStatus", JName (ot_lastStatus ota))]%string.

(** The age in milliseconds of the oldest record, -1 when it is not known. *)
Definition recordAgeMs {W} `{TrustedTime W, MonotonicClock W} (bootSessionId : Z)
    (oldest : QueueRecord) (w : W) : Z * W :=
  let reception := qr_reception oldest in
  let '(current, w) := time_now w in
  if ts_trusted current && rm_gatewayTimeTrusted reception
  then (ts_unixMs current - rm_gatewayReceivedUnixMs reception, w)
  else if rm_gatewayBootSessionId reception =? bootSessionId then
    let '(us, w) := nowUs w in
    (to_signed 64 (us / 1000) - to_signed 64 (rm_gatewayUptimeMs reception), w)
  else (-1, w).

(** The figures of the system a document shows. *)
Record Figures := mkFigures {
  fg_uptimeUs : Z;
  fg_freeHeap : Z;
  fg_minFreeHeap : Z;
  fg_largestFreeBlock : Z;
}.

Definition readFigures {W} `{MonotonicClock W, SystemFigures W} (w : W) : Figures * W :=
  let '(us, w) := nowUs w in
  let '(free, w) := esp_freeHeap w in
  let '(minimum, w) := esp_minFreeHeap w in
  let '(largest, w) := esp_largestFreeBlock w in
  (mkFigures us free minimum largest, w).

(** [lastAttemptUptimeSeconds] and [lastAttemptAt], and the same of the success. *)
Definition heartbeatTimes (h : HeartbeatStatus) : list (string * json) :=
  [("lastAttemptUptimeSeconds",
      when (0 <? hst_lastAttemptUptimeMs h)%Z (JInt (hst_lastAttemptUptimeMs h / 1000)%Z));
   ("lastAttemptAt", timestampValue (hst_lastAttemptUnixMs h));
   ("lastSuccessUptimeSeconds",
      when (0 <? hst_lastSuccessUptimeMs h)%Z (JInt (hst_lastSuccessUptimeMs h / 1000)%Z));
   ("lastSuccessAt", timestampValue (hst_lastSuccessUnixMs h))]%string.

(** What has been received last, and how fast it was acknowledged. *)
Definition heartbeatRadio (radio : RadioDiagnostics) : list (string * json) :=
  let processing := rd_processing radio in
  let latency := ps_successfulAckLatency processing in
  let received := (0 <? rd_lastRxUptimeUs radio)%Z in
  let acknowledged := (0 <? ps_lastRxToAckCompleteUs processing)%Z in
  let sampled := (0 <? sn_count (snapshot (al_rxToStart latency)))%Z in
  let average s := when sampled (thousandth (sn_average (snapshot s))) in
  [("latestLoRaRssiDbm", when received (JFloat (rd_lastRssiDbm radio)));
   ("latestLoRaSnrDb", when received (JFloat (rd_lastSnrDb radio)));
   ("latestFrequencyErrorHz", when received (JInt (rd_lastFrequencyErrorHz radio)));
   ("latestRxToAckStartMs", millisecondsValue acknowledged (ps_lastRxToAckStartUs processing));
   ("latestRxToAckCompleteMs", millisecondsValue acknowledged (ps_lastRxToAckCompleteUs processing));
   ("latestAckTxDurationMs", millisecondsValue acknowledged (ps_lastAckTxDurationUs processing));
   ("avgRxToAckStartMs", average (al_rxToStart latency));
   ("avgRxToAckCompleteMs", average (al_rxToComplete latency));
   ("avgAckTxDurationMs", average (al_txDuration latency))]%string.

Definition statusHeartbeat (c : GatewayConfig) (h : HeartbeatStatus) (resetReason : list Z)
    (bootCount : Z) (figures : Figures) (wifi : WifiStatus) (time : TimeStatus)
    (radio : RadioDiagnostics) (size capacity : nat) : json :=
  let currentUtc := if tst_trusted time then (formatUtc (tst_currentUnixMs time) (zeros 32) 32).2
                    else zeros 32 in
  JObject (List.concat
    [[("intervalSeconds", JInt (cf_heartbeatIntervalSeconds c));
      ("inProgress", JBool (hst_inProgress h))];
     heartbeatTimes h;
     [("lastHttpStatus", JInt (hst_lastHttpStatus h));
      ("lastError", if (default 0 (head (hst_lastError h)) =? 0)%Z then JName "none"
                    else JText (hst_lastError h));
      ("successCountSinceBoot", JInt (hst_successCount h));
      ("failureCountSinceBoot", JInt (hst_failureCount h));
      ("uptimeSeconds", JInt (fg_uptimeUs figures / 1000000)%Z);
      ("resetReason", JText resetReason); ("bootCount", JInt bootCount);
      ("freeHeapBytes", JInt (fg_freeHeap figures));
      ("minFreeHeapBytes", JInt (fg_minFreeHeap figures));
      ("largestFreeHeapBlockBytes", JInt (fg_largestFreeBlock figures));
      ("ssid", JText (wf_ssid wifi));
      ("wifiRssiDbm", when (wf_connected wifi) (JInt (wf_rssiDbm wifi)));
      ("localIp", when (wf_connected wifi) (JText (wf_localIp wifi)));
      ("timeState", JName (if tst_trusted time then "SYNCED" else "UNSYNCED"));
      ("currentUtc", when (tst_trusted time && negb (default 0 (head currentUtc) =? 0)%Z)
                       (JText currentUtc))];
     heartbeatRadio radio;
     [("queueDepth", JInt (Z.of_nat size)); ("queueCapacity", JInt (Z.of_nat capacity))]])%string.

(** ** handleStatus and handleLogs *)

Section Status.
Context (kBuildFlavor kBuildDate kGitCommit : list Z).
Context {W : Type} `{WifiReadings W, TrustedTime W, MonotonicClock W, UploadQueue W}.
Context `{SystemFigures W, DashboardSources W, OtaPlatform W, JsonText}.

Definition statusGateway (p : Parts) (radio : RadioDiagnostics) (wifi : WifiStatus)
    (backend : BackendStatus) (time : TimeStatus) (w : W) : json * W :=
  let '(figures, w) := readFigures w in
  let '(flash, w) := esp_flashChipSize w in
  let '(sketch, w) := esp_sketchSize w in
  let '(freeSketch, w) := esp_freeSketchSpace w in
  let '(used, w) := queue_usedBytes w in
  let '(total, w) := queue_totalBytes w in
  let d := pa_dashboard p in
  (JObject [("firmwareVersion", JText kFirmwareVersion); ("protocolVersion", JInt kVersion);
            ("buildFlavor", JText kBuildFlavor); ("buildDate", JText kBuildDate);
            ("gitCommit", JText kGitCommit);
            ("hardwareMac", JText (gi_hardwareMac (db_identity d)));
            ("gatewayId", JText (cf_gatewayId (config p)));
            ("gatewayBootSessionId", JInt (gi_bootSessionId (db_identity d)));
            ("uptimeMs", JInt (fg_uptimeUs figures / 1000)%Z);
            ("resetReason", JText (db_resetReason d));
            ("bootCount", JInt (cg_bootCount (pa_configStore p)));
            ("freeHeapBytes", JInt (fg_freeHeap figures));
            ("minFreeHeapBytes", JInt (fg_minFreeHeap figures));
            ("largestFreeHeapBlockBytes", JInt (fg_largestFreeBlock figures));
            ("flashBytes", JInt flash); ("firmwareBytes", JInt sketch);
            ("freeOtaSlotBytes", JInt freeSketch); ("filesystemUsedBytes", JInt used);
            ("filesystemTotalBytes", JInt total); ("radioState", JText (rd_state radio));
            ("wifiState", JName (if wf_connected wifi then "CONNECTED" else "DISCONNECTED"));
            ("backendState", JText (bs_state backend));
            ("timeState", JName (if tst_trusted time then "SYNCED" else "UNSYNCED"));
            ("pairedNodeState",
               JName (if radioPaired (pa_radio p) then "PAIRED" else "UNPAIRED"))]%string, w).

Definition oldestAge (size : nat) (p : Parts) (w : W) : Z * W :=
  if (0 <? size)%nat then
    let '(peeked, oldest, w) := uq_peek 1 w in
    match oldest with
    | record :: _ =>
        if (peeked : bool)
        then recordAgeMs (gi_bootSessionId (db_identity (pa_dashboard p))) record w
        else (-1, w)
    | [] => (-1, w)
    end
  else (-1, w).

Definition statusDocument (p : Parts) (w : W) : json * W :=
  let c := config p in
  let '(wifi, w) := wifiStatus (pa_wifi p) w in
  let radio := diagnostics (pa_radio p) in
  let latest := latestTelemetry (pa_radio p) in
  let candidate := pairingCandidate (pa_radio p) in
  let backend := backendStatus (pa_backend p) in
  let heartbeat := heartbeatStatus (pa_backend p) in
  let '(time, w) := time_status w in
  let '(stats, w) := queue_operationalStats w in
  let '(size, w) := uq_size w in
  let '(capacity, w) := uq_capacity w in
  let '(gateway, w) := statusGateway p radio wifi backend time w in
  let '(ageMs, w) := oldestAge size p w in
  let command := current (commandStore p) in
  let '(figures, w) := readFigures w in
  let '(layoutSane, w) := partitionLayoutSane w in
  (JObject [("gateway", gateway); ("wifi", statusWifi c wifi);
            ("pairing", statusPairing (pa_radio p) candidate latest);
            ("latestTelemetry", statusTelemetry latest); ("radio", statusRadio radio);
            ("queue", statusQueue size capacity stats ageMs);
            ("backend", statusBackend c backend); ("time", statusTime time);
            ("command", statusCommand command latest (tst_trusted time));
            ("heartbeat",
               statusHeartbeat c heartbeat (db_resetReason (pa_dashboard p))
                 (cg_bootCount (pa_configStore p)) figures wifi time radio size capacity);
            ("ota", statusOta (pa_ota p) layoutSane)]%string, w).

Definition handleStatus (p : Parts) (w : W) : Response * W :=
  let '(document, w) := statusDocument p w in
  (mkResponse 200 "application/json" (serializeJson document), w).

Definition logDocument (entries : list LogEntry) : json :=
  JObject [("entries", JArray (map (fun e =>
    JObject [("uptimeMs", JInt (le_uptimeMs e)); ("level", JName (levelName (le_level e)));
             ("subsystem", JText (le_subsystem e)); ("message", JText (le_message e))]%string)
    entries))]%string.

(** [allocated], [taken]: there was memory for the snapshot, and the logger's mutex
    was obtained. *)
Definition handleLogs (allocated taken : bool) (p : Parts) : Response :=
  if negb allocated then say 503 "log snapshot unavailable"
  else
    let '(count, entries) := logSnapshot taken (Some (replicate kLogCapacity LogEntry_init))
                               kLogCapacity (pa_logger p) in
    mkResponse 200 "application/json"
      (serializeJson (logDocument (take count (default [] entries)))).

End Status.

(** ** The routes *)

Inductive HttpMethod := HTTP_GET | HTTP_POST.

#[export] Instance http_method_eq_dec : EqDecision HttpMethod.
Proof. solve_decision. Defined.

Section Routes.
Context (config_bytes : GatewayConfig -> list Z) (sizeof_config : nat).
Context (object_bytes : CommandStoreRecord -> list Z).
Context (strtof : list Z -> single * option (list Z) * bool).
Context (kBuildFlavor kBuildDate kGitCommit kDashboardHtml : list Z).
Context {W : Type} `{RawPreferences W, Sx1278 W, CommandBackend W, Millis W}.
Context `{WifiReadings W, WifiControl W, TrustedTime W, MonotonicClock W, Tasks W}.
Context `{UploadQueue W, HttpClient W, SystemFigures W, DashboardSources W, OtaPlatform W, JsonText}.

(** [registerRoutes]: the handler of a request; [allocated] and [taken] are for
    [handleLogs].  A part of an update that is uploaded goes to [handleOtaUpload]
    before. *)
Definition handleRequest (allocated taken : bool) (method : HttpMethod) (path : string)
    (r : Request) (p : Parts) (w : W) : Response * Parts * W :=
  let get p' := bool_decide (method = HTTP_GET) && String.eqb path p' in
  let post p' := bool_decide (method = HTTP_POST) && String.eqb path p' in
  if get "/" then (mkResponse 200 "text/html; charset=utf-8" kDashboardHtml, p, w)
  else if get "/api/status" then
    let '(response, w) := handleStatus kBuildFlavor kBuildDate kGitCommit p w in (response, p, w)
  else if get "/api/logs" then (handleLogs allocated taken p, p, w)
  else if post "/api/wifi" then handleWifi config_bytes sizeof_config r p w
  else if post "/api/wifi/reconnect" then handleReconnect p w
  else if post "/api/gateway" then handleGateway config_bytes sizeof_config r p w
  else if post "/api/backend" then handleBackend config_bytes sizeof_config r p w
  else if post "/api/heartbeat" then handleHeartbeat config_bytes sizeof_config r p w
  else if post "/api/radio" then handleRadio config_bytes sizeof_config strtof r p w
  else if post "/api/radio/restart" then handleRadioRestart p w
  else if post "/api/pair/start" then handlePairStart p w
  else if post "/api/pair/confirm" then handlePairConfirm config_bytes sizeof_config p w
  else if post "/api/pair/cancel" then handlePairCancel p w
  else if post "/api/pair/manual" then handlePairManual config_bytes sizeof_config r p w
  else if post "/api/pair/unpair" then handleUnpair config_bytes sizeof_config r p w
  else if post "/api/queue/flush" then handleFlush p w
  else if post "/api/backend/test" then handleBackendTest p w
  else if post "/api/command/maintenance-now" then handleEnterMaintenance object_bytes r p w
  else if post "/api/command/poll-interval" then handlePollIntervalCommand object_bytes r p w
  else if post "/api/command/schedule" then handleScheduleMaintenance object_bytes r p w
  else if post "/api/command/cancel" then handleCancelCommand object_bytes r p w
  else if post "/api/reboot" then handleReboot r p w
  else if post "/api/ota" then handleOtaComplete p w
  else (say 404 "not found", p, w).

End Routes.
