(* ===== verification/DashboardTheorems.v ===== *)
(** * What the dashboard may change

    Every request keeps the configuration valid and the paired node of the radio the
    one that is stored. *)

From Stdlib Require Import ZArith Lia String.
From stdpp Require Import list.
From S2P Require Import Prelude BuildConfig CString Platform Protocol ProtocolSpec Pairing.
From S2P Require Import CommandStore CommandStoreSpec Metrics PacketProcessor DurableQueue.
From S2P Require Import GatewayConfig ConfigStore StrTo Json BackendContract WifiManager.
From S2P Require Import TimeManager RadioService BackendWorker Logger OtaManager Dashboard.
From S2P Require Import DashboardStatus.
Open Scope Z_scope.

(** ** The parts a request leaves alone *)

Definition pairing_of (p : Parts) : option PairingManager :=
  pp_pairing <$> rv_processor (pa_radio p).

(** The radio's pairing, its lock and the stored node are the same. *)
Record neutral (p p' : Parts) : Prop := {
  nt_pairing : pairing_of p' = pairing_of p;
  nt_mutex : rv_mutex (pa_radio p') = rv_mutex (pa_radio p);
  nt_node : cf_pairedNodeId (config p') = cf_pairedNodeId (config p);
}.

Lemma neutral_refl p : neutral p p.
Proof. done. Qed.

(** The configuration is the old one, or a valid one the request was answered 200
    for; without the radio's processor a pairing may be stored that cannot be put
    into effect. *)
Definition config_step (p : Parts) (resp : Response) (p' : Parts) : Prop :=
  config p' = config p \/
  valid_config (config p') /\
  (rs_status resp = 200 \/ lockedProcessor (pa_radio p) = None).

Definition same_config (p p' : Parts) : Prop := config p' = config p.

Lemma setCommandStore_neutral c p :
  neutral p (setCommandStore c p) /\ same_config p (setCommandStore c p).
Proof.
  unfold setCommandStore, same_config.
  destruct p as [s r c0 wf b o l d]. cbn in *. destruct r as [m t [q|] rd]; cbn; repeat split.
Qed.

Section Theorems.
Context (config_bytes : GatewayConfig -> list Z) (sizeof_config : nat).
Context (object_bytes : CommandStoreRecord -> list Z).
Context (strtof : list Z -> single * option (list Z) * bool).
Context {W : Type} `{RawPreferences W, Sx1278 W, CommandBackend W, Millis W}.
Context `{WifiReadings W, WifiControl W, TrustedTime W, MonotonicClock W, Tasks W}.
Context `{HttpClient W, DashboardSources W}.

Lemma saveConfig_spec c p (w : W) ok p' w' :
  saveConfig config_bytes sizeof_config c p w = (ok, p', w') ->
  if ok then valid_config c /\ exists s, p' = p <| pa_configStore := s |> /\ cg_config s = c
  else p' = p.
Proof.
  unfold saveConfig, configSave, valid_config. intros E.
  destruct (configOk (validateConfig c)); cbn [negb] in E;
    [|injection E as <- <- <-; by destruct p].
  destruct (raw_putBytes _ _ w) as [n w1].
  destruct (n =? sizeof_config)%nat; cbn [negb] in E; injection E as <- <- <-;
    [|by destruct p].
  split; [done|]. eexists. split; [done|]. by destruct (pa_configStore p).
Qed.

Lemma saveValid_spec c failure p (w : W) done_ resp p' w' :
  saveValid config_bytes sizeof_config c failure p w done_ = (resp, p', w') ->
  p' = p \/
  valid_config c /\ exists s w1, cg_config s = c /\
    done_ (p <| pa_configStore := s |>) w1 = (resp, p', w').
Proof.
  unfold saveValid. intros E.
  destruct (configOk (validateConfig c)) eqn:Ev; cbn [negb] in E;
    [|injection E as <- <- <-; by left].
  destruct (saveConfig _ _ c p w) as [[saved p1] w1] eqn:Es. apply saveConfig_spec in Es.
  destruct saved; cbn [negb] in E; [|injection E as <- <- <-; by left].
  destruct Es as (_ & s & -> & Es). right. split; [done|]. by exists s, w1.
Qed.

(** A form: what it puts into effect leaves pairing and configuration alone. *)
Lemma saveValid_neutral c failure p (w : W) done_ resp p' w' :
  cf_pairedNodeId c = cf_pairedNodeId (config p) ->
  (forall q w1 resp1 q1 w2, done_ q w1 = (resp1, q1, w2) ->
     neutral q q1 /\ same_config q q1 /\ rs_status resp1 = 200) ->
  saveValid config_bytes sizeof_config c failure p w done_ = (resp, p', w') ->
  neutral p p' /\ config_step p resp p'.
Proof.
  intros Hn Hd E. apply saveValid_spec in E as [->|(Hv & s & w1 & Es & E)];
    [split; [done|by left]|].
  apply Hd in E as ([N1 N2 N3] & Hc & Hs).
  assert (config (p <| pa_configStore := s |>) = c) as Ec by (by destruct p).
  unfold same_config in Hc. rewrite Ec in *. split.
  - split; [rewrite N1; by destruct p|rewrite N2; by destruct p|congruence].
  - right. rewrite Hc. split; [done|by left].
Qed.

Lemma applyToBackend_neutral c identity p (w : W) p' w' :
  applyToBackend c identity p w = (p', w') -> neutral p p' /\ same_config p p'.
Proof.
  unfold applyToBackend. destruct (backendApplyConfig _ _ _ _) as [b w1]. intros [= <- <-].
  by destruct p.
Qed.

(** What configuring the radio leaves alone. *)
Lemma radioApply_keeps c s (w : W) ok s' w' :
  radioApplyConfig c s w = (ok, s', w') ->
  rv_processor s' = rv_processor s /\ rv_mutex s' = rv_mutex s.
Proof.
  unfold radioApplyConfig. destruct (negb _); [by intros [= <- <- <-]|].
  destruct (radio_standby w) as [x w1]. destruct (configureAndReceive _ _ _) as [[applied r] w2].
  destruct applied; [intros [= <- <- <-]; by destruct s|].
  destruct (configureAndReceive _ _ _) as [[y r2] w3]. intros [= <- <- <-]. by destruct s.
Qed.

Lemma radioRestart_keeps s (w : W) ok s' w' :
  radioRestart s w = (ok, s', w') ->
  rv_processor s' = rv_processor s /\ rv_mutex s' = rv_mutex s.
Proof.
  unfold radioRestart. destruct (negb _); [by intros [= <- <- <-]|].
  destruct (radio_standby w) as [x w1]. destruct (configureAndReceive _ _ _) as [[applied r] w2].
  intros [= <- <- <-]. by destruct s.
Qed.

Lemma setRadio_neutral s p :
  rv_processor s = rv_processor (pa_radio p) -> rv_mutex s = rv_mutex (pa_radio p) ->
  neutral p (p <| pa_radio := s |>) /\ same_config p (p <| pa_radio := s |>).
Proof.
  intros E1 E2. destruct p. cbn in *. split; [|done].
  split; unfold pairing_of; cbn; [by rewrite E1|done|done].
Qed.

Lemma applyToRadio_neutral c p (w : W) ok p' w' :
  applyToRadio c p w = (ok, p', w') -> neutral p p' /\ same_config p p'.
Proof.
  unfold applyToRadio. destruct (radioApplyConfig _ _ _) as [[applied s] w1] eqn:E.
  intros [= <- <- <-]. apply radioApply_keeps in E as [E1 E2]. by apply setRadio_neutral.
Qed.

Lemma neutral_trans p q r : neutral p q -> neutral q r -> neutral p r.
Proof. intros [] []. split; congruence. Qed.

Lemma same_config_step p resp p' : same_config p p' -> config_step p resp p'.
Proof. intros E. by left. Qed.

(** ** The forms *)

Lemma handleWifi_neutral r p (w : W) resp p' w' :
  handleWifi config_bytes sizeof_config r p w = (resp, p', w') ->
  neutral p p' /\ config_step p resp p'.
Proof.
  unfold handleWifi. apply saveValid_neutral; [by destruct (config p)|].
  intros q w1 resp1 q1 w2 [= <- <- <-]. by destruct q.
Qed.

Lemma handleGateway_neutral r p (w : W) resp p' w' :
  handleGateway config_bytes sizeof_config r p w = (resp, p', w') ->
  neutral p p' /\ config_step p resp p'.
Proof.
  unfold handleGateway. apply saveValid_neutral; [by destruct (config p)|].
  intros q w1 resp1 q1 w2 E. destruct (applyToBackend _ _ _ w1) as [q2 w3] eqn:Ea.
  injection E as <- <- <-. apply applyToBackend_neutral in Ea as [[] Ec].
  unfold same_config in *. split; [split|split]; destruct q; by etransitivity.
Qed.

Lemma handleBackend_neutral r p (w : W) resp p' w' :
  handleBackend config_bytes sizeof_config r p w = (resp, p', w') ->
  neutral p p' /\ config_step p resp p'.
Proof.
  unfold handleBackend. destruct (parseUnsigned _ 0) as [ok1 batch].
  destruct (_ || _); [intros [= <- <- <-]; split; [done|by left]|].
  destruct (parseUnsigned _ _) as [ok2 timeout].
  destruct (negb ok2); [intros [= <- <- <-]; split; [done|by left]|].
  apply saveValid_neutral; [by destruct (config p)|].
  intros q w1 resp1 q1 w2 E. destruct (applyToBackend _ _ _ w1) as [q2 w3] eqn:Ea.
  injection E as <- <- <-. by apply applyToBackend_neutral in Ea as [? ?].
Qed.

Lemma handleHeartbeat_neutral r p (w : W) resp p' w' :
  handleHeartbeat config_bytes sizeof_config r p w = (resp, p', w') ->
  neutral p p' /\ config_step p resp p'.
Proof.
  unfold handleHeartbeat. destruct (parseUnsigned _ _) as [ok interval].
  destruct (negb ok); [intros [= <- <- <-]; split; [done|by left]|].
  apply saveValid_neutral; [by destruct (config p)|].
  intros q w1 resp1 q1 w2 E. destruct (applyToBackend _ _ _ w1) as [q2 w3] eqn:Ea.
  injection E as <- <- <-. by apply applyToBackend_neutral in Ea as [? ?].
Qed.

Lemma handleRadio_neutral r p (w : W) resp p' w' :
  handleRadio config_bytes sizeof_config strtof r p w = (resp, p', w') ->
  neutral p p' /\ config_step p resp p'.
Proof.
  unfold handleRadio. destruct (radioForm _ _ _) as [radio|message];
    [|intros [= <- <- <-]; split; [done|by left]].
  set (c := (config p) <| cf_radio := radio |>). intros E.
  destruct (configOk (validateConfig c)); cbn [negb] in E;
    [|injection E as <- <- <-; split; [done|by left]].
  destruct (applyToRadio radio p w) as [[applied p1] w1] eqn:E1.
  apply applyToRadio_neutral in E1 as [N1 C1].
  destruct applied; cbn [negb] in E; [|injection E as <- <- <-; split; [done|by left]].
  destruct (saveConfig _ _ c p1 w1) as [[saved p2] w2] eqn:E2. apply saveConfig_spec in E2.
  destruct saved; cbn [negb] in E.
  - injection E as <- <- <-. destruct E2 as (Hv & s & -> & Es).
    assert (config (p1 <| pa_configStore := s |>) = c) as Ec by (by destruct p1).
    split; [|right; rewrite Ec; split; [done|by left]].
    destruct N1 as [N1 N2 N3]. split; [rewrite <- N1; by destruct p1|rewrite <- N2; by destruct p1|].
    rewrite Ec. unfold c. by destruct (config p).
  - subst p2. destruct (applyToRadio _ p1 w2) as [[again p3] w3] eqn:E3.
    apply applyToRadio_neutral in E3 as [N3 C3]. injection E as <- <- <-.
    split; [by eapply neutral_trans|]. left. unfold same_config in *. congruence.
Qed.

(** ** Commands, restarts and updates *)

Lemma createCommand_neutral type poll scheduled created done_ p (w : W) resp p' w' :
  createCommand object_bytes type poll scheduled created done_ p w = (resp, p', w') ->
  neutral p p' /\ same_config p p'.
Proof.
  unfold createCommand. destruct (create _ _ _ _ _ _ _ w) as [[[ok id] c] w1].
  intros [= <- <- <-]. apply setCommandStore_neutral.
Qed.

Lemma handleEnterMaintenance_neutral r p (w : W) resp p' w' :
  handleEnterMaintenance object_bytes r p w = (resp, p', w') -> neutral p p' /\ same_config p p'.
Proof.
  unfold handleEnterMaintenance. destruct (negb _); [by intros [= <- <- <-]|].
  destruct (negb _); [by intros [= <- <- <-]|]. destruct (time_now w) as [now w1].
  apply createCommand_neutral.
Qed.

Lemma handlePollInterval_neutral r p (w : W) resp p' w' :
  handlePollIntervalCommand object_bytes r p w = (resp, p', w') ->
  neutral p p' /\ same_config p p'.
Proof.
  unfold handlePollIntervalCommand. destruct (negb _); [by intros [= <- <- <-]|].
  destruct (parseUnsigned _ _) as [ok minutes]. destruct (_ || _); [by intros [= <- <- <-]|].
  destruct (time_now w) as [now w1]. apply createCommand_neutral.
Qed.

Lemma handleSchedule_neutral r p (w : W) resp p' w' :
  handleScheduleMaintenance object_bytes r p w = (resp, p', w') ->
  neutral p p' /\ same_config p p'.
Proof.
  unfold handleScheduleMaintenance. destruct (negb _); [by intros [= <- <- <-]|].
  destruct (time_now w) as [now w1]. destruct (_ || _); [by intros [= <- <- <-]|].
  destruct (parseUnsigned _ _) as [ok target]. destruct (negb ok); [by intros [= <- <- <-]|].
  destruct (_ || _); [by intros [= <- <- <-]|]. apply createCommand_neutral.
Qed.

Lemma handleCancel_neutral r p (w : W) resp p' w' :
  handleCancelCommand object_bytes r p w = (resp, p', w') -> neutral p p' /\ same_config p p'.
Proof.
  unfold handleCancelCommand. destruct (negb _); [by intros [= <- <- <-]|].
  destruct (parseUnsigned _ _) as [ok id]. destruct (if ok then _ else _) as [[okay c] w1].
  intros [= <- <- <-]. apply setCommandStore_neutral.
Qed.

Lemma handleReboot_neutral r p (w : W) resp p' w' :
  handleReboot r p w = (resp, p', w') -> neutral p p' /\ same_config p p'.
Proof.
  unfold handleReboot. destruct (negb _); [by intros [= <- <- <-]|].
  destruct (millis w) as [now w1]. intros [= <- <- <-]. by destruct p.
Qed.

Lemma handleOtaComplete_neutral p (w : W) resp p' w' :
  handleOtaComplete p w = (resp, p', w') -> neutral p p' /\ same_config p p'.
Proof.
  unfold handleOtaComplete. destruct (negb _); [intros [= <- <- <-]; by destruct p|].
  destruct (millis w) as [now w1]. intros [= <- <- <-]. by destruct p.
Qed.

Lemma handleRadioRestart_neutral p (w : W) resp p' w' :
  handleRadioRestart p w = (resp, p', w') -> neutral p p' /\ same_config p p'.
Proof.
  unfold handleRadioRestart. destruct (radioRestart _ w) as [[ok s] w1] eqn:E.
  intros [= <- <- <-]. apply radioRestart_keeps in E as [E1 E2]. by apply setRadio_neutral.
Qed.

Lemma handleBackendTest_neutral p (w : W) resp p' w' :
  handleBackendTest p w = (resp, p', w') -> p' = p.
Proof.
  unfold handleBackendTest. destruct (testConnection _ _ w) as [[[ok st] er] w1].
  destruct ok; by intros [= <- <- <-].
Qed.

(** ** Pairing *)

(** The pairing the radio works with is a sound one, and its node is the one stored
    in the configuration. *)
Record pairing_stored (p : Parts) : Prop := {
  ps_length : length (cf_pairedNodeId (config p)) = kNodeIdCapacity;
  ps_mutex : rv_processor (pa_radio p) <> None -> rv_mutex (pa_radio p) = true;
  ps_node m : pairing_of p = Some m ->
    pairing_ok m /\ nodeOf (pm_pairedNodeId m) = nodeOf (cf_pairedNodeId (config p));
}.

Lemma neutral_stored p p' : neutral p p' -> pairing_stored p -> pairing_stored p'.
Proof.
  intros [N1 N2 N3] [L M S]. split; [by rewrite N3| |].
  - rewrite N2. intros Hp. apply M. intros E. apply Hp. unfold pairing_of in N1.
    rewrite E in N1. by destruct (rv_processor (pa_radio p')).
  - intros m Em. rewrite N3. apply S. congruence.
Qed.

(** The pairing manager behind the lock. *)
Lemma onPairing_spec {A} (refused : A) f s a s' :
  onPairing refused f s = (a, s') ->
  rv_mutex s' = rv_mutex s /\
  match lockedProcessor s with
  | None => a = refused /\ s' = s
  | Some q => a = (f (pp_pairing q)).1 /\
              pp_pairing <$> rv_processor s' = Some (f (pp_pairing q)).2 /\
              rv_processor s' <> None
  end.
Proof.
  unfold onPairing. destruct (lockedProcessor s) as [q|]; [|by intros [= <- <-]].
  destruct (f (pp_pairing q)) as [b m]. intros [= <- <-]. by destruct s.
Qed.

Lemma locked_some p q :
  pairing_stored p -> lockedProcessor (pa_radio p) = Some q -> pairing_of p = Some (pp_pairing q).
Proof.
  unfold lockedProcessor, pairing_of. intros _. destruct (rv_mutex _); [|done]. by intros ->.
Qed.

Lemma locked_none p :
  pairing_stored p -> lockedProcessor (pa_radio p) = None -> pairing_of p = None.
Proof.
  intros [_ M _]. unfold lockedProcessor, pairing_of in *.
  destruct (rv_processor (pa_radio p)); [by rewrite M|done].
Qed.

(** An operation of the pairing manager, from the dashboard: what it leaves. *)
Lemma onPairing_stored {A} (refused : A) f op p a s c :
  onPairing refused f (pa_radio p) = (a, s) ->
  (forall m, (f m).2 = (run_op op m).2) -> pairing_stored p ->
  length (cf_pairedNodeId (cg_config c)) = kNodeIdCapacity ->
  (forall m, pairing_of p = Some m -> pv_node (spec_step op (view m)).2 =
     nodeOf (cf_pairedNodeId (cg_config c))) ->
  pairing_stored (p <| pa_radio := s |> <| pa_configStore := c |>).
Proof.
  intros E Hf S Hl Hn. apply onPairing_spec in E as [Em E].
  assert (config (p <| pa_radio := s |> <| pa_configStore := c |>) = cg_config c) as Ec
    by (by destruct p).
  assert (pa_radio (p <| pa_radio := s |> <| pa_configStore := c |>) = s) as Es
    by (by destruct p).
  split; [by rewrite Ec|rewrite Es, Em|rewrite Ec].
  - destruct (lockedProcessor (pa_radio p)) as [q|] eqn:El.
    + intros _. unfold lockedProcessor in El. by destruct (rv_mutex (pa_radio p)).
    + destruct E as [_ ->]. apply (ps_mutex _ S).
  - intros m Ep. destruct (lockedProcessor (pa_radio p)) as [q|] eqn:El.
    + destruct E as (_ & Ef & _). pose proof (locked_some _ _ S El) as Eq.
      assert (m = (run_op op (pp_pairing q)).2) as ->.
      { rewrite <- Hf. unfold pairing_of in Ep. destruct p; cbn in *. congruence. }
      destruct (ps_node _ S _ Eq) as [K _]. destruct (run_op_refines op _ K) as [K' Ev].
      apply (f_equal snd) in Ev. cbn [snd] in Ev.
      split; [done|]. rewrite <- (Hn _ Eq).
      change (nodeOf (pm_pairedNodeId (run_op op (pp_pairing q)).2))
        with (pv_node (view (run_op op (pp_pairing q)).2)). by rewrite Ev.
    + destruct E as [_ ->]. pose proof (locked_none _ S El) as En.
      unfold pairing_of in *. destruct p; cbn in *. congruence.
Qed.

(** ** The stored node *)

Lemma nodeOf_text a b : c_text kNodeIdCapacity a = c_text kNodeIdCapacity b -> nodeOf a = nodeOf b.
Proof. unfold nodeOf. by intros ->. Qed.

Lemma nodeOf_copy node source :
  length node = kNodeIdCapacity -> source !! (kNodeIdCapacity - 1)%nat = Some 0 ->
  nodeOf (copyText node (Some source)) = nodeOf source.
Proof.
  intros Hl He. apply nodeOf_text. unfold kNodeIdCapacity in *.
  rewrite c_text_copyText by done. symmetry. by apply c_text_stop.
Qed.

(** The text of a valid identifier is shorter than the array. *)
Lemma valid_c_text s :
  nodeIdValid (Some s) = true ->
  c_text (kNodeIdCapacity - 1) s = c_text kNodeIdCapacity s /\ nodeOf s = validNode (Some s).
Proof.
  intros Hv. assert (c_text (kNodeIdCapacity - 1) s = c_text kNodeIdCapacity s) as E.
  { apply nodeIdValid_spec in Hv as [Hn _]. unfold nodeText in Hn. unfold kNodeIdCapacity in *.
    change (25 - 1)%nat with 24%nat. unfold c_text in *. rewrite length_take in Hn. f_equal.
    pose proof (strnlen_le_n s 24).
    destruct (decide (strnlen s 24 = 24)%nat); [|symmetry; apply strnlen_mono; lia].
    pose proof (strnlen_le_mono s 24 25). pose proof (strnlen_le_length s 25). lia. }
  split; [done|]. unfold validNode, nodeOf. cbn [mbind option_bind]. rewrite Hv.
  apply nodeIdValid_spec in Hv as [Hn _]. unfold nodeText in Hn.
  case_bool_decide as Ee; [|done]. unfold c_text in *. rewrite Ee in Hn. cbn in Hn. lia.
Qed.

Lemma nodeOf_manual node s :
  length node = kNodeIdCapacity -> nodeIdValid (Some s) = true ->
  nodeOf (copyText node (Some s)) = validNode (Some s).
Proof.
  intros Hl Hv. destruct (valid_c_text s Hv) as [E <-]. apply nodeOf_text.
  unfold kNodeIdCapacity in *. by rewrite c_text_copyText.
Qed.

Lemma length_cleared s : length (cleared s) = length s.
Proof. apply length_insert. Qed.

Lemma nodeOf_cleared s : nodeOf (cleared s) = None.
Proof. apply nodeOf_clear. Qed.

(** ** The handlers of the pairing *)

Lemma stored_config p s :
  pairing_stored p -> cf_pairedNodeId (cg_config s) = cf_pairedNodeId (config p) ->
  pairing_stored (p <| pa_configStore := s |>).
Proof.
  intros K E. apply (neutral_stored p); [|done]. destruct p. by split.
Qed.

Lemma handlePairStart_stored p (w : W) resp p' w' :
  pairing_stored p -> handlePairStart p w = (resp, p', w') ->
  pairing_stored p' /\ same_config p p'.
Proof.
  intros K E. unfold handlePairStart, startPairing in E.
  destruct (onPairing _ _ _) as [started s] eqn:Es. injection E as <- <- <-.
  apply (onPairing_stored _ _ OpStart p _ _ (pa_configStore p)) in Es; [|done|done|apply K|].
  - destruct p. by split.
  - intros m Em. change (cg_config (pa_configStore p)) with (config p).
    destruct (ps_node _ K m Em) as [_ <-]. cbn [spec_step pv_node view].
    by destruct (nodeOf (pm_pairedNodeId m)) eqn:En.
Qed.

Lemma handlePairCancel_stored p (w : W) resp p' w' :
  pairing_stored p -> handlePairCancel p w = (resp, p', w') ->
  pairing_stored p' /\ same_config p p'.
Proof.
  intros K E. unfold handlePairCancel, cancelPairing in E.
  destruct (onPairing _ _ _) as [started s] eqn:Es. injection E as <- <- <-.
  apply (onPairing_stored _ _ Pairing.OpCancel p _ _ (pa_configStore p)) in Es; [|done|done|apply K|].
  - destruct p. by split.
  - intros m Em. change (cg_config (pa_configStore p)) with (config p).
    by destruct (ps_node _ K m Em) as [_ <-].
Qed.

(** Clearing the radio's pairing when the stored node is none. *)
Lemma unpairRadio_stored p c :
  pairing_stored p -> length (cf_pairedNodeId (cg_config c)) = kNodeIdCapacity ->
  nodeOf (cf_pairedNodeId (cg_config c)) = None ->
  pairing_stored (unpairRadio (p <| pa_configStore := c |>)).
Proof.
  intros K Hl Hn. unfold unpairRadio, radioUnpair.
  destruct (onPairing tt (fun m => (tt, unpair m)) (pa_radio p)) as [u s] eqn:Es.
  assert ((p <| pa_configStore := c |>) <| pa_radio :=
    (onPairing tt (fun m => (tt, unpair m)) (pa_radio (p <| pa_configStore := c |>))).2 |> =
    p <| pa_radio := s |> <| pa_configStore := c |>) as ->
    by (destruct p; cbn in *; by rewrite Es).
  apply (onPairing_stored _ _ OpUnpair p _ _ c) in Es; [done|done|done|done|].
  intros m _. by rewrite Hn.
Qed.

Lemma handleUnpair_stored r p (w : W) resp p' w' :
  pairing_stored p -> handleUnpair config_bytes sizeof_config r p w = (resp, p', w') ->
  pairing_stored p' /\ config_step p resp p'.
Proof.
  intros K E. unfold handleUnpair in E.
  destruct (negb _); [injection E as <- <- <-; split; [done|by left]|].
  set (c := (config p) <| cf_pairedNodeId := cleared (cf_pairedNodeId (config p)) |>) in E.
  assert (cf_pairedNodeId c = cleared (cf_pairedNodeId (config p))) as Ec
    by (unfold c; by destruct (config p)).
  destruct (saveConfig _ _ c p w) as [[saved p1] w1] eqn:Es. apply saveConfig_spec in Es.
  destruct saved; cbn [negb] in E; injection E as <- <- <-; [|subst; split; [done|by left]].
  destruct Es as (Hv & s & -> & Es). split.
  - apply unpairRadio_stored; [done|..]; rewrite Es, Ec; [|apply nodeOf_cleared].
    rewrite length_cleared. apply K.
  - right. assert (config (unpairRadio (p <| pa_configStore := s |>)) = c) as -> by (by destruct p).
    split; [done|by left].
Qed.

Lemma handlePairManual_stored r p (w : W) resp p' w' :
  pairing_stored p -> handlePairManual config_bytes sizeof_config r p w = (resp, p', w') ->
  pairing_stored p' /\ config_step p resp p'.
Proof.
  intros K E. unfold handlePairManual in E. set (id := arg r "nodeId") in E.
  destruct (nodeIdValid (Some id)) eqn:Hv; cbn [negb] in E;
    [|injection E as <- <- <-; split; [done|by left]].
  set (c := (config p) <| cf_pairedNodeId := copyText (cf_pairedNodeId (config p)) (Some id) |>) in E.
  assert (cf_pairedNodeId c = copyText (cf_pairedNodeId (config p)) (Some id)) as Ec
    by (unfold c; by destruct (config p)).
  destruct (saveConfig _ _ c p w) as [[saved p1] w1] eqn:Es. apply saveConfig_spec in Es.
  destruct saved; cbn [negb] in E; [|injection E as <- <- <-; subst; split; [done|by left]].
  destruct Es as (Hc & s & -> & Es).
  assert (pa_radio (p <| pa_configStore := s |>) = pa_radio p) as Er by (by destruct p).
  rewrite Er in E. unfold radioPairManual in E.
  destruct (onPairing false (pairManual (Some id)) (pa_radio p)) as [paired s1] eqn:Ep.
  pose proof (onPairing_spec _ _ _ _ _ Ep) as [_ El].
  pose proof (onPairing_stored _ _ (OpManual (Some id)) p _ _ s Ep (fun _ => eq_refl) K) as K1.
  assert (pairing_stored (p <| pa_radio := s1 |> <| pa_configStore := s |>)) as K2.
  { apply K1; rewrite Es, Ec; [rewrite length_copyText; apply K|].
    intros m _. rewrite nodeOf_manual by (apply K || done).
    cbn [spec_step]. unfold validNode. cbn [mbind option_bind]. by rewrite Hv. }
  assert ((p <| pa_configStore := s |>) <| pa_radio := s1 |> =
          p <| pa_radio := s1 |> <| pa_configStore := s |>) as Eq by (by destruct p).
  rewrite Eq in E. destruct paired; cbn [negb] in E.
  - injection E as <- <- <-. split; [done|]. right.
    match goal with |- context [config ?x] => assert (config x = c) as -> by (by destruct p) end.
    split; [done|by left].
  - assert (lockedProcessor (pa_radio p) = None) as Hnone.
    { destruct (lockedProcessor (pa_radio p)) as [q|]; [|done]. destruct El as (El & _).
      unfold pairManual in El. by rewrite Hv in El. }
    rewrite Hnone in El. destruct El as [_ ->].
    destruct (saveConfig _ _ (config p) _ w1) as [[again p2] w2] eqn:E2.
    apply saveConfig_spec in E2. injection E as <- <- <-.
    destruct again; [|subst p2; split; [done|]].
    + destruct E2 as (_ & s2 & -> & E3).
      assert (p <| pa_radio := pa_radio p |> <| pa_configStore := s |> <| pa_configStore := s2 |> =
              p <| pa_configStore := s2 |>) as -> by (by destruct p).
      split; [apply stored_config; [done|by rewrite E3]|]. left.
      rewrite <- E3. by destruct p.
    + right.
      match goal with |- context [config ?x] => assert (config x = c) as -> by (by destruct p) end.
      split; [done|by right].
Qed.

(** No candidate: the pairing stays as it is. *)
Lemma confirmRefused_stored p s :
  pairing_stored p -> onPairing false confirmCandidate (pa_radio p) = (false, s) ->
  pairing_stored (p <| pa_radio := s |>).
Proof.
  intros K Eo. pose proof (onPairing_spec _ _ _ _ _ Eo) as [Em El].
  destruct (lockedProcessor (pa_radio p)) as [q|] eqn:Hq; [|destruct El as [_ ->]; by destruct p].
  destruct El as (Ef & Ep & _). apply (neutral_stored p); [|done].
  destruct p as [? rd]; cbn in *. split; [|done|done]. unfold pairing_of. cbn. rewrite Ep.
  assert ((confirmCandidate (pp_pairing q)).2 = pp_pairing q) as ->.
  { unfold confirmCandidate in *. by destruct (_ || _). }
  symmetry. by apply (locked_some (mkParts _ rd _ _ _ _ _ _) _ K).
Qed.

(** The node that has been confirmed is copied into the configuration whole. *)
Lemma confirmed_id node stored :
  length node = kNodeIdCapacity -> node !! (kNodeIdCapacity - 1)%nat = Some 0 ->
  length stored = kNodeIdCapacity ->
  nodeOf (copyText stored (Some (copyText (zeros kNodeIdCapacity) (Some node)))) = nodeOf node.
Proof.
  intros Hn1 Hn2 Hl. set (id := copyText (zeros kNodeIdCapacity) (Some node)).
  assert (id !! (kNodeIdCapacity - 1)%nat = Some 0) as He
    by (apply (copyText_end (zeros kNodeIdCapacity)); by apply Nat.ltb_lt).
  rewrite nodeOf_copy by done. unfold id. by apply nodeOf_copy.
Qed.

(** The configuration could not be saved: the radio is unpaired again. *)
Lemma unpairAgain_stored p s q :
  pairing_stored p -> lockedProcessor s = Some q -> pairing_ok (pp_pairing q) ->
  nodeOf (cf_pairedNodeId (config p)) = None ->
  pairing_stored (unpairRadio (p <| pa_radio := s |>)).
Proof.
  intros K Els Ok Hnone. set (p0 := p <| pa_radio := s |>). unfold unpairRadio, radioUnpair.
  assert (pa_radio p0 = s) as -> by (by destruct p).
  destruct (onPairing tt (fun m => (tt, unpair m)) s) as [u s2] eqn:E2.
  apply onPairing_spec in E2 as [Em2 E2]. rewrite Els in E2. destruct E2 as (_ & E2 & _).
  destruct (run_op_refines Pairing.OpUnpair _ Ok) as [Ok2 Ev2]. cbn [run_op fst snd] in Ok2, Ev2.
  assert (config (p0 <| pa_radio := s2 |>) = config p) as Ec1 by (by destruct p).
  assert (rv_mutex s = true) as Hm by (unfold lockedProcessor in Els; by destruct (rv_mutex s)).
  cbn [snd]. split; rewrite ?Ec1.
  - apply K.
  - assert (pa_radio (p0 <| pa_radio := s2 |>) = s2) as -> by (by destruct p). congruence.
  - intros m Em'. assert (pairing_of (p0 <| pa_radio := s2 |>) = pp_pairing <$> rv_processor s2)
      as Epp by (by destruct p). rewrite Epp, E2 in Em'. injection Em' as <-.
    split; [exact Ok2|]. rewrite Hnone. apply nodeOf_clear.
Qed.

(** A confirmed candidate: the node is a new one. *)
Lemma confirm_fresh p q :
  pairing_stored p -> lockedProcessor (pa_radio p) = Some q ->
  (confirmCandidate (pp_pairing q)).1 = true ->
  pairing_ok (confirmCandidate (pp_pairing q)).2 /\ nodeOf (cf_pairedNodeId (config p)) = None.
Proof.
  intros K Hq Ef. pose proof (locked_some _ _ K Hq) as Eq. destruct (ps_node _ K _ Eq) as [Ok On].
  destruct (run_op_refines Pairing.OpConfirm _ Ok) as [Ok' Ev]. cbn [run_op] in Ok', Ev.
  split; [exact Ok'|]. rewrite <- On. apply Ok.
  apply (f_equal fst) in Ev. cbn [fst] in Ev. change (fst _) with (confirmCandidate (pp_pairing q)).1 in Ev at 1.
  rewrite Ef in Ev. cbn [spec_step pv_searching view] in Ev. by destruct (pm_pairingMode (pp_pairing q)).
Qed.

Lemma handlePairConfirm_stored p (w : W) resp p' w' :
  pairing_stored p -> handlePairConfirm config_bytes sizeof_config p w = (resp, p', w') ->
  pairing_stored p' /\ config_step p resp p'.
Proof.
  intros K E. unfold handlePairConfirm, confirmPairing in E.
  destruct (onPairing false confirmCandidate (pa_radio p)) as [okay s] eqn:Eo.
  pose proof (onPairing_spec _ _ _ _ _ Eo) as [Em El]. destruct okay; cbn [negb] in E.
  2:{ injection E as <- <- <-. split; [by apply confirmRefused_stored|left; by destruct p]. }
  destruct (lockedProcessor (pa_radio p)) as [q|] eqn:Hq; [|by destruct El].
  destruct El as (Ef & Ep & _). destruct (confirm_fresh p q K Hq (eq_sym Ef)) as [Ok' Hnone].
  destruct (rv_processor s) as [q'|] eqn:Eq'; [|done].
  change (Some (pp_pairing q') = Some (confirmCandidate (pp_pairing q)).2) in Ep.
  injection Ep as Ep. rewrite <- Ep in Ok'.
  assert (rv_mutex (pa_radio p) = true) as Hm
    by (unfold lockedProcessor in Hq; by destruct (rv_mutex (pa_radio p))).
  assert (lockedProcessor s = Some q') as Els by (unfold lockedProcessor; by rewrite Em, Hm).
  rewrite Els in E. set (node := pm_pairedNodeId (pp_pairing q')) in *.
  set (id := copyText (zeros kNodeIdCapacity) (Some node)) in E.
  assert (nodeOf (copyText (cf_pairedNodeId (config p)) (Some id)) = nodeOf node) as Hid
    by (apply confirmed_id; [apply Ok'|apply Ok'|apply K]).
  set (p0 := p <| pa_radio := s |>) in E. unfold savePairedNode in E. cbv zeta in E.
  assert (config p0 = config p) as Ec0 by (by destruct p). rewrite Ec0 in E.
  change (default [] match zeros kNodeIdCapacity with
                     | [] => Some (zeros kNodeIdCapacity) | _ :: _ => Some id end) with id in E.
  set (c := (config p) <| cf_pairedNodeId := copyText (cf_pairedNodeId (config p)) (Some id) |>) in E.
  assert (cf_pairedNodeId c = copyText (cf_pairedNodeId (config p)) (Some id)) as Ec
    by (unfold c; by destruct (config p)).
  destruct (saveConfig _ _ c p0 w) as [[saved p1] w1] eqn:Es. apply saveConfig_spec in Es.
  destruct saved; cbn [negb] in E; injection E as <- <- <-;
    [|subst p1; split; [by apply (unpairAgain_stored p s q')|left; by destruct p]].
  destruct Es as (Hv & cs & -> & Es).
  assert (config (p0 <| pa_configStore := cs |>) = c) as Ec1 by (by destruct p).
  split; [|right; rewrite Ec1; split; [done|by left]]. split; rewrite ?Ec1, ?Ec.
  - rewrite length_copyText. apply K.
  - assert (pa_radio (p0 <| pa_configStore := cs |>) = s) as -> by (by destruct p). congruence.
  - intros m Em'. assert (pairing_of (p0 <| pa_configStore := cs |>) = pp_pairing <$> rv_processor s)
      as Epp by (by destruct p). rewrite Epp, Eq' in Em'. injection Em' as <-. by rewrite Hid.
Qed.

(** ** Requests *)

Context (kBuildFlavor kBuildDate kGitCommit kDashboardHtml : list Z).
Context `{UploadQueue W, SystemFigures W, OtaPlatform W, JsonText}.

Abbreviation request := (handleRequest config_bytes sizeof_config object_bytes strtof
  kBuildFlavor kBuildDate kGitCommit kDashboardHtml).

(** A request that leaves pairing and stored node alone. *)
Lemma neutral_request p resp p' :
  pairing_stored p -> neutral p p' -> config_step p resp p' ->
  pairing_stored p' /\ config_step p resp p'.
Proof. intros K N C. split; [by eapply neutral_stored|done]. Qed.

Lemma request_spec allocated taken method path r p (w : W) resp p' w' :
  pairing_stored p -> request allocated taken method path r p w = (resp, p', w') ->
  pairing_stored p' /\ config_step p resp p'.
Proof.
  intros K E. unfold handleRequest in E. cbv zeta in E.
  destruct (_ && (path =? "/")%string); [injection E as <- <- <-; split; [done|by left]|].
  destruct (_ && _); [destruct (handleStatus _ _ _ p w) as [rs w1]; injection E as <- <- <-;
                      split; [done|by left]|].
  destruct (_ && _); [injection E as <- <- <-; split; [done|by left]|].
  destruct (_ && _); [apply handleWifi_neutral in E as []; by apply neutral_request|].
  destruct (_ && _); [injection E as <- <- <-; apply neutral_request; [done|by destruct p|];
                      left; by destruct p|].
  destruct (_ && _); [apply handleGateway_neutral in E as []; by apply neutral_request|].
  destruct (_ && _); [apply handleBackend_neutral in E as []; by apply neutral_request|].
  destruct (_ && _); [apply handleHeartbeat_neutral in E as []; by apply neutral_request|].
  destruct (_ && _); [apply handleRadio_neutral in E as []; by apply neutral_request|].
  destruct (_ && _); [apply handleRadioRestart_neutral in E as [];
                      apply neutral_request; [done|done|by left]|].
  destruct (_ && _); [apply handlePairStart_stored in E as []; [|done]; split; [done|by left]|].
  destruct (_ && _); [by apply handlePairConfirm_stored in E|].
  destruct (_ && _); [apply handlePairCancel_stored in E as []; [|done]; split; [done|by left]|].
  destruct (_ && _); [by apply handlePairManual_stored in E|].
  destruct (_ && _); [by apply handleUnpair_stored in E|].
  destruct (_ && _); [injection E as <- <- <-; split; [done|by left]|].
  destruct (_ && _); [apply handleBackendTest_neutral in E as ->; split; [done|by left]|].
  destruct (_ && _); [apply handleEnterMaintenance_neutral in E as [];
                      apply neutral_request; [done|done|by left]|].
  destruct (_ && _); [apply handlePollInterval_neutral in E as [];
                      apply neutral_request; [done|done|by left]|].
  destruct (_ && _); [apply handleSchedule_neutral in E as [];
                      apply neutral_request; [done|done|by left]|].
  destruct (_ && _); [apply handleCancel_neutral in E as [];
                      apply neutral_request; [done|done|by left]|].
  destruct (_ && _); [apply handleReboot_neutral in E as [];
                      apply neutral_request; [done|done|by left]|].
  destruct (_ && _); [apply handleOtaComplete_neutral in E as [];
                      apply neutral_request; [done|done|by left]|].
  injection E as <- <- <-. split; [done|by left].
Qed.

(** C21: the dashboard never stores an invalid configuration and never changes it
    behind a refusal: after any request the configuration is the old one, or one that
    [validateConfig] accepts and the answer is 200; only while there is no radio
    processor to pair with may a refused manual pairing leave its node stored. *)
Theorem requests_keep_valid_config allocated taken method path r p (w : W) resp p' w' :
  pairing_stored p -> valid_config (config p) ->
  request allocated taken method path r p w = (resp, p', w') ->
  valid_config (config p') /\
  (config p' <> config p -> rs_status resp = 200 \/ lockedProcessor (pa_radio p) = None).
Proof.
  intros K V E. apply request_spec in E as [_ [Ec|[V' Hs]]]; [|done|done].
  by rewrite Ec.
Qed.

End Theorems.
