(* ===== verification/HilSerial.v ===== *)
(** * The serial commands of the bench build (lib/app/gateway_app, [handleHilSerial])

    [HIL_PAIR], [HIL_UNPAIR], [HIL_INJECT], [HIL_SUPPRESS_ACK_ONCE] and
    [HIL_RADIO_CYCLE], read character by character.  They store a pairing like the
    dashboard does: [handleHilSerial_stored]. *)

From Stdlib Require Import ZArith Lia String.
From stdpp Require Import list.
From S2P Require Import Prelude BuildConfig CString Platform Protocol ProtocolSpec Pairing.
From S2P Require Import CommandStore PacketProcessor GatewayConfig ConfigStore StrTo.
From S2P Require Import TimeManager RadioService RadioSynthetic Dashboard DashboardTheorems.
Open Scope Z_scope.

(** What the application keeps for it, and the radio's queue of injected packets. *)
Record HilState := mkHilState {
  hs_serialLine : list Z;
  hs_sequence : Z;
  hs_syntheticQueue : ptr (list Z);
}.

Definition HilState_init : HilState := mkHilState [] 1 None.

(** [String::trim] *)
Definition trim (line : list Z) : list Z :=
  let drop_space s := snd (span isspace s) in rev (drop_space (rev (drop_space line))).

Definition kHilNode : list Z := chars "N1".

Section HilSerial.
Context (config_bytes : GatewayConfig -> list Z) (sizeof_config : nat).
Context {W : Type} `{RawPreferences W, Sx1278 W, Tasks W}.

Definition hilPair (p : Parts) (w : W) : Parts * W :=
  let candidate := (config p) <| cf_pairedNodeId :=
    strncpy (cf_pairedNodeId (config p)) kHilNode (kNodeIdCapacity - 1) |> in
  let '(saved, p, w) := saveConfig config_bytes sizeof_config candidate p w in
  if (saved : bool) then
    let '(_, s) := radioPairManual (Some kHilNode) (pa_radio p) in (p <| pa_radio := s |>, w)
  else (p, w).

Definition hilUnpair (p : Parts) (w : W) : Parts * W :=
  let candidate := (config p) <| cf_pairedNodeId := <[0%nat := 0]> (cf_pairedNodeId (config p)) |> in
  let '(saved, p, w) := saveConfig config_bytes sizeof_config candidate p w in
  if (saved : bool) then (p <| pa_radio := radioUnpair (pa_radio p) |>, w) else (p, w).

(** The argument, when there is one, or the next number. *)
Definition hilSequence (line : list Z) (next : Z) : Z :=
  match list_find (fun c => c = 32) line with
  | Some (S space, _) => wrap 32 (strtoul (drop (S space + 1) line)).1.1
  | _ => next
  end.

Definition hilInject (line : list Z) (h : HilState) (p : Parts) (w : W) : HilState * Parts * W :=
  let sequence := hilSequence line (hs_sequence h) in
  let h := h <| hs_sequence := wrap 32 (hs_sequence h + 1) |> in
  let '(_, queue, w) := injectCanonical sequence (hs_syntheticQueue h) (pa_radio p) w in
  (h <| hs_syntheticQueue := queue |>, p, w).

(** A line, trimmed; what follows a NUL in it is not compared. *)
Definition hilCommand (trimmed : list Z) (h : HilState) (p : Parts) (w : W)
  : HilState * Parts * W :=
  let line := c_text (length trimmed) trimmed in
  let equals command := bool_decide (line = chars command) in
  if equals "HIL_PAIR"%string then let '(p, w) := hilPair p w in (h, p, w)
  else if equals "HIL_UNPAIR"%string then let '(p, w) := hilUnpair p w in (h, p, w)
  else if bool_decide (take 10 line = chars "HIL_INJECT") then hilInject line h p w
  else if equals "HIL_SUPPRESS_ACK_ONCE"%string then
    (h, p <| pa_radio := suppressNextAck (pa_radio p) |>, w)
  else if equals "HIL_RADIO_CYCLE"%string then
    let '(_, s, w) := exerciseStandbySleepReceive (pa_radio p) w in
    (h, p <| pa_radio := s |>, w)
  else (h, p, w).

Definition hilChar (value : Z) (h : HilState) (p : Parts) (w : W) : HilState * Parts * W :=
  if value =? 13 then (h, p, w)
  else if negb (value =? 10) then
    (if (length (hs_serialLine h) <? 80)%nat
     then h <| hs_serialLine := hs_serialLine h ++ [value] |> else h, p, w)
  else
    let '(h, p, w) := hilCommand (trim (hs_serialLine h)) h p w in
    (h <| hs_serialLine := [] |>, p, w).

(** [input]: the characters [Serial.read] gives until none is available. *)
Fixpoint handleHilSerial (input : list Z) (h : HilState) (p : Parts) (w : W)
  : HilState * Parts * W :=
  match input with
  | [] => (h, p, w)
  | value :: input =>
      let '(h, p, w) := hilChar value h p w in handleHilSerial input h p w
  end.

(** [loop], after the web server has handled its client.  That nothing follows a
    restart is left to the world, which gets the call. *)
Definition appLoop `{Millis W, DashboardSources W} (input : list Z) (h : HilState) (p : Parts)
    (w : W) : HilState * Parts * W :=
  handleHilSerial input h p (dashboardLoop p w).

(** ** The pairing stays the one that is stored *)

Definition hil_step (p p' : Parts) : Prop :=
  pairing_stored p -> pairing_stored p' /\
  (config p' = config p \/ valid_config (config p')).

Lemma hil_refl p : hil_step p p.
Proof. intros K. split; [done|by left]. Qed.

Lemma hil_trans p q r : hil_step p q -> hil_step q r -> hil_step p r.
Proof.
  intros S1 S2 K. destruct (S1 K) as [K1 C1]. destruct (S2 K1) as [K2 C2]. split; [done|].
  destruct C2 as [->|C2]; [done|by right].
Qed.

Lemma hil_neutral p p' : neutral p p' -> same_config p p' -> hil_step p p'.
Proof. intros N C K. split; [by eapply neutral_stored|by left]. Qed.

Lemma hilPair_stored p w p' w' : hilPair p w = (p', w') -> hil_step p p'.
Proof.
  unfold hilPair. set (c := _ <| cf_pairedNodeId := _ |>). intros E K.
  assert (cf_pairedNodeId c = strncpy (cf_pairedNodeId (config p)) kHilNode (kNodeIdCapacity - 1))
    as Ec by (unfold c; by destruct (config p)). clearbody c.
  destruct (saveConfig _ _ c p w) as [[saved p1] w1] eqn:Es. apply saveConfig_spec in Es.
  destruct saved; [|injection E as <- <-; subst; by apply hil_refl].
  destruct Es as (Hc & s & -> & Es).
  assert (pa_radio (p <| pa_configStore := s |>) = pa_radio p) as Er by (by destruct p).
  rewrite Er in E. unfold radioPairManual in E.
  destruct (onPairing false (pairManual (Some kHilNode)) (pa_radio p)) as [paired s1] eqn:Ep.
  injection E as <- <-.
  split; [|right; rewrite <- Es in Hc; by destruct p].
  change (pairing_stored (p <| pa_radio := s1 |> <| pa_configStore := s |>)).
  apply (onPairing_stored _ _ (OpManual (Some kHilNode)) p _ _ s Ep (fun _ => eq_refl) K).
  - rewrite Es, Ec, length_strncpy; [apply K|]. rewrite (ps_length _ K). vm_compute. lia.
  - intros m _. rewrite Es, Ec. vm_compute. reflexivity.
Qed.

Lemma hilUnpair_stored p w p' w' : hilUnpair p w = (p', w') -> hil_step p p'.
Proof.
  unfold hilUnpair. set (c := _ <| cf_pairedNodeId := _ |>). intros E K.
  assert (cf_pairedNodeId c = cleared (cf_pairedNodeId (config p)))
    as Ec by (unfold c; by destruct (config p)). clearbody c.
  destruct (saveConfig _ _ c p w) as [[saved p1] w1] eqn:Es. apply saveConfig_spec in Es.
  destruct saved; injection E as <- <-; [|subst; by apply hil_refl].
  destruct Es as (Hc & s & -> & Es). split.
  - apply unpairRadio_stored; [done|..]; rewrite Es, Ec; [|apply nodeOf_cleared].
    rewrite length_cleared. apply K.
  - right. rewrite <- Es in Hc. by destruct p.
Qed.

Lemma hilCommand_stored line h p w h' p' w' :
  hilCommand line h p w = (h', p', w') -> hil_step p p'.
Proof.
  unfold hilCommand. intros E. case_bool_decide.
  { destruct (hilPair p w) as [p1 w1] eqn:Ep. injection E as _ <- _. by eapply hilPair_stored. }
  case_bool_decide.
  { destruct (hilUnpair p w) as [p1 w1] eqn:Ep. injection E as _ <- _. by eapply hilUnpair_stored. }
  case_bool_decide.
  { unfold hilInject in E. destruct (injectCanonical _ _ _ w) as [[ok q] w1].
    injection E as _ <- _. apply hil_refl. }
  case_bool_decide.
  { injection E as _ <- _. apply hil_neutral; apply setRadio_neutral;
      unfold suppressNextAck; by destruct (pa_radio p) as [[] ? ? ?]. }
  case_bool_decide; [|injection E as _ <- _; apply hil_refl].
  destruct (exerciseStandbySleepReceive (pa_radio p) w) as [[ok s] w1] eqn:Ex.
  apply exercise_radio in Ex as [E1 E2]. injection E as _ <- _.
  apply hil_neutral; by apply setRadio_neutral.
Qed.

Lemma handleHilSerial_stored input h p w h' p' w' :
  handleHilSerial input h p w = (h', p', w') -> hil_step p p'.
Proof.
  revert h p w. induction input as [|value input IH]; intros h p w E; cbn [handleHilSerial] in E.
  { injection E as _ <- _. apply hil_refl. }
  destruct (hilChar value h p w) as [[h1 p1] w1] eqn:Ec. apply IH in E.
  eapply hil_trans; [|exact E]. unfold hilChar in Ec.
  destruct (value =? 13); [injection Ec as _ <- _; apply hil_refl|].
  destruct (negb _); [injection Ec as _ <- _; apply hil_refl|].
  destruct (hilCommand _ h p w) as [[h2 p2] w2] eqn:E2. injection Ec as _ <- _.
  by eapply hilCommand_stored.
Qed.

(** What an injection line does: with room in the queue the packet is queued and the
    radio's task notified. *)
Lemma hilCommand_inject line h p w queue :
  line = chars "HIL_INJECT" -> hs_syntheticQueue h = Some queue ->
  rv_task (pa_radio p) = true -> (length queue < 4)%nat ->
  hilCommand line h p w =
    (h <| hs_sequence := wrap 32 (hs_sequence h + 1) |>
       <| hs_syntheticQueue := Some (queue ++ [hs_sequence h]) |>, p, taskNotify w).
Proof.
  intros -> Hq Ht Hl. destruct h as [line next q]. cbn in Hq. subst q.
  change (hilInject (chars "HIL_INJECT") (mkHilState line next (Some queue)) p w =
    (mkHilState line (wrap 32 (next + 1)) (Some (queue ++ [next])), p, taskNotify w)).
  unfold hilInject. cbn [hs_sequence hs_syntheticQueue injectCanonical].
  change (hilSequence (chars "HIL_INJECT") next) with next.
  unfold injectCanonical. cbn. rewrite Ht. cbn [negb].
  destruct (Nat.leb_spec 4 (length queue)); [lia|done].
Qed.
End HilSerial.
