(* ===== verification/GatewaySteps.v ===== *)
(** * The gateway at work

    After the boot: the requests and uploads of the dashboard, the rounds of the
    tasks and, in the bench build, the serial commands, as steps; all of them keep
    the pairing of the radio the one that is stored, and the configuration valid. *)

From Stdlib Require Import ZArith Lia String.
From stdpp Require Import list relations.
From S2P Require Import Prelude BuildConfig CString Platform Protocol ProtocolSpec Pairing.
From S2P Require Import CommandStore CommandStoreSpec Metrics PacketProcessor DurableQueue.
From S2P Require Import GatewayConfig ConfigStore StrTo Json BackendContract WifiManager.
From S2P Require Import TimeManager Heartbeat RadioService RadioSynthetic BackendWorker Logger.
From S2P Require Import OtaManager Dashboard DashboardStatus DashboardTheorems HilSerial.
Open Scope Z_scope.

Section Steps.
Context (config_bytes : GatewayConfig -> list Z) (sizeof_config : nat).
Context (object_bytes : CommandStoreRecord -> list Z).
Context (strtof : list Z -> single * option (list Z) * bool).
Context {W : Type} `{RawPreferences W, Sx1278 W, CommandBackend W, Millis W}.
Context `{WifiReadings W, WifiControl W, TrustedTime W, MonotonicClock W, Tasks W}.
Context `{HttpClient W, DashboardSources W}.
Context (kBuildFlavor kBuildDate kGitCommit kDashboardHtml : list Z).
Context `{UploadQueue W, SystemFigures W, OtaPlatform W, JsonText}.
Context `{!PacketQueueSink W, Updater W, HeartbeatSources W}.

Abbreviation request := (handleRequest config_bytes sizeof_config object_bytes strtof
  kBuildFlavor kBuildDate kGitCommit kDashboardHtml).


Lemma observed_pairing packet rssi snr uptime m :
  pairing_ok m ->
  pairing_ok (observe packet rssi snr uptime m) /\
  pm_pairedNodeId (observe packet rssi snr uptime m) = pm_pairedNodeId m.
Proof.
  intros K. split; [exact (proj1 (run_op_refines (OpObserve packet rssi snr uptime) m K))|].
  unfold observe. by destruct (negb _).
Qed.

(** Processing a frame touches the pairing only by observing. *)
Definition observes (m m' : PairingManager) : Prop :=
  m' = m \/ exists packet rssi snr uptime, m' = observe packet rssi snr uptime m.

Lemma process_observes {V} `{PacketQueueSink V, AckSink V, MonotonicClock V, CommandBackend V}
    frame q (v : V) result q' v' :
  process object_bytes frame q v = (result, q', v') -> observes (pp_pairing q) (pp_pairing q').
Proof.
  unfold process, observes. destruct (_ && _).
  - unfold processCommandResult. destruct (decodeCommandResult _ _ _) as [status cr].
    destruct (negb _); [intros [= _ <- _]; by left|].
    destruct (_ || _); [intros [= _ <- _]; by left|].
    destruct (confirm _ _ _ _ _) as [[[ok dup] cs] v1].
    destruct (negb ok); intros [= _ <- _]; by left.
  - unfold processTelemetry. destruct (decodeTelemetry _ _ _) as [status t].
    destruct (negb _); [intros [= _ <- _]; by left|].
    destruct (pm_pairingMode _); [intros [= _ <- _]; right; by repeat eexists|].
    destruct (negb _); [intros [= _ <- _]; by left|].
    destruct (negb _); [intros [= _ <- _]; by left|].
    set (q1 := mkPacketProcessor _ _ _ _).
    assert (forall stored q2 v2, storePacket frame t q1 v = (stored, q2, v2) ->
      pp_pairing q2 = pp_pairing q) as Hs.
    { intros stored q2 v2. unfold storePacket. destruct (containsKey _ v) as [dup v3].
      destruct dup; [by intros [= _ <- _]|]. destruct (nowUs v3) as [t0 v4].
      destruct (durablyEnqueue _ v4) as [o v5]. destruct (negb _); [by intros [= _ <- _]|].
      destruct (nowUs v5) as [t1 v6]. by intros [= _ <- _]. }
    destruct (storePacket frame t q1 v) as [[stored q2] v2] eqn:Es.
    specialize (Hs _ _ _ eq_refl). destruct stored as [dropped|[dup dropped]].
    + intros [= _ <- _]. by left.
    + destruct (acknowledge frame t dup q2 v2) as [[[ack disp] q3] v3] eqn:Ea.
      intros [= _ <- _]. left. rewrite <- Hs. unfold acknowledge in Ea.
      destruct (transmitAck _ _ _) as [[ack' cs] v4]. by destruct (_ && _); injection Ea as _ _ <- _.
Qed.

Definition observes_processor (o o' : option PacketProcessor) : Prop :=
  match o with
  | None => o' = None
  | Some q => exists q', o' = Some q' /\ observes (pp_pairing q) (pp_pairing q')
  end.

Lemma observes_refl o : observes_processor o o.
Proof. destruct o as [q|]; [|done]. exists q. split; [done|by left]. Qed.

Lemma handleFrame_observes frame o r (w : W) o' r' w' :
  handleFrame object_bytes frame o r w = (o', r', w') -> observes_processor o o'.
Proof.
  unfold handleFrame. destruct o as [q|].
  - destruct (process _ _ _ _) as [[result q'] [r1 w1]] eqn:Ep. apply process_observes in Ep.
    destruct (negb _); [destruct (startReceiveUnlocked _ w1) as [[y r2] w2]|];
      intros [= <- _ _]; by exists q'.
  - destruct (startReceiveUnlocked _ w) as [[y r1] w1]. by intros [= <- _ _].
Qed.

Lemma handlePhysicalReceive_observes o r (w : W) o' r' w' :
  handlePhysicalReceive object_bytes o r w = (o', r', w') -> observes_processor o o'.
Proof.
  unfold handlePhysicalReceive. intros E.
  destruct (negb _); [injection E as <- _ _; apply observes_refl|].
  destruct (nowUs w) as [t w2]. destruct (radio_getPacketLength w2) as [n w3].
  destruct (_ || _).
  { destruct (radio_standby w3) as [x w4]. destruct (startReceiveUnlocked _ w4) as [[y r1] w5].
    injection E as <- _ _. apply observes_refl. }
  destruct (radio_readData n w3) as [[code data] w4]. destruct (_ =? _).
  { destruct (startReceiveUnlocked _ w4) as [[y r1] w5]. injection E as <- _ _. apply observes_refl. }
  destruct (negb _).
  { destruct (startReceiveUnlocked _ w4) as [[y r1] w5]. injection E as <- _ _. apply observes_refl. }
  destruct (readFrame _ _ _ _ w4) as [frame w5]. by eapply handleFrame_observes.
Qed.

Lemma handleSynthetic_observes sequence o r (w : W) o' r' w' :
  handleSynthetic object_bytes sequence o r w = (o', r', w') -> observes_processor o o'.
Proof.
  unfold handleSynthetic. destruct (radio_standby w) as [x w1]. destruct (nowUs w1) as [t w2].
  destruct (time_now w2) as [ts w3]. apply handleFrame_observes.
Qed.

(** A turn of the radio's task. *)
Lemma radioTurn_observes turn s (w : W) s' w' :
  radioTurn object_bytes turn s w = (s', w') ->
  rv_mutex s' = rv_mutex s /\ observes_processor (rv_processor s) (rv_processor s').
Proof.
  destruct turn as [|sequence]; cbn [radioTurn]; [unfold radioRound|unfold syntheticTurn];
    (destruct (negb _); [intros [= <- <-]; split; [done|apply observes_refl]|]).
  - destruct (handlePhysicalReceive _ _ _ w) as [[o r] w1] eqn:E. intros [= <- <-].
    apply handlePhysicalReceive_observes in E. by destruct s.
  - destruct (handleSynthetic _ _ _ _ w) as [[o r] w1] eqn:E. intros [= <- <-].
    apply handleSynthetic_observes in E. by destruct s.
Qed.

(** The steps of the gateway after its boot: requests and uploads of the dashboard,
    rounds of the tasks, the serial commands of the bench build, and whatever else
    changes the world. *)

Inductive gateway_step : Parts * W -> Parts * W -> Prop :=
  | step_request allocated taken method path r p w resp p' w' :
      request allocated taken method path r p w = (resp, p', w') -> gateway_step (p, w) (p', w')
  | step_upload upload p w p' w' :
      handleOtaUpload upload p w = (p', w') -> gateway_step (p, w) (p', w')
  | step_radio turn p w s w' :
      radioTurn object_bytes turn (pa_radio p) w = (s, w') ->
      gateway_step (p, w) (p <| pa_radio := s |>, w')
  | step_wifi was p w conn m w' :
      wifiRound was (pa_wifi p) w = (conn, m, w') ->
      gateway_step (p, w) (p <| pa_wifi := m |>, w')
  | step_backend p w pause b w' :
      backendRound kBuildFlavor (pa_backend p) w = (pause, b, w') ->
      gateway_step (p, w) (p <| pa_backend := b |>, w')
  | step_serial input h p w h' p' w' :
      handleHilSerial config_bytes sizeof_config input h p w = (h', p', w') ->
      gateway_step (p, w) (p', w')
  | step_elsewhere p w w' : gateway_step (p, w) (p, w').

Lemma upload_neutral upload p (w : W) p' w' :
  handleOtaUpload upload p w = (p', w') -> neutral p p' /\ same_config p p'.
Proof.
  destruct upload; cbn [handleOtaUpload]; intros E.
  - destruct (update_begin w) as [x w1]. injection E as <- <-. by destruct p.
  - destruct (update_hasError w) as [failed w1]. destruct failed; [by injection E as <- <-|].
    destruct (update_write buf w1) as [x w2]. by injection E as <- <-.
  - destruct (update_hasError w) as [failed w1].
    destruct (if failed then _ else _) as [okay w2]. injection E as <- <-. by destruct p.
  - injection E as <- <-. by destruct p.
Qed.

(** The pairing stays stored, and the configuration valid if it was. *)
Lemma gateway_step_spec x y :
  gateway_step x y -> pairing_stored x.1 ->
  pairing_stored y.1 /\ (valid_config (config x.1) -> valid_config (config y.1)).
Proof.
  intros S K. destruct S as [allocated taken method path r p w resp p' w' E|upload p w p' w' E
    |turn p w s w' E|was p w conn m w' E|p w pause b w' E|input h p w h' p' w' E|p w w']; cbn [fst] in *.
  - apply request_spec in E as [K' C]; [|done]. split; [done|].
    intros V. destruct C as [->|[V' _]]; done.
  - apply upload_neutral in E as [N C]. split; [by eapply neutral_stored|]. by rewrite C.
  - split; [|by destruct p]. apply radioTurn_observes in E as [Em E].
    assert (pa_radio (p <| pa_radio := s |>) = s /\ config (p <| pa_radio := s |>) = config p)
      as [Er Ec] by (by destruct p).
    unfold pairing_of, observes_processor in *. destruct K as [Kl Km Kn]. split; rewrite ?Er, ?Ec; [done|..].
    + intros Hp. rewrite Em. apply Km. intros Hn. by rewrite Hn in E.
    + intros m Hm. unfold pairing_of in *. rewrite Er in Hm.
      destruct (rv_processor (pa_radio p)) as [q|]; [|by rewrite E in Hm].
      destruct E as (q' & E & Ho). rewrite E in Hm. injection Hm as <-.
      destruct (Kn _ eq_refl) as [Ok On]. destruct Ho as [->|(t & rssi & snr & up & ->)]; [done|].
      destruct (observed_pairing t rssi snr up _ Ok) as [Ok' ->]. done.
  - split; [|by destruct p]. apply (neutral_stored p); [by destruct p|done].
  - split; [|by destruct p]. apply (neutral_stored p); [by destruct p|done].
  - apply handleHilSerial_stored in E. destruct (E K) as [K' C]. split; [done|].
    intros V. by destruct C as [->|].
  - done.
Qed.

Lemma gateway_steps_spec x y :
  rtc gateway_step x y -> pairing_stored x.1 ->
  pairing_stored y.1 /\ (valid_config (config x.1) -> valid_config (config y.1)).
Proof.
  induction 1 as [x|x y z Hs _ IH]; [done|]. intros K.
  destruct (gateway_step_spec _ _ Hs K) as [K1 V1]. destruct (IH K1) as [K2 V2]. auto.
Qed.
End Steps.
