(* ===== verification/DashboardCommands.v ===== *)
(** * Commands and secrets at the dashboard

    What each request may do to the command, and that the status document does not
    depend on the stored secrets. *)

From Stdlib Require Import ZArith Lia String.
From stdpp Require Import list.
From S2P Require Import Prelude BuildConfig CString Platform Protocol Pairing CommandStore.
From S2P Require Import Metrics PacketProcessor DurableQueue GatewayConfig ConfigStore StrTo Json.
From S2P Require Import BackendContract WifiManager TimeManager RadioService BackendWorker Logger.
From S2P Require Import OtaManager Dashboard DashboardStatus DashboardTheorems.
Open Scope Z_scope.

(** The one command of the gateway. *)
Definition command (p : Parts) : GatewayCommand := sr_command (cs_record (commandStore p)).

Lemma commandStore_set c p : commandStore (setCommandStore c p) = c.
Proof.
  unfold commandStore, setCommandStore. destruct p as [cs rd cm wf bk ot lg db]. cbn.
  destruct rd as [m t [q|] r]; by cbn.
Qed.

(** The command stores of radio service and dashboard stay as they are. *)
Definition same_commands (p p' : Parts) : Prop :=
  pp_commands <$> rv_processor (pa_radio p') = pp_commands <$> rv_processor (pa_radio p) /\
  pa_commands p' = pa_commands p.

Lemma same_commands_refl p : same_commands p p.
Proof. done. Qed.

Lemma same_commands_trans p q r : same_commands p q -> same_commands q r -> same_commands p r.
Proof. intros [] []. split; congruence. Qed.

Lemma same_commandStore p p' : same_commands p p' -> commandStore p' = commandStore p.
Proof.
  unfold commandStore. intros [E1 E2].
  destruct (rv_processor (pa_radio p')), (rv_processor (pa_radio p)); cbn in E1; congruence.
Qed.

Lemma setRadio_commands s p :
  pp_commands <$> rv_processor s = pp_commands <$> rv_processor (pa_radio p) ->
  same_commands p (p <| pa_radio := s |>).
Proof. by destruct p. Qed.

(** The pairing manager is all that pairing changes. *)
Lemma onPairing_commands {A} (refused : A) f s :
  pp_commands <$> rv_processor (onPairing refused f s).2 = pp_commands <$> rv_processor s.
Proof.
  unfold onPairing, lockedProcessor. destruct (rv_mutex s); [|done].
  destruct (rv_processor s) as [q|] eqn:E; [|cbn; by rewrite E].
  by destruct (f (pp_pairing q)), s.
Qed.

Lemma pair_commands {A} (refused : A) f p a s :
  onPairing refused f (pa_radio p) = (a, s) -> same_commands p (p <| pa_radio := s |>).
Proof.
  intros E. apply setRadio_commands. pose proof (onPairing_commands refused f (pa_radio p)) as K.
  by rewrite E in K.
Qed.

Section Commands.
Context (config_bytes : GatewayConfig -> list Z) (sizeof_config : nat).
Context (object_bytes : CommandStoreRecord -> list Z).
Context (strtof : list Z -> single * option (list Z) * bool).
Context {W : Type} `{RawPreferences W, Sx1278 W, CommandBackend W, Millis W}.
Context `{WifiReadings W, WifiControl W, TrustedTime W, MonotonicClock W, Tasks W}.
Context `{HttpClient W, DashboardSources W}.

(** ** Requests that are not about commands *)

Lemma saveConfig_commands c p (w : W) ok p' w' :
  saveConfig config_bytes sizeof_config c p w = (ok, p', w') -> same_commands p p'.
Proof.
  intros E. apply saveConfig_spec in E. destruct ok; [|by subst].
  destruct E as (_ & s & -> & _). by destruct p.
Qed.

Lemma saveValid_commands c failure p (w : W) done_ resp p' w' :
  (forall q w1 resp1 q1 w2, done_ q w1 = (resp1, q1, w2) -> same_commands q q1) ->
  saveValid config_bytes sizeof_config c failure p w done_ = (resp, p', w') -> same_commands p p'.
Proof.
  intros Hd E. apply saveValid_spec in E as [->|(_ & s & w1 & _ & E)]; [done|].
  apply Hd in E. eapply same_commands_trans; [|exact E]. by destruct p.
Qed.

Lemma applyToBackend_commands c identity p (w : W) p' w' :
  applyToBackend c identity p w = (p', w') -> same_commands p p'.
Proof.
  unfold applyToBackend. destruct (backendApplyConfig _ _ _ _) as [b w1]. intros [= <- <-].
  by destruct p.
Qed.

Lemma applyToRadio_commands c p (w : W) ok p' w' :
  applyToRadio c p w = (ok, p', w') -> same_commands p p'.
Proof.
  unfold applyToRadio. destruct (radioApplyConfig _ _ _) as [[applied s] w1] eqn:E.
  intros [= <- <- <-]. apply radioApply_keeps in E as [E _]. apply setRadio_commands. by rewrite E.
Qed.

Lemma handleWifi_commands r p (w : W) resp p' w' :
  handleWifi config_bytes sizeof_config r p w = (resp, p', w') -> same_commands p p'.
Proof.
  apply saveValid_commands. intros q w1 resp1 q1 w2 [= <- <- <-]. by destruct q.
Qed.

Lemma handleGateway_commands r p (w : W) resp p' w' :
  handleGateway config_bytes sizeof_config r p w = (resp, p', w') -> same_commands p p'.
Proof.
  apply saveValid_commands. intros q w1 resp1 q1 w2 E.
  cbv zeta in E. destruct (applyToBackend _ _ _ w1) as [q2 w3] eqn:Ea. injection E as <- <- <-.
  apply applyToBackend_commands in Ea. eapply same_commands_trans; [|exact Ea]. by destruct q.
Qed.

Lemma handleBackend_commands r p (w : W) resp p' w' :
  handleBackend config_bytes sizeof_config r p w = (resp, p', w') -> same_commands p p'.
Proof.
  unfold handleBackend. destruct (parseUnsigned _ 0) as [ok1 batch].
  destruct (_ || _); [by intros [= <- <- <-]|]. destruct (parseUnsigned _ _) as [ok2 timeout].
  destruct (negb ok2); [by intros [= <- <- <-]|]. apply saveValid_commands.
  intros q w1 resp1 q1 w2 E. cbv zeta in E. destruct (applyToBackend _ _ _ w1) as [q2 w3] eqn:Ea.
  injection E as <- <- <-. by eapply applyToBackend_commands.
Qed.

Lemma handleHeartbeat_commands r p (w : W) resp p' w' :
  handleHeartbeat config_bytes sizeof_config r p w = (resp, p', w') -> same_commands p p'.
Proof.
  unfold handleHeartbeat. destruct (parseUnsigned _ _) as [ok interval].
  destruct (negb ok); [by intros [= <- <- <-]|]. apply saveValid_commands.
  intros q w1 resp1 q1 w2 E. cbv zeta in E. destruct (applyToBackend _ _ _ w1) as [q2 w3] eqn:Ea.
  injection E as <- <- <-. by eapply applyToBackend_commands.
Qed.

Lemma handleRadio_commands r p (w : W) resp p' w' :
  handleRadio config_bytes sizeof_config strtof r p w = (resp, p', w') -> same_commands p p'.
Proof.
  unfold handleRadio. destruct (radioForm _ _ _) as [radio|message]; [|by intros [= <- <- <-]].
  destruct (negb _); [by intros [= <- <- <-]|].
  destruct (applyToRadio radio p w) as [[applied p1] w1] eqn:E1. apply applyToRadio_commands in E1.
  destruct (negb applied); [by intros [= <- <- <-]|].
  destruct (saveConfig _ _ _ p1 w1) as [[saved p2] w2] eqn:E2. apply saveConfig_commands in E2.
  destruct (negb saved); [|intros [= <- <- <-]; by eapply same_commands_trans].
  destruct (applyToRadio _ p2 w2) as [[again p3] w3] eqn:E3. apply applyToRadio_commands in E3.
  intros [= <- <- <-]. eauto using same_commands_trans.
Qed.

Lemma handleRadioRestart_commands p (w : W) resp p' w' :
  handleRadioRestart p w = (resp, p', w') -> same_commands p p'.
Proof.
  unfold handleRadioRestart. destruct (radioRestart _ w) as [[ok s] w1] eqn:E.
  intros [= <- <- <-]. apply radioRestart_keeps in E as [E _]. apply setRadio_commands. by rewrite E.
Qed.

Lemma handlePairStart_commands p (w : W) resp p' w' :
  handlePairStart p w = (resp, p', w') -> same_commands p p'.
Proof.
  unfold handlePairStart. destruct (startPairing _) as [started s] eqn:E.
  intros [= <- <- <-]. by eapply pair_commands.
Qed.

Lemma handlePairCancel_commands p (w : W) resp p' w' :
  handlePairCancel p w = (resp, p', w') -> same_commands p p'.
Proof.
  unfold handlePairCancel. destruct (cancelPairing _) as [x s] eqn:E.
  intros [= <- <- <-]. by eapply pair_commands.
Qed.

Lemma unpairRadio_commands p : same_commands p (unpairRadio p).
Proof. apply setRadio_commands, onPairing_commands. Qed.

Lemma handlePairConfirm_commands p (w : W) resp p' w' :
  handlePairConfirm config_bytes sizeof_config p w = (resp, p', w') -> same_commands p p'.
Proof.
  unfold handlePairConfirm, confirmPairing.
  destruct (onPairing false confirmCandidate (pa_radio p)) as [okay s] eqn:Eo.
  apply pair_commands in Eo. destruct okay; cbn [negb]; [|by intros [= <- <- <-]].
  unfold savePairedNode. destruct (saveConfig _ _ _ _ w) as [[saved p1] w1] eqn:Es.
  apply saveConfig_commands in Es. pose proof (same_commands_trans _ _ _ Eo Es) as K.
  destruct (negb saved); intros [= <- <- <-]; [|done].
  eapply same_commands_trans; [exact K|apply unpairRadio_commands].
Qed.

Lemma handlePairManual_commands r p (w : W) resp p' w' :
  handlePairManual config_bytes sizeof_config r p w = (resp, p', w') -> same_commands p p'.
Proof.
  unfold handlePairManual. destruct (negb _); [by intros [= <- <- <-]|].
  destruct (saveConfig _ _ _ p w) as [[saved p1] w1] eqn:E1. apply saveConfig_commands in E1.
  destruct (negb saved); [by intros [= <- <- <-]|].
  destruct (radioPairManual _ _) as [okay s] eqn:Eo. apply pair_commands in Eo.
  pose proof (same_commands_trans _ _ _ E1 Eo) as K. destruct (negb okay); [|by intros [= <- <- <-]].
  destruct (saveConfig _ _ _ _ w1) as [[again p2] w2] eqn:E2. apply saveConfig_commands in E2.
  intros [= <- <- <-]. by eapply same_commands_trans.
Qed.

Lemma handleUnpair_commands r p (w : W) resp p' w' :
  handleUnpair config_bytes sizeof_config r p w = (resp, p', w') -> same_commands p p'.
Proof.
  unfold handleUnpair. destruct (negb _); [by intros [= <- <- <-]|].
  destruct (saveConfig _ _ _ p w) as [[saved p1] w1] eqn:E1. apply saveConfig_commands in E1.
  destruct (negb saved); intros [= <- <- <-]; [done|].
  eapply same_commands_trans; [exact E1|apply unpairRadio_commands].
Qed.

Lemma handleReboot_commands r p (w : W) resp p' w' :
  handleReboot r p w = (resp, p', w') -> same_commands p p'.
Proof.
  unfold handleReboot. destruct (negb _); [by intros [= <- <- <-]|].
  destruct (millis w) as [now w1]. intros [= <- <- <-]. by destruct p.
Qed.

Lemma handleOtaComplete_commands p (w : W) resp p' w' :
  handleOtaComplete p w = (resp, p', w') -> same_commands p p'.
Proof.
  unfold handleOtaComplete. destruct (negb _); [intros [= <- <- <-]; by destruct p|].
  destruct (millis w) as [now w1]. intros [= <- <- <-]. by destruct p.
Qed.

(** ** Requests that are *)

(** What [create] does to the command. *)
Lemma create_result type poll scheduled created id cs (w : W) ok id' cs' w' :
  create object_bytes type poll scheduled created id cs w = (ok, id', cs', w') ->
  if ok then
    outstanding (sr_command (cs_record cs)) = false /\ type <> CommandType.kNone /\
    sr_command (cs_record cs') =
      mkGatewayCommand (sr_nextCommandId (cs_record cs)) type CommandState.kPending poll scheduled
        created (-1) 0 CommandResultCode.kNone 0 0
  else cs_record cs' = cs_record cs.
Proof.
  unfold create. destruct (negb (cs_mutex cs)); [by intros [= <- <- <- <-]|].
  destruct (enum_eqb type _ || _ || _) eqn:G; [by intros [= <- <- <- <-]|].
  destruct (enum_eqb type CommandType.kSetPollIntervalMinutes && _ || _);
    [by intros [= <- <- <- <-]|].
  unfold commit. destruct (negb (cs_backend cs)); cbv beta iota; cbn [negb];
    [by intros [= <- <- <- <-]|].
  destruct (backend_save _ w) as [saved w1]. destruct saved; cbv beta iota; cbn [negb];
    intros [= <- <- <- <-]; [|done].
  apply orb_false_iff in G as [G Go]. apply orb_false_iff in G as [Gt _].
  split; [done|]. split; [|done]. intros ->. discriminate.
Qed.

(** The answer of a form for a command: 202 and the new command, which is [good],
    or a refusal that leaves the command as it is. *)
Definition commanded (good : GatewayCommand -> Prop) (p : Parts) (resp : Response) (p' : Parts)
  : Prop :=
  (rs_status resp = 202 /\ radioPaired (pa_radio p) = true /\ outstanding (command p) = false /\
   gc_state (command p') = CommandState.kPending /\
   gc_commandId (command p') = sr_nextCommandId (cs_record (commandStore p)) /\
   good (command p')) \/
  (rs_status resp <> 202 /\ command p' = command p).

Lemma say_refused good p status body :
  status <> 202 -> commanded good p (say status body) p.
Proof. intros Hs. by right. Qed.

Lemma createCommand_spec (good : GatewayCommand -> Prop) type poll scheduled created done_ p (w : W)
    resp p' w' :
  radioPaired (pa_radio p) = true ->
  (type <> CommandType.kNone -> good (mkGatewayCommand (sr_nextCommandId (cs_record (commandStore p)))
     type CommandState.kPending poll scheduled created (-1) 0 CommandResultCode.kNone 0 0)) ->
  createCommand object_bytes type poll scheduled created done_ p w = (resp, p', w') ->
  commanded good p resp p'.
Proof.
  intros Hp Hg. unfold createCommand.
  destruct (create _ _ _ _ _ _ _ w) as [[[ok id] cs] w1] eqn:Ec. intros [= <- <- <-].
  apply create_result in Ec. unfold commanded, command. rewrite commandStore_set.
  destruct ok.
  - destruct Ec as (Ho & Ht & ->). left. split_and!; try done. by apply Hg.
  - right. by rewrite Ec.
Qed.

(** A maintenance time at a clock of [seconds]: a full minute at most 27 days ahead
    modulo 2^32 seconds, and, while the clock is that far from 2^32 seconds, at least 60
    seconds ahead as well. *)
Definition schedule_ok (now : TrustedTimeSnapshot) (c : GatewayCommand) : Prop :=
  let seconds := ts_unixMs now / 1000 in
  let target := gc_scheduledMaintenanceUnix c in
  gc_type c = CommandType.kScheduleMaintenanceAt /\ ts_trusted now = true /\
  0 <= ts_unixMs now /\ target mod 60 = 0 /\ wrap 32 (target - seconds) <= horizon /\
  (seconds + horizon < 2 ^ 32 -> seconds + 60 <= target <= seconds + horizon).

Lemma schedule_bounds seconds target :
  0 <= seconds -> seconds + horizon < 2 ^ 32 -> is_u 32 target ->
  (target <? wrap 32 (wrap 32 seconds + 60)) = false ->
  (horizon <? wrap 32 (target - wrap 32 seconds)) = false ->
  seconds + 60 <= target <= seconds + horizon.
Proof.
  unfold horizon, is_u. intros Hs Hh Ht Hl Hu. change (2 ^ 32) with 4294967296 in *.
  assert (is_u 32 seconds) as Us by (unfold is_u; change (2 ^ 32) with 4294967296; lia).
  rewrite (wrap_id 32 seconds Us) in *.
  rewrite wrap_id in Hl by (unfold is_u; change (2 ^ 32) with 4294967296; lia).
  rewrite wrap_id in Hu by (unfold is_u; change (2 ^ 32) with 4294967296; lia). lia.
Qed.

Lemma handleEnterMaintenance_spec r p (w : W) resp p' w' :
  handleEnterMaintenance object_bytes r p w = (resp, p', w') ->
  commanded (fun c => gc_type c = CommandType.kEnterMaintenanceNow /\
                      text (arg r "confirm") = chars "ENTER") p resp p'.
Proof.
  intros E. unfold handleEnterMaintenance in E.
  destruct (argIs r "confirm" "ENTER") eqn:Ha; cbn [negb] in E;
    [|injection E as <- <- <-; by apply say_refused].
  destruct (radioPaired (pa_radio p)) eqn:Hp; cbn [negb] in E;
    [|injection E as <- <- <-; by apply say_refused].
  destruct (time_now w) as [now w1]. eapply createCommand_spec; [done| |exact E].
  intros _. split; [done|]. by apply bool_decide_eq_true in Ha.
Qed.

Lemma handlePollInterval_spec r p (w : W) resp p' w' :
  handlePollIntervalCommand object_bytes r p w = (resp, p', w') ->
  commanded (fun c => gc_type c = CommandType.kSetPollIntervalMinutes /\
                      1 <= gc_pollIntervalMinutes c <= 255) p resp p'.
Proof.
  intros E. unfold handlePollIntervalCommand in E.
  destruct (radioPaired (pa_radio p)) eqn:Hp; cbn [negb] in E;
    [|injection E as <- <- <-; by apply say_refused].
  destruct (parseUnsigned _ _) as [ok minutes].
  destruct (negb ok || (minutes <? 1) || (255 <? minutes)) eqn:G;
    [injection E as <- <- <-; by apply say_refused|].
  apply orb_false_iff in G as [G Gu]. apply orb_false_iff in G as [_ Gl].
  destruct (time_now w) as [now w1]. eapply createCommand_spec; [done| |exact E].
  intros _. cbn. split; [done|]. rewrite wrap_id; [lia|]. unfold is_u. lia.
Qed.

Lemma handleSchedule_spec r p (w : W) resp p' w' :
  handleScheduleMaintenance object_bytes r p w = (resp, p', w') ->
  commanded (schedule_ok (time_now w).1) p resp p'.
Proof.
  intros E. unfold handleScheduleMaintenance in E.
  destruct (radioPaired (pa_radio p)) eqn:Hp; cbn [negb] in E;
    [|injection E as <- <- <-; by apply say_refused].
  destruct (time_now w) as [now w1]. cbn [fst].
  destruct (ts_trusted now) eqn:Ht; cbn [negb orb] in E;
    [|injection E as <- <- <-; by apply say_refused].
  destruct (Z.ltb_spec (ts_unixMs now) 0); [injection E as <- <- <-; by apply say_refused|].
  destruct (parseUnsigned _ _) as [ok target] eqn:Eu. destruct ok; cbn [negb] in E;
    [|injection E as <- <- <-; by apply say_refused].
  rewrite Z.quot_div_nonneg in E by lia.
  destruct (negb (target mod 60 =? 0)) eqn:G1; cbn [orb] in E;
    [injection E as <- <- <-; by apply say_refused|].
  destruct (target <? wrap 32 (wrap 32 (ts_unixMs now / 1000) + 60)) eqn:G2; cbn [orb] in E;
    [injection E as <- <- <-; by apply say_refused|].
  destruct (horizon <? _) eqn:G3; [injection E as <- <- <-; by apply say_refused|].
  eapply createCommand_spec; [done| |exact E].
  intros _. unfold schedule_ok. cbn. apply negb_false_iff, Z.eqb_eq in G1.
  split_and!; [done..| |].
  - apply Z.ltb_ge in G3. unfold wrap in *. by rewrite Zminus_mod_idemp_r in G3.
  - intros Hh. apply schedule_bounds; try done; [apply Z.div_pos; lia|].
    apply parseUnsigned_spec in Eu as (n & ds & rest & _ & _ & _ & ->). apply wrap_range. lia.
Qed.

(** The answer of the form to cancel: 200 and the outstanding command cancelled, all else
    of it as it was, when its identifier is the number of the form; or a refusal. *)
Definition cancelled (r : Request) (p : Parts) (resp : Response) (p' : Parts) : Prop :=
  let c := command p in
  (rs_status resp = 200 /\ text (arg r "confirm") = chars "CANCEL" /\
   parseUnsigned (arg r "commandId") 0 = (true, gc_commandId c) /\ gc_commandId c <> 0 /\
   outstanding c = true /\
   command p' = c <| gc_state := CommandState.kCancelled |>) \/
  (rs_status resp <> 200 /\ command p' = c).

Lemma handleCancel_spec r p (w : W) resp p' w' :
  handleCancelCommand object_bytes r p w = (resp, p', w') -> cancelled r p resp p'.
Proof.
  intros E. unfold handleCancelCommand in E. unfold cancelled.
  destruct (argIs r "confirm" "CANCEL") eqn:Ha; cbn [negb] in E;
    [|injection E as <- <- <-; by right].
  apply bool_decide_eq_true in Ha.
  destruct (parseUnsigned _ _) as [ok id] eqn:Eu.
  destruct (if ok then _ else _) as [[okay c] w1] eqn:Ec. injection E as <- <- <-.
  unfold command. rewrite commandStore_set. destruct ok; [|injection Ec as <- <- <-; by right].
  unfold cancel in Ec. destruct (negb (cs_mutex _)); [injection Ec as <- <- <-; by right|].
  destruct (_ || _) eqn:G; [injection Ec as <- <- <-; by right|].
  apply orb_false_iff in G as [G Go]. apply orb_false_iff in G as [G0 Gi].
  apply negb_false_iff in Go, Gi. apply Z.eqb_eq in Gi. apply Z.eqb_neq in G0. subst id.
  unfold commitNoting, commit in Ec.
  destruct (negb (cs_backend _)); [injection Ec as <- <- <-; by right|].
  destruct (backend_save _ w) as [saved w2]. destruct saved; cbn [negb] in Ec;
    injection Ec as <- <- <-; [left|by right].
  by split_and!.
Qed.

(** ** The routes *)

Context (kBuildFlavor kBuildDate kGitCommit kDashboardHtml : list Z).
Context `{UploadQueue W, SystemFigures W, OtaPlatform W, JsonText}.

Abbreviation request := (handleRequest config_bytes sizeof_config object_bytes strtof
  kBuildFlavor kBuildDate kGitCommit kDashboardHtml).

(** What a request does to the command, by its route. *)
Definition command_outcome (method : HttpMethod) (path : string) (r : Request) (p : Parts) (w : W)
    (resp : Response) (p' : Parts) : Prop :=
  let post p' := bool_decide (method = HTTP_POST) && String.eqb path p' in
  if post "/api/command/maintenance-now" then
    commanded (fun c => gc_type c = CommandType.kEnterMaintenanceNow /\
                        text (arg r "confirm") = chars "ENTER") p resp p'
  else if post "/api/command/poll-interval" then
    commanded (fun c => gc_type c = CommandType.kSetPollIntervalMinutes /\
                        1 <= gc_pollIntervalMinutes c <= 255) p resp p'
  else if post "/api/command/schedule" then commanded (schedule_ok (time_now w).1) p resp p'
  else if post "/api/command/cancel" then cancelled r p resp p'
  else commandStore p' = commandStore p.

(** A route that is not one of the four. *)
Lemma other_route m path m' route r p (w : W) resp p' :
  bool_decide (m = m') && String.eqb path route = true ->
  m' = HTTP_GET \/
  forallb (fun x => negb (String.eqb route x))
    ["/api/command/maintenance-now"; "/api/command/poll-interval"; "/api/command/schedule";
     "/api/command/cancel"]%string = true ->
  same_commands p p' -> command_outcome m path r p w resp p'.
Proof.
  intros Hr Hn K. apply same_commandStore in K. unfold command_outcome. cbv zeta.
  apply andb_true_iff in Hr as [->%bool_decide_eq_true ->%String.eqb_eq].
  destruct Hn as [->|Hn]; [done|]. cbn [forallb] in Hn.
  destruct (route =? "/api/command/maintenance-now")%string; [done|].
  destruct (route =? "/api/command/poll-interval")%string; [done|].
  destruct (route =? "/api/command/schedule")%string; [done|].
  destruct (route =? "/api/command/cancel")%string; [done|]. by rewrite !andb_false_r.
Qed.

(** C37: no request does more to the command than its route is for: a command is created
    only by the three forms for it, only for a paired node and when none is outstanding,
    with the next identifier; entering maintenance needs the confirmation, a poll
    interval is 1 to 255 minutes, and a maintenance time needs a trusted clock and is a
    full minute at least 60 seconds and at most 27 days ahead (as 32-bit numbers of
    seconds: the lower bound holds until 27 days before the clock reaches 2^32 seconds,
    in 2106).  The form to cancel, with its confirmation, cancels the outstanding command
    whose identifier it names.  A form that refuses leaves the command as it is, and so
    does every other request. *)
Theorem node_commands_bounded allocated taken method path r p (w : W) resp p' w' :
  request allocated taken method path r p w = (resp, p', w') ->
  command_outcome method path r p w resp p'.
Proof.
  intros E. unfold handleRequest in E. cbv zeta in E.
  destruct (_ && (path =? "/")%string) eqn:R;
    [injection E as <- <- <-; eapply other_route; [exact R|by left|]; done|clear R].
  destruct (_ && _) eqn:R;
    [destruct (handleStatus _ _ _ p w) as [rs w1]; injection E as <- <- <-; eapply other_route; [exact R|by left|]; done|clear R].
  destruct (_ && _) eqn:R; [injection E as <- <- <-; eapply other_route; [exact R|by left|]; done|clear R].
  destruct (_ && _) eqn:R; [eapply other_route; [exact R|by right|];
    by apply handleWifi_commands in E|clear R].
  destruct (_ && _) eqn:R; [eapply other_route; [exact R|by right|]; injection E as <- <- <-; by destruct p|clear R].
  destruct (_ && _) eqn:R; [eapply other_route; [exact R|by right|];
    by apply handleGateway_commands in E|clear R].
  destruct (_ && _) eqn:R; [eapply other_route; [exact R|by right|];
    by apply handleBackend_commands in E|clear R].
  destruct (_ && _) eqn:R; [eapply other_route; [exact R|by right|];
    by apply handleHeartbeat_commands in E|clear R].
  destruct (_ && _) eqn:R; [eapply other_route; [exact R|by right|];
    by apply handleRadio_commands in E|clear R].
  destruct (_ && _) eqn:R; [eapply other_route; [exact R|by right|];
    by apply handleRadioRestart_commands in E|clear R].
  destruct (_ && _) eqn:R; [eapply other_route; [exact R|by right|];
    by apply handlePairStart_commands in E|clear R].
  destruct (_ && _) eqn:R; [eapply other_route; [exact R|by right|];
    by apply handlePairConfirm_commands in E|clear R].
  destruct (_ && _) eqn:R; [eapply other_route; [exact R|by right|];
    by apply handlePairCancel_commands in E|clear R].
  destruct (_ && _) eqn:R; [eapply other_route; [exact R|by right|];
    by apply handlePairManual_commands in E|clear R].
  destruct (_ && _) eqn:R; [eapply other_route; [exact R|by right|];
    by apply handleUnpair_commands in E|clear R].
  destruct (_ && _) eqn:R; [eapply other_route; [exact R|by right|]; by injection E as <- <- <-|clear R].
  destruct (_ && _) eqn:R; [eapply other_route; [exact R|by right|];
    by apply handleBackendTest_neutral in E as ->|clear R].
  unfold command_outcome. cbv zeta.
  destruct (_ && _) eqn:R; [by eapply handleEnterMaintenance_spec|clear R].
  destruct (_ && _) eqn:R; [by eapply handlePollInterval_spec|clear R].
  destruct (_ && _) eqn:R; [by eapply handleSchedule_spec|clear R].
  destruct (_ && _) eqn:R; [by eapply handleCancel_spec|clear R].
  apply same_commandStore.
  destruct (_ && _); [by apply handleReboot_commands in E|].
  destruct (_ && _); [by apply handleOtaComplete_commands in E|]. by injection E as <- <- <-.
Qed.

End Commands.

(** ** Secrets *)

(** The parts with every copy of the Wi-Fi password and of the bearer token blotted
    out: in the configuration, in the Wi-Fi manager and in the backend worker. *)
Definition masked (p : Parts) : Parts :=
  mkParts
    ((pa_configStore p) <| cg_config :=
       (config p) <| cf_wifiPassword := [] |> <| cf_backendBearerToken := [] |> |>)
    (pa_radio p) (pa_commands p) ((pa_wifi p) <| wm_password := [] |>)
    ((pa_backend p) <| bw_config := (bw_config (pa_backend p)) <| rt_token := [] |> |>)
    (pa_ota p) (pa_logger p) (pa_dashboard p).

Section Secrets.
Context (kBuildFlavor kBuildDate kGitCommit : list Z).
Context {W : Type} `{WifiReadings W, TrustedTime W, MonotonicClock W, UploadQueue W}.
Context `{SystemFigures W, DashboardSources W, OtaPlatform W, JsonText}.

Lemma status_masked p (w : W) :
  handleStatus kBuildFlavor kBuildDate kGitCommit (masked p) w =
  handleStatus kBuildFlavor kBuildDate kGitCommit p w.
Proof.
  unfold handleStatus, statusDocument. destruct p as [cs rd cm wf bk ot lg db].
  destruct cs as [[]]. destruct wf, bk as [? ? ? [] ? ? ? ? ?]. reflexivity.
Qed.

(** C38: the status document keeps the secrets: two gateways in the same world that
    differ at most in their Wi-Fi passwords and bearer tokens (in the configuration, the
    Wi-Fi manager and the backend worker) answer a request for the status with the same
    bytes.  Nothing is said of the log, whose messages are not modelled. *)
Theorem status_hides_secrets p q (w : W) :
  masked p = masked q ->
  handleStatus kBuildFlavor kBuildDate kGitCommit p w =
    handleStatus kBuildFlavor kBuildDate kGitCommit q w.
Proof. intros E. by rewrite <- (status_masked p), E, status_masked. Qed.

End Secrets.
