(* ===== verification/GatewayApp.v ===== *)
(** * The application (lib/app/gateway_app)

    [GatewayApp::begin]: the order in which the parts come up, what each gets from
    the others, and the decision about the running image at the end, in the
    production build; HilSerial has the serial commands of the bench build. *)

From Stdlib Require Import ZArith Lia String.
From stdpp Require Import list relations.
From S2P Require Import Prelude BuildConfig CString Platform Protocol ProtocolSpec Pairing.
From S2P Require Import CommandStore PacketProcessor DurableQueue GatewayConfig ConfigStore.
From S2P Require Import StrTo Json BackendContract WifiManager TimeManager RadioService.
From S2P Require Import BackendWorker Logger OtaManager Dashboard DashboardStatus.
From S2P Require Import DashboardTheorems HilSerial GatewaySteps.
Open Scope Z_scope.

Inductive esp_reset_reason_t :=
  | ESP_RST_UNKNOWN | ESP_RST_POWERON | ESP_RST_EXT | ESP_RST_SW | ESP_RST_PANIC
  | ESP_RST_INT_WDT | ESP_RST_TASK_WDT | ESP_RST_WDT | ESP_RST_DEEPSLEEP | ESP_RST_BROWNOUT
  | ESP_RST_SDIO | ESP_RST_unnamed (v : Z).

(** [esp_read_mac], six bytes; [esp_reset_reason]; [DurableQueue::begin] and
    [TimeManager::begin] of the parts that live in the world. *)
Class Board (W : Type) := {
  esp_read_mac : W -> list Z * W;
  esp_reset_reason : W -> esp_reset_reason_t * W;
  queue_begin : W -> bool * W;
  time_begin : W -> bool * W;
}.

(** The mutexes and tasks the system could create. *)
Record Resources := mkResources {
  os_logMutex : bool;
  os_commandMutex : bool;
  os_radioMutex : bool;
  os_radioTask : bool;
  os_wifiMutex : bool;
  os_wifiTask : bool;
  os_backendMutex : bool;
  os_backendTask : bool;
}.

Definition resetReasonName (reason : esp_reset_reason_t) : string :=
  match reason with
  | ESP_RST_UNKNOWN => "UNKNOWN"
  | ESP_RST_POWERON => "POWER_ON"
  | ESP_RST_EXT => "EXTERNAL"
  | ESP_RST_SW => "SOFTWARE"
  | ESP_RST_PANIC => "PANIC"
  | ESP_RST_INT_WDT => "INT_WDT"
  | ESP_RST_TASK_WDT => "TASK_WDT"
  | ESP_RST_WDT => "OTHER_WDT"
  | ESP_RST_DEEPSLEEP => "DEEP_SLEEP"
  | ESP_RST_BROWNOUT => "BROWNOUT"
  | ESP_RST_SDIO => "SDIO"
  | ESP_RST_unnamed _ => "UNKNOWN"
  end.

(** [%02X] *)
Definition hexByte (b : Z) : list Z :=
  let digit v := if v <? 10 then 48 + v else 55 + v in
  [digit (b / 16 mod 16); digit (b mod 16)].

(** [%02X] of each byte, with [separator] in between. *)
Fixpoint hexBytes (separator : list Z) (bytes : list Z) : list Z :=
  match bytes with
  | [] => []
  | [b] => hexByte b
  | b :: bytes => hexByte b ++ separator ++ hexBytes separator bytes
  end.

(** The texts of the hardware address: with colons, without, and the identifier. *)
Record Derived := mkDerived {
  dv_hardwareMac : list Z;
  dv_hardwareMacCompact : list Z;
  dv_derivedGatewayId : list Z;
}.

Definition deriveIdentity (mac : list Z) : Derived :=
  let compact := putText (zeros 13) (hexBytes [] mac) in
  mkDerived (putText (zeros 18) (hexBytes (chars ":") mac)) compact
    (putText (zeros kGatewayIdCapacity) (chars "GTH-GW-" ++ text compact)).

(** Which parts came up. *)
Record Readiness := mkReadiness {
  rdy_config : bool;
  rdy_queue : bool;
  rdy_command : bool;
  rdy_time : bool;
  rdy_radio : bool;
  rdy_wifi : bool;
  rdy_backend : bool;
  rdy_dashboard : bool;
}.

Section App.
Context (config_bytes : GatewayConfig -> list Z) (config_object : list Z -> GatewayConfig).
Context (v1_object : list Z -> GatewayConfigV1) (sizeof_config sizeof_v1 : nat).
Context (object_bytes : CommandStoreRecord -> list Z) (sizeof_record : Z).
Context {W : Type} `{RawPreferences W, Sx1278 W, CommandBackend W, Millis W}.
Context `{WifiReadings W, WifiControl W, TrustedTime W, MonotonicClock W, Tasks W}.
Context `{HttpClient W, OtaPlatform W, Board W}.

(** The objects of the application as they are constructed. *)
Definition Parts_init : Parts :=
  mkParts ConfigStore_init RadioService_init CommandStore_init WifiManager_init
    BackendWorker_init OtaManager_init Logger_init Dashboard_init.

(** Identity and session: everything before the configuration is needed. *)
Definition beginIdentity (w : W) : Derived * GatewayIdentity * W :=
  let '(mac, w) := esp_read_mac w in
  let derived := deriveIdentity mac in
  let '(session, w) := esp_random w in
  let session := if session =? 0 then 1 else session in
  let identity := GatewayIdentity_init in
  (derived,
   mkGatewayIdentity (gi_gatewayId identity)
     (strncpyz (gi_hardwareMac identity) (dv_hardwareMac derived))
     (strncpyz (gi_firmwareVersion identity) kFirmwareVersion) session, w).

(** The parts after the queue: pairing, commands, clock, radio, Wi-Fi and backend. *)
Definition beginServices (os : Resources) (derived : Derived) (identity : GatewayIdentity)
    (configReady queueReady : bool) (p : Parts) (w : W) : Readiness * Parts * W :=
  let c := config p in
  let pairing := pairingBegin (Some (cf_pairedNodeId c)) PairingManager_init in
  let '(commandReady, _, commands, w) :=
    storeBegin object_bytes sizeof_record (os_commandMutex os) (pa_commands p) w false in
  let p := p <| pa_commands := commands |> in
  let '(timeReady, w) := time_begin w in
  let '(radioReady, radio, w) :=
    radioBegin (os_radioMutex os) (os_radioTask os) (cf_radio c) pairing commands
      (gi_bootSessionId identity) (pa_radio p) w in
  let p := p <| pa_radio := radio |> in
  let '(wifiReady, wifi, w) :=
    wifiBegin (os_wifiMutex os) (os_wifiTask os) c (Some (dv_hardwareMacCompact derived))
      (pa_wifi p) w in
  let p := p <| pa_wifi := wifi |> in
  let '(reason, w) := esp_reset_reason w in
  let '(backendReady, backend, w) :=
    backendBegin (os_backendMutex os) (os_backendTask os) c identity
      (cg_bootCount (pa_configStore p)) (Some (chars (resetReasonName reason))) (pa_backend p) w in
  let p := p <| pa_backend := backend |> in
  let '(reason, w) := esp_reset_reason w in
  let '(dashboardReady, p) :=
    dashboardBegin identity (Some (chars (resetReasonName reason))) p in
  (mkReadiness configReady queueReady commandReady timeReady radioReady wifiReady backendReady
     dashboardReady, p, w).

Definition appBegin (os : Resources) (w : W) : Readiness * Parts * W :=
  let p := Parts_init in
  let p := p <| pa_logger := (loggerBegin (os_logMutex os) (pa_logger p)).2 |> in
  let '(derived, identity, w) := beginIdentity w in
  let '(ota, w) := otaBegin (pa_ota p) w in
  let p := p <| pa_ota := ota |> in
  let '(configReady, store, w) :=
    configBegin config_bytes config_object v1_object sizeof_config sizeof_v1
      (Some (dv_derivedGatewayId derived)) (pa_configStore p) w in
  let p := p <| pa_configStore := store |> in
  let identity := identity <| gi_gatewayId :=
                    strncpyz (gi_gatewayId identity) (cf_gatewayId (config p)) |> in
  let '(queueReady, w) := queue_begin w in
  let '(ready, p, w) := beginServices os derived identity configReady queueReady p w in
  let internalStateSane := configReady && queueReady && rdy_time ready && rdy_command ready &&
                           cg_healthy (pa_configStore p) in
  let '(_, ota, w) :=
    completeBootValidation configReady queueReady internalStateSane (pa_ota p) w in
  (ready, p <| pa_ota := ota |>, w).

End App.

(** ** What the boot leaves *)

Section Theorems.
Context (config_bytes : GatewayConfig -> list Z) (config_object : list Z -> GatewayConfig).
Context (v1_object : list Z -> GatewayConfigV1) (sizeof_config sizeof_v1 : nat).
Context (object_bytes : CommandStoreRecord -> list Z) (sizeof_record : Z).
Context (object_typed : forall bytes, config_typed (config_object bytes)).
Context (v1_object_typed : forall bytes, v1_typed (v1_object bytes)).
Context {W : Type} `{RawPreferences W, Sx1278 W, CommandBackend W, Millis W}.
Context `{WifiReadings W, WifiControl W, TrustedTime W, MonotonicClock W, Tasks W}.
Context `{HttpClient W, OtaLaws W, Board W}.

(** A configuration the pairing can start from: its node is valid or none. *)
Definition startable (c : GatewayConfig) : Prop :=
  length (cf_pairedNodeId c) = kNodeIdCapacity /\
  (nodeOf (cf_pairedNodeId c) = None \/ nodeIdValid (Some (cf_pairedNodeId c)) = true).

Lemma valid_startable c :
  length (cf_pairedNodeId c) = kNodeIdCapacity -> valid_config c -> startable c.
Proof.
  unfold valid_config, validateConfig. intros Hl Hv. split; [done|].
  destruct (negb (cf_schemaVersion c =? _)); [done|].
  destruct (negb (gatewayIdValid _)); [done|]. destruct (wifiRefused c); [done|].
  destruct (default 0 (head (cf_pairedNodeId c)) =? 0) eqn:E0.
  - left. apply nodeOf_None. apply Z.eqb_eq in E0. by destruct (cf_pairedNodeId c).
  - destruct (nodeIdValid (Some (cf_pairedNodeId c))); [by right|done].
Qed.

Lemma configBegin_startable id (w : W) ok s w' :
  configBegin config_bytes config_object v1_object sizeof_config sizeof_v1 id ConfigStore_init w =
    (ok, s, w') ->
  startable (cg_config s) /\ (ok = true -> valid_config (cg_config s)).
Proof.
  assert (startable GatewayConfig_init) as Si by (split; [done|left; by apply nodeOf_None]).
  assert (startable (setDefaults id)) as Sd by (split; [done|left; by apply nodeOf_None]).
  intros E. unfold configBegin in E.
  destruct (raw_begin _ _ w) as [opened w1]. destruct opened; cbn [negb] in E;
    [|injection E as <- <- <-; done].
  destruct (configLoad _ _ _ _ _ _ _ w1) as [[found s1] w2] eqn:El.
  assert (startable (cg_config s1) /\ (found = true -> valid_config (cg_config s1))) as [S1 V1].
  { unfold configLoad in El. destruct (raw_getBytesLength _ w1) as [n w3].
    set (f := if (n =? sizeof_config)%nat return option GatewayConfig * W then _ else _) in El.
    assert (forall c : GatewayConfig, f.1 = Some c -> startable c /\ valid_config c) as Hf.
    { intros c. unfold f. destruct (n =? sizeof_config)%nat; [|done].
      destruct (raw_getBytes _ _ w3) as [bytes w4]. destruct (_ && _) eqn:G; [|done].
      intros [= <-]. apply andb_true_iff in G as [_ G]. split; [|done].
      apply valid_startable; [|done]. apply (object_typed bytes). }
    destruct f as [[c|] w4]; cbn [fst] in Hf.
    - injection El as <- <- <-. by destruct (Hf c eq_refl).
    - destruct (n =? sizeof_v1)%nat.
      + destruct (raw_getBytes _ _ w4) as [bytes w5]. destruct (negb _); [by injection El as <- <- <-|].
        destruct (migrateConfigV1 (v1_object bytes)) as [c|] eqn:Em; [|by injection El as <- <- <-].
        apply migrate_typed in Em as Tm; [|done].
        unfold configSave in El. destruct (configOk (validateConfig c)) eqn:Ev; cbn [negb] in El;
          [|by injection El as <- <- <-].
        destruct (raw_putBytes _ _ w5) as [k w6]. destruct (k =? sizeof_config)%nat;
          cbn [negb] in El; injection El as <- <- <-; [|done].
        split; [|done]. apply valid_startable; [apply Tm|done].
      + unfold configSave in El. destruct (configOk _) eqn:Ev; cbn [negb] in El;
          [|by injection El as <- <- <-].
        destruct (raw_putBytes _ _ w4) as [k w6]. destruct (k =? sizeof_config)%nat;
          cbn [negb] in El; by injection El as <- <- <-. }
  destruct found; cbn [negb] in E; [|injection E as <- <- <-; done].
  destruct (raw_getUInt _ _ w2) as [previous w3].
  destruct (if previous =? UINT32_MAX then _ else _) as [counted w4]. injection E as <- <- <-.
  destruct s1; cbn in *. split; [done|]. intros _. by apply V1.
Qed.

Lemma radioBegin_spec mutex task c pairing commands session s (w : W) ok s' w' :
  rv_processor s = None ->
  radioBegin mutex task c pairing commands session s w = (ok, s', w') ->
  rv_mutex s' = mutex /\
  rv_processor s' =
    (if mutex then Some (mkPacketProcessor pairing commands PacketProcessingStats_init
                           LatestTelemetry_init) else None).
Proof.
  intros Hp E. unfold radioBegin in E. destruct mutex; cbn [negb] in E;
    [|injection E as <- <- <-; by destruct s].
  destruct task; cbn [negb] in E; [|injection E as <- <- <-; by destruct s].
  destruct (configureAndReceive _ _ _) as [[ready r] w1]. injection E as <- <- <-. by destruct s.
Qed.

(** The parts [beginServices] leaves as they are or starts. *)
Lemma beginServices_spec os derived identity cr qr p (w : W) ready p' w' :
  rv_processor (pa_radio p) = None ->
  beginServices object_bytes sizeof_record os derived identity cr qr p w = (ready, p', w') ->
  pa_configStore p' = pa_configStore p /\ pa_ota p' = pa_ota p /\
  rdy_config ready = cr /\ rdy_queue ready = qr /\
  (rv_processor (pa_radio p') <> None -> rv_mutex (pa_radio p') = true) /\
  (forall m, pairing_of p' = Some m ->
     m = pairingBegin (Some (cf_pairedNodeId (config p))) PairingManager_init).
Proof.
  intros Hp E. unfold beginServices in E.
  destruct (storeBegin _ _ _ _ w _) as [[[cmdReady fresh] commands] w1].
  destruct (time_begin w1) as [timeReady w2].
  destruct (radioBegin _ _ _ _ _ _ _ w2) as [[radioReady radio] w3] eqn:Er.
  apply radioBegin_spec in Er as [Em Ep]; [|by destruct p].
  destruct (wifiBegin _ _ _ _ _ w3) as [[wifiReady wifi] w4].
  destruct (esp_reset_reason w4) as [reason w5].
  destruct (backendBegin _ _ _ _ _ _ _ w5) as [[backendReady backend] w6].
  destruct (esp_reset_reason w6) as [reason2 w7]. unfold dashboardBegin in E.
  injection E as <- <- <-. destruct p as [cs rd cm wf bk ot lg db]. cbn in *.
  split_and!; try done.
  - rewrite Em, Ep. by destruct (os_radioMutex os).
  - intros m. unfold pairing_of. cbn. rewrite Ep. destruct (os_radioMutex os); [|done].
    by intros [= <-].
Qed.

(** A freshly begun pairing manager is sound and has the stored node. *)
Lemma pairingBegin_stored node :
  length node = kNodeIdCapacity ->
  (nodeOf node = None \/ nodeIdValid (Some node) = true) ->
  let m := pairingBegin (Some node) PairingManager_init in
  pairing_ok m /\ nodeOf (pm_pairedNodeId m) = nodeOf node.
Proof.
  intros Hl Hn m. destruct (run_op_refines (OpBegin (Some node)) _ init_ok) as [Ok Ev].
  apply (f_equal snd) in Ev. change (view m = mkPairingView (validNode (Some node)) false None) in Ev.
  split; [exact Ok|]. clearbody m.
  assert (nodeOf (pm_pairedNodeId m) = validNode (Some node)) as ->
    by (change (pv_node (view m) = validNode (Some node)); by rewrite Ev).
  destruct (nodeIdValid (Some node)) eqn:Hv.
  - symmetry. by apply valid_c_text.
  - rewrite validNode_None by done. by destruct Hn as [->|?].
Qed.

Abbreviation boot := (appBegin config_bytes config_object v1_object sizeof_config sizeof_v1
  object_bytes sizeof_record).

(** What the boot leaves of pairing and configuration. *)
Lemma boot_spec os (w : W) ready p w' :
  boot os w = (ready, p, w') ->
  pairing_stored p /\ (rdy_config ready = true -> valid_config (config p)).
Proof.
  intros E. unfold appBegin in E. cbv zeta in E.
  destruct (beginIdentity w) as [[derived identity] w1].
  destruct (otaBegin _ w1) as [ota w2] eqn:Eo.
  destruct (configBegin _ _ _ _ _ _ _ w2) as [[configReady store] w3] eqn:Ec.
  apply configBegin_startable in Ec as [[Sl Sn] Sv].
  destruct (queue_begin w3) as [queueReady w4].
  destruct (beginServices _ _ _ _ _ _ _ _ w4) as [[ready1 p1] w5] eqn:Eb.
  apply beginServices_spec in Eb as (Es & Eo1 & Er1 & Er2 & Em & Ep); [|done].
  destruct (completeBootValidation _ _ _ _ w5) as [[sane ota1] w6] eqn:Ev.
  injection E as <- <- <-.
  assert (config p1 = cg_config store) as Ec1 by (unfold config; by rewrite Es).
  assert (pairing_stored p1) as K.
  { split; [by rewrite Ec1|exact Em|]. intros m Hm. rewrite (Ep m Hm), Ec1.
    by apply pairingBegin_stored. }
  match goal with |- pairing_stored ?x /\ _ => set (p2 := x) end.
  assert (neutral p1 p2 /\ config p2 = config p1 /\ pa_configStore p2 = pa_configStore p1 /\
          pa_ota p2 = ota1) as (N & Ec2 & Es2 & Eo2) by (by destruct p1).
  assert (rdy_config ready1 = true -> valid_config (config p2)) as V
    by (intros Hr; rewrite Ec2, Ec1; apply Sv; congruence).
  split; [by apply (neutral_stored p1)|exact V].
Qed.

Context (strtof : list Z -> single * option (list Z) * bool).
Context (kBuildFlavor kBuildDate kGitCommit kDashboardHtml : list Z).
Context `{DashboardSources W, UploadQueue W, SystemFigures W, JsonText, !PacketQueueSink W}.
Context `{Updater W, HeartbeatSources W}.

Abbreviation step := (gateway_step config_bytes sizeof_config object_bytes strtof
  kBuildFlavor kBuildDate kGitCommit kDashboardHtml).

(** C9: the node that is acknowledged is the node that is stored: from the boot on,
    through any interleaving of dashboard requests, uploads, rounds of the tasks and
    serial commands of the bench build, the pairing the radio works with is sound and its node is the one in the
    configuration, also when a write to NVS fails in between; and a gateway that
    started with a valid configuration keeps a valid one. *)
Theorem pairing_persisted os (w : W) ready p w1 p' w' :
  boot os w = (ready, p, w1) -> rtc step (p, w1) (p', w') ->
  (rdy_config ready = true -> valid_config (config p')) /\
  forall q, rv_processor (pa_radio p') = Some q ->
    rv_mutex (pa_radio p') = true /\ pairing_ok (pp_pairing q) /\
    nodeOf (pm_pairedNodeId (pp_pairing q)) = nodeOf (cf_pairedNodeId (config p')).
Proof.
  intros (K & V)%boot_spec R. apply gateway_steps_spec in R as [[Kl Km Kn] V']; [|done].
  cbn [fst] in *. split; [auto|]. intros q Eq. split; [apply Km; by rewrite Eq|].
  apply Kn. unfold pairing_of. by rewrite Eq.
Qed.

End Theorems.
