(* ===== verification/GatewayBoot.v ===== *)
(** * The decision about a new image (lib/app/gateway_app, GatewayApp::begin)

    [OtaFrame]: only the two calls of esp_ota that decide about an image, and nothing
    else a boot calls, decide about it.  The calls a boot makes are then counted from its
    first instruction to its last. *)

From Stdlib Require Import ZArith Lia String.
From stdpp Require Import list.
From S2P Require Import Prelude BuildConfig CString Platform Protocol Pairing CommandStore.
From S2P Require Import PacketProcessor DurableQueue GatewayConfig ConfigStore StrTo Json.
From S2P Require Import BackendContract WifiManager TimeManager RadioService BackendWorker.
From S2P Require Import Heartbeat Logger OtaManager Dashboard GatewayApp.
Open Scope Z_scope.

(** No decision about an image has been made in between. *)
Definition same_ota {W} `{OtaLaws W} (w w' : W) : Prop :=
  ota_calls w' = ota_calls w /\ forall q, partition q w' = partition q w.

#[export] Instance same_ota_preorder {W} `{OtaLaws W} : PreOrder same_ota.
Proof.
  split.
  - by intros w.
  - intros w1 w2 w3 [E1 P1] [E2 P2]. split; [congruence|]. intros q. by rewrite P2.
Qed.

Class OtaFrame (W : Type) `{OtaLaws W, RawPreferences W, Sx1278 W, CommandBackend W, Millis W}
    `{WifiControl W, MonotonicClock W, Tasks W, Board W} := {
  fr_running w a w' : ota_running w = (a, w') -> same_ota w w';
  fr_state p w a w' : ota_state p w = (a, w') -> same_ota w w';
  fr_raw_begin n b w a w' : raw_begin n b w = (a, w') -> same_ota w w';
  fr_raw_length k w a w' : raw_getBytesLength k w = (a, w') -> same_ota w w';
  fr_raw_get k n w a w' : raw_getBytes k n w = (a, w') -> same_ota w w';
  fr_raw_put k bytes w a w' : raw_putBytes k bytes w = (a, w') -> same_ota w w';
  fr_raw_getUInt k d w a w' : raw_getUInt k d w = (a, w') -> same_ota w w';
  fr_raw_putUInt k v w a w' : raw_putUInt k v w = (a, w') -> same_ota w w';
  fr_load w a w' : backend_load w = (a, w') -> same_ota w w';
  fr_save r w a w' : backend_save r w = (a, w') -> same_ota w w';
  fr_radio_begin c w a w' : radio_begin c w = (a, w') -> same_ota w w';
  fr_radio_crc b w a w' : radio_setCRC b w = (a, w') -> same_ota w w';
  fr_radio_receive w a w' : radio_startReceive w = (a, w') -> same_ota w w';
  fr_notify t w a w' : notifyTake t w = (a, w') -> same_ota w w';
  fr_clear w : same_ota w (radio_clearPacketSentAction w);
  fr_set w : same_ota w (radio_setPacketReceivedAction w);
  fr_spi w : same_ota w (spi_begin w);
  fr_wifi c w a w' : wifi_do c w = (a, w') -> same_ota w w';
  fr_millis w a w' : millis w = (a, w') -> same_ota w w';
  fr_now w a w' : nowUs w = (a, w') -> same_ota w w';
  fr_task w : same_ota w (taskNotify w);
  fr_random w a w' : esp_random w = (a, w') -> same_ota w w';
  fr_mac w a w' : esp_read_mac w = (a, w') -> same_ota w w';
  fr_reason w a w' : esp_reset_reason w = (a, w') -> same_ota w w';
  fr_queue w a w' : queue_begin w = (a, w') -> same_ota w w';
  fr_time w a w' : time_begin w = (a, w') -> same_ota w w';
}.

(** Each call in the context as a step without a decision. *)
Ltac frame_calls :=
  repeat match goal with
  | E : ota_running _ = _ |- _ => apply fr_running in E
  | E : ota_state _ _ = _ |- _ => apply fr_state in E
  | E : raw_begin _ _ _ = _ |- _ => apply fr_raw_begin in E
  | E : raw_getBytesLength _ _ = _ |- _ => apply fr_raw_length in E
  | E : raw_getBytes _ _ _ = _ |- _ => apply fr_raw_get in E
  | E : raw_putBytes _ _ _ = _ |- _ => apply fr_raw_put in E
  | E : raw_getUInt _ _ _ = _ |- _ => apply fr_raw_getUInt in E
  | E : raw_putUInt _ _ _ = _ |- _ => apply fr_raw_putUInt in E
  | E : backend_load _ = _ |- _ => apply fr_load in E
  | E : backend_save _ _ = _ |- _ => apply fr_save in E
  | E : radio_begin _ _ = _ |- _ => apply fr_radio_begin in E
  | E : radio_setCRC _ _ = _ |- _ => apply fr_radio_crc in E
  | E : radio_startReceive _ = _ |- _ => apply fr_radio_receive in E
  | E : notifyTake _ _ = _ |- _ => apply fr_notify in E
  | E : wifi_do _ _ = _ |- _ => apply fr_wifi in E
  | E : millis _ = _ |- _ => apply fr_millis in E
  | E : nowUs _ = _ |- _ => apply fr_now in E
  | E : esp_random _ = _ |- _ => apply fr_random in E
  | E : esp_read_mac _ = _ |- _ => apply fr_mac in E
  | E : esp_reset_reason _ = _ |- _ => apply fr_reason in E
  | E : queue_begin _ = _ |- _ => apply fr_queue in E
  | E : time_begin _ = _ |- _ => apply fr_time in E
  end.

(** A chain of such steps. *)
Ltac frame_chain :=
  frame_calls;
  repeat first [reflexivity | eassumption | etransitivity; [eassumption|]].

Section Boot.
Context (config_bytes : GatewayConfig -> list Z) (config_object : list Z -> GatewayConfig).
Context (v1_object : list Z -> GatewayConfigV1) (sizeof_config sizeof_v1 : nat).
Context (object_bytes : CommandStoreRecord -> list Z) (sizeof_record : Z).
Context {W : Type} `{RawPreferences W, Sx1278 W, CommandBackend W, Millis W}.
Context `{WifiReadings W, WifiControl W, TrustedTime W, MonotonicClock W, Tasks W}.
Context `{HttpClient W, OtaLaws W, Board W, !OtaFrame W}.

Lemma otaBegin_frame o (w : W) o' w' : otaBegin o w = (o', w') -> same_ota w w'.
Proof.
  unfold otaBegin. intros E. destruct (ota_running w) as [running w1] eqn:E1.
  destruct running as [running|]; [|injection E as <- <-; frame_chain].
  destruct (ota_state running w1) as [state w2] eqn:E2.
  destruct state; injection E as <- <-; frame_chain.
Qed.

Lemma configSave_frame c s (w : W) ok s' w' :
  configSave config_bytes sizeof_config c s w = (ok, s', w') -> same_ota w w'.
Proof.
  unfold configSave. intros E. destruct (negb _); [injection E as <- <- <-; reflexivity|].
  destruct (raw_putBytes _ _ w) as [n w1] eqn:E1. destruct (negb _); injection E as <- <- <-; frame_chain.
Qed.

Lemma configLoad_frame id s (w : W) ok s' w' :
  configLoad config_bytes config_object v1_object sizeof_config sizeof_v1 id s w = (ok, s', w') ->
  same_ota w w'.
Proof.
  unfold configLoad. intros E. destruct (raw_getBytesLength _ w) as [n w1] eqn:E1.
  set (f := if (n =? sizeof_config)%nat return option GatewayConfig * W then _ else _) in E.
  assert (same_ota w1 f.2) as K2.
  { unfold f. destruct (n =? sizeof_config)%nat; [|reflexivity].
    destruct (raw_getBytes _ _ w1) as [bytes w3] eqn:E3. cbn [snd]. frame_chain. }
  destruct f as [loaded w2]. cbn [snd] in K2.
  destruct loaded; [injection E as <- <- <-; frame_chain|].
  destruct (n =? sizeof_v1)%nat.
  - destruct (raw_getBytes _ _ w2) as [bytes w3] eqn:E3.
    destruct (negb _); [injection E as <- <- <-; frame_chain|].
    destruct (migrateConfigV1 _) as [c|]; [|injection E as <- <- <-; frame_chain].
    destruct (configSave _ _ c s w3) as [[saved s4] w4] eqn:E4. apply configSave_frame in E4.
    destruct (negb saved); injection E as <- <- <-; frame_chain.
  - apply configSave_frame in E. frame_chain.
Qed.

Lemma configBegin_frame id s (w : W) ok s' w' :
  configBegin config_bytes config_object v1_object sizeof_config sizeof_v1 id s w = (ok, s', w') ->
  same_ota w w'.
Proof.
  unfold configBegin. intros E. destruct (raw_begin _ _ w) as [opened w1] eqn:E1.
  destruct (negb opened); [injection E as <- <- <-; frame_chain|].
  destruct (configLoad _ _ _ _ _ _ _ w1) as [[found s2] w2] eqn:E2. apply configLoad_frame in E2.
  destruct (negb found); [injection E as <- <- <-; frame_chain|].
  destruct (raw_getUInt _ _ w2) as [count w3] eqn:E3.
  destruct (if count =? UINT32_MAX then _ else _) as [counted w4] eqn:E4.
  injection E as <- <- <-. destruct (count =? UINT32_MAX); [injection E4 as <- <-; frame_chain|].
  destruct (raw_putUInt _ _ w3) as [n w5] eqn:E5. injection E4 as <- <-. frame_chain.
Qed.

Lemma storeBegin_frame created cs (w : W) fresh ok fresh' cs' w' :
  storeBegin object_bytes sizeof_record created cs w fresh = (ok, fresh', cs', w') -> same_ota w w'.
Proof.
  unfold storeBegin. intros E. destruct (negb _); [injection E as <- <- <- <-; reflexivity|].
  destruct (backend_load w) as [loaded w1] eqn:E1.
  destruct (match loaded with Some r => _ | None => _ end) as [r|];
    [injection E as <- <- <- <-; frame_chain|].
  destruct (backend_save _ w1) as [saved w2] eqn:E2.
  destruct (negb saved); injection E as <- <- <- <-; frame_chain.
Qed.

Lemma configureAndReceive_frame c r (w : W) ok r' w' :
  configureAndReceive c r w = (ok, r', w') -> same_ota w w'.
Proof.
  unfold configureAndReceive. destruct (configureUnlocked c r w) as [[configured r1] w1] eqn:E1.
  intros E. assert (same_ota w w1) as K1.
  { clear E. unfold configureUnlocked in E1. destruct (radio_begin c w) as [code w2] eqn:E2.
    match type of E1 with context [if ?b then let '(_, _) := radio_setCRC _ _ in _ else _] =>
      destruct b end.
    - destruct (radio_setCRC true w2) as [code3 w3] eqn:E3. injection E1 as <- <- <-. frame_chain.
    - injection E1 as <- <- <-. frame_chain. }
  destruct configured; [|injection E as <- <- <-; exact K1]. etransitivity; [exact K1|]. clear E1 K1.
  unfold startReceiveUnlocked in E.
  destruct (if bool_decide (rx_dio0Action r1 = Dio0Action.kTransmit) then _ else _) as [r2 w2] eqn:E2.
  assert (same_ota w1 w2) as K2 by (destruct (bool_decide _); injection E2 as <- <-; [apply fr_clear|reflexivity]).
  clear E2.
  destruct (if bool_decide (rx_dio0Action r2 = Dio0Action.kNone) then _ else _) as [r3 w3] eqn:E3.
  assert (same_ota w2 w3) as K3 by (destruct (bool_decide _); injection E3 as <- <-; [apply fr_set|reflexivity]).
  clear E3. destruct (notifyTake 0 w3) as [t w4] eqn:E4.
  destruct (radio_startReceive w4) as [code w5] eqn:E5. injection E as <- <- <-. frame_chain.
Qed.

Lemma radioBegin_frame mutex task c pairing commands session s (w : W) ok s' w' :
  radioBegin mutex task c pairing commands session s w = (ok, s', w') -> same_ota w w'.
Proof.
  unfold radioBegin. intros E. destruct (negb mutex); [injection E as <- <- <-; reflexivity|].
  set (w1 := if rx_spiStarted _ then w else spi_begin w) in *.
  assert (same_ota w w1) as K1 by (unfold w1; destruct (rx_spiStarted _); [reflexivity|apply fr_spi]).
  clearbody w1. destruct (negb task); [injection E as <- <- <-; exact K1|].
  destruct (configureAndReceive _ _ w1) as [[ready r] w2] eqn:E2. apply configureAndReceive_frame in E2.
  injection E as <- <- <-. frame_chain.
Qed.

Lemma call_frame c (w : W) : same_ota w (wifi_call c w).
Proof. unfold wifi_call. destruct (wifi_do c w) as [b w1] eqn:E. frame_chain. Qed.

Lemma startFallbackAp_frame m (w : W) m' w' : startFallbackAp m w = (m', w') -> same_ota w w'.
Proof.
  unfold startFallbackAp. destruct (_ || _); [intros [= <- <-]; reflexivity|].
  destruct (wifi_do (WifiSoftAP _ _) _) as [started w1] eqn:E1. intros [= <- <-].
  etransitivity; [apply call_frame|]. frame_chain.
Qed.

Lemma beginSta_frame ssid password m (w : W) m' w' :
  beginSta ssid password m w = (m', w') -> same_ota w w'.
Proof.
  unfold beginSta. intros E. destruct (millis w) as [now w1] eqn:E1. frame_calls.
  etransitivity; [exact E1|]. destruct (_ =? 0).
  - apply startFallbackAp_frame in E. etransitivity; [apply call_frame|exact E].
  - etransitivity; [apply call_frame|]. etransitivity; [apply call_frame|].
    etransitivity; [apply call_frame|].
    destruct (wm_disconnectedSinceMs _ =? 0); [|injection E as <- <-; reflexivity].
    destruct (millis _) as [now2 w2] eqn:E2. injection E as <- <-. frame_chain.
Qed.

Lemma wifiBegin_frame mutex task c mac m (w : W) ok m' w' :
  wifiBegin mutex task c mac m w = (ok, m', w') -> same_ota w w'.
Proof.
  unfold wifiBegin. intros E. destruct (negb mutex); [injection E as <- <- <-; reflexivity|].
  do 4 (etransitivity; [apply call_frame|]).
  destruct (millis _) as [now w1] eqn:E1. frame_calls. etransitivity; [exact E1|].
  destruct (if default 0 _ =? 0 then _ else _) as [m2 w2] eqn:E2. injection E as <- <- <-.
  destruct (default 0 _ =? 0); [by eapply startFallbackAp_frame|by eapply beginSta_frame].
Qed.

Lemma backendBegin_frame mutex task c identity count reason b (w : W) ok b' w' :
  backendBegin mutex task c identity count reason b w = (ok, b', w') -> same_ota w w'.
Proof.
  unfold backendBegin. intros E. destruct (negb mutex); [injection E as <- <- <-; reflexivity|].
  destruct (backendApplyConfig _ _ _ w) as [b1 w1] eqn:E1. injection E as <- <- <-.
  unfold backendApplyConfig in E1. destruct (negb _); [injection E1 as <- <-; reflexivity|].
  destruct (nowUs w) as [now w2] eqn:E2. destruct (heartbeatConfigure _ _ _) as [x scheduler].
  frame_calls. injection E1 as _ <-. etransitivity; [exact E2|].
  match goal with |- context [if ?task then _ else _] => destruct task end;
    [apply fr_task|reflexivity].
Qed.

Lemma beginServices_frame os derived identity cr qr p (w : W) ready p' w' :
  beginServices object_bytes sizeof_record os derived identity cr qr p w = (ready, p', w') ->
  same_ota w w'.
Proof.
  unfold beginServices. intros E.
  destruct (storeBegin _ _ _ _ w _) as [[[commandReady fresh] commands] w1] eqn:E1.
  apply storeBegin_frame in E1. destruct (time_begin w1) as [timeReady w2] eqn:E2.
  destruct (radioBegin _ _ _ _ _ _ _ w2) as [[radioReady radio] w3] eqn:E3.
  apply radioBegin_frame in E3.
  destruct (wifiBegin _ _ _ _ _ w3) as [[wifiReady wifi] w4] eqn:E4. apply wifiBegin_frame in E4.
  destruct (esp_reset_reason w4) as [reason w5] eqn:E5.
  destruct (backendBegin _ _ _ _ _ _ _ w5) as [[backendReady backend] w6] eqn:E6.
  apply backendBegin_frame in E6. destruct (esp_reset_reason w6) as [reason2 w7] eqn:E7.
  destruct (dashboardBegin _ _ _) as [dashboardReady p7]. injection E as _ _ <-. frame_chain.
Qed.

Lemma beginIdentity_frame (w : W) derived identity w' :
  beginIdentity w = (derived, identity, w') -> same_ota w w'.
Proof.
  unfold beginIdentity. destruct (esp_read_mac w) as [mac w1] eqn:E1.
  destruct (esp_random w1) as [session w2] eqn:E2. intros [= _ _ <-]. frame_chain.
Qed.

(** ** The image that boots *)

(** esp_ota, asked by the boot, answers that the running image has yet to prove itself. *)
Definition image_pending (w : W) : Prop :=
  exists running w1 w2, ota_running (beginIdentity w).2 = (Some running, w1) /\
    ota_state running w1 = (Some ESP_OTA_IMG_PENDING_VERIFY, w2).

Lemma otaBegin_pending (w : W) o w' :
  otaBegin OtaManager_init (beginIdentity w).2 = (o, w') ->
  ot_pendingVerification o = true <-> image_pending w.
Proof.
  unfold otaBegin, image_pending.
  destruct (ota_running (beginIdentity w).2) as [running w1].
  destruct running as [running|]; [|intros [= <- <-]; split; [done|naive_solver]].
  destruct (ota_state running w1) as [state w2] eqn:E2.
  destruct state as [state|]; intros [= <- <-]; cbn [ot_pendingVerification].
  - rewrite bool_decide_eq_true. split; [intros ->; by exists running, w1, w2|].
    intros (? & ? & ? & [= <- <-] & E3). rewrite E2 in E3. by injection E3.
  - split; [done|]. intros (? & ? & ? & [= <- <-] & E3). by rewrite E2 in E3.
Qed.

Abbreviation boot := (appBegin config_bytes config_object v1_object sizeof_config sizeof_v1
  object_bytes sizeof_record).

(** The boot: the manager reads the state of the image first, and decides at the end,
    with no decision in between. *)
Lemma boot_decision os (w : W) ready p w' :
  boot os w = (ready, p, w') ->
  exists o w1 sane, (ot_pendingVerification o = true <-> image_pending w) /\ same_ota w w1 /\
    completeBootValidation (rdy_config ready) (rdy_queue ready)
      (rdy_config ready && rdy_queue ready && rdy_time ready && rdy_command ready &&
       cg_healthy (pa_configStore p)) o w1 = (sane, pa_ota p, w').
Proof.
  intros E. unfold appBegin in E. cbv zeta in E.
  pose proof (otaBegin_pending w) as Hp.
  destruct (beginIdentity w) as [[derived identity] w1] eqn:E1. apply beginIdentity_frame in E1.
  cbn [snd] in Hp. change (pa_ota (_ <| pa_logger := _ |>)) with OtaManager_init in E.
  destruct (otaBegin _ w1) as [ota w2] eqn:E2. specialize (Hp _ _ eq_refl). apply otaBegin_frame in E2.
  destruct (configBegin _ _ _ _ _ _ _ w2) as [[configReady store] w3] eqn:E3.
  apply configBegin_frame in E3. destruct (queue_begin w3) as [queueReady w4] eqn:E4.
  destruct (beginServices _ _ _ _ _ _ _ _ w4) as [[ready1 p1] w5] eqn:E5.
  pose proof E5 as K5. apply beginServices_spec in K5 as (Es & Eo & Er1 & Er2 & _); [|done].
  apply beginServices_frame in E5.
  destruct (completeBootValidation _ _ _ _ w5) as [[sane ota1] w6] eqn:Ev.
  injection E as <- <- <-.
  exists ota, w5, sane. split; [exact Hp|]. split; [frame_chain|].
  rewrite Er1, Er2. rewrite Eo in Ev. destruct p1. exact Ev.
Qed.

(** C13: a new image is kept or rolled back on the gateway's own checks alone: when
    esp_ota answers that the running image is pending, the boot, from its first
    instruction to its last, makes exactly one call of esp_ota that decides about it, which
    marks it valid exactly when configuration, queue, command store, clock and partition
    layout are in order, and else rolls back, whatever became of radio, Wi-Fi, backend and
    dashboard; the image stops being pending only when the marking succeeds.  When it is
    not pending, the boot makes no such call.  (Production build; [OtaFrame]: nothing but
    these calls decides about an image.) *)
Theorem boot_decides_image os (w : W) ready p w' :
  boot os w = (ready, p, w') ->
  (~ image_pending w ->
     ota_calls w' = ota_calls w /\ ot_pendingVerification (pa_ota p) = false) /\
  (image_pending w ->
     exists call answer, ota_calls w' = ota_calls w ++ [(call, answer)] /\
       (call = MarkValid <->
          rdy_config ready = true /\ rdy_queue ready = true /\ rdy_time ready = true /\
          rdy_command ready = true /\ cg_healthy (pa_configStore p) = true /\
          layout_sane w) /\
       (ot_pendingVerification (pa_ota p) = false <-> call = MarkValid /\ answer = true)).
Proof.
  intros (o & w1 & sane & Hp & [Ec Ep] & Ev)%boot_decision.
  pose proof (bootValidation_pending _ _ _ _ _ _ _ _ Ev) as Hkeep.
  apply bootValidation_spec in Ev as (_ & E0 & E1). unfold boot_sane in *. rewrite <- Ec. split.
  - intros Hn. destruct (ot_pendingVerification o); [by destruct Hn; apply Hp|].
    split; [by apply E0|by apply Hkeep].
  - intros Ht. destruct (E1 (proj2 Hp Ht)) as (call & answer & Ecall & Hc & Hs & Hn).
    exists call, answer. split; [exact Ecall|]. split.
    + rewrite Hc, !andb_true_iff. unfold layout_sane. rewrite !Ep. tauto.
    + rewrite Hn, <- Hs. by destruct sane.
Qed.

End Boot.
