(* ===== verification/GatewayBench.v ===== *)
(** * A gateway on the bench

    A world in memory in which the whole application runs: preferences, command
    backend and update calls are kept, everything else answers the same all the time.
    The theorems on boot, dashboard and commands are applied to it. *)

From Stdlib Require Import ZArith Lia String SpecFloat.
From stdpp Require Import gmap list strings relations.
From S2P Require Import Prelude BuildConfig CString Platform Protocol QueueRecord Dedup Pairing.
From S2P Require Import CommandStore PacketProcessor DurableQueue GatewayConfig ConfigStore StrTo.
From S2P Require Import Json BackendContract WifiManager TimeManager RadioService BackendWorker.
From S2P Require Import Logger OtaManager Dashboard DashboardStatus DashboardTheorems HilSerial.
From S2P Require Import GatewaySteps.
From S2P Require Import DashboardCommands GatewayApp GatewayBoot.
Open Scope Z_scope.

Record Bench := mkBench {
  bn_nvs : MemoryNvs;
  bn_command : option CommandStoreRecord;
  bn_ota : list (OtaCall * bool);
}.

Definition onNvs {A} (f : MemoryNvs -> A * MemoryNvs) (b : Bench) : A * Bench :=
  let '(a, n) := f (bn_nvs b) in (a, b <| bn_nvs := n |>).

#[export] Instance bench_preferences : RawPreferences Bench := {
  raw_begin n r := onNvs (raw_begin n r);
  raw_end b := b;
  raw_getBytesLength k := onNvs (raw_getBytesLength k);
  raw_getBytes k n := onNvs (raw_getBytes k n);
  raw_putBytes k bytes := onNvs (raw_putBytes k bytes);
  raw_getUInt k d := onNvs (raw_getUInt k d);
  raw_putUInt k v := onNvs (raw_putUInt k v);
}.

#[export] Instance bench_command : CommandBackend Bench := {
  backend_load b := (bn_command b, b);
  backend_save r b := (true, b <| bn_command := Some r |>);
}.

#[export] Instance bench_radio : Sx1278 Bench := {
  RADIOLIB_ERR_NONE := 0;
  RADIOLIB_ERR_CRC_MISMATCH := -7;
  RADIOLIB_ERR_TX_TIMEOUT := -5;
  radio_begin _ b := (0, b);
  radio_setCRC _ b := (0, b);
  radio_standby b := (0, b);
  radio_sleep b := (0, b);
  radio_startReceive b := (0, b);
  radio_startTransmit _ b := (0, b);
  radio_finishTransmit b := (0, b);
  radio_getTimeOnAir _ b := (100000, b);
  radio_getPacketLength b := (0%nat, b);
  radio_readData _ b := (0, [], b);
  radio_getRSSI b := (0, b);
  radio_getSNR b := (0, b);
  radio_getFrequencyError b := (S754_zero false, b);
  radio_setPacketReceivedAction b := b;
  radio_clearPacketReceivedAction b := b;
  radio_setPacketSentAction b := b;
  radio_clearPacketSentAction b := b;
  spi_begin b := b;
  notifyTake _ b := (0, b);
}.

#[export] Instance bench_millis : Millis Bench := { millis b := (1000, b) }.
#[export] Instance bench_clock : MonotonicClock Bench := { nowUs b := (1000000, b) }.
#[export] Instance bench_time : TrustedTime Bench := {
  time_now b := (mkTrustedTimeSnapshot true 1750000000000, b);
}.
#[export] Instance bench_tasks : Tasks Bench := { esp_random b := (7, b); taskNotify b := b }.

#[export] Instance bench_readings : WifiReadings Bench := {
  wifi_connected b := (false, b);
  wifi_getMode b := (WIFI_STA, b);
  wifi_stationNum b := (0, b);
  wifi_localIP b := ([], b);
  wifi_RSSI b := (0, b);
}.

#[export] Instance bench_wifi : WifiControl Bench := { wifi_do _ b := (true, b) }.

#[export] Instance bench_http : HttpClient Bench := {
  http_begin _ _ _ b := (true, b);
  http_POST _ _ b := (200, b);
  http_GET _ b := (200, b);
  http_getString b := ([], b);
  http_end b := b;
  http_errorToString _ := [];
}.

#[export] Instance bench_figures : SystemFigures Bench := {
  esp_freeHeap b := (200000, b);
  esp_minFreeHeap b := (150000, b);
  esp_largestFreeBlock b := (100000, b);
  esp_sketchSize b := (1200000, b);
  esp_freeSketchSpace b := (1441792, b);
  esp_flashChipSize b := (4194304, b);
}.

#[export] Instance bench_sources : DashboardSources Bench := {
  queue_operationalStats b := (QueueOperationalStats_init, b);
  queue_usedBytes b := (0, b);
  queue_totalBytes b := (1179648, b);
  queue_checkpointCounters _ b := b;
  time_status b := (mkTimeStatus true 1750000000000 1749999990000, b);
  esp_restart b := b;
}.

#[export] Instance bench_uploads : UploadQueue Bench := {
  uq_size b := (0%nat, b);
  uq_capacity b := (100%nat, b);
  uq_peek _ b := (false, [], b);
  uq_finish _ b := (true, b);
  uq_recordUploadRetry b := b;
  uq_recordFilesystemError b := b;
}.

#[export] Instance bench_queue : PacketQueueSink Bench := {
  containsKey _ b := (false, b);
  durablyEnqueue _ b := (mkEnqueueOutcome false false, b);
  noteDuplicate b := b;
}.

#[export] Instance bench_heartbeat : HeartbeatSources Bench := {
  source_wifi b := (WifiStatus_init, b);
  source_time b := (mkTimeStatus true 1750000000000 1749999990000, b);
  source_radio b := (RadioDiagnostics_init, b);
  source_paired b := (false, b);
  source_pairedNodeId s b := (s, b);
  source_command b := (GatewayCommand_init, b);
}.

#[export] Instance bench_updater : Updater Bench := {
  update_begin b := (true, b);
  update_hasError b := (false, b);
  update_write buf b := (length buf, b);
  update_end _ b := (true, b);
  update_abort b := b;
}.

#[export] Instance bench_json : JsonText := tree_json (fun _ => [123; 125]) (fun _ => None).

(** The partitions of partitions.csv; the running image is pending. *)
Definition benchPartition (q : PartitionQuery) : ptr esp_partition_t :=
  match q with
  | Ota0 => Some (mkPartition 0x10000 0x160000 (chars "app0"))
  | Ota1 => Some (mkPartition 0x170000 0x160000 (chars "app1"))
  | OtaData => Some (mkPartition 0xE000 0x2000 (chars "otadata"))
  | SpiffsNamed _ => Some (mkPartition 0x2D0000 0x120000 (chars "littlefs"))
  end.

#[export] Instance bench_ota : OtaPlatform Bench := {
  ota_running b := (benchPartition Ota1, b);
  ota_state _ b := (Some ESP_OTA_IMG_PENDING_VERIFY, b);
  partition_find_first q b := (benchPartition q, b);
  ota_do c b := (true, b <| bn_ota := bn_ota b ++ [(c, true)] |>);
}.

#[export] Instance bench_ota_laws : OtaLaws Bench.
Proof.
  refine {| ota_calls := bn_ota; partition q _ := benchPartition q |}.
  - by intros q w p w' [= <- <-].
  - intros c w b w' [= <- <-]. by destruct w.
Defined.

#[export] Instance bench_board : Board Bench := {
  esp_read_mac b := ([0xA0; 0xB1; 0xC2; 0xD3; 0xE4; 0xF5], b);
  esp_reset_reason b := (ESP_RST_SW, b);
  queue_begin b := (true, b);
  time_begin b := (true, b);
}.

Lemma onNvs_ota {A} (f : MemoryNvs -> A * MemoryNvs) b a b' :
  onNvs f b = (a, b') -> same_ota b b'.
Proof. unfold onNvs. destruct (f (bn_nvs b)) as [x n]. intros [= <- <-]. by destruct b. Qed.

#[export] Instance bench_frame : OtaFrame Bench.
Proof.
  constructor; intros; try (eapply onNvs_ota; eassumption); try reflexivity;
    match goal with E : _ = _ |- _ => injection E as <- <- end; try reflexivity; by destruct w.
Qed.

(** ** The gateway boots *)

Definition benchBytes (c : GatewayConfig) : list Z := [0].
Definition benchObject (bytes : list Z) : GatewayConfig := GatewayConfig_init.
Definition benchV1 (bytes : list Z) : GatewayConfigV1 := GatewayConfigV1_init.
Definition recordBytes (r : CommandStoreRecord) : list Z := [sr_nextCommandId r].
Definition benchStrtof (s : list Z) : single * option (list Z) * bool := (S754_nan, None, false).

Definition allResources : Resources := mkResources true true true true true true true true.

Definition booted : Readiness * Parts * Bench :=
  appBegin benchBytes benchObject benchV1 1 2 recordBytes 64 allResources
    (mkBench (mkMemoryNvs ∅ ∅) None []).

Definition bootedParts : Parts := booted.1.2.
Definition bootedWorld : Bench := booted.2.

Lemma booted_eq :
  appBegin benchBytes benchObject benchV1 1 2 recordBytes 64 allResources
    (mkBench (mkMemoryNvs ∅ ∅) None []) = (booted.1.1, bootedParts, bootedWorld).
Proof. unfold bootedParts, bootedWorld, booted. by destruct (appBegin _ _ _ _ _ _ _ _ _) as [[??]?]. Qed.

Lemma bench_typed bytes : config_typed (benchObject bytes).
Proof. exact (proj1 init_typed). Qed.

Lemma bench_v1_typed bytes : v1_typed (benchV1 bytes).
Proof. exact (proj2 init_typed). Qed.

(** A new image that boots with everything in order is kept. *)
Lemma boot_decides_image_witness :
  bn_ota bootedWorld = [(MarkValid, true)] /\
  exists call answer, ota_calls bootedWorld = [(call, answer)] /\
    (ot_pendingVerification (pa_ota bootedParts) = false <-> call = MarkValid /\ answer = true).
Proof.
  split; [vm_compute; reflexivity|].
  destruct (boot_decides_image benchBytes benchObject benchV1 1 2 recordBytes 64
    allResources _ _ _ _ booted_eq) as [_ E].
  destruct E as (call & answer & Ec & _ & Hn).
  - exists (mkPartition 0x170000 0x160000 (chars "app1")), (mkBench (mkMemoryNvs ∅ ∅) None []),
      (mkBench (mkMemoryNvs ∅ ∅) None []).
    split; vm_compute; reflexivity.
  - exists call, answer. split; [exact Ec|exact Hn].
Defined.

(** ** Requests *)

Lemma booted_stored : pairing_stored bootedParts.
Proof.
  exact (proj1 (boot_spec benchBytes benchObject benchV1 1 2 recordBytes 64
    bench_typed bench_v1_typed allResources _ _ _ _ booted_eq)).
Qed.

Definition manualRequest : Request :=
  fun name => if String.eqb name "nodeId" then Some (chars "NODE-7") else None.

Definition manual : Response * Parts * Bench :=
  handleRequest benchBytes 1 recordBytes benchStrtof [] [] [] [] true true HTTP_POST
    "/api/pair/manual" manualRequest bootedParts bootedWorld.

Definition manualParts : Parts := manual.1.2.

Lemma manual_eq :
  handleRequest benchBytes 1 recordBytes benchStrtof [] [] [] [] true true HTTP_POST
    "/api/pair/manual" manualRequest bootedParts bootedWorld = (manual.1.1, manualParts, manual.2).
Proof. unfold manualParts, manual. by destruct (handleRequest _ _ _ _ _ _ _ _ _ _ _ _ _ _ _) as [[??]?]. Qed.

(** A manual pairing of the booted gateway is stored. *)
Lemma requests_keep_valid_config_witness :
  (rs_status manual.1.1 = 200 /\ nodeOf (cf_pairedNodeId (config manualParts)) = Some (chars "NODE-7")) /\
  valid_config (config manualParts).
Proof.
  split; [split; vm_compute; reflexivity|].
  refine (proj1 (requests_keep_valid_config benchBytes 1 recordBytes benchStrtof [] [] [] []
    true true HTTP_POST "/api/pair/manual" manualRequest bootedParts bootedWorld _ _ _
    booted_stored _ manual_eq)).
  vm_compute. reflexivity.
Defined.

(** Between boot and now: one request, which pairs a node. *)
Lemma pairing_persisted_witness :
  rv_processor (pa_radio manualParts) <> None /\
  (rdy_config booted.1.1 = true -> valid_config (config manualParts)) /\
  forall q, rv_processor (pa_radio manualParts) = Some q ->
    rv_mutex (pa_radio manualParts) = true /\ pairing_ok (pp_pairing q) /\
    nodeOf (pm_pairedNodeId (pp_pairing q)) = nodeOf (cf_pairedNodeId (config manualParts)).
Proof.
  split; [vm_compute; discriminate|].
  refine (pairing_persisted benchBytes benchObject benchV1 1 2 recordBytes 64
    bench_typed bench_v1_typed benchStrtof [] [] [] [] allResources _ _ _ _ _ _ booted_eq _).
  eapply rtc_once. exact (step_request _ _ _ _ _ _ _ _ _ _ _ _ _ _ _ _ _ _ manual_eq).
Defined.

Definition enterRequest : Request :=
  fun name => if String.eqb name "confirm" then Some (chars "ENTER") else None.

Definition benchRequest (path : string) (r : Request) (p : Parts) (w : Bench)
  : Response * Parts * Bench :=
  handleRequest benchBytes 1 recordBytes benchStrtof [] [] [] [] true true HTTP_POST path r p w.

(** The paired node is sent into maintenance; the second request finds the command
    outstanding. *)
Lemma node_commands_bounded_witness :
  let path := "/api/command/maintenance-now"%string in
  let once := benchRequest path enterRequest manualParts manual.2 in
  let twice := benchRequest path enterRequest once.1.2 once.2 in
  rs_status once.1.1 = 202 /\ rs_status twice.1.1 = 409 /\
  commanded (fun c => gc_type c = CommandType.kEnterMaintenanceNow /\
                      text (arg enterRequest "confirm") = chars "ENTER")
    manualParts once.1.1 once.1.2.
Proof.
  cbv zeta. split; [vm_compute; reflexivity|]. split; [vm_compute; reflexivity|].
  refine (node_commands_bounded benchBytes 1 recordBytes benchStrtof [] [] [] [] true true HTTP_POST
    "/api/command/maintenance-now" enterRequest manualParts manual.2 _ _
    (benchRequest "/api/command/maintenance-now" enterRequest manualParts manual.2).2 _).
  unfold benchRequest. by destruct (handleRequest _ _ _ _ _ _ _ _ _ _ _ _ _ _ _) as [[??]?].
Defined.

(** The same gateway with another password. *)
Definition otherPassword : Parts :=
  bootedParts <| pa_configStore :=
    (pa_configStore bootedParts) <| cg_config :=
      (config bootedParts) <| cf_wifiPassword := chars "swordfish" |> |> |>.

Lemma status_hides_secrets_witness :
  handleStatus [] [] [] bootedParts bootedWorld = handleStatus [] [] [] otherPassword bootedWorld.
Proof.
  refine (status_hides_secrets [] [] [] bootedParts otherPassword bootedWorld _).
  vm_compute. reflexivity.
Defined.
